(** * A shallow embedding of the scheduling engine

    The development follows the TypeScript sources:
    - [types.ts] (data model),
    - [utils/validationService.ts] (time helpers, entry and schedule validator),
    - [services/constraintValidator.ts] (the constraint kernel),
    - [services/csoService.ts] (availability tracker, seeder, mutation,
      repair operators, crossover, fitness and the evolutionary loop).

    Conventions of the embedding.
    - A time of day is an ["HH:MM"] string in the sources.  It is represented
      by the number it was printed from ([TimeStr]): a whole number of minutes
      since midnight, or such a number plus one half (the lunch repair prints
      half minutes, as in ["12:22.5"]).  [timeToMinutes] reads the whole
      minutes back, as [parseInt] does; two strings are equal when the two
      numbers are.  The representation is exact for times from 00:00 up to
      99:59.
    - A nullable string ([string | null]) is an [option string]; JavaScript
      truthiness ([if (x)], [!x], [x || d]) is spelled out by [truthy].
    - [Math.random()] and [generateId()] read from an explicit oracle that is
      threaded through every function that draws from them.
    - JavaScript numbers that hold fitness values and scores are rationals. *)

From Stdlib Require Import ZArith QArith Qround Qabs Qminmax Lia Lqa List Bool DecimalString.
From stdpp Require Import base option list gmap strings sorting.


Local Open Scope Z_scope.

(** ** Data model ([types.ts]) *)

Inductive DayOfWeek :=
  MONDAY | TUESDAY | WEDNESDAY | THURSDAY | FRIDAY | SATURDAY | SUNDAY.

Inductive AlliedHealthServiceType := OT | SLP.

Inductive SessionType :=
  ABA | AlliedHealth_OT | AlliedHealth_SLP | IndirectTime | AdminTime.

Inductive EntityType := EClient | ETherapist.

#[global] Instance DayOfWeek_eq_dec : EqDecision DayOfWeek.
Proof. solve_decision. Defined.
#[global] Instance AlliedHealthServiceType_eq_dec : EqDecision AlliedHealthServiceType.
Proof. solve_decision. Defined.
#[global] Instance SessionType_eq_dec : EqDecision SessionType.
Proof. solve_decision. Defined.
#[global] Instance EntityType_eq_dec : EqDecision EntityType.
Proof. solve_decision. Defined.

(** The string printed by [minutesToTime] for [mins], or for [mins + 0.5]. *)
Record TimeStr := { mins : Z; half : bool }.

#[global] Instance TimeStr_eq_dec : EqDecision TimeStr.
Proof. solve_decision. Defined.

Record TimeSlot := { ts_startTime : TimeStr; ts_endTime : TimeStr }.

Record AlliedHealthNeed := {
  ah_type : AlliedHealthServiceType;
  frequencyPerWeek : Z;
  durationMinutes : Z;
  preferredTimeSlot : option TimeSlot;
  specificDays : option (list DayOfWeek)
}.

Record Client := {
  cl_id : string;
  cl_name : string;
  cl_teamId : option string;
  insuranceRequirements : list string;
  alliedHealthNeeds : list AlliedHealthNeed
}.

Record Therapist := {
  th_id : string;
  th_name : string;
  th_role : string;
  th_teamId : option string;
  qualifications : list string;
  canProvideAlliedHealth : list AlliedHealthServiceType
}.

Record ScheduleEntry := {
  id : string;
  clientName : option string;
  clientId : option string;
  therapistName : string;
  therapistId : string;
  day : DayOfWeek;
  startTime : TimeStr;
  endTime : TimeStr;
  sessionType : SessionType
}.

Abbreviation GeneratedSchedule := (list ScheduleEntry) (only parsing).

(** A calendar date is the number of its day, counted from 1970-01-01 (a
    Thursday).  The date strings of a callout are kept after parsing: [None]
    is a string that [parseInt] turns into [NaN]. *)
Record JsDate := { dayNumber : Z }.

Record Callout := {
  co_id : string;
  entityType : EntityType;
  entityId : string;
  entityName : string;
  startDate : option Z;
  endDate : option Z;
  co_startTime : TimeStr;
  co_endTime : TimeStr;
  reason : option string
}.

Record BaseScheduleConfig := {
  bs_id : string;
  bs_name : string;
  appliesToDays : list DayOfWeek;
  bs_schedule : option GeneratedSchedule
}.

#[global] Instance ScheduleEntry_eq_dec : EqDecision ScheduleEntry.
Proof. solve_decision. Defined.

(** Record updates, written [{ ...entry, field: v }] in the sources. *)
Definition with_id (e : ScheduleEntry) (i : string) : ScheduleEntry :=
  {| id := i; clientName := clientName e; clientId := clientId e;
     therapistName := therapistName e; therapistId := therapistId e;
     day := day e; startTime := startTime e; endTime := endTime e;
     sessionType := sessionType e |}.

Definition with_times (e : ScheduleEntry) (s t : TimeStr) : ScheduleEntry :=
  {| id := id e; clientName := clientName e; clientId := clientId e;
     therapistName := therapistName e; therapistId := therapistId e;
     day := day e; startTime := s; endTime := t;
     sessionType := sessionType e |}.

Definition with_endTime (e : ScheduleEntry) (t : TimeStr) : ScheduleEntry :=
  with_times e (startTime e) t.

Definition with_therapist (e : ScheduleEntry) (t : Therapist) : ScheduleEntry :=
  {| id := id e; clientName := clientName e; clientId := clientId e;
     therapistName := th_name t; therapistId := th_id t;
     day := day e; startTime := startTime e; endTime := endTime e;
     sessionType := sessionType e |}.

(** JavaScript truthiness of a nullable string: [null] and the empty string
    are falsy. *)
Definition truthy (s : option string) : bool :=
  match s with
  | Some x => negb (bool_decide (x = EmptyString))
  | None => false
  end.

(** [a === b] on two nullable strings, and a nullable against a string. *)
Definition opt_eqb (a b : option string) : bool := bool_decide (a = b).
Definition opt_is (a : option string) (b : string) : bool := bool_decide (a = Some b).
Definition str_eqb (a b : string) : bool := bool_decide (a = b).

(** [xs.includes(x)] *)
Definition includes {A} `{EqDecision A} (xs : list A) (x : A) : bool :=
  bool_decide (x ∈ xs).

(** [Array.prototype.find], [some], [every], [findIndex] *)
Definition find_ {A} (p : A -> bool) (xs : list A) : option A := List.find p xs.
Definition some {A} (p : A -> bool) (xs : list A) : bool := existsb p xs.
Definition every {A} (p : A -> bool) (xs : list A) : bool := forallb p xs.

Fixpoint findIndex {A} (p : A -> bool) (xs : list A) : option nat :=
  match xs with
  | [] => None
  | x :: r => if p x then Some O else S <$> findIndex p r
  end.

(** [[...new Set(xs)]]: the distinct elements in order of first occurrence. *)
Fixpoint uniq {A} `{EqDecision A} (xs : list A) : list A :=
  match xs with
  | [] => []
  | x :: r => x :: List.filter (fun y => negb (bool_decide (y = x))) (uniq r)
  end.

(** ** Operational constants ([constants.ts]) *)

(** The module [constants.ts] is not among the sources; the values below are
    the defaults that the specification lists. *)

(** Modelled from the spec: [COMPANY_OPERATING_HOURS_START] of [constants.ts],
    the start of the operating window, 08:00. *)
Definition COMPANY_OPERATING_HOURS_START : TimeStr := {| mins := 480; half := false |}.

(** Modelled from the spec: [COMPANY_OPERATING_HOURS_END] of [constants.ts],
    the end of the operating window, 17:00. *)
Definition COMPANY_OPERATING_HOURS_END : TimeStr := {| mins := 1020; half := false |}.

(** Modelled from the spec: [IDEAL_LUNCH_WINDOW_START] of [constants.ts], the
    start of the lunch window, 11:30. *)
Definition IDEAL_LUNCH_WINDOW_START : TimeStr := {| mins := 690; half := false |}.

(** Modelled from the spec: [IDEAL_LUNCH_WINDOW_END_FOR_START] of
    [constants.ts], the latest start of a lunch, 13:00. *)
Definition IDEAL_LUNCH_WINDOW_END_FOR_START : TimeStr := {| mins := 780; half := false |}.

(** Modelled from the spec: [LUNCH_COVERAGE_START_TIME] of [constants.ts], the
    start of the lunch window, 11:30. *)
Definition LUNCH_COVERAGE_START_TIME : TimeStr := {| mins := 690; half := false |}.

(** Modelled from the spec: [LUNCH_COVERAGE_END_TIME] of [constants.ts], the
    latest end of a lunch, 13:30. *)
Definition LUNCH_COVERAGE_END_TIME : TimeStr := {| mins := 810; half := false |}.

(** Modelled from the spec: [STAFF_ASSUMED_AVAILABILITY_START] of
    [constants.ts], 07:30. *)
Definition STAFF_ASSUMED_AVAILABILITY_START : TimeStr := {| mins := 450; half := false |}.

(** Modelled from the spec: [STAFF_ASSUMED_AVAILABILITY_END] of
    [constants.ts], 18:00. *)
Definition STAFF_ASSUMED_AVAILABILITY_END : TimeStr := {| mins := 1080; half := false |}.

(** ** Time helpers ([utils/validationService.ts]) *)

Definition timeToMinutes (time : TimeStr) : Z := mins time.
Definition minutesToTime (totalMinutes : Z) : TimeStr :=
  {| mins := totalMinutes; half := false |}.

(** [minutesToTime] at a number that need not be whole. *)
Definition minutesToTimeQ (totalMinutes : Q) : TimeStr :=
  {| mins := Qfloor totalMinutes;
     half := negb (Qeq_bool totalMinutes (inject_Z (Qfloor totalMinutes))) |}.

Definition sessionsOverlap (entry1Start entry1End entry2Start entry2End : TimeStr) : bool :=
  let start1 := timeToMinutes entry1Start in
  let end1 := timeToMinutes entry1End in
  let start2 := timeToMinutes entry2Start in
  let end2 := timeToMinutes entry2End in
  (start1 <? end2) && (start2 <? end1).

Definition isDateAffectedByCalloutRange
    (currentDate : JsDate) (calloutStartDate calloutEndDate : option Z) : bool :=
  match calloutStartDate, calloutEndDate with
  | Some s, Some e => (s <=? dayNumber currentDate) && (dayNumber currentDate <=? e)
  | _, _ => false
  end.

(** [days[date.getDay()]] *)
Definition getDayOfWeekFromDate (date : JsDate) : DayOfWeek :=
  match (dayNumber date + 4) mod 7 with
  | 0 => SUNDAY | 1 => MONDAY | 2 => TUESDAY | 3 => WEDNESDAY
  | 4 => THURSDAY | 5 => FRIDAY | _ => SATURDAY
  end.

Definition getTherapistById (therapists : list Therapist) (i : string) : option Therapist :=
  find_ (fun t => str_eqb (th_id t) i) therapists.

Definition getClientById (clients : list Client) (i : string) : option Client :=
  find_ (fun c => str_eqb (cl_id c) i) clients.

(** [client.insuranceRequirements.every(req => t.qualifications.includes(req))] *)
Definition meetsRequirements (c : Client) (t : Therapist) : bool :=
  every (fun req => includes (qualifications t) req) (insuranceRequirements c).

(** ** The constraint kernel ([services/constraintValidator.ts]) *)

Inductive ViolationType := hard | soft.

Record ConstraintViolation := {
  cv_type : ViolationType;
  severity : Z;
  cv_message : string
}.

(** [s.id !== ignoreEntryId], where [ignoreEntryId] may be [undefined]. *)
Definition notIgnored (s : ScheduleEntry) (ignoreEntryId : option string) : bool :=
  negb (opt_is ignoreEntryId (id s)).

Definition hasTherapistConflict
    (schedule : GeneratedSchedule) (entry : ScheduleEntry)
    (ignoreEntryId : option string) : bool :=
  some (fun s =>
    notIgnored s ignoreEntryId &&
    str_eqb (therapistId s) (therapistId entry) &&
    bool_decide (day s = day entry) &&
    sessionsOverlap (startTime s) (endTime s) (startTime entry) (endTime entry))
  schedule.

Definition hasClientConflict
    (schedule : GeneratedSchedule) (entry : ScheduleEntry)
    (ignoreEntryId : option string) : bool :=
  if negb (truthy (clientId entry)) then false else
  some (fun s =>
    notIgnored s ignoreEntryId &&
    opt_eqb (clientId s) (clientId entry) &&
    bool_decide (day s = day entry) &&
    sessionsOverlap (startTime s) (endTime s) (startTime entry) (endTime entry))
  schedule.

Definition calloutTargets (co : Callout) (entry : ScheduleEntry) : bool :=
  (bool_decide (entityType co = ETherapist) && str_eqb (entityId co) (therapistId entry)) ||
  (bool_decide (entityType co = EClient) && opt_is (clientId entry) (entityId co)).

Definition hasCalloutConflict
    (entry : ScheduleEntry) (callouts : list Callout) (selectedDate : JsDate) : bool :=
  some (fun co =>
    isDateAffectedByCalloutRange selectedDate (startDate co) (endDate co) &&
    calloutTargets co entry &&
    sessionsOverlap (startTime entry) (endTime entry) (co_startTime co) (co_endTime co))
  callouts.

Definition hasCredentialMismatch
    (entry : ScheduleEntry) (clients : list Client) (therapists : list Therapist) : bool :=
  if negb (truthy (clientId entry)) then false else
  match find_ (fun c => opt_is (clientId entry) (cl_id c)) clients,
        find_ (fun t => str_eqb (th_id t) (therapistId entry)) therapists with
  | Some client, Some therapist => negb (meetsRequirements client therapist)
  | _, _ => false
  end.

(** [entry.sessionType.startsWith('AlliedHealth_')] *)
Definition isAlliedHealth (st : SessionType) : bool :=
  match st with AlliedHealth_OT | AlliedHealth_SLP => true | _ => false end.

Definition hasAlliedHealthQualificationMismatch
    (entry : ScheduleEntry) (therapists : list Therapist) : bool :=
  if negb (isAlliedHealth (sessionType entry)) then false else
  match find_ (fun t => str_eqb (th_id t) (therapistId entry)) therapists with
  | None => false
  | Some therapist =>
      let serviceType :=
        if bool_decide (sessionType entry = AlliedHealth_OT) then OT else SLP in
      negb (includes (canProvideAlliedHealth therapist) serviceType)
  end.

Definition isSessionDurationValid (entry : ScheduleEntry) : bool :=
  let duration := timeToMinutes (endTime entry) - timeToMinutes (startTime entry) in
  match sessionType entry with
  | ABA => (60 <=? duration) && (duration <=? 180)
  | IndirectTime => duration =? 30
  | AlliedHealth_OT | AlliedHealth_SLP => 0 <? duration
  | AdminTime => true
  end.

Definition isWithinOperatingHours (entry : ScheduleEntry) : bool :=
  let opStart := timeToMinutes COMPANY_OPERATING_HOURS_START in
  let opEnd := timeToMinutes COMPANY_OPERATING_HOURS_END in
  let entryStart := timeToMinutes (startTime entry) in
  let entryEnd := timeToMinutes (endTime entry) in
  if bool_decide (sessionType entry = IndirectTime) then true
  else (opStart <=? entryStart) && (entryEnd <=? opEnd).

Definition hasSameClientBackToBackConflict
    (schedule : GeneratedSchedule) (entry : ScheduleEntry)
    (ignoreEntryId : option string) : bool :=
  if negb (truthy (clientId entry)) then false else
  some (fun s =>
    notIgnored s ignoreEntryId &&
    str_eqb (therapistId s) (therapistId entry) &&
    opt_eqb (clientId s) (clientId entry) &&
    bool_decide (day s = day entry) &&
    (bool_decide (endTime s = startTime entry) || bool_decide (startTime s = endTime entry)))
  schedule.

Record Validation := {
  valid : bool;
  violations : list ConstraintViolation
}.

Definition violationIf (b : bool) (v : ConstraintViolation) : list ConstraintViolation :=
  if b then [v] else [].

Definition canAddEntryToSchedule
    (entry : ScheduleEntry) (schedule : GeneratedSchedule)
    (clients : list Client) (therapists : list Therapist)
    (selectedDate : JsDate) (callouts : list Callout)
    (ignoreEntryId : option string) : Validation :=
  let violations :=
    violationIf (hasTherapistConflict schedule entry ignoreEntryId)
      {| cv_type := hard; severity := 100;
         cv_message := "Therapist " +:+ therapistName entry +:+ " has time conflict" |} ++
    violationIf (hasClientConflict schedule entry ignoreEntryId)
      {| cv_type := hard; severity := 100; cv_message := "Client has time conflict" |} ++
    violationIf (hasSameClientBackToBackConflict schedule entry ignoreEntryId)
      {| cv_type := hard; severity := 100;
         cv_message := "Therapist cannot have contiguous sessions with the same client (back-to-back forbidden)" |} ++
    violationIf (hasCalloutConflict entry callouts selectedDate)
      {| cv_type := hard; severity := 110; cv_message := "Entry conflicts with callout" |} ++
    violationIf (negb (isSessionDurationValid entry))
      {| cv_type := hard; severity := 100; cv_message := "Session duration is invalid" |} ++
    violationIf (negb (isWithinOperatingHours entry))
      {| cv_type := hard; severity := 90; cv_message := "Session outside operating hours" |} ++
    violationIf (hasCredentialMismatch entry clients therapists)
      {| cv_type := hard; severity := 100; cv_message := "Therapist credential mismatch" |} ++
    violationIf (hasAlliedHealthQualificationMismatch entry therapists)
      {| cv_type := hard; severity := 100; cv_message := "Allied health qualification missing" |} in
  {| valid := bool_decide (length violations = 0%nat); violations := violations |}.

Definition getMdMedicaidTherapistCount (schedule : GeneratedSchedule) (clientId_ : string) : nat :=
  let clientSessions := List.filter (fun s => opt_is (clientId s) clientId_) schedule in
  length (uniq (map therapistId clientSessions)).

Definition therapistHasLunch (schedule : GeneratedSchedule) (therapistId_ : string) : bool :=
  some (fun s => str_eqb (therapistId s) therapistId_ &&
                 bool_decide (sessionType s = IndirectTime)) schedule.

(** *** Coverage gaps *)

Record Range := { r_start : Z; r_end : Z }.

#[global] Instance Range_eq_dec : EqDecision Range.
Proof. solve_decision. Defined.

(** [Array.prototype.sort(cmp)] is a stable sort; the insertion sort below is
    one.  [gt a b] stands for [cmp(a, b) > 0]: an element is moved past the
    elements that are strictly smaller, and stays before its equals. *)
Fixpoint insertBy {A} (gt : A -> A -> bool) (x : A) (xs : list A) : list A :=
  match xs with
  | [] => [x]
  | y :: r => if gt x y then y :: insertBy gt x r else x :: xs
  end.

Definition sortBy {A} (gt : A -> A -> bool) (xs : list A) : list A :=
  fold_right (insertBy gt) [] xs.

(** Sorting with a comparator that returns an integer, or a rational. *)
Definition sortByZ {A} (cmp : A -> A -> Z) : list A -> list A :=
  sortBy (fun a b => 0 <? cmp a b).

Definition byStart (a b : ScheduleEntry) : Z :=
  timeToMinutes (startTime a) - timeToMinutes (startTime b).

Definition subtractBusy (busy : Range) (availableRanges : list Range) : list Range :=
  flat_map (fun range =>
    if (r_end busy <=? r_start range) || (r_end range <=? r_start busy) then [range]
    else
      (if r_start range <? r_start busy
       then [{| r_start := r_start range; r_end := r_start busy |}] else []) ++
      (if r_end busy <? r_end range
       then [{| r_start := r_end busy; r_end := r_end range |}] else []))
  availableRanges.

Definition clientBusyPeriods
    (schedule : GeneratedSchedule) (clientId_ : string)
    (callouts : list Callout) (selectedDate : JsDate) : list Range :=
  map (fun co => {| r_start := timeToMinutes (co_startTime co);
                    r_end := timeToMinutes (co_endTime co) |})
      (List.filter (fun co =>
         bool_decide (entityType co = EClient) &&
         str_eqb (entityId co) clientId_ &&
         isDateAffectedByCalloutRange selectedDate (startDate co) (endDate co))
       callouts) ++
  map (fun s => {| r_start := timeToMinutes (startTime s);
                   r_end := timeToMinutes (endTime s) |})
      (List.filter (fun s => opt_is (clientId s) clientId_) schedule).

Definition getClientCoverageGapsIn
    (schedule : GeneratedSchedule) (clientId_ : string)
    (callouts : list Callout) (selectedDate : JsDate)
    (startTime_ endTime_ : TimeStr) : list Range :=
  let opStart := timeToMinutes startTime_ in
  let opEnd := timeToMinutes endTime_ in
  let busyPeriods :=
    sortByZ (fun a b => r_start a - r_start b)
            (clientBusyPeriods schedule clientId_ callouts selectedDate) in
  let availableRanges :=
    fold_left (fun ranges busy => subtractBusy busy ranges) busyPeriods
              [{| r_start := opStart; r_end := opEnd |}] in
  List.filter (fun r => r_start r <? r_end r) availableRanges.

(** The call with the default operating window. *)
Definition getClientCoverageGaps
    (schedule : GeneratedSchedule) (clientId_ : string)
    (callouts : list Callout) (selectedDate : JsDate) : list Range :=
  getClientCoverageGapsIn schedule clientId_ callouts selectedDate
    COMPANY_OPERATING_HOURS_START COMPANY_OPERATING_HOURS_END.

Definition isLunchPlacementValid
    (schedule : GeneratedSchedule) (therapistId_ : string) (startTime_ : TimeStr)
    (therapists : list Therapist) : bool :=
  match find_ (fun t => str_eqb (th_id t) therapistId_) therapists with
  | None => true
  | Some therapist =>
      if negb (truthy (th_teamId therapist)) then true else
      let startMinutes := timeToMinutes startTime_ in
      let endTime_ := minutesToTime (startMinutes + 30) in
      negb (some (fun s =>
        if str_eqb (therapistId s) therapistId_ then false
        else if negb (bool_decide (sessionType s = IndirectTime)) then false
        else match find_ (fun t => str_eqb (th_id t) (therapistId s)) therapists with
             | None => false
             | Some teammate =>
                 if negb (opt_eqb (th_teamId teammate) (th_teamId therapist)) then false
                 else sessionsOverlap (startTime s) (endTime s) startTime_ endTime_
             end) schedule)
  end.

(** ** The availability tracker ([services/csoService.ts]) *)

Record EntryDetails := {
  ed_therapistId : string;
  ed_clientId : option string;
  ed_start : Z;
  ed_end : Z
}.

Record AvailabilityTracker := {
  therapistMasks : gmap string Z;
  clientMasks : gmap string Z;
  scheduleByEntry : gmap string EntryDetails
}.

(** [Math.floor(mins / 15)] *)
Definition timeToBit (mins : Z) : Z := mins / 15.

(** [((1n << BigInt(length)) - 1n) << BigInt(startBit)]; a shift by a negative
    count is a shift the other way, for [BigInt] as for [Z.shiftl]. *)
Definition getRangeMask (start end_ : Z) : Z :=
  let startBit := timeToBit start in
  let endBit := timeToBit end_ in
  let length := endBit - startBit in
  if length <=? 0 then 0
  else Z.shiftl (Z.shiftl 1 length - 1) startBit.

(** [masks.get(id) || 0n] *)
Definition maskOf (masks : gmap string Z) (i : string) : Z := default 0 (masks !! i).

Definition orMask (masks : gmap string Z) (i : string) (mask : Z) : gmap string Z :=
  <[ i := Z.lor (maskOf masks i) mask ]> masks.

Definition emptyTracker : AvailabilityTracker :=
  {| therapistMasks := ∅; clientMasks := ∅; scheduleByEntry := ∅ |}.

Definition book (tr : AvailabilityTracker)
    (therapistId_ : string) (clientId_ : option string) (start end_ : Z)
    : AvailabilityTracker :=
  let mask := getRangeMask start end_ in
  {| therapistMasks := orMask (therapistMasks tr) therapistId_ mask;
     clientMasks :=
       match clientId_ with
       | Some c => if truthy clientId_ then orMask (clientMasks tr) c mask
                   else clientMasks tr
       | None => clientMasks tr
       end;
     scheduleByEntry := scheduleByEntry tr |}.

Definition storeEntry (tr : AvailabilityTracker) (s : ScheduleEntry) : AvailabilityTracker :=
  {| therapistMasks := therapistMasks tr;
     clientMasks := clientMasks tr;
     scheduleByEntry :=
       <[ id s := {| ed_therapistId := therapistId s; ed_clientId := clientId s;
                     ed_start := timeToMinutes (startTime s);
                     ed_end := timeToMinutes (endTime s) |} ]> (scheduleByEntry tr) |}.

Definition applyCallout (selectedDate : JsDate) (tr : AvailabilityTracker) (co : Callout)
    : AvailabilityTracker :=
  if isDateAffectedByCalloutRange selectedDate (startDate co) (endDate co) then
    let mask := getRangeMask (timeToMinutes (co_startTime co)) (timeToMinutes (co_endTime co)) in
    match entityType co with
    | ETherapist =>
        {| therapistMasks := orMask (therapistMasks tr) (entityId co) mask;
           clientMasks := clientMasks tr; scheduleByEntry := scheduleByEntry tr |}
    | EClient =>
        {| therapistMasks := therapistMasks tr;
           clientMasks := orMask (clientMasks tr) (entityId co) mask;
           scheduleByEntry := scheduleByEntry tr |}
    end
  else tr.

Definition applyEntry (tr : AvailabilityTracker) (s : ScheduleEntry) : AvailabilityTracker :=
  book tr (therapistId s) (clientId s)
       (timeToMinutes (startTime s)) (timeToMinutes (endTime s)).

(** The constructor: [rebuild] on cleared maps. *)
Definition newTracker (schedule : GeneratedSchedule) (callouts : list Callout)
    (selectedDate : JsDate) : AvailabilityTracker :=
  let tr1 := fold_left storeEntry schedule emptyTracker in
  let tr2 := fold_left (applyCallout selectedDate) callouts tr1 in
  fold_left applyEntry schedule tr2.

Definition isAvailable (tr : AvailabilityTracker)
    (entityType_ : EntityType) (entityId_ : string) (start end_ : Z)
    (ignoreEntryId : option string) : bool :=
  let queryMask := getRangeMask start end_ in
  let entityMask :=
    match entityType_ with
    | ETherapist => maskOf (therapistMasks tr) entityId_
    | EClient => maskOf (clientMasks tr) entityId_
    end in
  let entityMask :=
    if truthy ignoreEntryId then
      match ignoreEntryId ≫= (fun i => scheduleByEntry tr !! i) with
      | Some ignoredEntry =>
          if match entityType_ with
             | ETherapist => str_eqb (ed_therapistId ignoredEntry) entityId_
             | EClient => opt_is (ed_clientId ignoredEntry) entityId_
             end
          then Z.land entityMask
                 (Z.lnot (getRangeMask (ed_start ignoredEntry) (ed_end ignoredEntry)))
          else entityMask
      | None => entityMask
      end
    else entityMask in
  Z.land entityMask queryMask =? 0.

(** ** The oracle: [Math.random()], [generateId()] and exceptions *)

(** [Math.random()] returns a double of the form [k / 2^53] with
    [0 <= k < 2^53]; the oracle holds the sequence of the [k]s still to come.
    [generateId()] builds a string from the clock and from random digits; the
    oracle holds the sequence of the strings it will return.  [today] is what
    [new Date()] returns. *)
Record Oracle := {
  draws : nat -> Z;
  drawPos : nat;
  freshIds : nat -> string;
  idPos : nat;
  today : JsDate
}.

Definition RANDOM_RESOLUTION : Z := 2 ^ 53.

(** A computation reads the oracle and either returns, or throws (a
    [TypeError] on a property of [undefined]). *)
Definition M (A : Type) : Type := Oracle -> option (A * Oracle).

Definition ret {A} (x : A) : M A := fun o => Some (x, o).
Definition throw {A} : M A := fun _ => None.
Definition bind {A B} (c : M A) (k : A -> M B) : M B :=
  fun o => match c o with
           | Some (x, o') => k x o'
           | None => None
           end.

Notation "'let*' x ':=' c 'in' k" := (bind c (fun x => k))
  (at level 10, x name, c at level 100, k at level 200).

(** The next value of [Math.random()], and the oracle once it is drawn. *)
Definition nextRandom (o : Oracle) : Q :=
  Qmake (draws o (drawPos o) mod RANDOM_RESOLUTION) (Z.to_pos RANDOM_RESOLUTION).

Definition afterDraw (o : Oracle) : Oracle :=
  {| draws := draws o; drawPos := S (drawPos o);
     freshIds := freshIds o; idPos := idPos o; today := today o |}.

Definition random : M Q := fun o => Some (nextRandom o, afterDraw o).

Definition afterId (o : Oracle) : Oracle :=
  {| draws := draws o; drawPos := drawPos o;
     freshIds := freshIds o; idPos := S (idPos o); today := today o |}.

Definition generateId : M string := fun o => Some (freshIds o (idPos o), afterId o).

Definition newDate : M JsDate := fun o => Some (today o, o).

(** [x!] followed by a property access. *)
Definition unwrap {A} (x : option A) : M A :=
  match x with Some a => ret a | None => throw end.

Definition Qltb (a b : Q) : bool := negb (Qle_bool b a).

(** [Math.floor(Math.random() * n)] for a draw [r]. *)
Definition floorScaled (r : Q) (n : Z) : Z := Qfloor (r * inject_Z n).

Fixpoint mapM {A B} (f : A -> M B) (xs : list A) : M (list B) :=
  match xs with
  | [] => ret []
  | x :: r => let* y := f x in let* ys := mapM f r in ret (y :: ys)
  end.

Fixpoint foldM {A S} (f : S -> A -> M S) (xs : list A) (s : S) : M S :=
  match xs with
  | [] => ret s
  | x :: r => let* s' := f s x in foldM f r s'
  end.

(** [structuredClone]: entries are values here. *)
Definition cloneSchedule (schedule : GeneratedSchedule) : GeneratedSchedule := schedule.

(** ** Incremental mutation *)

Definition HALF : Q := 1 # 2.

(** One round of the loop [for (let m = 0; m < numMutations; m++)]. *)
Definition mutateOnce (clients : list Client) (therapists : list Therapist)
    (selectedDate : JsDate) (callouts : list Callout)
    (newSchedule : GeneratedSchedule) : M GeneratedSchedule :=
  let* r := random in
  let idx := Z.to_nat (floorScaled r (Z.of_nat (length newSchedule))) in
  let* entry := unwrap (newSchedule !! idx) in
  if bool_decide (sessionType entry = IndirectTime) then ret newSchedule else
  let* action := random in
  if Qltb action HALF then
    let* r' := random in
    let shift := (floorScaled r' 3 - 1) * 15 in
    if shift =? 0 then ret newSchedule else
    let currentStart := timeToMinutes (startTime entry) in
    let currentEnd := timeToMinutes (endTime entry) in
    let duration := currentEnd - currentStart in
    let newStart := currentStart + shift in
    let newEnd := newStart + duration in
    let shiftedEntry := with_times entry (minutesToTime newStart) (minutesToTime newEnd) in
    let validation :=
      canAddEntryToSchedule shiftedEntry newSchedule clients therapists
        selectedDate callouts (Some (id entry)) in
    if valid validation then ret (<[ idx := shiftedEntry ]> newSchedule)
    else ret newSchedule
  else
    if bool_decide (sessionType entry = ABA) then
      let* r' := random in
      let change := if Qltb r' HALF then -15 else 15 in
      let currentStart := timeToMinutes (startTime entry) in
      let currentEnd := timeToMinutes (endTime entry) in
      let currentDuration := currentEnd - currentStart in
      let newDuration := currentDuration + change in
      if (60 <=? newDuration) && (newDuration <=? 180) then
        let resizedEntry := with_endTime entry (minutesToTime (currentStart + newDuration)) in
        let validation :=
          canAddEntryToSchedule resizedEntry newSchedule clients therapists
            selectedDate callouts (Some (id entry)) in
        if valid validation then ret (<[ idx := resizedEntry ]> newSchedule)
        else ret newSchedule
      else ret newSchedule
    else ret newSchedule.

Fixpoint repeatM {S} (n : nat) (f : S -> M S) (s : S) : M S :=
  match n with
  | O => ret s
  | S n' => let* s' := f s in repeatM n' f s'
  end.

(** [Math.max(1, Math.floor(length * 0.1))]; on integers the floor of the
    product is the quotient by ten. *)
Definition numMutations (len : nat) : nat := Z.to_nat (Z.max 1 (Z.of_nat len / 10)).

Definition mutateIncremental (schedule : GeneratedSchedule)
    (clients : list Client) (therapists : list Therapist)
    (selectedDate : JsDate) (callouts : list Callout) : M GeneratedSchedule :=
  if bool_decide (length schedule = 0%nat) then ret schedule else
  let newSchedule := cloneSchedule schedule in
  repeatM (numMutations (length newSchedule))
          (mutateOnce clients therapists selectedDate callouts) newSchedule.

(** ** Repair operators *)

(** *** Cleanup-merge *)

Definition duration (e : ScheduleEntry) : Z :=
  timeToMinutes (endTime e) - timeToMinutes (startTime e).

(** The inner [for] loop over the sorted sessions of one therapist:
    [currentSession] absorbs the next session or is pushed. *)
Fixpoint mergeSessions (currentSession : ScheduleEntry) (sessions : list ScheduleEntry)
    : list ScheduleEntry * bool :=
  match sessions with
  | [] => ([currentSession], false)
  | nextSession :: rest =>
      if opt_eqb (clientId currentSession) (clientId nextSession) &&
         bool_decide (sessionType currentSession = sessionType nextSession) &&
         bool_decide (endTime currentSession = startTime nextSession) &&
         bool_decide (sessionType currentSession = ABA)
      then
        let combinedDuration := duration nextSession + duration currentSession in
        if combinedDuration <=? 180 then
          let '(out, _) :=
            mergeSessions (with_endTime currentSession (endTime nextSession)) rest in
          (out, true)
        else
          let '(out, merged) := mergeSessions nextSession rest in
          (currentSession :: out, merged)
      else
        let '(out, merged) := mergeSessions nextSession rest in
        (currentSession :: out, merged)
  end.

Definition sessionsOf (schedule : GeneratedSchedule) (therapistId_ : string)
    : list ScheduleEntry :=
  sortByZ byStart (List.filter (fun s => str_eqb (therapistId s) therapistId_) schedule).

Definition mergeTherapist (schedule : GeneratedSchedule) (therapistId_ : string)
    : list ScheduleEntry * bool :=
  match sessionsOf schedule therapistId_ with
  | [] => ([], false)
  | [s] => ([s], false)
  | s :: rest => mergeSessions s rest
  end.

(** One pass of the [while] loop: the new schedule and the flag [merged]. *)
Definition mergePass (schedule : GeneratedSchedule) : GeneratedSchedule * bool :=
  fold_left (fun acc therapistId_ =>
               let '(out, merged) := mergeTherapist schedule therapistId_ in
               (fst acc ++ out, snd acc || merged))
            (uniq (map therapistId schedule)) ([], false).

Definition MAX_MERGE_ITERATIONS : nat := 50.

Fixpoint cleanupLoop (iterationsLeft : nat) (schedule : GeneratedSchedule)
    : GeneratedSchedule :=
  match iterationsLeft with
  | O => schedule
  | S n =>
      let '(newSchedule, merged) := mergePass schedule in
      if merged then cleanupLoop n newSchedule else newSchedule
  end.

Definition cleanupScheduleIssues (schedule : GeneratedSchedule) : GeneratedSchedule :=
  cleanupLoop MAX_MERGE_ITERATIONS schedule.

(** *** Duration clamp *)

Definition fixSessionDuration (entry : ScheduleEntry) : ScheduleEntry :=
  if bool_decide (sessionType entry = ABA) then
    let start := timeToMinutes (startTime entry) in
    let end_ := timeToMinutes (endTime entry) in
    let duration := end_ - start in
    if 180 <? duration then with_endTime entry (minutesToTime (start + 180))
    else if duration <? 60 then with_endTime entry (minutesToTime (start + 60))
    else entry
  else entry.

Definition fixSessionDurations (schedule : GeneratedSchedule) : GeneratedSchedule :=
  map fixSessionDuration schedule.

(** *** Credential swap *)

(** The entries are updated in place while the array is traversed: [done] are
    the entries already visited, [todo] those still to come, and the schedule
    the kernel sees is [done ++ todo]. *)
Definition fixCredentialEntry (clients : list Client) (therapists : list Therapist)
    (selectedDate : JsDate) (callouts : list Callout)
    (schedule : GeneratedSchedule) (entry : ScheduleEntry) : ScheduleEntry :=
  if negb (truthy (clientId entry)) then entry else
  match find_ (fun c => opt_is (clientId entry) (cl_id c)) clients,
        getTherapistById therapists (therapistId entry) with
  | Some client, Some therapist =>
      if negb (meetsRequirements client therapist) then
        let qualifiedTherapists := List.filter (meetsRequirements client) therapists in
        match find_ (fun t =>
                valid (canAddEntryToSchedule (with_therapist entry t) schedule
                         clients therapists selectedDate callouts (Some (id entry))))
              qualifiedTherapists with
        | Some replacement => with_therapist entry replacement
        | None => entry
        end
      else entry
  | _, _ => entry
  end.

Fixpoint fixCredentialFrom (clients : list Client) (therapists : list Therapist)
    (selectedDate : JsDate) (callouts : list Callout)
    (done todo : list ScheduleEntry) : GeneratedSchedule :=
  match todo with
  | [] => done
  | entry :: rest =>
      let entry' :=
        fixCredentialEntry clients therapists selectedDate callouts (done ++ todo) entry in
      fixCredentialFrom clients therapists selectedDate callouts (done ++ [entry']) rest
  end.

Definition fixCredentialIssues (schedule : GeneratedSchedule)
    (clients : list Client) (therapists : list Therapist)
    (selectedDate : JsDate) (callouts : list Callout) : GeneratedSchedule :=
  fixCredentialFrom clients therapists selectedDate callouts [] schedule.

(** *** Team realignment *)

Definition fixTeamEntry (clients : list Client) (therapists : list Therapist)
    (now : JsDate) (schedule : GeneratedSchedule) (entry : ScheduleEntry) : ScheduleEntry :=
  if negb (truthy (clientId entry)) then entry else
  match find_ (fun c => opt_is (clientId entry) (cl_id c)) clients,
        getTherapistById therapists (therapistId entry) with
  | Some client, Some therapist =>
      if truthy (cl_teamId client) && truthy (th_teamId therapist) &&
         negb (opt_eqb (cl_teamId client) (th_teamId therapist)) then
        let teamMates :=
          List.filter (fun t => opt_eqb (th_teamId t) (cl_teamId client) &&
                                meetsRequirements client t) therapists in
        match find_ (fun t =>
                valid (canAddEntryToSchedule (with_therapist entry t) schedule
                         clients therapists now [] (Some (id entry))))
              teamMates with
        | Some replacement => with_therapist entry replacement
        | None => entry
        end
      else entry
  | _, _ => entry
  end.

Fixpoint fixTeamFrom (clients : list Client) (therapists : list Therapist)
    (now : JsDate) (done todo : list ScheduleEntry) : GeneratedSchedule :=
  match todo with
  | [] => done
  | entry :: rest =>
      let entry' := fixTeamEntry clients therapists now (done ++ todo) entry in
      fixTeamFrom clients therapists now (done ++ [entry']) rest
  end.

(** [new Date()] is evaluated at every candidate; the kernel consults the date
    for callouts only, and the list of callouts it is given here is empty. *)
Definition fixTeamAlignmentIssues (schedule : GeneratedSchedule)
    (clients : list Client) (therapists : list Therapist) : M GeneratedSchedule :=
  let* now := newDate in
  ret (fixTeamFrom clients therapists now [] schedule).

(** *** Medicaid cap *)

(** The operator holds two views of the same entry objects: the schedule
    array, which it splices, and [clientSessions], a filtered copy of the
    array taken before the loop.  An assignment to [session.therapistId] is
    seen through both.  The objects live in [objs], addressed by their index;
    the array [arr] holds references. *)
Record Heap := {
  objs : list ScheduleEntry;
  arr : list nat
}.

Definition deref (h : Heap) : GeneratedSchedule :=
  omap (fun r => objs h !! r) (arr h).

Definition heapOf (schedule : GeneratedSchedule) : Heap :=
  {| objs := schedule; arr := seq 0 (length schedule) |}.

(** [Array.prototype.splice(idx, 1)] *)
Definition splice1 {A} (idx : nat) (xs : list A) : list A :=
  take idx xs ++ drop (S idx) xs.

(** The body of [clientSessions.forEach(session => ...)]. *)
Definition fixMdSession (clients : list Client) (therapists : list Therapist)
    (selectedDate : JsDate) (callouts : list Callout)
    (allowedIds : list string) (h : Heap) (r : nat) : Heap :=
  match objs h !! r with
  | None => h
  | Some session =>
      if includes allowedIds (therapistId session) then h else
      let bestSub :=
        find_ (fun tid =>
          match getTherapistById therapists tid with
          | None => false
          | Some t =>
              let testEntry := with_therapist session t in
              valid (canAddEntryToSchedule testEntry (deref h) clients therapists
                       selectedDate callouts (Some (id session)))
          end) allowedIds in
      match (if truthy bestSub then bestSub ≫= getTherapistById therapists else None) with
      | Some t =>
          {| objs := <[ r := with_therapist session t ]> (objs h); arr := arr h |}
      | None =>
          match findIndex (fun s => str_eqb (id s) (id session)) (deref h) with
          | Some idx => {| objs := objs h; arr := splice1 idx (arr h) |}
          | None => h
          end
      end
  end.

(** The body of [clients.forEach(client => ...)]. *)
Definition fixMdClient (therapists : list Therapist) (clients : list Client)
    (selectedDate : JsDate) (callouts : list Callout)
    (h : Heap) (client : Client) : Heap :=
  if negb (includes (insuranceRequirements client) "MD_MEDICAID"%string) then h else
  let clientSessions :=
    List.filter (fun r => match objs h !! r with
                          | Some s => opt_is (clientId s) (cl_id client)
                          | None => false
                          end) (arr h) in
  let uniqueTherapists :=
    uniq (omap (fun r => therapistId <$> objs h !! r) clientSessions) in
  if (3 <? length uniqueTherapists)%nat then
    let allowedIds := take 3 uniqueTherapists in
    fold_left (fixMdSession clients therapists selectedDate callouts allowedIds)
              clientSessions h
  else h.

Definition fixMdMedicaidLimit (schedule : GeneratedSchedule)
    (clients : list Client) (therapists : list Therapist)
    (selectedDate : JsDate) (callouts : list Callout) : GeneratedSchedule :=
  deref (fold_left (fixMdClient therapists clients selectedDate callouts)
                   clients (heapOf schedule)).

(** *** Back-to-back shift *)

(** [Map<string, ScheduleEntry[]>] filled in the order of the schedule: the
    keys come in the order of their first occurrence. *)
Definition groupByTherapist (entries : list ScheduleEntry)
    : list (string * list ScheduleEntry) :=
  map (fun t => (t, List.filter (fun s => str_eqb (therapistId s) t) entries))
      (uniq (map therapistId entries)).

(** The body of the loop over the sorted sessions of one therapist; [prev] is
    [sessions[i - 1]] of the sorted array, as it was before any move. *)
Definition fixBackToBackStep (day_ : DayOfWeek) (therapistId_ : string)
    (fixedSchedule : GeneratedSchedule) (prev : option ScheduleEntry)
    (current : ScheduleEntry) : GeneratedSchedule :=
  match prev with
  | Some prev =>
      if opt_eqb (clientId prev) (clientId current) &&
         bool_decide (endTime prev = startTime current) then
        let prevEnd := timeToMinutes (endTime prev) in
        let currentStart := timeToMinutes (startTime current) in
        let duration := timeToMinutes (endTime current) - currentStart in
        let newStart := prevEnd + 15 in
        let newEnd := newStart + duration in
        let later :=
          (newEnd <=? timeToMinutes COMPANY_OPERATING_HOURS_END) &&
          negb (some (fun s =>
                  str_eqb (therapistId s) therapistId_ && bool_decide (day s = day_) &&
                  sessionsOverlap (startTime s) (endTime s)
                                  (minutesToTime newStart) (minutesToTime newEnd))
                  fixedSchedule ||
                some (fun s =>
                  opt_eqb (clientId s) (clientId current) && bool_decide (day s = day_) &&
                  sessionsOverlap (startTime s) (endTime s)
                                  (minutesToTime newStart) (minutesToTime newEnd))
                  fixedSchedule) in
        if later then
          fixedSchedule ++ [with_times current (minutesToTime newStart) (minutesToTime newEnd)]
        else
          let prevStart := timeToMinutes (startTime prev) in
          let prevDuration := prevEnd - prevStart in
          let newPrevEnd := currentStart - 15 in
          let newPrevStart := newPrevEnd - prevDuration in
          let earlier :=
            (timeToMinutes COMPANY_OPERATING_HOURS_START <=? newPrevStart) &&
            negb (some (fun s =>
                    (str_eqb (therapistId s) therapistId_ ||
                     opt_eqb (clientId s) (clientId prev)) &&
                    bool_decide (day s = day_) &&
                    negb (str_eqb (id s) (id prev)) &&
                    sessionsOverlap (startTime s) (endTime s)
                                    (minutesToTime newPrevStart) (minutesToTime newPrevEnd))
                    fixedSchedule) in
          if earlier then
            let movedPrev :=
              with_times prev (minutesToTime newPrevStart) (minutesToTime newPrevEnd) in
            match findIndex (fun e => str_eqb (id e) (id prev)) fixedSchedule with
            | Some prevIndex => (<[ prevIndex := movedPrev ]> fixedSchedule) ++ [current]
            | None => fixedSchedule ++ [movedPrev] ++ [current]
            end
          else fixedSchedule
      else fixedSchedule ++ [current]
  | None => fixedSchedule ++ [current]
  end.

Fixpoint fixBackToBackSessions (day_ : DayOfWeek) (therapistId_ : string)
    (fixedSchedule : GeneratedSchedule) (prev : option ScheduleEntry)
    (sessions : list ScheduleEntry) : GeneratedSchedule :=
  match sessions with
  | [] => fixedSchedule
  | current :: rest =>
      fixBackToBackSessions day_ therapistId_
        (fixBackToBackStep day_ therapistId_ fixedSchedule prev current)
        (Some current) rest
  end.

Definition fixSameClientBackToBackIssues (schedule : GeneratedSchedule)
    (clients : list Client) (therapists : list Therapist) (day_ : DayOfWeek)
    (selectedDate : JsDate) (callouts : list Callout) : GeneratedSchedule :=
  let nonClientSessions := List.filter (fun e => negb (truthy (clientId e))) schedule in
  let clientSessions := List.filter (fun e => truthy (clientId e)) schedule in
  let fixedSchedule :=
    fold_left (fun fixedSchedule '(therapistId_, sessions) =>
                 fixBackToBackSessions day_ therapistId_ fixedSchedule None
                   (sortByZ byStart sessions))
              (groupByTherapist clientSessions) [] in
  fixedSchedule ++ nonClientSessions.

(** *** Coverage-gap fill *)

(** The values of [x] in [for (x = from; x <= to; x += step)]. *)
Definition upFrom (from to step : Z) : list Z :=
  if to <? from then []
  else map (fun k => from + step * Z.of_nat k) (seq 0 (Z.to_nat ((to - from) / step) + 1)).

(** The values of [x] in [for (x = from; x >= to; x -= step)]. *)
Definition downFrom (from to step : Z) : list Z :=
  if from <? to then []
  else map (fun k => from - step * Z.of_nat k) (seq 0 (Z.to_nat ((from - to) / step) + 1)).

Definition mkEntry (i : string) (cName : option string) (cId : option string)
    (tName tId : string) (d : DayOfWeek) (s e : TimeStr) (st : SessionType)
    : ScheduleEntry :=
  {| id := i; clientName := cName; clientId := cId; therapistName := tName;
     therapistId := tId; day := d; startTime := s; endTime := e; sessionType := st |}.

(** The loop [for (let len = maxLen; len >= 60; len -= 15)], which stops at
    the first length for which a qualified therapist is free. *)
Fixpoint fillGapWith (client : Client) (qualifiedTherapists : list Therapist)
    (day_ : DayOfWeek) (gap : Range) (lens : list Z)
    (st : GeneratedSchedule * AvailabilityTracker)
    : M (GeneratedSchedule * AvailabilityTracker) :=
  match lens with
  | [] => ret st
  | len :: rest =>
      let '(schedule, tracker) := st in
      let start := r_start gap in
      let end_ := r_start gap + len in
      match find_ (fun t => isAvailable tracker ETherapist (th_id t) start end_ None)
                  qualifiedTherapists with
      | Some availableTherapist =>
          let* newId := generateId in
          let candidateEntry :=
            mkEntry newId (Some (cl_name client)) (Some (cl_id client))
                    (th_name availableTherapist) (th_id availableTherapist) day_
                    (minutesToTime start) (minutesToTime end_) ABA in
          ret (schedule ++ [candidateEntry],
               book tracker (th_id availableTherapist) (Some (cl_id client)) start end_)
      | None => fillGapWith client qualifiedTherapists day_ gap rest st
      end
  end.

Definition fillGap (client : Client) (qualifiedTherapists : list Therapist)
    (day_ : DayOfWeek) (st : GeneratedSchedule * AvailabilityTracker) (gap : Range)
    : M (GeneratedSchedule * AvailabilityTracker) :=
  if r_end gap - r_start gap <? 60 then ret st else
  let maxLen := Z.min 180 (r_end gap - r_start gap) in
  fillGapWith client qualifiedTherapists day_ gap (downFrom maxLen 60 15) st.

Definition fillClientGaps (therapists : list Therapist) (day_ : DayOfWeek)
    (selectedDate : JsDate) (callouts : list Callout)
    (st : GeneratedSchedule * AvailabilityTracker) (client : Client)
    : M (GeneratedSchedule * AvailabilityTracker) :=
  let gaps := getClientCoverageGaps (fst st) (cl_id client) callouts selectedDate in
  let qualifiedTherapists := List.filter (meetsRequirements client) therapists in
  foldM (fillGap client qualifiedTherapists day_) gaps st.

Definition fixClientCoverageGaps (schedule : GeneratedSchedule)
    (clients : list Client) (therapists : list Therapist) (day_ : DayOfWeek)
    (selectedDate : JsDate) (callouts : list Callout) : M GeneratedSchedule :=
  let tracker := newTracker schedule callouts selectedDate in
  let* st := foldM (fillClientGaps therapists day_ selectedDate callouts)
                   clients (schedule, tracker) in
  ret (fst st).

(** *** Lunch placement *)

Record LunchCandidate := { lc_time : Z; lc_score : Q }.

Definition sumDurations (sessions : list ScheduleEntry) : Z :=
  fold_left (fun acc s => acc + duration s) sessions 0.

(** [reduce((minGap, s) => ..., Infinity)]: [None] stands for [Infinity]. *)
Definition minGap (gaps : list Z) : option Z :=
  fold_left (fun acc g => match acc with
                          | None => Some g
                          | Some m => Some (Z.min m g)
                          end) gaps None.

Definition atLeast (g : option Z) (n : Z) : bool :=
  match g with None => true | Some v => n <=? v end.

Definition lunchDuration : Z := 30.

(** The score of a lunch starting at [time]; it is evaluated only for
    [workdayStart <= time <= workdayEnd - 30], where [maxDistance] is positive. *)
Definition lunchScore (schedule : GeneratedSchedule) (therapists : list Therapist)
    (therapist : Therapist) (therapistId_ : string)
    (allSessions : list ScheduleEntry) (therapistClients : list string)
    (workdayStart workdayEnd : Z) (time : Z) : Q :=
  let workdayMidpoint := (inject_Z workdayStart + inject_Z (workdayEnd - workdayStart) / 2)%Q in
  let distanceFromMidpoint := Qabs (inject_Z time - workdayMidpoint)%Q in
  let maxDistance := (inject_Z (workdayEnd - workdayStart) / 2)%Q in
  let midpointScore := (100 * (1 - Qmin (distanceFromMidpoint / maxDistance) 1))%Q in
  let gapBefore :=
    minGap (map (fun s => time - timeToMinutes (endTime s))
                (List.filter (fun s => timeToMinutes (endTime s) <=? time) allSessions)) in
  let gapAfter :=
    minGap (map (fun s => timeToMinutes (startTime s) - (time + lunchDuration))
                (List.filter (fun s => time + lunchDuration <=? timeToMinutes (startTime s))
                             allSessions)) in
  let gapScore :=
    (if atLeast gapBefore 30 || atLeast gapAfter 30 then 50
     else if atLeast gapBefore 15 || atLeast gapAfter 15 then 25 else 0)%Q in
  let clientsWithCoverage :=
    length (List.filter (fun clientId_ =>
      Nat.ltb 0 (length (List.filter (fun s =>
         opt_is (clientId s) clientId_ &&
         negb (str_eqb (therapistId s) therapistId_) &&
         negb (bool_decide (sessionType s = IndirectTime)) &&
         (timeToMinutes (startTime s) <? time + lunchDuration) &&
         (time <? timeToMinutes (endTime s))) schedule))) therapistClients) in
  let coverageScore := (20 * inject_Z (Z.of_nat clientsWithCoverage))%Q in
  let coverage :=
    if Nat.ltb 0 clientsWithCoverage && Nat.ltb 0 (length therapistClients) then
      (coverageScore * (inject_Z (Z.of_nat clientsWithCoverage) /
                        inject_Z (Z.of_nat (length therapistClients))))%Q
    else 0%Q in
  let workBefore :=
    sumDurations (List.filter (fun s => timeToMinutes (endTime s) <=? time) allSessions) in
  let workAfter :=
    sumDurations (List.filter (fun s => time + lunchDuration <=? timeToMinutes (startTime s))
                              allSessions) in
  let totalWork := workBefore + workAfter in
  let balance :=
    if 0 <? totalWork then
      ((inject_Z (Z.min workBefore workAfter) / inject_Z (Z.max workBefore workAfter)) * 40)%Q
    else 0%Q in
  let team :=
    if truthy (th_teamId therapist) then
      let teamMembers :=
        List.filter (fun t => opt_eqb (th_teamId t) (th_teamId therapist)) therapists in
      let teammatesOnLunch :=
        length (List.filter (fun t =>
          negb (str_eqb (th_id t) therapistId_) &&
          some (fun s =>
            str_eqb (therapistId s) (th_id t) &&
            bool_decide (sessionType s = IndirectTime) &&
            (timeToMinutes (startTime s) <? time + lunchDuration) &&
            (time <? timeToMinutes (endTime s))) schedule) teamMembers) in
      let teamRatio :=
        (inject_Z (Z.of_nat teammatesOnLunch) /
         inject_Z (Z.max (Z.of_nat (length teamMembers) - 1) 1))%Q in
      (if Qltb teamRatio (1 # 2) then 30
       else if Qltb (7 # 10) teamRatio then -30 else 0)%Q
    else 0%Q in
  let ideal :=
    if (timeToMinutes IDEAL_LUNCH_WINDOW_START <=? time) &&
       (time <=? timeToMinutes IDEAL_LUNCH_WINDOW_END_FOR_START) then 20%Q else 0%Q in
  (midpointScore + gapScore + coverage + balance + team + ideal)%Q.

Definition lunchEntry (newId : string) (therapist : Therapist) (therapistId_ : string)
    (day_ : DayOfWeek) (s e : TimeStr) : ScheduleEntry :=
  mkEntry newId None None (th_name therapist) therapistId_ day_ s e IndirectTime.

(** [for (x = from; x <= to; x += 15)] on numbers that need not be whole. *)
Definition upFromQ (from to : Q) : list Q :=
  if Qltb to from then []
  else map (fun k => (from + 15 * inject_Z (Z.of_nat k))%Q)
           (seq 0 (Z.to_nat (Qfloor ((to - from) / 15)%Q) + 1)).

(** Splitting the session held at [idx]: it is cut at [splitTime], a lunch
    follows, and a new session takes the rest.  [timeToBit] floors, so the
    tracker is asked about the whole minutes. *)
Definition splitAt (tracker : AvailabilityTracker) (therapist : option Therapist)
    (therapistId_ : string) (day_ : DayOfWeek) (idx : nat) (session : ScheduleEntry)
    (schedule : GeneratedSchedule) (splitTime : Q) : option (M GeneratedSchedule) :=
  if isAvailable tracker ETherapist therapistId_
       (Qfloor splitTime) (Qfloor (splitTime + 30)%Q) (Some (id session)) then
    Some (
      let originalEnd := endTime session in
      let schedule1 := <[ idx := with_endTime session (minutesToTimeQ splitTime) ]> schedule in
      let* lunchId := generateId in
      let* th := unwrap therapist in
      let schedule2 :=
        schedule1 ++ [lunchEntry lunchId th therapistId_ day_
                        (minutesToTimeQ splitTime) (minutesToTimeQ (splitTime + 30)%Q)] in
      let* restId := generateId in
      ret (schedule2 ++
           [mkEntry restId (clientName session) (clientId session)
                    (therapistName session) (therapistId session) day_
                    (minutesToTimeQ (splitTime + 30)%Q) originalEnd ABA]))
  else None.


(** [for (const x of xs) { if (attempt x) return; }]: the first attempt that
    applies ends the search. *)
Fixpoint firstOf {A B} (attempt : A -> option B) (xs : list A) : option B :=
  match xs with
  | [] => None
  | x :: r => match attempt x with
              | Some y => Some y
              | None => firstOf attempt r
              end
  end.

(** The fallback of the lunch repair for one long session. *)
Definition splitSession (tracker : AvailabilityTracker) (therapist : option Therapist)
    (therapistId_ : string) (day_ : DayOfWeek) (workdayMidpoint : Q)
    (schedule : GeneratedSchedule) (indexed : nat * ScheduleEntry)
    : option (M GeneratedSchedule) :=
  let '(idx, session) := indexed in
  let sessionStart := timeToMinutes (startTime session) in
  let sessionEnd := timeToMinutes (endTime session) in
  let preferredSplitTime :=
    Qmax (inject_Z (sessionStart + 60))
         (Qmin (inject_Z (sessionEnd - 60)) workdayMidpoint) in
  let upper :=
    inject_Z (Z.min (sessionEnd - 60) (timeToMinutes LUNCH_COVERAGE_END_TIME - 30)) in
  match firstOf (splitAt tracker therapist therapistId_ day_ idx session schedule)
                (upFromQ preferredSplitTime upper) with
  | Some done => Some done
  | None =>
      let lower := Z.max (sessionStart + 60) (timeToMinutes LUNCH_COVERAGE_START_TIME) in
      firstOf (splitAt tracker therapist therapistId_ day_ idx session schedule)
              (List.filter (fun splitTime => Qltb splitTime preferredSplitTime)
                           (upFromQ (inject_Z lower) preferredSplitTime))
  end.

(** The entries of [xs] that satisfy [p], each with its position in [xs]. *)
Definition filterIndexed {A} (p : A -> bool) (xs : list A) : list (nat * A) :=
  List.filter (fun ix => p (snd ix)) (combine (seq 0 (length xs)) xs).

(** The body of [workingTherapistIds.forEach(therapistId => ...)]. *)
Definition fixLunchFor (tracker : AvailabilityTracker) (therapists : list Therapist)
    (day_ : DayOfWeek) (schedule : GeneratedSchedule) (therapistId_ : string)
    : M GeneratedSchedule :=
  let therapistSessions :=
    List.filter (fun s => str_eqb (therapistId s) therapistId_ &&
                          negb (bool_decide (sessionType s = IndirectTime))) schedule in
  let totalMinutes := sumDurations therapistSessions in
  if totalMinutes <? 300 then ret schedule else
  if therapistHasLunch schedule therapistId_ then ret schedule else
  let therapist := getTherapistById therapists therapistId_ in
  let allSessions := sessionsOf schedule therapistId_ in
  match allSessions, last allSessions with
  | first :: _, Some lastSession =>
      let workdayStart := timeToMinutes (startTime first) in
      let workdayEnd := timeToMinutes (endTime lastSession) in
      let workdayMidpoint :=
        (inject_Z workdayStart + inject_Z (workdayEnd - workdayStart) / 2)%Q in
      let therapistClients :=
        uniq (omap (fun s => if truthy (clientId s) then clientId s else None) allSessions) in
      let searchStart := Z.max (timeToMinutes LUNCH_COVERAGE_START_TIME) workdayStart in
      let searchEnd := Z.min (timeToMinutes LUNCH_COVERAGE_END_TIME - lunchDuration)
                             (workdayEnd - lunchDuration) in
      let freeTimes :=
        List.filter (fun time =>
          isAvailable tracker ETherapist therapistId_ time (time + lunchDuration) None)
          (upFrom searchStart searchEnd 15) in
      let* candidates :=
        mapM (fun time =>
                let* th := unwrap therapist in
                ret {| lc_time := time;
                       lc_score := lunchScore schedule therapists th therapistId_
                                     allSessions therapistClients
                                     workdayStart workdayEnd time |})
             freeTimes in
      let sorted := sortBy (fun a b => Qltb (lc_score a) (lc_score b)) candidates in
      match find_ (fun c => isAvailable tracker ETherapist therapistId_
                              (lc_time c) (lc_time c + lunchDuration) None)
                  (take 5 sorted) with
      | Some candidate =>
          let* newId := generateId in
          let* th := unwrap therapist in
          ret (schedule ++
               [lunchEntry newId th therapistId_ day_
                  (minutesToTime (lc_time candidate))
                  (minutesToTime (lc_time candidate + lunchDuration))])
      | None =>
          let longSessions :=
            sortBy (fun a b => 0 <? byStart (snd a) (snd b))
              (filterIndexed (fun s =>
                 str_eqb (therapistId s) therapistId_ &&
                 bool_decide (sessionType s = ABA) &&
                 (90 <=? duration s)) schedule) in
          match firstOf (splitSession tracker therapist therapistId_ day_
                           workdayMidpoint schedule) longSessions with
          | Some done => done
          | None => ret schedule
          end
      end
  | _, _ => ret schedule
  end.

Definition fixLunchIssues (schedule : GeneratedSchedule) (therapists : list Therapist)
    (day_ : DayOfWeek) (selectedDate : JsDate) (callouts : list Callout)
    : M GeneratedSchedule :=
  let tracker := newTracker schedule callouts selectedDate in
  let workingTherapistIds :=
    uniq (map therapistId
            (List.filter (fun s => negb (bool_decide (sessionType s = IndirectTime)))
                         schedule)) in
  foldM (fixLunchFor tracker therapists day_) workingTherapistIds schedule.

(** *** The pipeline *)

Definition MUTATION_RATE : Q := 95 # 100.

Definition repairAndMutate (schedule : GeneratedSchedule)
    (clients : list Client) (therapists : list Therapist) (day_ : DayOfWeek)
    (selectedDate : JsDate) (callouts : list Callout) : M GeneratedSchedule :=
  let modifiedSchedule := cloneSchedule schedule in
  let* r := random in
  let* modifiedSchedule :=
    (if Qltb r MUTATION_RATE
     then mutateIncremental modifiedSchedule clients therapists selectedDate callouts
     else ret modifiedSchedule) in
  let modifiedSchedule := cleanupScheduleIssues modifiedSchedule in
  let modifiedSchedule := fixSessionDurations modifiedSchedule in
  let modifiedSchedule :=
    fixCredentialIssues modifiedSchedule clients therapists selectedDate callouts in
  let modifiedSchedule :=
    fixMdMedicaidLimit modifiedSchedule clients therapists selectedDate callouts in
  let modifiedSchedule :=
    fixSameClientBackToBackIssues modifiedSchedule clients therapists day_
      selectedDate callouts in
  let* modifiedSchedule :=
    fixClientCoverageGaps modifiedSchedule clients therapists day_ selectedDate callouts in
  let* modifiedSchedule :=
    fixLunchIssues modifiedSchedule therapists day_ selectedDate callouts in
  fixTeamAlignmentIssues modifiedSchedule clients therapists.

(** ** The validator ([utils/validationService.ts]) *)

(** A message is a template literal; it is kept as the sequence of its
    pieces, the literal text and the interpolated values.  Two messages are
    the same string when their pieces are the same ([to12HourTime] is kept as
    the time it prints). *)
Inductive MsgPart :=
  | Txt (s : string)
  | OptTxt (s : option string)
  | Tm (t : TimeStr)
  | Num (n : Z)
  | Dow (d : DayOfWeek)
  | Ses (s : SessionType)
  | Ent (e : EntityType)
  | Svc (s : AlliedHealthServiceType)
  | Strs (l : list string).

#[global] Instance MsgPart_eq_dec : EqDecision MsgPart.
Proof. solve_decision. Defined.

Record ValidationError := {
  ruleId : string;
  message : list MsgPart
}.

#[global] Instance ValidationError_eq_dec : EqDecision ValidationError.
Proof. solve_decision. Defined.

Definition mkError (r : string) (m : list MsgPart) : ValidationError :=
  {| ruleId := r; message := m |}.

(** [[...new Map(errors.map(item => [item.ruleId + item.message, item])).values()]] *)
Definition dedupe (errors : list ValidationError) : list ValidationError := uniq errors.

Definition errorIf (b : bool) (e : ValidationError) : list ValidationError :=
  if b then [e] else [].

(** [x || d] on a nullable string. *)
Definition orElse (x : option string) (d : string) : string :=
  match x with
  | Some s => if truthy x then s else d
  | None => d
  end.

Definition isWeekend (d : DayOfWeek) : bool :=
  bool_decide (d = SATURDAY) || bool_decide (d = SUNDAY).

(** The body of [currentSchedule.forEach(existingEntry => ...)]. *)
Definition conflictErrors (entryToValidate : ScheduleEntry)
    (originalEntryForEditId : option string) (existingEntry : ScheduleEntry)
    : list ValidationError :=
  if truthy originalEntryForEditId && opt_is originalEntryForEditId (id existingEntry)
  then [] else
  if str_eqb (id existingEntry) (id entryToValidate) &&
     negb (opt_is originalEntryForEditId (id entryToValidate))
  then [] else
  let overlaps :=
    sessionsOverlap (startTime existingEntry) (endTime existingEntry)
                    (startTime entryToValidate) (endTime entryToValidate) in
  errorIf (str_eqb (therapistId existingEntry) (therapistId entryToValidate) &&
           bool_decide (day existingEntry = day entryToValidate) && overlaps)
    (mkError "THERAPIST_TIME_CONFLICT"
       [Txt "Therapist "; Txt (therapistName entryToValidate);
        Txt " is already booked from "; Tm (startTime existingEntry); Txt "-";
        Tm (endTime existingEntry); Txt " with ";
        Txt (orElse (clientName existingEntry) "Indirect Task"); Txt "."]) ++
  errorIf (truthy (clientId entryToValidate) &&
           opt_eqb (clientId existingEntry) (clientId entryToValidate) &&
           bool_decide (day existingEntry = day entryToValidate) && overlaps)
    (mkError "CLIENT_TIME_CONFLICT"
       [Txt "Client "; OptTxt (clientName entryToValidate);
        Txt " is already scheduled with "; Txt (therapistName existingEntry);
        Txt " from "; Tm (startTime existingEntry); Txt "-";
        Tm (endTime existingEntry); Txt "."]) ++
  errorIf (truthy (clientId entryToValidate) &&
           opt_eqb (clientId existingEntry) (clientId entryToValidate) &&
           str_eqb (therapistId existingEntry) (therapistId entryToValidate) &&
           bool_decide (day existingEntry = day entryToValidate) &&
           (bool_decide (endTime existingEntry = startTime entryToValidate) ||
            bool_decide (startTime existingEntry = endTime entryToValidate)))
    (mkError "SAME_CLIENT_BACK_TO_BACK"
       [Txt "Therapist "; Txt (therapistName entryToValidate);
        Txt " cannot work with client "; OptTxt (clientName entryToValidate);
        Txt " back-to-back without a break. There must be at least a 15-minute gap or a different session between consecutive sessions with the same client."]).

Definition isBillable (st : SessionType) : bool :=
  match st with ABA | AlliedHealth_OT | AlliedHealth_SLP => true | _ => false end.

Definition validateSessionEntry (entryToValidate : ScheduleEntry)
    (currentSchedule : GeneratedSchedule)
    (clients : list Client) (therapists : list Therapist)
    (originalEntryForEditId : option string) : list ValidationError :=
  let startTimeMinutes := timeToMinutes (startTime entryToValidate) in
  let endTimeMinutes := timeToMinutes (endTime entryToValidate) in
  let st := sessionType entryToValidate in
  let therapistData :=
    find_ (fun t => str_eqb (th_id t) (therapistId entryToValidate)) therapists in
  let duration := endTimeMinutes - startTimeMinutes in
  dedupe (
    errorIf (endTimeMinutes <=? startTimeMinutes)
      (mkError "INVALID_TIME_ORDER" [Txt "Session end time must be after start time."]) ++
    match therapistData with
    | None =>
        [mkError "THERAPIST_NOT_FOUND"
           [Txt "Therapist "; Txt (therapistName entryToValidate); Txt " (ID: ";
            Txt (therapistId entryToValidate); Txt ") not found."]]
    | Some _ =>
        errorIf ((startTimeMinutes <? timeToMinutes STAFF_ASSUMED_AVAILABILITY_START) ||
                 (timeToMinutes STAFF_ASSUMED_AVAILABILITY_END <? endTimeMinutes))
          (mkError "OUTSIDE_THERAPIST_AVAILABILITY"
             [Txt "Session for "; Txt (therapistName entryToValidate); Txt " (";
              Tm (startTime entryToValidate); Txt "-"; Tm (endTime entryToValidate);
              Txt ") is outside their availability window."])
    end ++
    errorIf (isBillable st &&
             ((startTimeMinutes <? timeToMinutes COMPANY_OPERATING_HOURS_START) ||
              (timeToMinutes COMPANY_OPERATING_HOURS_END <? endTimeMinutes)))
      (mkError "OUTSIDE_OPERATING_HOURS"
         [Txt "Client-facing session ("; Ses st;
          Txt ") must be within company operating hours."]) ++
    errorIf (isWeekend (day entryToValidate) && bool_decide (st = ABA))
      (mkError "ABA_ON_WEEKEND"
         [Txt "ABA sessions cannot be scheduled on weekends (";
          Dow (day entryToValidate); Txt ")."]) ++
    flat_map (conflictErrors entryToValidate originalEntryForEditId) currentSchedule ++
    (if truthy (clientId entryToValidate) then
       match find_ (fun c => opt_is (clientId entryToValidate) (cl_id c)) clients with
       | None =>
           [mkError "CLIENT_NOT_FOUND"
              [Txt "Client "; OptTxt (clientName entryToValidate); Txt " (ID: ";
               OptTxt (clientId entryToValidate); Txt ") not found."]]
       | Some clientData =>
           match therapistData with
           | Some td =>
               let unmetRequirements :=
                 List.filter (fun req => negb (includes (qualifications td) req))
                             (insuranceRequirements clientData) in
               errorIf (Nat.ltb 0 (length unmetRequirements))
                 (mkError "INSURANCE_MISMATCH"
                    [Txt "Therapist "; Txt (therapistName entryToValidate);
                     Txt " does not meet insurance requirements for ";
                     OptTxt (clientName entryToValidate); Txt ": ";
                     Strs unmetRequirements; Txt "."])
           | None => []
           end
       end
     else []) ++
    (if isAlliedHealth st then
       let serviceType := if bool_decide (st = AlliedHealth_OT) then OT else SLP in
       let requiredQual :=
         match serviceType with OT => "OT Certified" | SLP => "SLP Certified" end%string in
       match therapistData with
       | Some td =>
           errorIf (negb (includes (canProvideAlliedHealth td) serviceType))
             (mkError "ALLIED_HEALTH_QUALIFICATION_MISSING"
                [Txt "Therapist "; Txt (therapistName entryToValidate);
                 Txt " cannot provide "; Svc serviceType; Txt " services."]) ++
           errorIf (negb (includes (qualifications td) requiredQual))
             (mkError "ALLIED_HEALTH_CERTIFICATION_MISSING"
                [Txt "Therapist "; Txt (therapistName entryToValidate);
                 Txt " lacks qualification "; Txt requiredQual; Txt " for ";
                 Svc serviceType; Txt "."])
       | None => []
       end
     else []) ++
    match st with
    | ABA =>
        errorIf (duration <? 60)
          (mkError "ABA_DURATION_TOO_SHORT" [Txt "ABA session must be at least 60 minutes."]) ++
        errorIf (180 <? duration)
          (mkError "ABA_DURATION_TOO_LONG" [Txt "ABA session cannot exceed 180 minutes."])
    | AlliedHealth_OT | AlliedHealth_SLP =>
        errorIf (duration <=? 0)
          (mkError "ALLIED_HEALTH_DURATION_INVALID"
             [Ses st; Txt " session must have positive duration."])
    | IndirectTime =>
        errorIf (negb (duration =? 30))
          (mkError "LUNCH_DURATION_INVALID"
             [Txt "Lunch/Indirect Time must be exactly 30 minutes."])
    | AdminTime => []
    end ++
    errorIf ((bool_decide (st = IndirectTime) || bool_decide (st = AdminTime)) &&
             negb (bool_decide (clientId entryToValidate = None)))
      (mkError "INDIRECT_TIME_CLIENT_SPECIFIED"
         [Txt "Client must be N/A for "; Ses st; Txt "."]) ++
    errorIf (negb (bool_decide (st = IndirectTime)) && negb (bool_decide (st = AdminTime)) &&
             bool_decide (clientId entryToValidate = None))
      (mkError "CLIENT_REQUIRED_FOR_SESSION"
         [Txt "Client must be specified for "; Ses st; Txt "."])).

(** The merge of the client's callout windows, sorted by start:
    [clientCalloutsForDay.reduce(...)]; the accumulator is kept with its last
    period first. *)
Definition mergePeriods (periods : list Range) : list Range :=
  rev (fold_left (fun acc current =>
         match acc with
         | [] => [current]
         | last :: before =>
             if r_start current <=? r_end last
             then {| r_start := r_start last;
                     r_end := Z.max (r_end last) (r_end current) |} :: before
             else current :: acc
         end) periods []).

Definition entryPrefix (e : ScheduleEntry) : list MsgPart :=
  [Txt "Entry ("; Txt (therapistName e); Txt " with "; Txt (orElse (clientName e) "N/A");
   Txt " at "; Tm (startTime e); Txt " on "; Dow (day e); Txt ", ID: "; Txt (id e);
   Txt "): "].

Definition entryCheck (scheduleToValidate : GeneratedSchedule)
    (clients : list Client) (therapists : list Therapist) (selectedDate : JsDate)
    (callouts : list Callout) (currentDayOfWeekString : DayOfWeek)
    (entryToValidate : ScheduleEntry) : list ValidationError :=
  errorIf (negb (bool_decide (day entryToValidate = currentDayOfWeekString)))
    (mkError "WRONG_DAY_FOR_ENTRY"
       [Txt "Entry for "; Txt (orElse (clientName entryToValidate) "Indirect");
        Txt " with "; Txt (therapistName entryToValidate); Txt " is scheduled on ";
        Dow (day entryToValidate); Txt " but should be on "; Dow currentDayOfWeekString;
        Txt ". (ID: "; Txt (id entryToValidate); Txt ")"]) ++
  map (fun e => mkError (ruleId e) (entryPrefix entryToValidate ++ message e))
      (validateSessionEntry entryToValidate scheduleToValidate clients therapists
         (Some (id entryToValidate))) ++
  map (fun co =>
         mkError "SESSION_OVERLAPS_CALLOUT"
           [Txt "Session for "; Txt (therapistName entryToValidate); Txt " with ";
            Txt (orElse (clientName entryToValidate) "N/A"); Txt " (";
            Tm (startTime entryToValidate); Txt "-"; Tm (endTime entryToValidate);
            Txt ", ID: "; Txt (id entryToValidate); Txt ") overlaps with ";
            Ent (entityType co); Txt " "; Txt (entityName co); Txt "'s callout (";
            Tm (co_startTime co); Txt "-"; Tm (co_endTime co); Txt "). Reason: ";
            Txt (orElse (reason co) "N/A")])
      (List.filter (fun co =>
         isDateAffectedByCalloutRange selectedDate (startDate co) (endDate co) &&
         calloutTargets co entryToValidate &&
         sessionsOverlap (startTime entryToValidate) (endTime entryToValidate)
                         (co_startTime co) (co_endTime co)) callouts).

Definition therapistCheck (scheduleToValidate : GeneratedSchedule)
    (therapists : list Therapist) (currentDayOfWeekString : DayOfWeek)
    (isWeekendDay : bool) (therapistId_ : string) : list ValidationError :=
  match find_ (fun t => str_eqb (th_id t) therapistId_) therapists with
  | None => []
  | Some therapist =>
      let therapistSessions :=
        List.filter (fun s => str_eqb (therapistId s) therapistId_ &&
                              bool_decide (day s = currentDayOfWeekString))
                    scheduleToValidate in
      let billableSessions :=
        List.filter (fun s => isBillable (sessionType s)) therapistSessions in
      let lunchSessions :=
        List.filter (fun s =>
          (bool_decide (sessionType s = IndirectTime) ||
           bool_decide (sessionType s = AdminTime)) &&
          bool_decide (clientId s = None)) therapistSessions in
      let validLunches :=
        List.filter (fun s =>
          bool_decide (sessionType s = IndirectTime) &&
          (timeToMinutes LUNCH_COVERAGE_START_TIME <=? timeToMinutes (startTime s)) &&
          (timeToMinutes (startTime s) <=? timeToMinutes LUNCH_COVERAGE_END_TIME - 30))
          lunchSessions in
      errorIf (Nat.ltb 4 (length billableSessions))
        (mkError "MAX_NOTES_EXCEEDED"
           [Txt "Therapist "; Txt (th_name therapist); Txt " has ";
            Num (Z.of_nat (length billableSessions));
            Txt " billable sessions (notes), which is high."]) ++
      errorIf (includes (qualifications therapist) "BCBA"%string &&
               Nat.eqb (length billableSessions) 0 &&
               Nat.ltb 0 (length therapistSessions))
        (mkError "BCBA_NO_DIRECT_TIME"
           [Txt "Therapist "; Txt (th_name therapist);
            Txt " is a BCBA but has no direct client time scheduled."]) ++
      (if Nat.ltb 0 (length billableSessions) then
         if Nat.eqb (length lunchSessions) 0 then
           [mkError "MISSING_LUNCH_BREAK"
              [Txt "Therapist "; Txt (th_name therapist);
               Txt " has billable work but no lunch break scheduled."]]
         else if Nat.eqb (length validLunches) 0 then
           [mkError "LUNCH_OUTSIDE_WINDOW"
              [Txt "Therapist "; Txt (th_name therapist);
               Txt " has no valid lunch break (30min IndirectTime) within the core window."]]
         else if Nat.ltb 1 (length validLunches) then
           [mkError "MULTIPLE_LUNCHES"
              [Txt "Therapist "; Txt (th_name therapist); Txt " has ";
               Num (Z.of_nat (length validLunches));
               Txt " lunch sessions in the core window. Only one is allowed."]]
         else []
       else if Nat.ltb 0 (length lunchSessions) then
         [mkError "LUNCH_WITHOUT_BILLABLE_WORK"
            [Txt "Therapist "; Txt (th_name therapist);
             Txt " has a lunch break scheduled but no billable work."]]
       else []) ++
      errorIf (isWeekendDay && Nat.ltb 0 (length therapistSessions) &&
               some (fun s => bool_decide (sessionType s = ABA)) therapistSessions)
        (mkError "THERAPIST_WEEKEND_ABA"
           [Txt "Therapist "; Txt (th_name therapist);
            Txt " has an ABA session scheduled on a weekend, which is not permitted."])
  end.

Definition covers (intervalStart intervalEnd : Z) (s : ScheduleEntry) : bool :=
  (intervalStart <? timeToMinutes (endTime s)) &&
  (timeToMinutes (startTime s) <? intervalEnd).

Definition clientCheck (scheduleToValidate : GeneratedSchedule)
    (selectedDate : JsDate) (operatingHoursStart operatingHoursEnd : TimeStr)
    (callouts : list Callout) (currentDayOfWeekString : DayOfWeek)
    (isWeekendDay : bool) (client : Client) : list ValidationError :=
  let clientSessionsToday :=
    List.filter (fun s => opt_is (clientId s) (cl_id client) &&
                          bool_decide (day s = currentDayOfWeekString))
                scheduleToValidate in
  let uniqueTherapists := uniq (map therapistId clientSessionsToday) in
  errorIf (includes (insuranceRequirements client) "MD_MEDICAID"%string &&
           Nat.ltb 3 (length uniqueTherapists))
    (mkError "MD_MEDICAID_LIMIT_VIOLATED"
       [Txt "MD Medicaid client "; Txt (cl_name client); Txt " is scheduled with ";
        Num (Z.of_nat (length uniqueTherapists));
        Txt " unique therapists, exceeding the limit of 3."]) ++
  if isWeekendDay then [] else
  let opStartMinutes := timeToMinutes operatingHoursStart in
  let opEndMinutes := timeToMinutes operatingHoursEnd in
  let clientCalloutsForDay :=
    sortByZ (fun a b => r_start a - r_start b)
      (map (fun co => {| r_start := timeToMinutes (co_startTime co);
                         r_end := timeToMinutes (co_endTime co) |})
           (List.filter (fun co =>
              bool_decide (entityType co = EClient) &&
              str_eqb (entityId co) (cl_id client) &&
              isDateAffectedByCalloutRange selectedDate (startDate co) (endDate co))
            callouts)) in
  let mergedClientUnavailablePeriods := mergePeriods clientCalloutsForDay in
  let clientABASessionsToday :=
    List.filter (fun s => bool_decide (sessionType s = ABA)) clientSessionsToday in
  let clientAHSessionsToday :=
    List.filter (fun s => isAlliedHealth (sessionType s)) clientSessionsToday in
  flat_map (fun intervalStart =>
    let intervalEnd := intervalStart + 15 in
    if some (fun p => (intervalStart <? r_end p) && (r_start p <? intervalEnd))
            mergedClientUnavailablePeriods then []
    else if some (covers intervalStart intervalEnd) clientAHSessionsToday then []
    else if some (covers intervalStart intervalEnd) clientABASessionsToday then []
    else [mkError "CLIENT_COVERAGE_GAP_AT_TIME"
            [Txt "Client "; Txt (cl_name client); Txt " has an ABA coverage gap on ";
             Dow currentDayOfWeekString; Txt " from "; Tm (minutesToTime intervalStart);
             Txt " to "; Tm (minutesToTime intervalEnd); Txt "."]])
    (upFrom opStartMinutes (opEndMinutes - 1) 15).

(** [selectedDate] is [None] when the caller passes [null]. *)
Definition validateFullSchedule (scheduleToValidate : GeneratedSchedule)
    (clients : list Client) (therapists : list Therapist)
    (selectedDate : option JsDate)
    (operatingHoursStart operatingHoursEnd : TimeStr)
    (callouts : list Callout) : list ValidationError :=
  match selectedDate with
  | None =>
      if Nat.eqb (length scheduleToValidate) 0 && Nat.eqb (length clients) 0 &&
         Nat.eqb (length therapists) 0
      then []
      else dedupe [mkError "INVALID_SELECTED_DATE"
                     [Txt "Selected date for validation is invalid."]]
  | Some date =>
      let currentDayOfWeekString := getDayOfWeekFromDate date in
      let isWeekendDay := isWeekend currentDayOfWeekString in
      dedupe (
        flat_map (entryCheck scheduleToValidate clients therapists date callouts
                    currentDayOfWeekString) scheduleToValidate ++
        flat_map (therapistCheck scheduleToValidate therapists currentDayOfWeekString
                    isWeekendDay)
                 (uniq (map therapistId scheduleToValidate)) ++
        flat_map (clientCheck scheduleToValidate date operatingHoursStart
                    operatingHoursEnd callouts currentDayOfWeekString isWeekendDay)
                 clients)
  end.

(** ** Fitness *)

Section Engine.

(** [Math.log2] on the positive integers: the double it returns is a rational
    number, and nothing else is assumed about it. *)
Variable Math_log2 : Z -> Q.

Record Penalties := {
  CONFLICT_PENALTY : Q;
  CREDENTIAL_MISMATCH_PENALTY : Q;
  CALLOUT_OVERLAP_PENALTY : Q;
  CLIENT_COVERAGE_GAP_PENALTY : Q;
  MISSING_LUNCH_PENALTY : Q;
  LUNCH_STAGGER_PENALTY : Q;
  SESSION_DURATION_PENALTY : Q;
  MD_MEDICAID_LIMIT_PENALTY : Q;
  TEAM_ALIGNMENT_PENALTY : Q;
  LUNCH_OUTSIDE_WINDOW_PENALTY : Q;
  SCHEDULE_FRAGMENTATION_PENALTY : Q;
  SAME_CLIENT_BACK_TO_BACK_PENALTY : Q
}.

(** [Math.max(1, Math.log2(n))]; [Math.log2(0)] is [-Infinity]. *)
Definition scaleFactorOf (n : Z) : Q :=
  if n <=? 0 then 1%Q else Qmax 1 (Math_log2 n).

Definition calculateAdaptivePenalties (clients : list Client) (therapists : list Therapist)
    : Penalties :=
  let numClients := Z.of_nat (length clients) in
  let numTherapists := Z.of_nat (length therapists) in
  let scaleFactor := scaleFactorOf (numClients * numTherapists) in
  {| CONFLICT_PENALTY := (5000 * scaleFactor)%Q;
     CREDENTIAL_MISMATCH_PENALTY := (4000 * scaleFactor)%Q;
     CALLOUT_OVERLAP_PENALTY := (4500 * scaleFactor)%Q;
     CLIENT_COVERAGE_GAP_PENALTY := (2000 * scaleFactor * (inject_Z numClients / 10))%Q;
     MISSING_LUNCH_PENALTY := (2500 * scaleFactor)%Q;
     LUNCH_STAGGER_PENALTY := (800 * scaleFactor)%Q;
     SESSION_DURATION_PENALTY := (1000 * scaleFactor)%Q;
     MD_MEDICAID_LIMIT_PENALTY := (2000 * scaleFactor)%Q;
     TEAM_ALIGNMENT_PENALTY := 100%Q;
     LUNCH_OUTSIDE_WINDOW_PENALTY := 200%Q;
     SCHEDULE_FRAGMENTATION_PENALTY := 10%Q;
     SAME_CLIENT_BACK_TO_BACK_PENALTY := (6000 * scaleFactor)%Q |}.

(** The lunches of a team seen so far are kept as pairs of the team and the
    start; [teamLunches.get(t.teamId)] are the starts paired with the team. *)
Definition countStaggerViolations (schedule : GeneratedSchedule)
    (therapists : list Therapist) : Z :=
  fst (fold_left (fun '(violations, teamLunches) s =>
         match getTherapistById therapists (therapistId s) with
         | Some t =>
             if truthy (th_teamId t) then
               let start := timeToMinutes (startTime s) in
               let overlaps :=
                 List.filter (fun '(team, existing) =>
                   opt_eqb team (th_teamId t) && (Z.abs (existing - start) <? 30))
                   teamLunches in
               ((if Nat.leb 1 (length overlaps) then violations + 1 else violations),
                teamLunches ++ [(th_teamId t, start)])
             else (violations, teamLunches)
         | None => (violations, teamLunches)
         end)
       (List.filter (fun s => bool_decide (sessionType s = IndirectTime)) schedule)
       (0, [])).

(** The idle minutes between consecutive sessions of a sorted list. *)
Fixpoint idleMinutes (sessions : list ScheduleEntry) : Z :=
  match sessions with
  | current :: ((next :: _) as rest) =>
      let gap := timeToMinutes (startTime next) - timeToMinutes (endTime current) in
      (if (0 <? gap) && negb (gap =? 30) then gap else 0) + idleMinutes rest
  | _ => 0
  end.

Definition calculateFragmentationPenalty (schedule : GeneratedSchedule)
    (therapists : list Therapist) (penaltyWeight : Q) : Q :=
  let totalIdleMinutes :=
    fold_left (fun acc t => acc + idleMinutes (sessionsOf schedule (th_id t))) therapists 0 in
  (inject_Z totalIdleMinutes * penaltyWeight)%Q.

(** [counts[ruleId]], zero when the rule never fired. *)
Definition countOf (errors : list ValidationError) (r : string) : Z :=
  Z.of_nat (length (List.filter (fun e => str_eqb (ruleId e) r) errors)).

Definition calculateFitness (schedule : GeneratedSchedule)
    (clients : list Client) (therapists : list Therapist)
    (selectedDate : JsDate) (callouts : list Callout) : Q :=
  let penalties := calculateAdaptivePenalties clients therapists in
  let errors :=
    validateFullSchedule schedule clients therapists (Some selectedDate)
      COMPANY_OPERATING_HOURS_START COMPANY_OPERATING_HOURS_END callouts in
  let counts := countOf errors in
  let capped r cap := inject_Z (Z.min (counts r) cap) in
  (CONFLICT_PENALTY penalties * capped "CLIENT_TIME_CONFLICT"%string 5%Z +
   CONFLICT_PENALTY penalties * capped "THERAPIST_TIME_CONFLICT"%string 5%Z +
   SAME_CLIENT_BACK_TO_BACK_PENALTY penalties *
     inject_Z (counts "SAME_CLIENT_BACK_TO_BACK"%string) +
   CREDENTIAL_MISMATCH_PENALTY penalties * capped "INSURANCE_MISMATCH"%string 5%Z +
   CALLOUT_OVERLAP_PENALTY penalties * capped "SESSION_OVERLAPS_CALLOUT"%string 5%Z +
   MISSING_LUNCH_PENALTY penalties *
     capped "MISSING_LUNCH_BREAK"%string (Z.of_nat (length therapists)) +
   LUNCH_OUTSIDE_WINDOW_PENALTY penalties *
     inject_Z (counts "LUNCH_OUTSIDE_WINDOW"%string) +
   LUNCH_STAGGER_PENALTY penalties *
     inject_Z (countStaggerViolations schedule therapists) +
   SESSION_DURATION_PENALTY penalties * inject_Z (counts "ABA_DURATION_TOO_SHORT"%string) +
   SESSION_DURATION_PENALTY penalties * inject_Z (counts "ABA_DURATION_TOO_LONG"%string) +
   MD_MEDICAID_LIMIT_PENALTY penalties *
     inject_Z (counts "MD_MEDICAID_LIMIT_VIOLATED"%string) +
   CLIENT_COVERAGE_GAP_PENALTY penalties *
     inject_Z (Z.min (counts "CLIENT_COVERAGE_GAP_AT_TIME"%string / 4)%Z
                     (Z.of_nat (length clients) * 2)%Z) +
   calculateFragmentationPenalty schedule therapists
     (SCHEDULE_FRAGMENTATION_PENALTY penalties) +
   TEAM_ALIGNMENT_PENALTY penalties *
     inject_Z (counts "TEAM_ALIGNMENT_MISMATCH"%string))%Q.

(** ** Local search *)

(** The pairs [(i, j)] with [i < j < n], in the order of the two nested loops. *)
Definition indexPairs (n : nat) : list (nat * nat) :=
  flat_map (fun i => map (fun j => (i, j)) (seq (S i) (n - S i))) (seq 0 n).

Definition swapTherapists (therapists : list Therapist) (schedule : GeneratedSchedule)
    (i j : nat) (entry1 entry2 : ScheduleEntry) : M GeneratedSchedule :=
  let* t2 := unwrap (getTherapistById therapists (therapistId entry2)) in
  let* t1 := unwrap (getTherapistById therapists (therapistId entry1)) in
  ret (<[ j := {| id := id entry2; clientName := clientName entry2;
                  clientId := clientId entry2; therapistName := th_name t1;
                  therapistId := therapistId entry1; day := day entry2;
                  startTime := startTime entry2; endTime := endTime entry2;
                  sessionType := sessionType entry2 |} ]>
       (<[ i := {| id := id entry1; clientName := clientName entry1;
                   clientId := clientId entry1; therapistName := th_name t2;
                   therapistId := therapistId entry2; day := day entry1;
                   startTime := startTime entry1; endTime := endTime entry1;
                   sessionType := sessionType entry1 |} ]> schedule)).

(** One sweep of the two nested loops: the first swap that lowers the fitness. *)
Fixpoint firstImprovement (clients : list Client) (therapists : list Therapist)
    (selectedDate : JsDate) (callouts : list Callout)
    (currentSchedule : GeneratedSchedule) (currentFitness : Q)
    (pairs : list (nat * nat)) : M (option (GeneratedSchedule * Q)) :=
  match pairs with
  | [] => ret None
  | (i, j) :: rest =>
      match currentSchedule !! i, currentSchedule !! j with
      | Some entry1, Some entry2 =>
          if truthy (clientId entry1) && truthy (clientId entry2) &&
             negb (str_eqb (therapistId entry1) (therapistId entry2)) then
            let* testSchedule := swapTherapists therapists currentSchedule i j entry1 entry2 in
            let testFitness :=
              calculateFitness testSchedule clients therapists selectedDate callouts in
            if Qltb testFitness currentFitness then ret (Some (testSchedule, testFitness))
            else firstImprovement clients therapists selectedDate callouts
                   currentSchedule currentFitness rest
          else firstImprovement clients therapists selectedDate callouts
                 currentSchedule currentFitness rest
      | _, _ => firstImprovement clients therapists selectedDate callouts
                  currentSchedule currentFitness rest
      end
  end.

Fixpoint localSearchLoop (clients : list Client) (therapists : list Therapist)
    (selectedDate : JsDate) (callouts : list Callout) (iterationsLeft : nat)
    (currentSchedule : GeneratedSchedule) (currentFitness : Q) : M GeneratedSchedule :=
  match iterationsLeft with
  | O => ret currentSchedule
  | S n =>
      let* found := firstImprovement clients therapists selectedDate callouts
                      currentSchedule currentFitness
                      (indexPairs (length currentSchedule)) in
      match found with
      | Some (testSchedule, testFitness) =>
          localSearchLoop clients therapists selectedDate callouts n testSchedule testFitness
      | None => ret currentSchedule
      end
  end.

Definition localSearchImprovement (schedule : GeneratedSchedule)
    (clients : list Client) (therapists : list Therapist)
    (selectedDate : JsDate) (callouts : list Callout) (maxIterations : nat)
    : M GeneratedSchedule :=
  let currentSchedule := cloneSchedule schedule in
  let currentFitness :=
    calculateFitness currentSchedule clients therapists selectedDate callouts in
  localSearchLoop clients therapists selectedDate callouts maxIterations
    currentSchedule currentFitness.

(** ** Selection and crossover *)

Definition POPULATION_SIZE : nat := 50.
Definition MAX_GENERATIONS : nat := 150.
Definition ELITISM_RATE : Q := 1 # 10.
Definition CROSSOVER_RATE : Q := 7 # 10.
Definition PLATEAU_LIMIT : nat := 30.

Record Individual := {
  ind_schedule : GeneratedSchedule;
  fitness : Q
}.

(** [population[Math.floor(Math.random() * population.length)]] *)
Definition randomIndividual (population : list Individual) : M Individual :=
  let* r := random in
  unwrap (population !! Z.to_nat (floorScaled r (Z.of_nat (length population)))).

Definition tournamentRound (population : list Individual) (best : option Individual)
    : M (option Individual) :=
  let* candidate := randomIndividual population in
  match best with
  | None => ret (Some candidate)
  | Some b => if Qltb (fitness candidate) (fitness b) then ret (Some candidate)
              else ret (Some b)
  end.

Definition diversityPreservingSelection (population : list Individual)
    : M GeneratedSchedule :=
  let* similarityCheck := random in
  if Qltb similarityCheck (3 # 10) then
    let* chosen := randomIndividual population in
    ret (cloneSchedule (ind_schedule chosen))
  else
    let tournamentSize := 5%nat in
    let* best := repeatM tournamentSize (tournamentRound population) None in
    let* b := unwrap best in
    ret (cloneSchedule (ind_schedule b)).

(** [{ ...s, id: generateId() }] *)
Definition withFreshId (s : ScheduleEntry) : M ScheduleEntry :=
  let* newId := generateId in ret (with_id s newId).

Definition bcbaRank (therapists : list Therapist) (e : ScheduleEntry) : Z :=
  match getTherapistById therapists (therapistId e) with
  | Some t => if includes (qualifications t) "BCBA"%string then 0 else 1
  | None => 1
  end.

Definition crossoverOrder (therapists : list Therapist) (a b : ScheduleEntry) : Z :=
  let aBCBA := bcbaRank therapists a in
  let bBCBA := bcbaRank therapists b in
  if negb (aBCBA =? bBCBA) then aBCBA - bBCBA
  else timeToMinutes (startTime a) - timeToMinutes (startTime b).

(** The body of [offspring.forEach(entry => ...)]. *)
Definition replayEntry (st : GeneratedSchedule * AvailabilityTracker)
    (entry : ScheduleEntry) : GeneratedSchedule * AvailabilityTracker :=
  let '(validOffspring, tracker) := st in
  let start := timeToMinutes (startTime entry) in
  let end_ := timeToMinutes (endTime entry) in
  let tAvail := isAvailable tracker ETherapist (therapistId entry) start end_ None in
  let cAvail :=
    match clientId entry with
    | Some c => negb (truthy (clientId entry)) || isAvailable tracker EClient c start end_ None
    | None => true
    end in
  if tAvail && cAvail then
    (validOffspring ++ [entry],
     book tracker (therapistId entry) (clientId entry) start end_)
  else st.

Definition replay (offspring : list ScheduleEntry) (callouts : list Callout)
    (selectedDate : JsDate) : GeneratedSchedule :=
  fst (fold_left replayEntry offspring ([], newTracker [] callouts selectedDate)).

Definition crossover (parent1 parent2 : GeneratedSchedule)
    (therapists : list Therapist) (clients : list Client)
    (selectedDate : JsDate) (callouts : list Callout) : M GeneratedSchedule :=
  let* r := random in
  if Qltb CROSSOVER_RATE r then
    let* r' := random in
    ret (cloneSchedule (if Qltb r' HALF then parent1 else parent2))
  else
    let therapistIds := map th_id therapists in
    let midpoint := Nat.div (length therapistIds) 2 in
    let p1Ids := take midpoint therapistIds in
    let* fromP1 :=
      mapM withFreshId (List.filter (fun s => includes p1Ids (therapistId s)) parent1) in
    let* fromP2 :=
      mapM withFreshId
           (List.filter (fun s => negb (includes p1Ids (therapistId s))) parent2) in
    let offspring := sortByZ (crossoverOrder therapists) (fromP1 ++ fromP2) in
    ret (replay offspring callouts selectedDate).

(** ** The constructive seeder *)

Record LearnedLunch := {
  ll_therapistId : string;
  ll_startTime : TimeStr;
  ll_endTime : TimeStr
}.

Record LearningContext := {
  topRatedSchedules : list GeneratedSchedule;
  learnedLunchTimes : list LearnedLunch
}.

Record PlanningTask := {
  pt_clientId : string;
  pt_clientName : string;
  pt_type : SessionType;
  minDuration : Z;
  maxDuration : Z;
  priority : Z;
  possibleTherapists : list Therapist;
  preferredStart : option Z;
  preferredEnd : option Z
}.

Definition sessionTypeOf (t : AlliedHealthServiceType) : SessionType :=
  match t with OT => AlliedHealth_OT | SLP => AlliedHealth_SLP end.

(** [s.sessionType.includes(need.type)] *)
Definition mentions (st : SessionType) (t : AlliedHealthServiceType) : bool :=
  bool_decide (st = sessionTypeOf t).

Definition clientTasks (schedule : GeneratedSchedule) (therapists : list Therapist)
    (client : Client) : list PlanningTask :=
  flat_map (fun need =>
    let existing :=
      length (List.filter (fun s => opt_is (clientId s) (cl_id client) &&
                                    mentions (sessionType s) (ah_type need)) schedule) in
    if Z.of_nat existing <? frequencyPerWeek need then
      let qualified :=
        List.filter (fun t => includes (canProvideAlliedHealth t) (ah_type need) &&
                              meetsRequirements client t) therapists in
      [{| pt_clientId := cl_id client; pt_clientName := cl_name client;
          pt_type := sessionTypeOf (ah_type need);
          minDuration := durationMinutes need; maxDuration := durationMinutes need;
          priority := 1000 - Z.of_nat (length qualified) * 10 + durationMinutes need;
          possibleTherapists := qualified;
          preferredStart := (fun ts => timeToMinutes (ts_startTime ts)) <$> preferredTimeSlot need;
          preferredEnd := (fun ts => timeToMinutes (ts_endTime ts)) <$> preferredTimeSlot need |}]
    else []) (alliedHealthNeeds client) ++
  let qualified := List.filter (meetsRequirements client) therapists in
  if Nat.ltb 0 (length qualified) then
    [{| pt_clientId := cl_id client; pt_clientName := cl_name client; pt_type := ABA;
        minDuration := 60; maxDuration := 180;
        priority := 500 - Z.of_nat (length qualified) * 10 + 180;
        possibleTherapists := qualified;
        preferredStart := None; preferredEnd := None |}]
  else [].

(** [[...xs].sort(() => 0.5 - Math.random())]: the comparator ignores its
    arguments; the order that results is the engine's business.  It is
    modelled by an insertion that draws once for every comparison; a list
    shorter than two is returned without a draw. *)
Fixpoint insertRandomly {A} (x : A) (xs : list A) : M (list A) :=
  match xs with
  | [] => ret [x]
  | y :: rest =>
      let* r := random in
      if Qltb r HALF then let* tail := insertRandomly x rest in ret (y :: tail)
      else ret (x :: xs)
  end.

Fixpoint shuffle {A} (xs : list A) : M (list A) :=
  match xs with
  | [] => ret []
  | x :: rest => let* sorted := shuffle rest in insertRandomly x sorted
  end.

(** The loop that extends an ABA placement:
    [for (d = minDuration + 15; d <= maxDuration; d += 15)]. *)
Fixpoint extendDuration (tracker : AvailabilityTracker) (therapistId_ clientId_ : string)
    (time searchEnd : Z) (ds : list Z) (bestDuration : Z) : Z :=
  match ds with
  | [] => bestDuration
  | d :: rest =>
      let extendedEnd := time + d in
      if searchEnd <? extendedEnd then bestDuration
      else if isAvailable tracker ETherapist therapistId_ time extendedEnd None &&
              isAvailable tracker EClient clientId_ time extendedEnd None
      then extendDuration tracker therapistId_ clientId_ time searchEnd rest d
      else bestDuration
  end.

Abbreviation SeedState := (list ScheduleEntry * AvailabilityTracker)%type (only parsing).

(** The body of [for (let time = searchStart; ...)]: [Some] when the task was
    placed at [time], [None] when the loop goes on. *)
Definition tryTime (clients : list Client) (therapists : list Therapist)
    (day_ : DayOfWeek) (selectedDate : JsDate) (callouts : list Callout)
    (task : PlanningTask) (therapist : Therapist) (searchEnd : Z)
    (st : SeedState) (time : Z) : M (option SeedState) :=
  let '(schedule, tracker) := st in
  let minEnd := time + minDuration task in
  if isAvailable tracker ETherapist (th_id therapist) time minEnd None &&
     isAvailable tracker EClient (pt_clientId task) time minEnd None then
    let bestDuration :=
      if bool_decide (pt_type task = ABA) then
        extendDuration tracker (th_id therapist) (pt_clientId task) time searchEnd
          (upFrom (minDuration task + 15) (maxDuration task) 15) (minDuration task)
      else minDuration task in
    let crossTeam :=
      match getClientById clients (pt_clientId task) with
      | Some client =>
          truthy (cl_teamId client) && truthy (th_teamId therapist) &&
          negb (opt_eqb (cl_teamId client) (th_teamId therapist))
      | None => false
      end in
    let* skip := (if crossTeam then let* r := random in ret (Qltb (3 # 10) r)
                  else ret false) in
    if skip then ret None else
    let* newId := generateId in
    let newEntry :=
      mkEntry newId (Some (pt_clientName task)) (Some (pt_clientId task))
              (th_name therapist) (th_id therapist) day_
              (minutesToTime time) (minutesToTime (time + bestDuration)) (pt_type task) in
    let validation :=
      canAddEntryToSchedule newEntry schedule clients therapists selectedDate callouts None in
    if negb (valid validation) then ret None else
    ret (Some (schedule ++ [newEntry],
               book tracker (th_id therapist) (Some (pt_clientId task))
                    time (time + bestDuration)))
  else ret None.

(** The first of [xs] at which [attempt] succeeds, in a computation. *)
Fixpoint firstOfM {A B} (attempt : A -> M (option B)) (xs : list A) : M (option B) :=
  match xs with
  | [] => ret None
  | x :: rest =>
      let* y := attempt x in
      match y with
      | Some _ => ret y
      | None => firstOfM attempt rest
      end
  end.

Definition placeTask (clients : list Client) (therapists : list Therapist)
    (day_ : DayOfWeek) (selectedDate : JsDate) (callouts : list Callout)
    (st : SeedState) (task : PlanningTask) : M SeedState :=
  let* candidateTherapists := shuffle (possibleTherapists task) in
  let searchStart :=
    default (timeToMinutes COMPANY_OPERATING_HOURS_START) (preferredStart task) in
  let searchEnd :=
    default (timeToMinutes COMPANY_OPERATING_HOURS_END) (preferredEnd task) in
  let* placed :=
    firstOfM (fun therapist =>
                firstOfM (tryTime clients therapists day_ selectedDate callouts
                            task therapist searchEnd st)
                         (upFrom searchStart (searchEnd - minDuration task) 15))
             candidateTherapists in
  ret (default st placed).

(** The body of [workingTherapistIds.forEach(therapistId => ...)] of the seeder. *)
Definition seedLunch (therapists : list Therapist) (day_ : DayOfWeek)
    (learningContext : option LearningContext)
    (st : SeedState) (therapistId_ : string) : M SeedState :=
  let '(schedule, tracker) := st in
  let tSessions := List.filter (fun s => str_eqb (therapistId s) therapistId_) schedule in
  let mins := sumDurations tSessions in
  if mins <? 300 then ret st else
  if therapistHasLunch schedule therapistId_ then ret st else
  let therapist := getTherapistById therapists therapistId_ in
  let learnedPattern :=
    match learningContext with
    | Some lc =>
        find_ (fun lp => str_eqb (ll_therapistId lp) therapistId_) (learnedLunchTimes lc)
    | None => None
    end in
  let learnedStart :=
    match learnedPattern with
    | Some lp =>
        let learnedStart := timeToMinutes (ll_startTime lp) in
        if isAvailable tracker ETherapist therapistId_ learnedStart (learnedStart + 30) None
        then Some learnedStart else None
    | None => None
    end in
  match learnedStart with
  | Some time =>
      let* newId := generateId in
      let* th := unwrap therapist in
      ret (schedule ++ [lunchEntry newId th therapistId_ day_
                          (minutesToTime time) (minutesToTime (time + 30))],
           book tracker therapistId_ None time (time + 30))
  | None =>
      let lunchStart := timeToMinutes IDEAL_LUNCH_WINDOW_START in
      let lunchEnd := timeToMinutes IDEAL_LUNCH_WINDOW_END_FOR_START in
      match find_ (fun time =>
                     isAvailable tracker ETherapist therapistId_ time (time + 30) None)
                  (upFrom lunchStart lunchEnd 15) with
      | Some time =>
          let* newId := generateId in
          let* th := unwrap therapist in
          ret (schedule ++ [lunchEntry newId th (th_id th) day_
                              (minutesToTime time) (minutesToTime (time + 30))],
               book tracker therapistId_ None time (time + 30))
      | None => ret st
      end
  end.

Definition calloutHits (selectedDate : JsDate) (callouts : list Callout)
    (entry : ScheduleEntry) : bool :=
  some (fun co =>
    (opt_is (clientId entry) (entityId co) || str_eqb (entityId co) (therapistId entry)) &&
    isDateAffectedByCalloutRange selectedDate (startDate co) (endDate co) &&
    sessionsOverlap (startTime entry) (endTime entry) (co_startTime co) (co_endTime co))
  callouts.

Definition constructiveHeuristicInitialization
    (clients : list Client) (therapists : list Therapist) (day_ : DayOfWeek)
    (selectedDate : JsDate) (callouts : list Callout)
    (baseScheduleForDay : option BaseScheduleConfig)
    (learningContext : option LearningContext) : M GeneratedSchedule :=
  let* schedule :=
    match match baseScheduleForDay with Some bs => bs_schedule bs | None => None end with
    | Some base =>
        mapM withFreshId
          (List.filter (fun entry => negb (calloutHits selectedDate callouts entry) &&
                                     bool_decide (day entry = day_)) base)
    | None => ret []
    end in
  let tracker := newTracker schedule callouts selectedDate in
  let tasks :=
    sortByZ (fun a b => priority b - priority a)
            (flat_map (clientTasks schedule therapists) clients) in
  let* st := foldM (placeTask clients therapists day_ selectedDate callouts)
                   tasks (schedule, tracker) in
  let workingTherapistIds := uniq (map therapistId (fst st)) in
  let* st := foldM (seedLunch therapists day_ learningContext) workingTherapistIds st in
  ret (fst st).

(** ** The evolutionary loop *)

(** A fitness value, or the [Infinity] the best fitness starts from. *)
Inductive JsNumber :=
  | Finite (q : Q)
  | Infinity.

Definition num_ltb (a b : JsNumber) : bool :=
  match a, b with
  | Finite x, Finite y => Qltb x y
  | Finite _, Infinity => true
  | Infinity, _ => false
  end.

(** [x === 0] *)
Definition num_is_zero (a : JsNumber) : bool :=
  match a with
  | Finite x => Qeq_bool x 0
  | Infinity => false
  end.

Record GAGenerationResult := {
  res_schedule : GeneratedSchedule;
  finalValidationErrors : list ValidationError;
  generations : nat;
  bestFitness : JsNumber;
  success : bool;
  statusMessage : list MsgPart
}.

(** What the two collaborating services hold when the run starts:
    [baseScheduleService.getBaseSchedules()] and
    [ScheduleLearningService.getHighRatedSchedules()], which returns the empty
    list when the store fails. *)
Record Services := {
  baseSchedules : list BaseScheduleConfig;
  highRatedSchedules : list GeneratedSchedule
}.

Definition loadLearningContext (services : Services) : LearningContext :=
  {| topRatedSchedules := highRatedSchedules services;
     learnedLunchTimes :=
       map (fun e => {| ll_therapistId := therapistId e; ll_startTime := startTime e;
                        ll_endTime := endTime e |})
           (flat_map (List.filter (fun e => bool_decide (sessionType e = IndirectTime)))
                     (highRatedSchedules services)) |}.

Record LoopState := {
  population : list GeneratedSchedule;
  bestFitnessOverall : JsNumber;
  bestScheduleOverall : option GeneratedSchedule;
  generationsRun : nat;
  generationsWithoutImprovement : nat
}.

Section Run.

Variables (clients : list Client) (therapists : list Therapist)
          (selectedDate : JsDate) (callouts : list Callout).

Definition evaluatePopulation (population_ : list GeneratedSchedule) : list Individual :=
  sortBy (fun a b => Qltb (fitness b) (fitness a))
    (map (fun p => {| ind_schedule := p;
                      fitness := calculateFitness p clients therapists selectedDate callouts |})
         population_).

(** The first half of the loop body: the best of the generation is compared
    with the best so far. *)
Definition recordBest (gen : nat) (st : LoopState) (best : Individual) : LoopState :=
  if num_ltb (Finite (fitness best)) (bestFitnessOverall st) then
    {| population := population st;
       bestFitnessOverall := Finite (fitness best);
       bestScheduleOverall := Some (cloneSchedule (ind_schedule best));
       generationsRun := S gen;
       generationsWithoutImprovement := 0 |}
  else
    {| population := population st;
       bestFitnessOverall := bestFitnessOverall st;
       bestScheduleOverall := bestScheduleOverall st;
       generationsRun := S gen;
       generationsWithoutImprovement := S (generationsWithoutImprovement st) |}.

(** The two [break]s of the loop. *)
Definition shouldStop (st : LoopState) : bool :=
  num_is_zero (bestFitnessOverall st) ||
  Nat.leb PLATEAU_LIMIT (generationsWithoutImprovement st).

Definition eliteCount : nat := Z.to_nat (Qfloor (inject_Z (Z.of_nat POPULATION_SIZE) * ELITISM_RATE)).

Definition breed (day_ : DayOfWeek) (popWithFitness : list Individual)
    (newPop : list GeneratedSchedule) : M (list GeneratedSchedule) :=
  let* p1 := diversityPreservingSelection popWithFitness in
  let* p2 := diversityPreservingSelection popWithFitness in
  let* child := crossover p1 p2 therapists clients selectedDate callouts in
  let* child := repairAndMutate child clients therapists day_ selectedDate callouts in
  ret (newPop ++ [child]).

(** The second half of the loop body: elites, then offspring until the
    population is full. *)
Definition evolve (day_ : DayOfWeek) (popWithFitness : list Individual)
    : M (list GeneratedSchedule) :=
  let* elites :=
    mapM (fun i => let* ind := unwrap (popWithFitness !! i) in
                   ret (cloneSchedule (ind_schedule ind)))
         (seq 0 eliteCount) in
  repeatM (POPULATION_SIZE - length elites) (breed day_ popWithFitness) elites.

(** One turn of [for (let gen = 0; gen < MAX_GENERATIONS; gen++)]; the flag
    tells whether the loop was left by a [break]. *)
Definition generation (day_ : DayOfWeek) (gen : nat) (st : LoopState)
    : M (LoopState * bool) :=
  let popWithFitness := evaluatePopulation (population st) in
  let* best := unwrap (popWithFitness !! 0%nat) in
  let st1 := recordBest gen st best in
  if shouldStop st1 then ret (st1, true)
  else
    let* newPop := evolve day_ popWithFitness in
    ret ({| population := newPop;
            bestFitnessOverall := bestFitnessOverall st1;
            bestScheduleOverall := bestScheduleOverall st1;
            generationsRun := generationsRun st1;
            generationsWithoutImprovement := generationsWithoutImprovement st1 |},
         false).

Fixpoint generationalLoop (day_ : DayOfWeek) (remaining gen : nat) (st : LoopState)
    : M LoopState :=
  match remaining with
  | O => ret st
  | S n =>
      let* next := generation day_ gen st in
      if snd next then ret (fst next)
      else generationalLoop day_ n (S gen) (fst next)
  end.

(** The loop once more, with a ghost record of its variables at the end of
    every turn; it runs exactly as [generationalLoop] does. *)
Fixpoint generationalTrace (day_ : DayOfWeek) (remaining gen : nat) (st : LoopState)
    : M (list LoopState) :=
  match remaining with
  | O => ret []
  | S n =>
      let* next := generation day_ gen st in
      if snd next then ret [fst next]
      else
        let* rest := generationalTrace day_ n (S gen) (fst next) in
        ret (fst next :: rest)
  end.

(** Seeding from the top-rated schedules:
    [for (const topSchedule of topRatedSchedules.slice(0, 5))]. *)
Fixpoint seedTopRated (day_ : DayOfWeek) (topSchedules : list GeneratedSchedule)
    (population_ : list GeneratedSchedule) : M (list GeneratedSchedule) :=
  match topSchedules with
  | [] => ret population_
  | topSchedule :: rest =>
      let* topScheduleForDay :=
        mapM withFreshId (List.filter (fun s => bool_decide (day s = day_)) topSchedule) in
      let population_ :=
        if Nat.ltb 0 (length topScheduleForDay) then population_ ++ [topScheduleForDay]
        else population_ in
      if Qle_bool (inject_Z (Z.of_nat POPULATION_SIZE) * (2 # 10))
                  (inject_Z (Z.of_nat (length population_)))
      then ret population_
      else seedTopRated day_ rest population_
  end.

Fixpoint fillPopulation (day_ : DayOfWeek) (baseScheduleForDay : option BaseScheduleConfig)
    (learningContext : LearningContext) (missing : nat)
    (population_ : list GeneratedSchedule) : M (list GeneratedSchedule) :=
  match missing with
  | O => ret population_
  | S n =>
      let* seed :=
        constructiveHeuristicInitialization clients therapists day_ selectedDate callouts
          baseScheduleForDay (Some learningContext) in
      fillPopulation day_ baseScheduleForDay learningContext n (population_ ++ [seed])
  end.

Definition initialPopulation (services : Services) (day_ : DayOfWeek)
    (initialScheduleForOptimization : option GeneratedSchedule)
    : M (list GeneratedSchedule) :=
  let baseScheduleForDay :=
    match initialScheduleForOptimization with
    | Some _ => None
    | None => find_ (fun bs => includes (appliesToDays bs) day_) (baseSchedules services)
    end in
  let learningContext := loadLearningContext services in
  let* population_ :=
    match initialScheduleForOptimization,
          match baseScheduleForDay with Some bs => bs_schedule bs | None => None end with
    | Some initial, _ =>
        let* p := repairAndMutate initial clients therapists day_ selectedDate callouts in
        ret [p]
    | None, Some base =>
        let* p := repairAndMutate base clients therapists day_ selectedDate callouts in
        ret [p]
    | None, None => ret []
    end in
  let* population_ :=
    seedTopRated day_ (take 5 (topRatedSchedules learningContext)) population_ in
  fillPopulation day_ baseScheduleForDay learningContext
    (POPULATION_SIZE - length population_) population_.

Definition runCsoAlgorithm (services : Services)
    (initialScheduleForOptimization : option GeneratedSchedule)
    : M GAGenerationResult :=
  let day_ := getDayOfWeekFromDate selectedDate in
  let* population_ := initialPopulation services day_ initialScheduleForOptimization in
  let* st :=
    generationalLoop day_ MAX_GENERATIONS 0
      {| population := population_; bestFitnessOverall := Infinity;
         bestScheduleOverall := None; generationsRun := 0;
         generationsWithoutImprovement := 0 |} in
  let* polished :=
    match bestScheduleOverall st with
    | Some best =>
        let* improved :=
          localSearchImprovement best clients therapists selectedDate callouts 30 in
        ret (Some improved,
             Finite (calculateFitness improved clients therapists selectedDate callouts))
    | None => ret (None, bestFitnessOverall st)
    end in
  let '(bestSchedule, bestFitness_) := polished in
  let finalCleaned :=
    match bestSchedule with
    | Some best => cleanupScheduleIssues best
    | None => []
    end in
  let finalErrors :=
    validateFullSchedule finalCleaned clients therapists (Some selectedDate)
      COMPANY_OPERATING_HOURS_START COMPANY_OPERATING_HOURS_END callouts in
  ret {| res_schedule := finalCleaned;
         finalValidationErrors := finalErrors;
         generations := generationsRun st;
         bestFitness := bestFitness_;
         success := num_ltb bestFitness_ (Finite 500);
         statusMessage :=
           [Txt "Optimization Complete: "; Num (Z.of_nat (generationsRun st));
            Txt " generations. Best Fitness: ";
            match bestFitness_ with
            | Finite q => Num (Qfloor (q + (1 # 2)))
            | Infinity => Txt "Infinity"
            end] |}.

End Run.

End Engine.

(** ** Notions used to state the properties *)

(** The condition the back-to-back rule looks for: an entry [s] of the
    schedule, not the ignored one, with the therapist, client and day of
    [entry], that ends where [entry] starts or starts where it ends. *)
Definition touches (ignoreEntryId : option string) (entry s : ScheduleEntry) : Prop :=
  ignoreEntryId ≠ Some (id s) ∧
  therapistId s = therapistId entry ∧
  clientId s = clientId entry ∧
  day s = day entry ∧
  (endTime s = startTime entry ∨ startTime s = endTime entry).

(** An instant [m] is covered for a client when it lies in the window of a
    callout that targets the client on the selected date, or in an entry of
    the client. *)
Definition coveredAt (schedule : GeneratedSchedule) (clientId_ : string)
    (callouts : list Callout) (selectedDate : JsDate) (m : Z) : Prop :=
  (exists co, co ∈ callouts /\ entityType co = EClient /\ entityId co = clientId_ /\
     isDateAffectedByCalloutRange selectedDate (startDate co) (endDate co) = true /\
     timeToMinutes (co_startTime co) <= m < timeToMinutes (co_endTime co)) \/
  (exists s, s ∈ schedule /\ clientId s = Some clientId_ /\
     timeToMinutes (startTime s) <= m < timeToMinutes (endTime s)).

(** The callout windows and the entries of the client run forward in time. *)
Definition properPeriods (schedule : GeneratedSchedule) (clientId_ : string)
    (callouts : list Callout) (selectedDate : JsDate) : Prop :=
  (forall co, co ∈ callouts -> entityType co = EClient -> entityId co = clientId_ ->
     isDateAffectedByCalloutRange selectedDate (startDate co) (endDate co) = true ->
     timeToMinutes (co_startTime co) < timeToMinutes (co_endTime co)) /\
  (forall s, s ∈ schedule -> clientId s = Some clientId_ ->
     timeToMinutes (startTime s) < timeToMinutes (endTime s)).

(** A gap [g] of the operating window: a non-empty range of instants none of
    which is covered, that cannot be extended on either side. *)
Definition maximalGap (covered : Z -> Prop) (opStart opEnd : Z) (g : Range) : Prop :=
  opStart <= r_start g /\ r_start g < r_end g /\ r_end g <= opEnd /\
  (forall m, r_start g <= m < r_end g -> ~ covered m) /\
  (r_start g = opStart \/ covered (r_start g - 1)) /\
  (r_end g = opEnd \/ covered (r_end g)).

(** Two versions of an entry that agree on everything but the two times. *)
Definition sameButTimes (e e' : ScheduleEntry) : Prop :=
  id e' = id e /\ clientId e' = clientId e /\ clientName e' = clientName e /\
  therapistId e' = therapistId e /\ therapistName e' = therapistName e /\
  day e' = day e /\ sessionType e' = sessionType e.

(** Two versions of an entry that agree on everything but the therapist. *)
Definition sameButTherapist (e e' : ScheduleEntry) : Prop :=
  id e' = id e /\ clientId e' = clientId e /\ clientName e' = clientName e /\
  day e' = day e /\ startTime e' = startTime e /\ endTime e' = endTime e /\
  sessionType e' = sessionType e.

(** The entries of a client, the distinct therapists they name in the order
    of their first occurrence, and the first three of these. *)
Definition entriesOf (schedule : GeneratedSchedule) (clientId_ : string)
    : list ScheduleEntry :=
  List.filter (fun s => opt_is (clientId s) clientId_) schedule.

Definition therapistsOf (schedule : GeneratedSchedule) (clientId_ : string) : list string :=
  uniq (map therapistId (entriesOf schedule clientId_)).

Definition firstThree (schedule : GeneratedSchedule) (clientId_ : string) : list string :=
  take 3 (therapistsOf schedule clientId_).

(** The client carries the Maryland Medicaid marker. *)
Definition isMd (c : Client) : bool :=
  includes (insuranceRequirements c) "MD_MEDICAID"%string.

(** The test that [allowedIds.find] applies to an id: a therapist of the list
    has that id, and the kernel accepts the session under that therapist,
    against the schedule as it stands and with the session itself ignored. *)
Definition swapAccepted (clients : list Client) (therapists : list Therapist)
    (selectedDate : JsDate) (callouts : list Callout)
    (schedule : GeneratedSchedule) (session : ScheduleEntry) (tid : string) : bool :=
  match getTherapistById therapists tid with
  | None => false
  | Some t =>
      valid (canAddEntryToSchedule (with_therapist session t) schedule clients therapists
               selectedDate callouts (Some (id session)))
  end.

(** [bestSub]: the first of the allowed ids that passes the test. *)
Definition bestSub (clients : list Client) (therapists : list Therapist)
    (selectedDate : JsDate) (callouts : list Callout)
    (schedule : GeneratedSchedule) (allowedIds : list string) (session : ScheduleEntry)
    : option string :=
  find_ (swapAccepted clients therapists selectedDate callouts schedule session) allowedIds.

(** One change that the Medicaid cap makes to a schedule, [schedule0] being
    the schedule it was given.  The session belongs to a client of the list
    that carries the marker and had more than three therapists, and its
    therapist is not one of the first three.  It is given the therapist of
    [bestSub], the first of the three that the kernel accepts; or it is
    removed, when the kernel accepts none of them or when [bestSub] is the
    empty string, which [if (bestSub)] takes for none. *)
Inductive capStep (schedule0 : GeneratedSchedule)
    (clients : list Client) (therapists : list Therapist)
    (selectedDate : JsDate) (callouts : list Callout)
    : GeneratedSchedule -> GeneratedSchedule -> Prop :=
  | cap_swap (l1 l2 : list ScheduleEntry) (session : ScheduleEntry) (c : Client)
      (tid : string) (t : Therapist) :
      c ∈ clients -> isMd c = true ->
      (3 < length (therapistsOf schedule0 (cl_id c)))%nat ->
      clientId session = Some (cl_id c) ->
      therapistId session ∉ firstThree schedule0 (cl_id c) ->
      bestSub clients therapists selectedDate callouts (l1 ++ session :: l2)
        (firstThree schedule0 (cl_id c)) session = Some tid ->
      tid <> EmptyString ->
      getTherapistById therapists tid = Some t ->
      capStep schedule0 clients therapists selectedDate callouts
        (l1 ++ session :: l2) (l1 ++ with_therapist session t :: l2)
  | cap_drop (l1 l2 : list ScheduleEntry) (session : ScheduleEntry) (c : Client) :
      c ∈ clients -> isMd c = true ->
      (3 < length (therapistsOf schedule0 (cl_id c)))%nat ->
      clientId session = Some (cl_id c) ->
      therapistId session ∉ firstThree schedule0 (cl_id c) ->
      (forall tid,
         bestSub clients therapists selectedDate callouts (l1 ++ session :: l2)
           (firstThree schedule0 (cl_id c)) session = Some tid ->
         tid = EmptyString) ->
      capStep schedule0 clients therapists selectedDate callouts
        (l1 ++ session :: l2) (l1 ++ l2).

(** What became of an entry [e0] of the client [cid], under a therapist
    outside the first three, at the schedule [mid] and in the result [out]:
    the kernel accepted it under the therapist of [bestSub] and the result
    holds it under that therapist; or [bestSub] was none, or the empty string,
    and the result has no entry of its id. *)
Definition capOutcome (schedule0 : GeneratedSchedule)
    (clients : list Client) (therapists : list Therapist)
    (selectedDate : JsDate) (callouts : list Callout)
    (cid : string) (e0 : ScheduleEntry) (mid out : GeneratedSchedule) : Prop :=
  let best :=
    bestSub clients therapists selectedDate callouts mid (firstThree schedule0 cid) e0 in
  (exists tid t,
     best = Some tid /\ tid <> EmptyString /\ tid ∈ firstThree schedule0 cid /\
     getTherapistById therapists tid = Some t /\
     valid (canAddEntryToSchedule (with_therapist e0 t) mid clients therapists
              selectedDate callouts (Some (id e0))) = true /\
     with_therapist e0 t ∈ out) \/
  ((forall tid, best = Some tid -> tid = EmptyString) /\
   forall e, e ∈ out -> id e <> id e0).

(** [a < b] on the numbers of the engine. *)
Definition num_lt (a b : JsNumber) : Prop :=
  match a, b with
  | Finite x, Finite y => (x < y)%Q
  | Finite _, Infinity => True
  | Infinity, _ => False
  end.

(** The variables of the loop when it is entered. *)
Definition startState (population_ : list GeneratedSchedule) : LoopState :=
  {| population := population_; bestFitnessOverall := Infinity;
     bestScheduleOverall := None; generationsRun := 0;
     generationsWithoutImprovement := 0 |}.

(** The loop is to be left: the best fitness on record is zero, or the last
    thirty generations brought no improvement. *)
Definition stopCondition (st : LoopState) : Prop :=
  (exists q, bestFitnessOverall st = Finite q /\ (q == 0)%Q) \/
  (30 <= generationsWithoutImprovement st)%nat.

(** How the record changes over one generation: the best fitness improved
    and the count of generations without improvement is back at zero, or the
    best fitness is what it was and the count is one more. *)
Definition followsFrom (prev st : LoopState) : Prop :=
  (num_lt (bestFitnessOverall st) (bestFitnessOverall prev) /\
   generationsWithoutImprovement st = 0%nat) \/
  (bestFitnessOverall st = bestFitnessOverall prev /\
   generationsWithoutImprovement st = S (generationsWithoutImprovement prev)).

(** The ranges [[start, end)] of two entries have an instant in common. *)
Definition rangesOverlap (e1 e2 : ScheduleEntry) : Prop :=
  exists m, timeToMinutes (startTime e1) <= m < timeToMinutes (endTime e1) /\
            timeToMinutes (startTime e2) <= m < timeToMinutes (endTime e2).

(** The entry starts and ends on the grid of fifteen minutes, within the day. *)
Definition onGrid (e : ScheduleEntry) : Prop :=
  0 <= timeToMinutes (startTime e) /\
  timeToMinutes (startTime e) mod 15 = 0 /\
  timeToMinutes (endTime e) mod 15 = 0.

(** No two entries of the schedule, at different positions, with ranges that
    overlap, have the same therapist or the same client (a client id that is
    a string other than the empty one). *)
Definition conflictFree (schedule : GeneratedSchedule) : Prop :=
  forall i j e1 e2, i <> j -> schedule !! i = Some e1 -> schedule !! j = Some e2 ->
    rangesOverlap e1 e2 ->
    therapistId e1 <> therapistId e2 /\
    (forall c, clientId e1 = Some c -> clientId e2 = Some c -> c = EmptyString).

(** Two versions of an entry that agree on everything but the id. *)
Definition sameButId (e e' : ScheduleEntry) : Prop :=
  clientId e' = clientId e /\ clientName e' = clientName e /\
  therapistId e' = therapistId e /\ therapistName e' = therapistName e /\
  day e' = day e /\ startTime e' = startTime e /\ endTime e' = endTime e /\
  sessionType e' = sessionType e.

(** The ranges of two entries overlap: the later start is before the earlier
    end. *)
Definition timesOverlap (a b : ScheduleEntry) : bool :=
  Z.max (timeToMinutes (startTime a)) (timeToMinutes (startTime b)) <?
  Z.min (timeToMinutes (endTime a)) (timeToMinutes (endTime b)).

(** A therapist time conflict: two entries of one therapist, on the same
    weekday, that overlap.  A client time conflict: two entries of one
    client, on the same weekday, that overlap; [null] and the empty string
    name no client.  The therapist, the client and the day are compared as
    [hasTherapistConflict] and [hasClientConflict] compare them; on entries
    that run forward in time the overlap is that of [sessionsOverlap]. *)
Definition therapistConflict (a b : ScheduleEntry) : bool :=
  str_eqb (therapistId a) (therapistId b) && bool_decide (day a = day b) &&
  timesOverlap a b.

Definition clientConflict (a b : ScheduleEntry) : bool :=
  truthy (clientId a) && opt_eqb (clientId a) (clientId b) &&
  bool_decide (day a = day b) && timesOverlap a b.

(** The number of pairs of positions of a list whose elements are related. *)
Fixpoint countPairs {A} (P : A -> A -> bool) (l : list A) : nat :=
  match l with
  | [] => 0
  | x :: r => length (List.filter (P x) r) + countPairs P r
  end.

Definition therapistConflicts (schedule : GeneratedSchedule) : nat :=
  countPairs therapistConflict schedule.

Definition clientConflicts (schedule : GeneratedSchedule) : nat :=
  countPairs clientConflict schedule.

(** The entries of the schedule are all on the day [day_]. *)
Definition onDay (day_ : DayOfWeek) (schedule : GeneratedSchedule) : Prop :=
  Forall (fun e => day e = day_) schedule.

(** The entry lies on the grid and runs forward in time; likewise a callout. *)
Definition wellTimed (e : ScheduleEntry) : Prop :=
  onGrid e /\ timeToMinutes (startTime e) < timeToMinutes (endTime e).

Definition calloutWellTimed (co : Callout) : Prop :=
  timeToMinutes (co_startTime co) mod 15 = 0 /\
  timeToMinutes (co_endTime co) mod 15 = 0 /\
  timeToMinutes (co_startTime co) < timeToMinutes (co_endTime co).

(** ** Further notions used to state the properties *)

(** The minutes booked for a therapist: the durations of the therapist's
    entries, added up. *)
Definition bookedMinutes (schedule : GeneratedSchedule) (therapistId_ : string) : Z :=
  sumDurations (List.filter (fun s => str_eqb (therapistId s) therapistId_) schedule).

(** The quarter-hour slots of a range of minutes, as the tracker counts them:
    the slot of the start and those after it, up to the slot of the end,
    which is not included. *)
Definition inSlots (start end_ k : Z) : Prop := timeToBit start <= k < timeToBit end_.

(** The entity is the therapist of the entry, or its client.  A client is
    booked only under an id that is not the empty string. *)
Definition bookedFor (kind : EntityType) (i : string) (e : ScheduleEntry) : Prop :=
  match kind with
  | ETherapist => therapistId e = i
  | EClient => clientId e = Some i /\ i <> EmptyString
  end.

(** Slot [k] is taken for an entity: an entry of the schedule booked for the
    entity, or a callout of the entity on the selected date, has the slot. *)
Definition slotTaken (schedule : GeneratedSchedule) (callouts : list Callout)
    (selectedDate : JsDate) (kind : EntityType) (i : string) (k : Z) : Prop :=
  (exists e, e ∈ schedule /\ bookedFor kind i e /\
     inSlots (timeToMinutes (startTime e)) (timeToMinutes (endTime e)) k) \/
  (exists co, co ∈ callouts /\
     isDateAffectedByCalloutRange selectedDate (startDate co) (endDate co) = true /\
     entityType co = kind /\ entityId co = i /\
     inSlots (timeToMinutes (co_startTime co)) (timeToMinutes (co_endTime co)) k).

(** Slot [k] is set free by ignoring an entry: the id given is not empty, and
    the last entry of the schedule with that id is an entry of the entity and
    has the slot. *)
Definition slotIgnored (schedule : GeneratedSchedule) (kind : EntityType) (i : string)
    (ignoreEntryId : option string) (k : Z) : Prop :=
  exists x e, ignoreEntryId = Some x /\ x <> EmptyString /\
    last (List.filter (fun s => str_eqb (id s) x) schedule) = Some e /\
    match kind with
    | ETherapist => therapistId e = i
    | EClient => clientId e = Some i
    end /\
    inSlots (timeToMinutes (startTime e)) (timeToMinutes (endTime e)) k.

(** The rule ids that the validator of a single entry can report, those that
    the validator of a schedule adds for an entry, for a therapist and for a
    client.  MISSING_TIMES is reported for an entry without a start or an end
    only, and an entry here has both. *)
Definition entryRules : list string :=
  ["INVALID_TIME_ORDER"; "THERAPIST_NOT_FOUND"; "OUTSIDE_THERAPIST_AVAILABILITY";
   "OUTSIDE_OPERATING_HOURS"; "ABA_ON_WEEKEND"; "THERAPIST_TIME_CONFLICT";
   "CLIENT_TIME_CONFLICT"; "SAME_CLIENT_BACK_TO_BACK"; "CLIENT_NOT_FOUND";
   "INSURANCE_MISMATCH"; "ALLIED_HEALTH_QUALIFICATION_MISSING";
   "ALLIED_HEALTH_CERTIFICATION_MISSING"; "ABA_DURATION_TOO_SHORT";
   "ABA_DURATION_TOO_LONG"; "ALLIED_HEALTH_DURATION_INVALID"; "LUNCH_DURATION_INVALID";
   "INDIRECT_TIME_CLIENT_SPECIFIED"; "CLIENT_REQUIRED_FOR_SESSION"]%string.

Definition scheduleEntryRules : list string :=
  ["WRONG_DAY_FOR_ENTRY"; "SESSION_OVERLAPS_CALLOUT"]%string.

Definition therapistRules : list string :=
  ["MAX_NOTES_EXCEEDED"; "BCBA_NO_DIRECT_TIME"; "MISSING_LUNCH_BREAK";
   "LUNCH_OUTSIDE_WINDOW"; "MULTIPLE_LUNCHES"; "LUNCH_WITHOUT_BILLABLE_WORK";
   "THERAPIST_WEEKEND_ABA"]%string.

Definition clientRules : list string :=
  ["MD_MEDICAID_LIMIT_VIOLATED"; "CLIENT_COVERAGE_GAP_AT_TIME"]%string.

(** The rule ids whose penalty alone is 500 or more. *)
Definition heavyRules : list string :=
  ["CLIENT_TIME_CONFLICT"; "THERAPIST_TIME_CONFLICT"; "SAME_CLIENT_BACK_TO_BACK";
   "INSURANCE_MISMATCH"; "SESSION_OVERLAPS_CALLOUT"; "MISSING_LUNCH_BREAK";
   "ABA_DURATION_TOO_SHORT"; "ABA_DURATION_TOO_LONG";
   "MD_MEDICAID_LIMIT_VIOLATED"]%string.

(** The minutes a therapist works: the sessions other than indirect time. *)
Definition workMinutes (schedule : GeneratedSchedule) (therapistId_ : string) : Z :=
  sumDurations
    (List.filter (fun s => str_eqb (therapistId s) therapistId_ &&
                           negb (bool_decide (sessionType s = IndirectTime))) schedule).

(** A time at which a session may be cut for a lunch: an hour or more after
    its start and an hour or more before its end. *)
Definition cutAt (e : ScheduleEntry) (t : Q) : Prop :=
  (inject_Z (timeToMinutes (startTime e) + 60) <= t)%Q /\
  (t <= inject_Z (timeToMinutes (endTime e) - 60))%Q.

(** An entry after the lunch repair: itself, or an ABA session that ends
    earlier, where it was cut. *)
Definition lunchCut (e e' : ScheduleEntry) : Prop :=
  e' = e \/
  (sessionType e = ABA /\ exists t, cutAt e t /\ e' = with_endTime e (minutesToTimeQ t)).

(** An entry the lunch repair adds: a lunch of thirty minutes for a therapist
    of the list, at a time for which the tracker was asked, or the rest of a
    session that was cut, from the end of the lunch to the end of the session. *)
Definition lunchAdded (schedule : GeneratedSchedule) (therapists : list Therapist)
    (tracker : AvailabilityTracker) (day_ : DayOfWeek) (a : ScheduleEntry) : Prop :=
  (exists th t ignore,
     getTherapistById therapists (therapistId a) = Some th /\
     isAvailable tracker ETherapist (therapistId a) (Qfloor t) (Qfloor (t + 30)) ignore = true /\
     a = mkEntry (id a) None None (th_name th) (therapistId a) day_
           (minutesToTimeQ t) (minutesToTimeQ (t + 30)) IndirectTime) \/
  (exists e t,
     e ∈ schedule /\ sessionType e = ABA /\ cutAt e t /\
     a = mkEntry (id a) (clientName e) (clientId e) (therapistName e) (therapistId e) day_
           (minutesToTimeQ (t + 30)) (endTime e) ABA).

(** Nothing of therapist [i] is changed or added. *)
Definition untouchedBy (i : string) (schedule kept added : list ScheduleEntry) : Prop :=
  Forall2 (fun e e' => therapistId e = i -> e' = e) schedule kept /\
  Forall (fun a => therapistId a <> i) added.

(** [errors.some(e => e.ruleId === r)] *)
Definition reports (errors : list ValidationError) (r : string) : bool :=
  some (fun e => str_eqb (ruleId e) r) errors.

(** The rules of the validator that the kernel has a check for. *)
Definition kernelRules : list string :=
  ["THERAPIST_TIME_CONFLICT"; "CLIENT_TIME_CONFLICT"; "SAME_CLIENT_BACK_TO_BACK";
   "SESSION_OVERLAPS_CALLOUT"; "ABA_DURATION_TOO_SHORT"; "ABA_DURATION_TOO_LONG";
   "ALLIED_HEALTH_DURATION_INVALID"; "LUNCH_DURATION_INVALID"; "OUTSIDE_OPERATING_HOURS";
   "INSURANCE_MISMATCH"; "ALLIED_HEALTH_QUALIFICATION_MISSING"]%string.

(** The entries of the base schedule that the seeder starts from: those of the
    day that no callout hits. *)
Definition baseEntries (day_ : DayOfWeek) (selectedDate : JsDate) (callouts : list Callout)
    (baseScheduleForDay : option BaseScheduleConfig) : list ScheduleEntry :=
  match match baseScheduleForDay with Some bs => bs_schedule bs | None => None end with
  | Some base =>
      List.filter (fun entry => negb (calloutHits selectedDate callouts entry) &&
                                bool_decide (day entry = day_)) base
  | None => []
  end.

(** A session the seeder places after the entries [before]: the kernel accepts
    it there, and it is for a client of the list, with a therapist of the list
    who meets the client's insurance requirements; it is an ABA session, or
    serves one of the client's allied health needs for its full duration with
    a therapist who provides the service. *)
Definition placedOk (clients : list Client) (therapists : list Therapist)
    (day_ : DayOfWeek) (selectedDate : JsDate) (callouts : list Callout)
    (before : list ScheduleEntry) (e : ScheduleEntry) : Prop :=
  valid (canAddEntryToSchedule e before clients therapists selectedDate callouts None) = true /\
  day e = day_ /\
  exists c t,
    c ∈ clients /\ t ∈ therapists /\ meetsRequirements c t = true /\
    clientId e = Some (cl_id c) /\ clientName e = Some (cl_name c) /\
    therapistId e = th_id t /\ therapistName e = th_name t /\
    (sessionType e = ABA \/
     exists need, need ∈ alliedHealthNeeds c /\
       sessionType e = sessionTypeOf (ah_type need) /\
       includes (canProvideAlliedHealth t) (ah_type need) = true /\
       duration e = durationMinutes need).

(** A lunch the seeder adds to the sessions [sessions]: thirty minutes of
    indirect time for a therapist of the list who is booked for 300 minutes or
    more and has no indirect time, at the start learned for the therapist or
    at a quarter of an hour from 11:30 to 13:00. *)
Definition seededLunch (therapists : list Therapist) (day_ : DayOfWeek)
    (learningContext : option LearningContext)
    (sessions : list ScheduleEntry) (l : ScheduleEntry) : Prop :=
  sessionType l = IndirectTime /\ clientId l = None /\ clientName l = None /\
  day l = day_ /\ duration l = 30 /\
  (exists th, getTherapistById therapists (therapistId l) = Some th /\
              therapistName l = th_name th) /\
  300 <= bookedMinutes sessions (therapistId l) /\
  therapistHasLunch sessions (therapistId l) = false /\
  ((timeToMinutes IDEAL_LUNCH_WINDOW_START <= timeToMinutes (startTime l)
    <= timeToMinutes IDEAL_LUNCH_WINDOW_END_FOR_START) \/
   (exists lc lp, learningContext = Some lc /\ lp ∈ learnedLunchTimes lc /\
      ll_therapistId lp = therapistId l /\
      timeToMinutes (startTime l) = timeToMinutes (ll_startTime lp))).

(** ** The colour of a client ([utils/colorUtils.ts]) *)

Definition CLIENT_PALETTE : list string :=
  ["#E6194B"; "#3CB44B"; "#FFE119"; "#4363D8"; "#F58231"; "#911EB4"; "#46F0F0"; "#F032E6";
   "#BCF60C"; "#FABEBE"; "#008080"; "#E6BEFF"; "#9A6324"; "#FFFAC8"; "#800000"; "#AAFFC3";
   "#808000"; "#FFD8B1"; "#000075"; "#FFB3BA"; "#FFDFBA"; "#FFFFBA"; "#BAFFC9"; "#BAE1FF";
   "#D4A5A5"; "#FF7F50"; "#6495ED"; "#483D8B"; "#00CED1"; "#9400D3"; "#FF1493"; "#00BFFF";
   "#ADFF2F"; "#FF69B4"; "#CD5C5C"; "#4B0082"; "#F0E68C"; "#7CFC00"; "#FFFAC8"; "#ADD8E6";
   "#F08080"; "#E0FFFF"; "#FAFAD2"; "#90EE90"; "#FFB6C1"; "#FFA07A"; "#20B2AA"; "#87CEFA";
   "#B0C4DE"; "#FFFFE0"; "#00FF00"; "#32CD32"; "#FAF0E6"; "#FF00FF"; "#FF4500"; "#DA70D6";
   "#EEE8AA"; "#98FB98"; "#AFEEEE"; "#DB7093"; "#FFEFD5"; "#FFDAB9"; "#CD853F"; "#FFC0CB";
   "#DDA0DD"; "#B0E0E6"; "#FF0000"; "#BC8F8F"; "#4169E1"; "#8B4513"; "#FA8072"; "#F4A460";
   "#2E8B57"; "#A0522D"; "#87CEEB"; "#6A5ACD"; "#00FF7F"; "#4682B4"; "#D2B48C"; "#008080";
   "#D8BFD8"; "#FF6347"; "#40E0D0"; "#EE82EE"; "#F5DEB3"; "#FFFF00"; "#9ACD32"; "#FF4500";
   "#2E8B57"; "#4682B4"; "#D2691E"; "#FF8C00"; "#0000CD"]%string.

(** [ToInt32]: the whole number is wrapped into [-2^31, 2^31). *)
Definition toInt32 (x : Z) : Z := (x + 2 ^ 31) mod 2 ^ 32 - 2 ^ 31.

(** [x << n] *)
Definition shiftLeft (x n : Z) : Z := toInt32 (Z.shiftl (toInt32 x) n).

(** [hash = id.charCodeAt(i) + ((hash << 5) - hash)]: only the shift wraps. *)
Definition hashStep (hash code : Z) : Z := code + (shiftLeft hash 5 - hash).

(** An id is the sequence of its code units; [None] is [undefined]. *)
Definition getClientColor (id_ : list Z) : option string :=
  let hash := fold_left hashStep id_ 0 in
  let index := Z.abs hash mod Z.of_nat (length CLIENT_PALETTE) in
  CLIENT_PALETTE !! Z.to_nat index.

(** ** The time helpers on strings ([utils/validationService.ts])

    Elsewhere a time is kept as the minutes it stands for.  Here the two
    helpers are followed on the strings themselves, a string being the
    sequence of its code units below 256. *)
Module Text.

Import Stdlib.Strings.Ascii.

(** The white space that [parseInt] skips, among the code units below 256. *)
Definition isWhiteSpace (c : ascii) : bool :=
  bool_decide (nat_of_ascii c ∈ [9; 10; 11; 12; 13; 32; 160]%nat).

Fixpoint trimStart (s : string) : string :=
  match s with
  | String c r => if isWhiteSpace c then trimStart r else s
  | EmptyString => s
  end.

Definition isDigit (c : ascii) : bool :=
  Nat.leb 48 (nat_of_ascii c) && Nat.leb (nat_of_ascii c) 57.

Definition digitValue (c : ascii) : Z := Z.of_nat (nat_of_ascii c) - 48.

(** The value of the longest prefix of decimal digits; [None] when there is
    no digit. *)
Fixpoint digits (s : string) (acc : option Z) : option Z :=
  match s with
  | String c r =>
      if isDigit c then digits r (Some (10 * default 0 acc + digitValue c)) else acc
  | EmptyString => acc
  end.

(** [parseInt(s, 10)]; [None] is [NaN]. *)
Definition parseInt (s : string) : option Z :=
  match trimStart s with
  | String "-"%char r => Z.opp <$> digits r None
  | String "+"%char r => digits r None
  | r => digits r None
  end.

(** [String(n)] for a whole number [n]. *)
Definition toString (n : Z) : string := NilZero.string_of_int (Z.to_int n).

(** [s.padStart(targetLength, c)] for a filler of one character. *)
Definition padStart (targetLength : nat) (c : ascii) (s : string) : string :=
  (fix pad (n : nat) : string :=
     match n with O => s | S k => String c (pad k) end) (targetLength - String.length s)%nat.

(** [s.substring(from, to)] for [from <= to]. *)
Definition substring (from to : nat) (s : string) : string :=
  String.substring from (to - from) s.

Definition timeToMinutes (time : string) : option Z :=
  if bool_decide (time = EmptyString) then Some 0 else
  match parseInt (substring 0 2 time), parseInt (substring 3 5 time) with
  | Some h, Some m => Some (h * 60 + m)
  | _, _ => None
  end.

(** [minutesToTime] at a whole number: [Math.floor] rounds down and [%] takes
    the sign of [totalMinutes]. *)
Definition minutesToTime (totalMinutes : Z) : string :=
  let hours := totalMinutes / 60 in
  let minutes := Z.rem totalMinutes 60 in
  (padStart 2 "0"%char (toString hours) +:+ ":" +:+ padStart 2 "0"%char (toString minutes))%string.

(** The string [HH:MM] of four decimal digits. *)
Definition clock (h1 h2 m1 m2 : ascii) : string :=
  String h1 (String h2 (String ":"%char (String m1 (String m2 EmptyString)))).

End Text.

(** Every entry names a therapist of the list. *)
Definition staffedBy (therapists : list Therapist) (schedule : list ScheduleEntry) : Prop :=
  Forall (fun e => is_Some (getTherapistById therapists (therapistId e))) schedule.

(** An entry as mutation may leave it: as it was, or with both times moved by
    quarters of an hour to where the kernel's checks of the entry alone all
    pass. *)
Definition acceptedChange (clients : list Client) (therapists : list Therapist)
    (selectedDate : JsDate) (callouts : list Callout) (e e' : ScheduleEntry) : Prop :=
  e' = e \/
  (isSessionDurationValid e' = true /\ isWithinOperatingHours e' = true /\
   hasCalloutConflict e' callouts selectedDate = false /\
   hasCredentialMismatch e' clients therapists = false /\
   hasAlliedHealthQualificationMismatch e' therapists = false /\
   (exists k, timeToMinutes (startTime e') = timeToMinutes (startTime e) + 15 * k) /\
   (exists k, timeToMinutes (endTime e') = timeToMinutes (endTime e) + 15 * k)).

(** * Lists: sorting, filtering and duplicate removal *)

(** * Arrays: sorting, distinct elements, filters *)

Lemma insertBy_Permutation {A} (gt : A -> A -> bool) (x : A) (xs : list A) :
  insertBy gt x xs ≡ₚ x :: xs.
Proof.
  induction xs as [|y r IH]; simpl; [done|].
  destruct (gt x y); [|done]. rewrite IH. apply Permutation_swap.
Qed.

Lemma sortBy_Permutation {A} (gt : A -> A -> bool) (xs : list A) :
  sortBy gt xs ≡ₚ xs.
Proof.
  induction xs as [|x r IH]; simpl; [done|].
  unfold sortBy in *. simpl. rewrite insertBy_Permutation. by rewrite IH.
Qed.

Lemma sortByZ_Permutation {A} (cmp : A -> A -> Z) (xs : list A) :
  sortByZ cmp xs ≡ₚ xs.
Proof. apply sortBy_Permutation. Qed.

Lemma elem_of_sortBy {A} (gt : A -> A -> bool) (xs : list A) (x : A) :
  x ∈ sortBy gt xs <-> x ∈ xs.
Proof. by rewrite sortBy_Permutation. Qed.

Lemma elem_of_filter_list {A} (p : A -> bool) (xs : list A) (x : A) :
  x ∈ List.filter p xs <-> x ∈ xs /\ p x = true.
Proof. rewrite !list_elem_of_In. apply filter_In. Qed.

Lemma elem_of_uniq {A} `{EqDecision A} (xs : list A) (x : A) :
  x ∈ uniq xs <-> x ∈ xs.
Proof.
  induction xs as [|y r IH]; simpl; [done|].
  rewrite !elem_of_cons, elem_of_filter_list, IH.
  rewrite negb_true_iff, bool_decide_eq_false.
  destruct (decide (x = y)); tauto.
Qed.

Lemma NoDup_filter_list {A} (p : A -> bool) (xs : list A) :
  NoDup xs -> NoDup (List.filter p xs).
Proof.
  induction 1 as [|x r Hx Hr IH]; simpl; [constructor|].
  destruct (p x); [|done]. constructor; [|done].
  rewrite elem_of_filter_list. tauto.
Qed.

Lemma NoDup_uniq {A} `{EqDecision A} (xs : list A) : NoDup (uniq xs).
Proof.
  induction xs as [|y r IH]; simpl; [constructor|].
  constructor.
  - rewrite elem_of_filter_list, negb_true_iff, bool_decide_eq_false. tauto.
  - by apply NoDup_filter_list.
Qed.

Lemma filter_list_app {A} (p : A -> bool) (xs ys : list A) :
  List.filter p (xs ++ ys) = List.filter p xs ++ List.filter p ys.
Proof. apply List.filter_app. Qed.

Lemma length_filter_le {A} (p : A -> bool) (xs : list A) :
  (length (List.filter p xs) <= length xs)%nat.
Proof. induction xs as [|x r IH]; simpl; [lia|]. destruct (p x); simpl; lia. Qed.

(** * The constraint kernel *)

(** * The constraint kernel *)

Lemma some_true {A} (p : A -> bool) (xs : list A) :
  some p xs = true <-> exists x, x ∈ xs /\ p x = true.
Proof.
  unfold some. rewrite existsb_exists. split; intros (x & H1 & H2); exists x.
  - split; [by apply list_elem_of_In | done].
  - split; [by apply list_elem_of_In | done].
Qed.

Lemma some_false {A} (p : A -> bool) (xs : list A) :
  some p xs = false <-> forall x, x ∈ xs -> p x = false.
Proof.
  split.
  - intros H x Hx. destruct (p x) eqn:E; [|done].
    assert (some p xs = true) by (apply some_true; eauto). congruence.
  - intros H. destruct (some p xs) eqn:E; [|done].
    apply some_true in E as (x & Hx & Hp). rewrite (H x Hx) in Hp. done.
Qed.

Lemma truthy_spec (c : option string) :
  truthy c = true <-> exists x, c = Some x /\ x <> EmptyString.
Proof.
  destruct c as [x|]; simpl.
  - rewrite negb_true_iff, bool_decide_eq_false. split.
    + intros H. exists x. done.
    + intros (y & [= ->] & H). done.
  - split; [done | intros (y & H & _); done].
Qed.

Lemma notIgnored_spec (s : ScheduleEntry) (ig : option string) :
  notIgnored s ig = true <-> ig <> Some (id s).
Proof.
  unfold notIgnored, opt_is. rewrite negb_true_iff, bool_decide_eq_false. done.
Qed.

Lemma touches_decide (ig : option string) (entry s : ScheduleEntry) :
  notIgnored s ig && str_eqb (therapistId s) (therapistId entry) &&
  opt_eqb (clientId s) (clientId entry) && bool_decide (day s = day entry) &&
  (bool_decide (endTime s = startTime entry) || bool_decide (startTime s = endTime entry))
  = true <-> touches ig entry s.
Proof.
  unfold touches, str_eqb, opt_eqb.
  rewrite !andb_true_iff, orb_true_iff, notIgnored_spec, !bool_decide_eq_true.
  tauto.
Qed.

Lemma hasSameClientBackToBackConflict_spec schedule entry ig :
  hasSameClientBackToBackConflict schedule entry ig = true <->
  truthy (clientId entry) = true /\ exists s, s ∈ schedule /\ touches ig entry s.
Proof.
  unfold hasSameClientBackToBackConflict.
  destruct (truthy (clientId entry)); simpl.
  - rewrite some_true. split.
    + intros (s & Hs & H). split; [done|]. exists s. split; [done|].
      by apply touches_decide.
    + intros (_ & s & Hs & H). exists s. split; [done|]. by apply touches_decide.
  - split; [done | intros [? _]; done].
Qed.

(** C6 (as amended).  [hasSameClientBackToBackConflict] returns true exactly
    when the client id of the entry is neither null nor the empty string and
    some entry of the schedule, other than the ignored one, has the same
    therapist, client and day and ends where the entry starts or starts where
    it ends.  Whenever it returns true, [canAddEntryToSchedule] reports a hard
    violation and is not valid. *)
Theorem back_to_back_conflict_characterised
    (schedule : GeneratedSchedule) (entry : ScheduleEntry) (ignoreEntryId : option string)
    (clients : list Client) (therapists : list Therapist)
    (selectedDate : JsDate) (callouts : list Callout) :
  (hasSameClientBackToBackConflict schedule entry ignoreEntryId = true <->
     (exists c, clientId entry = Some c /\ c <> EmptyString) /\
     (exists s, s ∈ schedule /\ touches ignoreEntryId entry s)) /\
  (hasSameClientBackToBackConflict schedule entry ignoreEntryId = true ->
     let v := canAddEntryToSchedule entry schedule clients therapists
                selectedDate callouts ignoreEntryId in
     valid v = false /\ exists x, x ∈ violations v /\ cv_type x = hard).
Proof.
  split.
  - rewrite hasSameClientBackToBackConflict_spec, truthy_spec. done.
  - intros H. unfold canAddEntryToSchedule. rewrite H. cbn zeta.
    set (v := {| cv_type := hard; severity := 100;
                 cv_message := "Therapist cannot have contiguous sessions with the same client (back-to-back forbidden)" |}).
    split.
    + simpl. apply bool_decide_eq_false. rewrite !length_app. simpl.
      destruct (violationIf _ _), (violationIf _ _); simpl; lia.
    + exists v. split; [|done]. simpl.
      rewrite !elem_of_app. right. right. apply list_elem_of_here.
Qed.

(** C6, the claim as stated, fails at the empty string: an entry whose client
    id is the empty string has a client that is not null, and the schedule holds an entry
    with the same therapist, client and day that ends where it starts; yet
    the predicate returns false. *)
Lemma back_to_back_empty_client_id :
  let t900 := {| mins := 540; half := false |} in
  let t1000 := {| mins := 600; half := false |} in
  let t1100 := {| mins := 660; half := false |} in
  let s := mkEntry "e1" (Some EmptyString) (Some EmptyString) "Tina" "t1" MONDAY t900 t1000 ABA in
  let entry := mkEntry "e2" (Some EmptyString) (Some EmptyString) "Tina" "t1" MONDAY t1000 t1100 ABA in
  clientId entry <> None /\
  s ∈ [s] /\ touches None entry s /\
  hasSameClientBackToBackConflict [s] entry None = false.
Proof.
  cbv zeta. split; [done|]. split; [apply list_elem_of_here|]. split.
  - unfold touches. simpl. split; [done|]. repeat split. by left.
  - reflexivity.
Qed.

(** * The availability tracker *)

(** * The availability tracker *)

(** ** Range masks, bit by bit *)

Lemma getRangeMask_testbit (start end_ k : Z) :
  0 <= start -> 0 <= k ->
  Z.testbit (getRangeMask start end_) k =
  (timeToBit start <=? k) && (k <? timeToBit end_).
Proof.
  intros Hs Hk. unfold getRangeMask, timeToBit.
  assert (0 <= start / 15) by (apply Z.div_pos; lia).
  destruct (Z.leb_spec (end_ / 15 - start / 15) 0) as [Hle|Hgt].
  - rewrite Z.bits_0. symmetry. apply andb_false_iff.
    destruct (Z.leb_spec (start / 15) k); [right; apply Z.ltb_ge; lia | by left].
  - rewrite Z.shiftl_spec by done.
    replace (Z.shiftl 1 (end_ / 15 - start / 15) - 1)
      with (Z.ones (end_ / 15 - start / 15))
      by (rewrite Z.ones_equiv, Z.shiftl_1_l; lia).
    destruct (Z.leb_spec (start / 15) k) as [H1|H1]; simpl.
    + rewrite Z.testbit_ones by lia.
      destruct (Z.leb_spec 0 (k - start / 15)); [|lia]. simpl.
      destruct (Z.ltb_spec (k - start / 15) (end_ / 15 - start / 15)),
               (Z.ltb_spec k (end_ / 15)); done || lia.
    + apply Z.testbit_neg_r. lia.
Qed.

Lemma getRangeMask_nonneg_bits (start end_ k : Z) :
  0 <= start -> Z.testbit (getRangeMask start end_) k = true ->
  timeToBit start <= k < timeToBit end_.
Proof.
  intros Hs Hb.
  destruct (Z.neg_nonneg_cases k) as [Hk|Hk]; [by rewrite Z.testbit_neg_r in Hb|].
  rewrite getRangeMask_testbit in Hb by done.
  apply andb_true_iff in Hb as [H1 H2]. lia.
Qed.

Lemma land_eq_0_iff (m q : Z) :
  (Z.land m q =? 0) = true <->
  forall k, 0 <= k -> Z.testbit q k = true -> Z.testbit m k = false.
Proof.
  rewrite Z.eqb_eq. split.
  - intros H k Hk Hq.
    assert (Hbit : Z.testbit (Z.land m q) k = false) by (rewrite H; apply Z.bits_0).
    rewrite Z.land_spec, Hq, andb_true_r in Hbit. done.
  - intros H. apply Z.bits_inj'. intros k Hk.
    rewrite Z.land_spec, Z.bits_0.
    destruct (Z.testbit q k) eqn:Hq; [|apply andb_false_r].
    rewrite (H k Hk Hq). done.
Qed.

(** The slots of a grid-aligned range are the whole of the range. *)
Lemma timeToBit_aligned (a : Z) : a mod 15 = 0 -> a = 15 * timeToBit a.
Proof. unfold timeToBit. intros H. rewrite (Z.div_mod a 15) at 1 by lia. lia. Qed.

(** ** Masks after a booking *)

Lemma maskOf_orMask (masks : gmap string Z) (i j : string) (mask : Z) :
  maskOf (orMask masks i mask) j =
  if decide (i = j) then Z.lor (maskOf masks j) mask else maskOf masks j.
Proof.
  unfold maskOf, orMask. rewrite lookup_insert. destruct (decide (i = j)); subst; done.
Qed.

Lemma maskOf_empty (i : string) : maskOf ∅ i = 0.
Proof. unfold maskOf. by rewrite lookup_empty. Qed.

Lemma isAvailable_no_ignore tr kind i start end_ :
  isAvailable tr kind i start end_ None =
  (Z.land (match kind with
           | ETherapist => maskOf (therapistMasks tr) i
           | EClient => maskOf (clientMasks tr) i
           end) (getRangeMask start end_) =? 0).
Proof. unfold isAvailable. simpl. by destruct kind. Qed.

(** The query against the mask of a single booked range. *)
Lemma single_range_query (a b x y : Z) :
  0 <= a -> a < b -> a mod 15 = 0 -> b mod 15 = 0 ->
  0 <= x -> x mod 15 = 0 -> y mod 15 = 0 ->
  (Z.land (Z.lor 0 (getRangeMask a b)) (getRangeMask x y) =? 0) =
  negb ((x <? y) && (x <? b) && (a <? y)).
Proof.
  intros Ha Hab Ha' Hb' Hx Hx' Hy'.
  pose proof (timeToBit_aligned a Ha') as Ea.
  pose proof (timeToBit_aligned b Hb') as Eb.
  pose proof (timeToBit_aligned x Hx') as Ex.
  pose proof (timeToBit_aligned y Hy') as Ey.
  rewrite Z.lor_0_l.
  destruct ((x <? y) && (x <? b) && (a <? y)) eqn:E; simpl.
  - apply andb_true_iff in E as [E E3]. apply andb_true_iff in E as [E1 E2].
    apply Z.ltb_lt in E1, E2, E3.
    apply not_true_is_false. intros H.
    pose proof (proj1 (land_eq_0_iff _ _) H (Z.max (timeToBit a) (timeToBit x))) as Hk.
    rewrite !getRangeMask_testbit in Hk by lia.
    assert (Hc : (timeToBit a <=? Z.max (timeToBit a) (timeToBit x)) &&
                 (Z.max (timeToBit a) (timeToBit x) <? timeToBit b) = false).
    { apply Hk; [lia|]. apply andb_true_iff. split; [apply Z.leb_le | apply Z.ltb_lt]; lia. }
    apply andb_false_iff in Hc as [Hc|Hc]; [apply Z.leb_gt in Hc | apply Z.ltb_ge in Hc]; lia.
  - apply land_eq_0_iff. intros k Hk Hq.
    apply getRangeMask_nonneg_bits in Hq; [|done].
    rewrite getRangeMask_testbit by done.
    apply andb_false_iff.
    destruct (Z.leb_spec (timeToBit a) k); [|by left]. right. apply Z.ltb_ge.
    apply andb_false_iff in E as [E|E]; [apply andb_false_iff in E as [E|E]|];
      apply Z.ltb_ge in E; lia.
Qed.

(** C5 (as amended).  On a tracker built from an empty schedule and no
    callouts, after [book(t, c, a, b)] for a non-empty grid-aligned range of
    the day ([0 <= a < b]), the therapist [t] is not available on a non-empty
    grid-aligned range that overlaps [[a, b)], and is available on a
    grid-aligned range that is empty or lies apart from it.  The same holds
    for the client when its id is neither null nor the empty string. *)
Theorem book_then_isAvailable
    (selectedDate : JsDate) (t : string) (c : option string) (a b x y : Z) :
  0 <= a -> a < b -> a mod 15 = 0 -> b mod 15 = 0 ->
  0 <= x -> x mod 15 = 0 -> y mod 15 = 0 ->
  let tr := book (newTracker [] [] selectedDate) t c a b in
  (x < y -> x < b -> a < y -> isAvailable tr ETherapist t x y None = false) /\
  (y <= x \/ b <= x \/ y <= a -> isAvailable tr ETherapist t x y None = true) /\
  (forall cid, c = Some cid -> cid <> EmptyString ->
     (x < y -> x < b -> a < y -> isAvailable tr EClient cid x y None = false) /\
     (y <= x \/ b <= x \/ y <= a -> isAvailable tr EClient cid x y None = true)).
Proof.
  intros Ha Hab Ha' Hb' Hx Hx' Hy' tr.
  assert (Ht : isAvailable tr ETherapist t x y None =
               negb ((x <? y) && (x <? b) && (a <? y))).
  { rewrite isAvailable_no_ignore. unfold tr, book. cbn [therapistMasks].
    rewrite maskOf_orMask. rewrite decide_True by done.
    change (therapistMasks (newTracker [] [] selectedDate)) with (∅ : gmap string Z).
    rewrite maskOf_empty. by apply single_range_query. }
  assert (Hc : forall cid, c = Some cid -> cid <> EmptyString ->
               isAvailable tr EClient cid x y None =
               negb ((x <? y) && (x <? b) && (a <? y))).
  { intros cid -> Hne. rewrite isAvailable_no_ignore. unfold tr, book. cbn [clientMasks].
    replace (truthy (Some cid)) with true
      by (symmetry; simpl; apply negb_true_iff, bool_decide_eq_false; done).
    rewrite maskOf_orMask. rewrite decide_True by done.
    change (clientMasks (newTracker [] [] selectedDate)) with (∅ : gmap string Z).
    rewrite maskOf_empty. by apply single_range_query. }
  assert (Hov : x < y -> x < b -> a < y -> negb ((x <? y) && (x <? b) && (a <? y)) = false).
  { intros. apply negb_false_iff. rewrite !andb_true_iff, !Z.ltb_lt. done. }
  assert (Hdis : y <= x \/ b <= x \/ y <= a ->
                 negb ((x <? y) && (x <? b) && (a <? y)) = true).
  { intros H. apply negb_true_iff. rewrite !andb_false_iff, !Z.ltb_ge. tauto. }
  split; [|split].
  - intros. rewrite Ht. by apply Hov.
  - intros. rewrite Ht. by apply Hdis.
  - intros cid Hcid Hne. split; intros; rewrite (Hc cid Hcid Hne); [by apply Hov | by apply Hdis].
Qed.

(** The theorem at 09:00-10:00 booked and 09:30-10:30 asked. *)
Lemma book_then_isAvailable_witness :
  let tr := book (newTracker [] [] {| dayNumber := 4 |}) "t1" (Some "c1") 540 600 in
  isAvailable tr ETherapist "t1" 570 630 None = false /\
  isAvailable tr EClient "c1" 570 630 None = false.
Proof.
  pose proof (book_then_isAvailable {| dayNumber := 4 |} "t1" (Some "c1") 540 600 570 630
                ltac:(lia) ltac:(lia) ltac:(reflexivity) ltac:(reflexivity)
                ltac:(lia) ltac:(reflexivity) ltac:(reflexivity)) as (H1 & _ & H3).
  split.
  - apply H1; lia.
  - apply (H3 "c1"%string); [reflexivity | discriminate | lia | lia | lia].
Defined.

(** C5, the claim as stated, fails at the empty string: [book] tests
    [if (clientId)], so a client whose id is the empty string is not null and yet is not
    booked, and stays available on the very range that was booked. *)
Lemma book_empty_client_id_not_booked :
  let tr := book (newTracker [] [] {| dayNumber := 4 |}) "t1" (Some EmptyString) 540 600 in
  Some EmptyString <> None /\
  isAvailable tr ETherapist "t1" 540 600 None = false /\
  isAvailable tr EClient EmptyString 540 600 None = true.
Proof. cbv zeta. split; [done|]. split; reflexivity. Qed.

(** A range before midnight is outside the day: the shift by a negative
    count drops the bits of the mask. *)
Lemma book_negative_range_not_booked :
  let tr := book (newTracker [] [] {| dayNumber := 4 |}) "t1" None (-15) 0 in
  isAvailable tr ETherapist "t1" (-15) 0 None = true.
Proof. reflexivity. Qed.

(** * Coverage gaps *)

(** * Coverage gaps *)

Section Gaps.

Variables opStart opEnd : Z.
Hypothesis window : opStart < opEnd.

(** Covered by one of the busy periods met so far. *)
Definition coveredBy (busy : list Range) (m : Z) : Prop :=
  exists b, b ∈ busy /\ r_start b <= m < r_end b.

(** Two ranges, the first wholly before the second, with an instant between. *)
Definition apart (g h : Range) : Prop := r_end g < r_start h.

(** What the loop over the busy periods maintains. *)
Record GapInv (busy ranges : list Range) : Prop := {
  gi_maximal : forall g, g ∈ ranges -> maximalGap (coveredBy busy) opStart opEnd g;
  gi_complete : forall m, opStart <= m < opEnd -> ~ coveredBy busy m ->
                exists g, g ∈ ranges /\ r_start g <= m < r_end g;
  gi_sorted : StronglySorted apart ranges
}.

Lemma coveredBy_cons b busy m :
  coveredBy (b :: busy) m <-> r_start b <= m < r_end b \/ coveredBy busy m.
Proof.
  unfold coveredBy. split.
  - intros (x & Hx & Hm). apply elem_of_cons in Hx as [->|Hx]; [by left | right; eauto].
  - intros [H|(x & Hx & Hm)].
    + exists b. split; [apply list_elem_of_here | done].
    + exists x. split; [by apply list_elem_of_further | done].
Qed.

Lemma GapInv_init : GapInv [] [{| r_start := opStart; r_end := opEnd |}].
Proof.
  split.
  - intros g Hg. apply list_elem_of_singleton in Hg as ->.
    unfold maximalGap. simpl. repeat split; try lia; try by left.
    intros m _ (b & Hb & _). by apply elem_of_nil in Hb.
  - intros m Hm _. eexists. split; [apply list_elem_of_here | done].
  - repeat constructor.
Qed.

(** The pieces that remain of one range when a busy period is taken away. *)
Definition remains (busy range : Range) : list Range :=
  if (r_end busy <=? r_start range) || (r_end range <=? r_start busy) then [range]
  else
    (if r_start range <? r_start busy
     then [{| r_start := r_start range; r_end := r_start busy |}] else []) ++
    (if r_end busy <? r_end range
     then [{| r_start := r_end busy; r_end := r_end range |}] else []).

Lemma subtractBusy_flat_map busy ranges :
  subtractBusy busy ranges = flat_map (remains busy) ranges.
Proof. reflexivity. Qed.

Lemma elem_of_remains b g p :
  p ∈ remains b g ->
  (p = g /\ (r_end b <= r_start g \/ r_end g <= r_start b)) \/
  (p = {| r_start := r_start g; r_end := r_start b |} /\
   r_start g < r_start b /\ r_start g < r_end b /\ r_start b < r_end g) \/
  (p = {| r_start := r_end b; r_end := r_end g |} /\
   r_end b < r_end g /\ r_start g < r_end b /\ r_start b < r_end g).
Proof.
  unfold remains.
  destruct (Z.leb_spec (r_end b) (r_start g)), (Z.leb_spec (r_end g) (r_start b));
    simpl; try (intros ->%list_elem_of_singleton; left; split; [done | lia]).
  destruct (Z.ltb_spec (r_start g) (r_start b)), (Z.ltb_spec (r_end b) (r_end g)); simpl;
    rewrite ?elem_of_cons, ?elem_of_nil; intros Hp;
    repeat match goal with H : _ \/ _ |- _ => destruct H end; try done; subst;
    (right; left; split; [done | lia]) || (right; right; split; [done | lia]).
Qed.

Lemma remains_sorted b g :
  r_start b < r_end b -> StronglySorted apart (remains b g).
Proof.
  intros Hb. unfold remains.
  destruct (_ || _); [repeat constructor|].
  destruct (_ <? _), (_ <? _); simpl; repeat constructor. unfold apart. simpl. lia.
Qed.

Lemma remains_within b g p :
  r_start g < r_end g -> p ∈ remains b g ->
  r_start g <= r_start p /\ r_end p <= r_end g.
Proof.
  intros Hg Hp. apply elem_of_remains in Hp as [[-> _]|[[-> H]|[-> H]]]; simpl; lia.
Qed.

Lemma flat_map_sorted (f : Range -> list Range) (l : list Range) :
  StronglySorted apart l ->
  (forall g, g ∈ l -> StronglySorted apart (f g) /\
     forall p, p ∈ f g -> r_start g <= r_start p /\ r_end p <= r_end g) ->
  StronglySorted apart (flat_map f l).
Proof.
  induction 1 as [|g r Hr IH Hall]; intros Hf; simpl; [constructor|].
  apply StronglySorted_app. split; [|split].
  - intros x1 x2 H1 H2.
    apply list_elem_of_In, in_flat_map in H2 as (h & Hh & H2).
    apply list_elem_of_In in Hh, H2.
    destruct (Hf g (list_elem_of_here _ _)) as [_ Hg].
    destruct (Hf h (list_elem_of_further _ _ _ Hh)) as [_ Hh'].
    rewrite Forall_forall in Hall. specialize (Hall h Hh).
    specialize (Hg x1 H1). specialize (Hh' x2 H2). unfold apart in *. lia.
  - by apply Hf, list_elem_of_here.
  - apply IH. intros h Hh. by apply Hf, list_elem_of_further.
Qed.

Lemma GapInv_step b busy ranges :
  r_start b < r_end b -> GapInv busy ranges -> GapInv (b :: busy) (subtractBusy b ranges).
Proof.
  intros Hb [Hmax Hall Hsort]. rewrite subtractBusy_flat_map. split.
  - intros p Hp.
    apply list_elem_of_In, in_flat_map in Hp as (g & Hg & Hp).
    apply list_elem_of_In in Hg, Hp.
    destruct (Hmax g Hg) as (G1 & G2 & G3 & G4 & G5 & G6).
    apply elem_of_remains in Hp as [[-> Hd]|[[-> Hd]|[-> Hd]]];
      unfold maximalGap; simpl; (split; [lia|]); (split; [lia|]); (split; [lia|]).
    + split; [|split].
      * intros m Hm. rewrite coveredBy_cons. intros [H|H]; [lia | by apply (G4 m)].
      * destruct G5 as [G5|G5]; [by left | right; apply coveredBy_cons; by right].
      * destruct G6 as [G6|G6]; [by left | right; apply coveredBy_cons; by right].
    + split; [|split].
      * intros m Hm. rewrite coveredBy_cons. intros [H|H]; [lia | apply (G4 m); [lia | done]].
      * destruct G5 as [G5|G5]; [by left | right; apply coveredBy_cons; by right].
      * right. apply coveredBy_cons. left. lia.
    + split; [|split].
      * intros m Hm. rewrite coveredBy_cons. intros [H|H]; [lia | apply (G4 m); [lia | done]].
      * right. apply coveredBy_cons. left. lia.
      * destruct G6 as [G6|G6]; [by left | right; apply coveredBy_cons; by right].
  - intros m Hm Hnc.
    assert (Hnb : ~ (r_start b <= m < r_end b)) by (intros H; apply Hnc, coveredBy_cons; by left).
    assert (Hno : ~ coveredBy busy m) by (intros H; apply Hnc, coveredBy_cons; by right).
    destruct (Hall m Hm Hno) as (g & Hg & Hmg).
    assert (Hex : exists p, p ∈ remains b g /\ r_start p <= m < r_end p).
    { unfold remains.
      destruct (Z.leb_spec (r_end b) (r_start g)), (Z.leb_spec (r_end g) (r_start b)); simpl;
        try (exists g; split; [apply list_elem_of_here | done]).
      destruct (Z.ltb_spec (r_start g) (r_start b)), (Z.ltb_spec (r_end b) (r_end g)); simpl.
      - destruct (Z.lt_ge_cases m (r_start b)).
        + eexists. split; [apply list_elem_of_here | simpl; lia].
        + eexists. split; [apply list_elem_of_further, list_elem_of_here | simpl; lia].
      - eexists. split; [apply list_elem_of_here | simpl; lia].
      - eexists. split; [apply list_elem_of_here | simpl; lia].
      - lia. }
    destruct Hex as (p & Hp & Hmp). exists p. split; [|done].
    apply list_elem_of_In, in_flat_map. exists g. by rewrite <- !list_elem_of_In.
  - apply flat_map_sorted; [done|]. intros g Hg. split.
    + by apply remains_sorted.
    + intros p Hp. apply (remains_within b g p); [|done].
      destruct (Hmax g Hg) as (_ & ? & _). done.
Qed.

Lemma GapInv_fold bs busy ranges :
  Forall (fun b => r_start b < r_end b) bs ->
  GapInv busy ranges ->
  GapInv (rev bs ++ busy) (fold_left (fun rs b => subtractBusy b rs) bs ranges).
Proof.
  intros Hbs. revert busy ranges.
  induction Hbs as [|b bs Hb Hbs IH]; intros busy ranges Hinv; simpl; [done|].
  rewrite <- app_assoc. simpl. apply IH. by apply GapInv_step.
Qed.

Lemma coveredBy_ext busy busy' m :
  (forall b, b ∈ busy <-> b ∈ busy') -> coveredBy busy m <-> coveredBy busy' m.
Proof. intros H. unfold coveredBy. split; intros (b & Hb & Hm); exists b; by rewrite ?H in *. Qed.

End Gaps.

Lemma coveredBy_clientBusyPeriods schedule cid callouts date m :
  coveredBy (clientBusyPeriods schedule cid callouts date) m <->
  coveredAt schedule cid callouts date m.
Proof.
  unfold coveredBy, coveredAt, clientBusyPeriods, str_eqb. split.
  - intros (b & Hb & Hm). apply elem_of_app in Hb as [Hb|Hb].
    + apply list_elem_of_fmap in Hb as (co & -> & Hco).
      apply elem_of_filter_list in Hco as [Hco Hp].
      rewrite !andb_true_iff, !bool_decide_eq_true in Hp. destruct Hp as [[? ?] ?].
      left. exists co. simpl in Hm. done.
    + apply list_elem_of_fmap in Hb as (s & -> & Hs).
      apply elem_of_filter_list in Hs as [Hs Hp].
      unfold opt_is in Hp. rewrite bool_decide_eq_true in Hp.
      right. exists s. simpl in Hm. done.
  - intros [(co & Hco & H1 & H2 & H3 & Hm)|(s & Hs & H1 & Hm)].
    + exists {| r_start := timeToMinutes (co_startTime co);
                r_end := timeToMinutes (co_endTime co) |}.
      split; [|exact Hm]. apply elem_of_app. left.
      apply list_elem_of_In, in_map_iff. exists co. split; [done|].
      apply list_elem_of_In, elem_of_filter_list. split; [done|].
      rewrite !andb_true_iff, !bool_decide_eq_true. done.
    + exists {| r_start := timeToMinutes (startTime s);
                r_end := timeToMinutes (endTime s) |}.
      split; [|exact Hm]. apply elem_of_app. right.
      apply list_elem_of_In, in_map_iff. exists s. split; [done|].
      apply list_elem_of_In, elem_of_filter_list. split; [done|].
      unfold opt_is. by rewrite bool_decide_eq_true.
Qed.

Lemma proper_clientBusyPeriods schedule cid callouts date :
  properPeriods schedule cid callouts date ->
  Forall (fun b => r_start b < r_end b) (clientBusyPeriods schedule cid callouts date).
Proof.
  intros [Hco Hs]. apply Forall_forall. intros b Hb.
  unfold clientBusyPeriods, str_eqb in Hb. apply elem_of_app in Hb as [Hb|Hb].
  - apply list_elem_of_fmap in Hb as (co & -> & Hin).
    apply elem_of_filter_list in Hin as [Hin Hp].
    rewrite !andb_true_iff, !bool_decide_eq_true in Hp. destruct Hp as [[? ?] ?].
    simpl. by apply Hco.
  - apply list_elem_of_fmap in Hb as (s & -> & Hin).
    apply elem_of_filter_list in Hin as [Hin Hp].
    unfold opt_is in Hp. rewrite bool_decide_eq_true in Hp. simpl. by apply Hs.
Qed.

Lemma coveredBy_dec busy m : coveredBy busy m \/ ~ coveredBy busy m.
Proof.
  induction busy as [|b r IH].
  - right. intros (x & Hx & _). by apply elem_of_nil in Hx.
  - rewrite coveredBy_cons.
    destruct (Z.le_gt_cases (r_start b) m), (Z.lt_ge_cases m (r_end b)), IH;
      try (left; by eauto); right; intros [?|?]; (lia || done).
Qed.

Lemma filter_all {A} (p : A -> bool) (xs : list A) :
  (forall x, x ∈ xs -> p x = true) -> List.filter p xs = xs.
Proof.
  induction xs as [|x r IH]; intros H; simpl; [done|].
  rewrite (H x (list_elem_of_here _ _)). f_equal. apply IH.
  intros y Hy. by apply H, list_elem_of_further.
Qed.

(** Two maximal gaps that share an instant are the same gap. *)
Lemma maximalGap_unique covered opStart opEnd g h m :
  maximalGap covered opStart opEnd g -> maximalGap covered opStart opEnd h ->
  r_start g <= m < r_end g -> r_start h <= m < r_end h -> g = h.
Proof.
  intros (G1 & G2 & G3 & G4 & G5 & G6) (H1 & H2 & H3 & H4 & H5 & H6) Hg Hh.
  assert (r_start g = r_start h).
  { destruct (Z.lt_trichotomy (r_start g) (r_start h)) as [Hlt|[Heq|Hgt]]; [|done|].
    - destruct H5 as [H5|H5]; [lia|]. exfalso. apply (G4 (r_start h - 1)); [lia | done].
    - destruct G5 as [G5|G5]; [lia|]. exfalso. apply (H4 (r_start g - 1)); [lia | done]. }
  assert (r_end g = r_end h).
  { destruct (Z.lt_trichotomy (r_end g) (r_end h)) as [Hlt|[Heq|Hgt]]; [|done|].
    - destruct G6 as [G6|G6]; [lia|]. exfalso. apply (H4 (r_end g)); [lia | done].
    - destruct H6 as [H6|H6]; [lia|]. exfalso. apply (G4 (r_end h)); [lia | done]. }
  destruct g, h. simpl in *. by subst.
Qed.

Lemma maximalGap_ext (c1 c2 : Z -> Prop) opStart opEnd g :
  (forall m, c1 m <-> c2 m) -> maximalGap c1 opStart opEnd g -> maximalGap c2 opStart opEnd g.
Proof.
  intros Hc (G1 & G2 & G3 & G4 & G5 & G6). unfold maximalGap.
  repeat split; try done.
  - intros m Hm. rewrite <- Hc. by apply G4.
  - destruct G5; [by left | right; by apply Hc].
  - destruct G6; [by left | right; by apply Hc].
Qed.

Lemma StronglySorted_apart_NoDup (l : list Range) :
  (forall g, g ∈ l -> r_start g < r_end g) -> StronglySorted apart l -> NoDup l.
Proof.
  intros Hne. induction 1 as [|g r Hr IH Hall]; [constructor|].
  constructor.
  - intros Hin. rewrite Forall_forall in Hall. specialize (Hall g Hin).
    specialize (Hne g (list_elem_of_here _ _)). unfold apart in Hall. lia.
  - apply IH. intros h Hh. by apply Hne, list_elem_of_further.
Qed.

(** What the subtraction of the busy periods leaves, when they all run
    forward: maximal gaps, one for every instant that is not covered, in
    ascending order and apart. *)
Lemma coverage_gaps_inv
    (schedule : GeneratedSchedule) (clientId_ : string)
    (callouts : list Callout) (selectedDate : JsDate) :
  properPeriods schedule clientId_ callouts selectedDate ->
  let gaps := getClientCoverageGaps schedule clientId_ callouts selectedDate in
  let covered := coveredAt schedule clientId_ callouts selectedDate in
  let opStart := timeToMinutes COMPANY_OPERATING_HOURS_START in
  let opEnd := timeToMinutes COMPANY_OPERATING_HOURS_END in
  (forall g, g ∈ gaps -> maximalGap covered opStart opEnd g) /\
  (forall m, opStart <= m < opEnd -> ~ covered m ->
             exists g, g ∈ gaps /\ r_start g <= m < r_end g) /\
  StronglySorted (fun g h => r_end g < r_start h) gaps /\
  (forall m, covered m \/ ~ covered m).
Proof.
  intros Hproper gaps covered opStart opEnd.
  set (busy := sortByZ (fun a b => r_start a - r_start b)
                 (clientBusyPeriods schedule clientId_ callouts selectedDate)).
  assert (Hbusy : Forall (fun b => r_start b < r_end b) busy).
  { unfold busy. rewrite sortByZ_Permutation. by apply proper_clientBusyPeriods. }
  pose proof (GapInv_fold opStart opEnd busy [] _ Hbusy
                (GapInv_init opStart opEnd ltac:(unfold opStart, opEnd; simpl; lia)))
    as [Hmax Hall Hsort].
  rewrite app_nil_r in Hmax, Hall.
  assert (Hcov : forall m, coveredBy (rev busy) m <-> covered m).
  { intros m. unfold covered. rewrite <- coveredBy_clientBusyPeriods.
    apply coveredBy_ext. intros b.
    rewrite (list_elem_of_In (rev busy)), <- in_rev, <- list_elem_of_In.
    unfold busy. by rewrite sortByZ_Permutation. }
  assert (Hgaps : gaps = fold_left (fun rs b => subtractBusy b rs) busy
                           [{| r_start := opStart; r_end := opEnd |}]).
  { unfold gaps, getClientCoverageGaps, getClientCoverageGapsIn. cbn zeta.
    apply filter_all. intros g Hg. apply Z.ltb_lt.
    destruct (Hmax g Hg) as (_ & ? & _). done. }
  rewrite <- Hgaps in Hmax, Hall, Hsort.
  split; [|split; [|split]].
  - intros g Hg. apply (maximalGap_ext (coveredBy (rev busy))); [done | by apply Hmax].
  - intros m Hm Hn. apply Hall; [done|]. by rewrite Hcov.
  - done.
  - intros m. destruct (coveredBy_dec (rev busy) m) as [H|H]; [left|right]; by rewrite <- Hcov.
Qed.

(** C7 (as amended).  When the callout windows and the entries of the client
    run forward in time (start before end), [getClientCoverageGaps] returns
    exactly the maximal gaps of the operating window, that is the maximal
    ranges of instants covered neither by a callout that targets the client on
    the selected date nor by an entry of the client: a range is returned if
    and only if it is such a gap, no range is returned twice, the ranges come
    in ascending order, and the result is empty if and only if every instant
    of the window is covered. *)
Theorem coverage_gaps_are_the_maximal_gaps
    (schedule : GeneratedSchedule) (clientId_ : string)
    (callouts : list Callout) (selectedDate : JsDate) :
  properPeriods schedule clientId_ callouts selectedDate ->
  let gaps := getClientCoverageGaps schedule clientId_ callouts selectedDate in
  let covered := coveredAt schedule clientId_ callouts selectedDate in
  let opStart := timeToMinutes COMPANY_OPERATING_HOURS_START in
  let opEnd := timeToMinutes COMPANY_OPERATING_HOURS_END in
  (forall g, g ∈ gaps <-> maximalGap covered opStart opEnd g) /\
  NoDup gaps /\
  StronglySorted (fun g h => r_end g < r_start h) gaps /\
  (gaps = [] <-> forall m, opStart <= m < opEnd -> covered m).
Proof.
  intros Hproper gaps covered opStart opEnd.
  destruct (coverage_gaps_inv schedule clientId_ callouts selectedDate Hproper)
    as (Hfwd & Hall & Hsort & Hdec).
  fold gaps covered opStart opEnd in Hfwd, Hall, Hsort, Hdec.
  split; [|split; [|split]].
  - intros g. split; [apply Hfwd|]. intros Hg.
    destruct Hg as (G1 & G2 & G3 & G4 & G5 & G6).
    destruct (Hall (r_start g) ltac:(lia)) as (h & Hh & Hm).
    { apply G4. lia. }
    replace g with h; [done|].
    apply (maximalGap_unique covered opStart opEnd h g (r_start g)); [by apply Hfwd | | done | lia].
    unfold maximalGap. done.
  - apply StronglySorted_apart_NoDup; [|done].
    intros g Hg. destruct (Hfwd g Hg) as (_ & ? & _). done.
  - done.
  - split.
    + intros Hnil m Hm.
      destruct (Hdec m) as [|Hn]; [done|].
      destruct (Hall m Hm Hn) as (g & Hg & _).
      rewrite Hnil in Hg. by apply elem_of_nil in Hg.
    + intros Hc. destruct gaps as [|g r] eqn:E; [done|].
      destruct (Hfwd g (list_elem_of_here _ _)) as (G1 & G2 & G3 & G4 & _).
      exfalso. apply (G4 (r_start g)); [lia|]. apply Hc. lia.
Qed.

(** The theorem at a schedule of one session, 09:00-10:00: the gaps are
    08:00-09:00 and 10:00-17:00. *)
Lemma coverage_gaps_witness :
  let s := mkEntry "e1" (Some "Ann") (Some "c1") "Tina" "t1" MONDAY
             {| mins := 540; half := false |} {| mins := 600; half := false |} ABA in
  properPeriods [s] "c1" [] {| dayNumber := 4 |} /\
  NoDup (getClientCoverageGaps [s] "c1" [] {| dayNumber := 4 |}) /\
  getClientCoverageGaps [s] "c1" [] {| dayNumber := 4 |} =
    [{| r_start := 480; r_end := 540 |}; {| r_start := 600; r_end := 1020 |}].
Proof.
  intros s.
  assert (Hp : properPeriods [s] "c1" [] {| dayNumber := 4 |}).
  { split.
    - intros co Hco. by apply elem_of_nil in Hco.
    - intros x Hx _. apply list_elem_of_singleton in Hx as ->. simpl. lia. }
  split; [exact Hp|]. split.
  - exact (proj1 (proj2 (coverage_gaps_are_the_maximal_gaps [s] "c1" [] {| dayNumber := 4 |} Hp))).
  - reflexivity.
Defined.

(** C7, the claim as stated, fails for an entry that runs backwards, from
    10:00 to 09:00: it covers no instant, so the whole window is the one
    maximal gap; the function returns the two ranges 08:00-10:00 and
    09:00-17:00, neither of which is maximal. *)
Lemma coverage_gaps_backward_entry :
  let s := mkEntry "e1" (Some "Ann") (Some "c1") "Tina" "t1" MONDAY
             {| mins := 600; half := false |} {| mins := 540; half := false |} AdminTime in
  let covered := coveredAt [s] "c1" [] {| dayNumber := 4 |} in
  (forall m, ~ covered m) /\
  getClientCoverageGaps [s] "c1" [] {| dayNumber := 4 |} =
    [{| r_start := 480; r_end := 600 |}; {| r_start := 540; r_end := 1020 |}] /\
  ~ maximalGap covered 480 1020 {| r_start := 480; r_end := 600 |}.
Proof.
  intros s covered.
  assert (Hn : forall m, ~ covered m).
  { intros m [(co & Hco & _)|(x & Hx & _ & Hm)].
    - by apply elem_of_nil in Hco.
    - apply list_elem_of_singleton in Hx as ->. simpl in Hm. lia. }
  split; [exact Hn|]. split; [reflexivity|].
  intros (_ & _ & _ & _ & _ & [H|H]); simpl in H; [lia | by apply (Hn 600)].
Qed.

(** * Incremental mutation *)

(** * The oracle and the incremental mutation *)

Lemma nextRandom_range (o : Oracle) : (0 <= nextRandom o)%Q /\ (nextRandom o < 1)%Q.
Proof.
  unfold nextRandom, Qle, Qlt. cbn [Qnum Qden].
  pose proof (Z.mod_pos_bound (draws o (drawPos o)) RANDOM_RESOLUTION ltac:(done)) as H.
  rewrite Z2Pos.id by done. generalize dependent (draws o (drawPos o) mod RANDOM_RESOLUTION).
  generalize RANDOM_RESOLUTION. intros. lia.
Qed.

(** [Math.floor(Math.random() * n)] is an index below [n]. *)
Lemma floorScaled_range (r : Q) (n : Z) :
  (0 <= r)%Q -> (r < 1)%Q -> 0 < n -> 0 <= floorScaled r n < n.
Proof.
  intros H0 H1 Hn. unfold floorScaled. split.
  - change 0 with (Qfloor 0). apply Qfloor_resp_le.
    apply Qmult_le_0_compat; [done|]. change 0%Q with (inject_Z 0).
    rewrite <- Zle_Qle. lia.
  - apply Z.lt_nge. intros Hge.
    assert (Hle : (inject_Z n <= r * inject_Z n)%Q).
    { eapply Qle_trans; [|apply Qfloor_le]. rewrite <- Zle_Qle. done. }
    assert (Hlt : (r * inject_Z n < 1 * inject_Z n)%Q).
    { apply Qmult_lt_compat_r; [|done]. change 0%Q with (inject_Z 0).
      rewrite <- Zlt_Qlt. done. }
    rewrite Qmult_1_l in Hlt. apply (Qlt_irrefl (inject_Z n)).
    eapply Qle_lt_trans; eauto.
Qed.

Lemma random_index (o : Oracle) {A} (xs : list A) :
  xs <> [] ->
  exists x, xs !! Z.to_nat (floorScaled (nextRandom o) (Z.of_nat (length xs))) = Some x.
Proof.
  intros Hne. apply lookup_lt_is_Some_2.
  destruct (nextRandom_range o) as [H0 H1].
  pose proof (floorScaled_range (nextRandom o) (Z.of_nat (length xs)) H0 H1) as H.
  destruct xs; [done|]. simpl length in *. lia.
Qed.

(** ** What one mutation may change *)

(** Entry [e'] is a later version of [e]: the same entry but for the two
    times, and the very same entry when it is a lunch. *)
Definition mutated (e e' : ScheduleEntry) : Prop :=
  sameButTimes e e' /\ (sessionType e = IndirectTime -> e' = e).

Lemma mutated_refl e : mutated e e.
Proof. unfold mutated, sameButTimes. tauto. Qed.

Lemma mutated_trans e1 e2 e3 : mutated e1 e2 -> mutated e2 e3 -> mutated e1 e3.
Proof.
  unfold mutated, sameButTimes. intros [H1 H1'] [H2 H2']. split.
  - destruct H1 as (?&?&?&?&?&?&?), H2 as (?&?&?&?&?&?&?). repeat split; congruence.
  - intros Hl. rewrite (H1' Hl) in *. by apply H2'.
Qed.

Lemma mutated_with_times e s t :
  sessionType e <> IndirectTime -> mutated e (with_times e s t).
Proof. intros H. unfold mutated, sameButTimes. simpl. tauto. Qed.

Lemma Forall2_mutated_refl s : Forall2 mutated s s.
Proof. induction s; constructor; [apply mutated_refl | done]. Qed.

Lemma Forall2_mutated_insert s idx e e' :
  s !! idx = Some e -> mutated e e' -> Forall2 mutated s (<[idx := e']> s).
Proof.
  intros Hl Hm. rewrite <- (list_insert_id s idx e Hl) at 1.
  apply Forall2_insert; [apply Forall2_mutated_refl | done].
Qed.

Lemma mutateOnce_spec clients therapists selectedDate callouts s o :
  s <> [] ->
  exists s' o', mutateOnce clients therapists selectedDate callouts s o = Some (s', o') /\
                Forall2 mutated s s'.
Proof.
  intros Hne. unfold mutateOnce, bind, random. cbv beta iota.
  destruct (random_index o s Hne) as [entry Hentry]. rewrite Hentry.
  unfold unwrap, ret. cbv beta iota.
  pose proof (Forall2_mutated_refl s) as Hrefl.
  destruct (bool_decide (sessionType entry = IndirectTime)) eqn:Hlunch; [eauto|].
  apply bool_decide_eq_false in Hlunch.
  destruct (Qltb _ HALF).
  - destruct (_ =? 0); [eauto|].
    destruct (valid _); [|eauto].
    do 2 eexists. split; [reflexivity|].
    eapply Forall2_mutated_insert; [done|]. by apply mutated_with_times.
  - destruct (bool_decide (sessionType entry = ABA)); [|eauto].
    destruct (_ && _); [|eauto].
    destruct (valid _); [|eauto].
    do 2 eexists. split; [reflexivity|].
    eapply Forall2_mutated_insert; [done|]. by apply mutated_with_times.
Qed.

Lemma Forall2_mutated_trans s1 s2 s3 :
  Forall2 mutated s1 s2 -> Forall2 mutated s2 s3 -> Forall2 mutated s1 s3.
Proof.
  intros H. revert s3. induction H; intros s3 H3; inversion H3; subst; constructor.
  - by eapply mutated_trans.
  - by apply IHForall2.
Qed.

Lemma repeat_mutateOnce_spec clients therapists selectedDate callouts n s o :
  s <> [] ->
  exists s' o',
    repeatM n (mutateOnce clients therapists selectedDate callouts) s o = Some (s', o') /\
    Forall2 mutated s s'.
Proof.
  revert s o. induction n as [|n IH]; intros s o Hne; simpl.
  - exists s, o. split; [done | apply Forall2_mutated_refl].
  - destruct (mutateOnce_spec clients therapists selectedDate callouts s o Hne)
      as (s1 & o1 & E1 & H1).
    unfold bind. rewrite E1.
    assert (Hne1 : s1 <> []).
    { intros ->. apply Forall2_length in H1. destruct s; [done | discriminate]. }
    destruct (IH s1 o1 Hne1) as (s2 & o2 & E2 & H2).
    exists s2, o2. split; [done | by eapply Forall2_mutated_trans].
Qed.

(** C10.  [mutateIncremental] returns, for every oracle, a schedule with as
    many entries as its input; position by position, the entry it returns has
    the id, client, therapist, day and session type of the input entry (only
    the two times may differ), and an [IndirectTime] entry is returned
    unchanged. *)
Theorem mutateIncremental_frame
    (schedule : GeneratedSchedule) (clients : list Client) (therapists : list Therapist)
    (selectedDate : JsDate) (callouts : list Callout) (o : Oracle) :
  exists schedule' o',
    mutateIncremental schedule clients therapists selectedDate callouts o
      = Some (schedule', o') /\
    length schedule' = length schedule /\
    forall i e, schedule !! i = Some e ->
      exists e', schedule' !! i = Some e' /\
        sameButTimes e e' /\
        (sessionType e = IndirectTime -> e' = e).
Proof.
  assert (Hall : exists schedule' o',
            mutateIncremental schedule clients therapists selectedDate callouts o
              = Some (schedule', o') /\ Forall2 mutated schedule schedule').
  { unfold mutateIncremental. destruct (bool_decide (length schedule = 0%nat)) eqn:E.
    - exists schedule, o. split; [done | apply Forall2_mutated_refl].
    - apply bool_decide_eq_false in E. apply repeat_mutateOnce_spec.
      intros ->. done. }
  destruct Hall as (s' & o' & Hrun & Hrel). exists s', o'.
  split; [done|]. split; [symmetry; by eapply Forall2_length|].
  intros i e Hi. destruct (Forall2_lookup_l _ _ _ _ _ Hrel Hi) as (e' & He' & Hm).
  exists e'. split; [done|]. exact Hm.
Qed.

(** * The Medicaid cap *)

(** * The Medicaid cap *)

(** ** Arrays of references *)

Lemma findIndex_Some {A} (p : A -> bool) (xs : list A) (i : nat) :
  findIndex p xs = Some i -> exists x, xs !! i = Some x /\ p x = true.
Proof.
  revert i. induction xs as [|x r IH]; intros i; simpl; [done|].
  destruct (p x) eqn:E.
  - intros [= <-]. exists x. done.
  - destruct (findIndex p r) as [j|]; simpl; [|done].
    intros [= <-]. by apply IH.
Qed.

Lemma findIndex_None {A} (p : A -> bool) (xs : list A) (x : A) :
  findIndex p xs = None -> x ∈ xs -> p x = false.
Proof.
  induction xs as [|y r IH]; simpl; [by intros _ ?%elem_of_nil|].
  destruct (p y) eqn:E; [done|].
  destruct (findIndex p r); simpl; [done|].
  intros _ [->|H]%elem_of_cons; [done | by apply IH].
Qed.

Lemma find_Some_elem {A} (p : A -> bool) (xs : list A) (x : A) :
  find_ p xs = Some x -> x ∈ xs /\ p x = true.
Proof.
  unfold find_. intros H. apply find_some in H as [H1 H2].
  by rewrite list_elem_of_In.
Qed.

Lemma splice1_delete {A} (idx : nat) (xs : list A) : splice1 idx xs = delete idx xs.
Proof.
  revert idx. induction xs as [|x r IH]; intros [|idx]; simpl; try done.
  unfold splice1 in *. simpl. by rewrite IH.
Qed.

Lemma elem_of_splice1 {A} (idx : nat) (xs : list A) (x : A) :
  x ∈ splice1 idx xs -> x ∈ xs.
Proof.
  rewrite splice1_delete. intros H. eapply elem_of_sublist; [done | apply sublist_delete].
Qed.

Lemma splice1_NoDup {A} (idx : nat) (xs : list A) :
  NoDup xs -> NoDup (splice1 idx xs).
Proof.
  intros H. rewrite splice1_delete.
  apply (sublist_NoDup _ xs); [done | apply sublist_delete].
Qed.

Lemma splice1_removes {A} (idx : nat) (xs : list A) (r : A) :
  NoDup xs -> xs !! idx = Some r ->
  (r ∉ splice1 idx xs) /\ forall x, x <> r -> x ∈ xs -> x ∈ splice1 idx xs.
Proof.
  intros Hnd Hl.
  rewrite <- (take_drop_middle xs idx r Hl) in Hnd.
  apply NoDup_app in Hnd as (N1 & N2 & N3).
  apply NoDup_cons in N3 as [N3 N4].
  unfold splice1. split.
  - rewrite elem_of_app. intros [H|H]; [|done].
    apply (N2 r H). apply list_elem_of_here.
  - intros x Hx Hin. rewrite <- (take_drop_middle xs idx r Hl) in Hin.
    rewrite elem_of_app, elem_of_cons in Hin. rewrite elem_of_app.
    destruct Hin as [?|[?|?]]; [by left | done | by right].
Qed.

(** ** The array seen through the references *)

Definition validRefs (h : Heap) : Prop := forall r, r ∈ arr h -> (r < length (objs h))%nat.

Lemma deref_Forall2 (h : Heap) :
  validRefs h -> Forall2 (fun r e => objs h !! r = Some e) (arr h) (deref h).
Proof.
  unfold validRefs, deref. destruct h as [os ar]. simpl.
  induction ar as [|r ar IH]; intros Hv; simpl; [constructor|].
  destruct (lookup_lt_is_Some_2 os r (Hv r (list_elem_of_here _ _))) as [e He].
  rewrite He. simpl. constructor; [done|]. apply IH.
  intros x Hx. by apply Hv, list_elem_of_further.
Qed.

Lemma elem_of_deref (h : Heap) (e : ScheduleEntry) :
  validRefs h -> e ∈ deref h <-> exists r, r ∈ arr h /\ objs h !! r = Some e.
Proof.
  intros Hv. pose proof (deref_Forall2 h Hv) as HF. split.
  - intros He. apply list_elem_of_lookup in He as [i Hi].
    destruct (Forall2_lookup_r _ _ _ _ _ HF Hi) as (r & Hr & Hre).
    exists r. split; [by eapply list_elem_of_lookup_2 | done].
  - intros (r & Hr & Hre). apply list_elem_of_lookup in Hr as [i Hi].
    destruct (Forall2_lookup_l _ _ _ _ _ HF Hi) as (e' & He' & Hre').
    rewrite Hre in Hre'. injection Hre' as ->. by eapply list_elem_of_lookup_2.
Qed.

Lemma heapOf_deref (schedule : GeneratedSchedule) : deref (heapOf schedule) = schedule.
Proof.
  unfold deref, heapOf. simpl.
  assert (H : forall pre, omap (fun r => (pre ++ schedule) !! r)
                            (seq (length pre) (length schedule)) = schedule).
  { induction schedule as [|e r IH]; intros pre; simpl; [done|].
    rewrite lookup_app_r, Nat.sub_diag by lia. simpl. f_equal.
    specialize (IH (pre ++ [e])). rewrite <- app_assoc, length_app in IH. simpl in IH.
    rewrite Nat.add_1_r in IH. exact IH. }
  apply (H []).
Qed.

Lemma filter_sublist_all {A} (p : A -> bool) (l1 l2 : list A) :
  l1 `sublist_of` l2 -> NoDup l2 ->
  (forall x, x ∈ l2 -> p x = true -> x ∈ l1) ->
  List.filter p l1 = List.filter p l2.
Proof.
  induction 1 as [|x l1 l2 Hsub IH|x l1 l2 Hsub IH]; intros Hnd Hall; [done| |].
  - apply NoDup_cons in Hnd as [Hx Hnd]. simpl. rewrite IH; [done | done |].
    intros y Hy Hp. pose proof (Hall y (list_elem_of_further _ _ _ Hy) Hp) as Hin.
    apply elem_of_cons in Hin as [->|Hin]; done.
  - apply NoDup_cons in Hnd as [Hx Hnd]. simpl.
    destruct (p x) eqn:E.
    + exfalso. apply Hx. eapply elem_of_sublist; [|done].
      apply Hall; [apply list_elem_of_here | done].
    + apply IH; [done|]. intros y Hy Hp. apply Hall; [by apply list_elem_of_further | done].
Qed.

Lemma filter_list_ext {A} (p q : A -> bool) (xs : list A) :
  (forall x, x ∈ xs -> p x = q x) -> List.filter p xs = List.filter q xs.
Proof.
  induction xs as [|x r IH]; intros H; simpl; [done|].
  rewrite (H x (list_elem_of_here _ _)), IH; [done|].
  intros y Hy. by apply H, list_elem_of_further.
Qed.

Lemma omap_ext_in {A B} (f g : A -> option B) (xs : list A) :
  (forall x, x ∈ xs -> f x = g x) -> omap f xs = omap g xs.
Proof.
  induction xs as [|x r IH]; intros H; [done|].
  cbn [omap list_omap]. rewrite (H x (list_elem_of_here _ _)).
  destruct (g x); (rewrite IH; [done|]); intros y Hy; by apply H, list_elem_of_further.
Qed.

(** The entries that satisfy [p], reached through their positions. *)
Lemma filter_through_refs {A B} (p : A -> bool) (f : A -> B) (xs : list A) :
  omap (fun r => f <$> xs !! r)
       (List.filter (fun r => match xs !! r with Some s => p s | None => false end)
                    (seq 0 (length xs)))
  = map f (List.filter p xs).
Proof.
  assert (H : forall pre,
    omap (fun r => f <$> (pre ++ xs) !! r)
         (List.filter (fun r => match (pre ++ xs) !! r with Some s => p s | None => false end)
                      (seq (length pre) (length xs)))
    = map f (List.filter p xs)).
  { induction xs as [|x r IH]; intros pre; simpl; [done|].
    rewrite lookup_app_r, Nat.sub_diag by lia. simpl.
    specialize (IH (pre ++ [x])). rewrite <- app_assoc, length_app in IH. simpl in IH.
    rewrite Nat.add_1_r in IH.
    destruct (p x); simpl; [|exact IH].
    rewrite lookup_app_r, Nat.sub_diag by lia. simpl. f_equal. exact IH. }
  apply (H []).
Qed.

Lemma omap_sublist {A B} (f : A -> option B) (l1 l2 : list A) :
  l1 `sublist_of` l2 -> omap f l1 `sublist_of` omap f l2.
Proof.
  induction 1 as [|x l1 l2 _ IH|x l1 l2 _ IH]; cbn [omap list_omap]; [done| |].
  - destruct (f x); [by constructor | done].
  - destruct (f x); [by constructor | done].
Qed.

(** The schedule around the entry that a reference of the array points to,
    before and after that entry is overwritten. *)
Lemma deref_around (h : Heap) (idx r : nat) (session e' : ScheduleEntry) :
  NoDup (arr h) -> arr h !! idx = Some r -> objs h !! r = Some session ->
  exists l1 l2,
    deref h = l1 ++ session :: l2 /\
    deref {| objs := <[ r := e' ]> (objs h); arr := arr h |} = l1 ++ e' :: l2.
Proof.
  intros Hnd Hidx Hs.
  pose proof (take_drop_middle (arr h) idx r Hidx) as Harr.
  assert (Hnot : forall x, x ∈ take idx (arr h) ++ drop (Datatypes.S idx) (arr h) -> x <> r).
  { rewrite <- Harr in Hnd. apply NoDup_app in Hnd as (_ & N2 & N3).
    apply NoDup_cons in N3 as [N3 _].
    intros x Hx ->. apply elem_of_app in Hx as [Hx|Hx]; [|done].
    apply (N2 r Hx), list_elem_of_here. }
  exists (omap (fun x => objs h !! x) (take idx (arr h))),
         (omap (fun x => objs h !! x) (drop (Datatypes.S idx) (arr h))).
  unfold deref. simpl. rewrite <- Harr at 1 4.
  rewrite !omap_app. cbn [omap list_omap].
  rewrite Hs, list_lookup_insert_eq by (by eapply lookup_lt_Some).
  split; [done|]. f_equal; [|f_equal].
  - apply omap_ext_in. intros x Hx. apply list_lookup_insert_ne.
    intros <-. by apply (Hnot r); [apply elem_of_app; left|].
  - apply omap_ext_in. intros x Hx. apply list_lookup_insert_ne.
    intros <-. by apply (Hnot r); [apply elem_of_app; right|].
Qed.

Lemma deref_elsewhere (h : Heap) (r : nat) (e' : ScheduleEntry) :
  (r ∉ arr h) -> deref {| objs := <[ r := e' ]> (objs h); arr := arr h |} = deref h.
Proof.
  intros Hr. unfold deref. simpl. apply omap_ext_in.
  intros x Hx. apply list_lookup_insert_ne. by intros <-.
Qed.

(** The schedule around the entry that a reference of the array points to,
    before and after the reference is spliced out. *)
Lemma deref_without (h : Heap) (idx r : nat) (session : ScheduleEntry) :
  arr h !! idx = Some r -> objs h !! r = Some session ->
  exists l1 l2,
    deref h = l1 ++ session :: l2 /\
    deref {| objs := objs h; arr := splice1 idx (arr h) |} = l1 ++ l2.
Proof.
  intros Hidx Hs.
  pose proof (take_drop_middle (arr h) idx r Hidx) as Harr.
  exists (omap (fun x => objs h !! x) (take idx (arr h))),
         (omap (fun x => objs h !! x) (drop (Datatypes.S idx) (arr h))).
  unfold deref, splice1. simpl. rewrite <- Harr at 1.
  rewrite !omap_app. cbn [omap list_omap]. by rewrite Hs.
Qed.

Lemma getTherapistById_id therapists tid t :
  getTherapistById therapists tid = Some t -> th_id t = tid.
Proof.
  unfold getTherapistById. intros H. apply find_Some_elem in H as [_ H].
  unfold str_eqb in H. by apply bool_decide_eq_true in H.
Qed.

Lemma includes_spec {A} `{EqDecision A} (xs : list A) (x : A) :
  includes xs x = true <-> x ∈ xs.
Proof. unfold includes. apply bool_decide_eq_true. Qed.

Lemma sameButTherapist_refl e : sameButTherapist e e.
Proof. unfold sameButTherapist. tauto. Qed.

Lemma sameButTherapist_with_therapist e0 e t :
  sameButTherapist e0 e -> sameButTherapist e0 (with_therapist e t).
Proof. unfold sameButTherapist. simpl. tauto. Qed.

Section MdCap.

Variable S : list ScheduleEntry.
Hypothesis ids_unique : NoDup (map id S).

Variables (clients : list Client) (therapists : list Therapist)
          (selectedDate : JsDate) (callouts : list Callout).

(** The heap holds the entries of [S], maybe with another therapist, and the
    array holds some of the references, in their original order. *)
Record Wf (h : Heap) : Prop := {
  wf_len : length (objs h) = length S;
  wf_same : forall r e0 e, S !! r = Some e0 -> objs h !! r = Some e -> sameButTherapist e0 e;
  wf_sub : arr h `sublist_of` seq 0 (length S)
}.

Lemma Wf_heapOf : Wf (heapOf S).
Proof.
  split; simpl; [done | | done].
  intros r e0 e H1 H2. rewrite H1 in H2. injection H2 as ->. apply sameButTherapist_refl.
Qed.

Lemma Wf_NoDup h : Wf h -> NoDup (arr h).
Proof. intros [_ _ H]. eapply sublist_NoDup; [apply NoDup_seq | done]. Qed.

Lemma Wf_valid h r : Wf h -> r ∈ arr h -> (r < length S)%nat.
Proof.
  intros [_ _ H] Hr. eapply elem_of_sublist in Hr; [|done].
  apply elem_of_seq in Hr. lia.
Qed.

Lemma Wf_validRefs h : Wf h -> validRefs h.
Proof. intros H r Hr. rewrite (wf_len h H). by eapply Wf_valid. Qed.

Lemma Wf_lookup h r : Wf h -> (r < length S)%nat ->
  exists e0 e, S !! r = Some e0 /\ objs h !! r = Some e /\ sameButTherapist e0 e.
Proof.
  intros H Hr.
  destruct (lookup_lt_is_Some_2 S r Hr) as [e0 He0].
  destruct (lookup_lt_is_Some_2 (objs h) r) as [e He]; [rewrite (wf_len h H); done|].
  exists e0, e. split; [done|]. split; [done|]. by eapply wf_same.
Qed.

Lemma ids_injective h r1 r2 e1 e2 :
  Wf h -> objs h !! r1 = Some e1 -> objs h !! r2 = Some e2 -> id e1 = id e2 -> r1 = r2.
Proof.
  intros H H1 H2 Hid.
  assert (L1 : (r1 < length S)%nat) by (rewrite <- (wf_len h H); by eapply lookup_lt_Some).
  assert (L2 : (r2 < length S)%nat) by (rewrite <- (wf_len h H); by eapply lookup_lt_Some).
  destruct (Wf_lookup h r1 H L1) as (a1 & b1 & A1 & B1 & (I1 & _)).
  destruct (Wf_lookup h r2 H L2) as (a2 & b2 & A2 & B2 & (I2 & _)).
  rewrite H1 in B1. injection B1 as <-. rewrite H2 in B2. injection B2 as <-.
  apply (NoDup_lookup (map id S) r1 r2 (id a1) ids_unique).
  - by rewrite list_lookup_fmap, A1.
  - rewrite list_lookup_fmap, A2. simpl. congruence.
Qed.

(** What [fixMdSession] does to the heap. *)
Lemma fixMdSession_cases allowedIds h r session :
  Wf h -> objs h !! r = Some session ->
  let h' := fixMdSession clients therapists selectedDate callouts allowedIds h r in
  (h' = h /\ therapistId session ∈ allowedIds) \/
  (exists t, th_id t ∈ allowedIds /\
     valid (canAddEntryToSchedule (with_therapist session t) (deref h) clients therapists
              selectedDate callouts (Some (id session))) = true /\
     h' = {| objs := <[ r := with_therapist session t ]> (objs h); arr := arr h |}) \/
  (exists idx, arr h !! idx = Some r /\
     h' = {| objs := objs h; arr := splice1 idx (arr h) |}) \/
  ((r ∉ arr h) /\ h' = h).
Proof.
  intros Hwf Hs. unfold fixMdSession. rewrite Hs. cbv zeta.
  destruct (includes allowedIds (therapistId session)) eqn:Hinc.
  { left. split; [done | by apply includes_spec]. }
  match goal with |- context [find_ ?p allowedIds] => destruct (find_ p allowedIds) as [tid|] eqn:Hfind end.
  - destruct (truthy (Some tid)) eqn:Htruthy; simpl.
    + destruct (getTherapistById therapists tid) as [t|] eqn:Ht.
      * right. left. exists t.
        apply find_Some_elem in Hfind as [Hin Hp]. rewrite Ht in Hp.
        split; [by rewrite (getTherapistById_id _ _ _ Ht)|]. done.
      * apply find_Some_elem in Hfind as [_ Hp]. by rewrite Ht in Hp.
    + right. right.
      destruct (findIndex _ (deref h)) as [idx|] eqn:Hidx.
      * left. exists idx. split; [|done].
        apply findIndex_Some in Hidx as (x & Hx & Hp).
        unfold str_eqb in Hp. apply bool_decide_eq_true in Hp.
        destruct (Forall2_lookup_r _ _ _ _ _ (deref_Forall2 h (Wf_validRefs h Hwf)) Hx)
          as (r' & Hr' & Hobj).
        by rewrite (ids_injective h r' r x session Hwf Hobj Hs Hp) in Hr'.
      * right. split; [|done]. intros Hr.
        assert (Hin : session ∈ deref h).
        { apply elem_of_deref; [by apply Wf_validRefs|]. by exists r. }
        pose proof (findIndex_None _ _ _ Hidx Hin) as Hp.
        unfold str_eqb in Hp. by apply bool_decide_eq_false in Hp.
  - simpl. right. right.
    destruct (findIndex _ (deref h)) as [idx|] eqn:Hidx.
    + left. exists idx. split; [|done].
      apply findIndex_Some in Hidx as (x & Hx & Hp).
      unfold str_eqb in Hp. apply bool_decide_eq_true in Hp.
      destruct (Forall2_lookup_r _ _ _ _ _ (deref_Forall2 h (Wf_validRefs h Hwf)) Hx)
        as (r' & Hr' & Hobj).
      by rewrite (ids_injective h r' r x session Hwf Hobj Hs Hp) in Hr'.
    + right. split; [|done]. intros Hr.
      assert (Hin : session ∈ deref h).
      { apply elem_of_deref; [by apply Wf_validRefs|]. by exists r. }
      pose proof (findIndex_None _ _ _ Hidx Hin) as Hp.
      unfold str_eqb in Hp. by apply bool_decide_eq_false in Hp.
Qed.


Lemma fixMdSession_Wf allowedIds h r :
  Wf h -> (r < length S)%nat ->
  Wf (fixMdSession clients therapists selectedDate callouts allowedIds h r).
Proof.
  intros Hwf Hr.
  destruct (Wf_lookup h r Hwf Hr) as (e0 & session & He0 & Hs & Hsame).
  destruct (fixMdSession_cases allowedIds h r session Hwf Hs)
    as [[-> _]|[(t & _ & _ & ->)|[(idx & Hidx & ->)|[_ ->]]]]; try done.
  - destruct Hwf as [W1 W2 W3]. split; simpl; [by rewrite length_insert | | done].
    intros r' a b Ha Hb. destruct (decide (r' = r)) as [->|Hne].
    + rewrite list_lookup_insert_eq in Hb by (by eapply lookup_lt_Some).
      injection Hb as <-. rewrite He0 in Ha. injection Ha as <-.
      by apply sameButTherapist_with_therapist.
    + rewrite list_lookup_insert_ne in Hb by done. by eapply W2.
  - destruct Hwf as [W1 W2 W3]. split; simpl; [done | done |].
    etrans; [|exact W3]. rewrite splice1_delete. apply sublist_delete.
Qed.

(** ** The steps of a run *)

#[local] Abbreviation step :=
  (capStep S clients therapists selectedDate callouts).

(** Which way [fixMdSession] goes. *)
Lemma fixMdSession_decides allowedIds h r session :
  objs h !! r = Some session ->
  let h' := fixMdSession clients therapists selectedDate callouts allowedIds h r in
  let best :=
    bestSub clients therapists selectedDate callouts (deref h) allowedIds session in
  (therapistId session ∈ allowedIds /\ h' = h) \/
  ((therapistId session ∉ allowedIds) /\
   exists tid t, best = Some tid /\ tid <> EmptyString /\
     getTherapistById therapists tid = Some t /\
     h' = {| objs := <[ r := with_therapist session t ]> (objs h); arr := arr h |}) \/
  ((therapistId session ∉ allowedIds) /\
   (forall tid, best = Some tid -> tid = EmptyString) /\
   h' = match findIndex (fun s => str_eqb (id s) (id session)) (deref h) with
        | Some idx => {| objs := objs h; arr := splice1 idx (arr h) |}
        | None => h
        end).
Proof.
  intros Hs. unfold fixMdSession. rewrite Hs. cbv zeta.
  destruct (includes allowedIds (therapistId session)) eqn:Hinc.
  { left. split; [by apply includes_spec | done]. }
  assert (Hout : therapistId session ∉ allowedIds).
  { intros Hin. apply includes_spec in Hin. congruence. }
  right.
  change (find_ _ allowedIds)
    with (bestSub clients therapists selectedDate callouts (deref h) allowedIds session).
  destruct (bestSub _ _ _ _ _ _ _) as [tid|] eqn:Hbest.
  - destruct (decide (tid = EmptyString)) as [->|Hne].
    + right. split; [done|]. split; [|done]. by intros tid [= <-].
    + assert (Htruthy : truthy (Some tid) = true).
      { simpl. by rewrite bool_decide_eq_false_2. }
      rewrite Htruthy. simpl.
      destruct (getTherapistById therapists tid) as [t|] eqn:Ht.
      * left. split; [done|]. by exists tid, t.
      * apply find_Some_elem in Hbest as [_ Hp]. unfold swapAccepted in Hp.
        by rewrite Ht in Hp.
  - right. split; [done|]. split; [|done]. by intros tid.
Qed.

(** A visit of [fixMdSession] to a session of a client over the limit is
    one step, or none. *)
Lemma fixMdSession_run c h r :
  Wf h -> c ∈ clients -> isMd c = true ->
  (3 < length (therapistsOf S (cl_id c)))%nat ->
  (exists e0, S !! r = Some e0 /\ clientId e0 = Some (cl_id c)) ->
  rtc step (deref h)
    (deref (fixMdSession clients therapists selectedDate callouts
              (firstThree S (cl_id c)) h r)).
Proof.
  intros Hwf Hc Hmd Hover (e0 & He0 & Hcl).
  assert (Hr : (r < length S)%nat) by (by eapply lookup_lt_Some).
  destruct (Wf_lookup h r Hwf Hr) as (e0' & session & He0' & Hs & Hsame).
  rewrite He0 in He0'. injection He0' as <-.
  assert (Hcs : clientId session = Some (cl_id c)).
  { destruct Hsame as (_ & Hx & _). congruence. }
  destruct (fixMdSession_decides (firstThree S (cl_id c)) h r session Hs)
    as [[_ ->]|[(Hout & tid & t & Hbest & Hne & Ht & ->)|(Hout & Hnone & ->)]].
  - done.
  - destruct (decide (r ∈ arr h)) as [Hin|Hnot].
    + apply list_elem_of_lookup in Hin as [idx Hidx].
      destruct (deref_around h idx r session (with_therapist session t)
                  (Wf_NoDup h Hwf) Hidx Hs) as (l1 & l2 & E1 & ->).
      rewrite E1 in Hbest |- *. apply rtc_once. by eapply cap_swap.
    + by rewrite deref_elsewhere.
  - destruct (findIndex _ (deref h)) as [idx|] eqn:Hidx; [|done].
    apply findIndex_Some in Hidx as (x & Hx & Hp).
    unfold str_eqb in Hp. apply bool_decide_eq_true in Hp.
    destruct (Forall2_lookup_r _ _ _ _ _ (deref_Forall2 h (Wf_validRefs h Hwf)) Hx)
      as (r' & Hr' & Hobj).
    rewrite (ids_injective h r' r x session Hwf Hobj Hs Hp) in Hr'.
    destruct (deref_without h idx r session Hr' Hs) as (l1 & l2 & E1 & ->).
    rewrite E1 in Hnone |- *. apply rtc_once. by eapply cap_drop.
Qed.

Lemma fixMdSessions_run c todo h :
  Wf h -> c ∈ clients -> isMd c = true ->
  (3 < length (therapistsOf S (cl_id c)))%nat ->
  (forall r, r ∈ todo -> exists e0, S !! r = Some e0 /\ clientId e0 = Some (cl_id c)) ->
  rtc step (deref h)
    (deref (fold_left (fixMdSession clients therapists selectedDate callouts
                         (firstThree S (cl_id c))) todo h)).
Proof.
  intros Hwf Hc Hmd Hover. revert h Hwf.
  induction todo as [|r todo IH]; intros h Hwf Hall; simpl; [done|].
  etrans.
  - apply (fixMdSession_run c h r Hwf Hc Hmd Hover). apply Hall, list_elem_of_here.
  - apply IH.
    + apply fixMdSession_Wf; [done|].
      destruct (Hall r (list_elem_of_here _ _)) as (e0 & He0 & _).
      by eapply lookup_lt_Some.
    + intros x Hx. by apply Hall, list_elem_of_further.
Qed.

(** ** The loop over the sessions of one client *)

Section OneClient.

Variables (cid : string) (allowedIds : list string) (h0 : Heap).

(** While the sessions in [todo] remain to be visited: an entry of the client
    that is still in the array is either yet to be visited or has one of the
    allowed therapists; the entries of the others are as they were. *)
Record Visiting (todo : list nat) (h : Heap) : Prop := {
  vi_wf : Wf h;
  vi_client : forall r e0, S !! r = Some e0 -> clientId e0 = Some cid -> r ∈ arr h ->
    r ∈ todo \/ exists e, objs h !! r = Some e /\ therapistId e ∈ allowedIds;
  vi_frame : forall r e0, S !! r = Some e0 -> clientId e0 <> Some cid ->
    (r ∈ arr h <-> r ∈ arr h0) /\ objs h !! r = objs h0 !! r
}.

Lemma Visiting_step r todo h :
  (exists e0, S !! r = Some e0 /\ clientId e0 = Some cid) ->
  Visiting (r :: todo) h ->
  Visiting todo (fixMdSession clients therapists selectedDate callouts allowedIds h r).
Proof.
  intros (e0 & He0 & Hc0) [Hwf Hcl Hfr].
  assert (Hr : (r < length S)%nat) by (by eapply lookup_lt_Some).
  destruct (Wf_lookup h r Hwf Hr) as (e0' & session & He0' & Hs & Hsame).
  rewrite He0 in He0'. injection He0' as <-.
  destruct (fixMdSession_cases allowedIds h r session Hwf Hs)
    as [[-> Hin]|[(t & Ht & _ & ->)|[(idx & Hidx & ->)|[Hnot ->]]]].
  - split; [done| |done].
    intros r' e' He' Hc' Hr'. destruct (Hcl r' e' He' Hc' Hr') as [Hin'|?]; [|by right].
    apply elem_of_cons in Hin' as [->|?]; [|by left]. right. by exists session.
  - split.
    + destruct Hwf as [W1 W2 W3]. split; simpl; [by rewrite length_insert | | done].
      intros r' a b Ha Hb. destruct (decide (r' = r)) as [->|Hne].
      * rewrite list_lookup_insert_eq in Hb by (by eapply lookup_lt_Some).
        injection Hb as <-. rewrite He0 in Ha. injection Ha as <-.
        by apply sameButTherapist_with_therapist.
      * rewrite list_lookup_insert_ne in Hb by done. by eapply W2.
    + simpl. intros r' e' He' Hc' Hr'. destruct (decide (r' = r)) as [->|Hne].
      * right. eexists. split; [apply list_lookup_insert_eq; by eapply lookup_lt_Some|].
        simpl. done.
      * rewrite list_lookup_insert_ne by done.
        destruct (Hcl r' e' He' Hc' Hr') as [Hin'|?]; [|by right].
        apply elem_of_cons in Hin' as [->|?]; [done | by left].
    + simpl. intros r' e' He' Hc'. rewrite list_lookup_insert_ne; [by apply (Hfr r' e')|].
      intros <-. rewrite He0 in He'. injection He' as <-. done.
  - pose proof (splice1_removes idx (arr h) r (Wf_NoDup h Hwf) Hidx) as [Hgone Hkeep].
    split.
    + destruct Hwf as [W1 W2 W3]. split; simpl; [done | done |].
      etrans; [|exact W3]. rewrite splice1_delete. apply sublist_delete.
    + simpl. intros r' e' He' Hc' Hr'. destruct (decide (r' = r)) as [->|Hne]; [done|].
      destruct (Hcl r' e' He' Hc' (elem_of_splice1 _ _ _ Hr')) as [Hin'|?]; [|by right].
      apply elem_of_cons in Hin' as [->|?]; [done | by left].
    + simpl. intros r' e' He' Hc'. destruct (Hfr r' e' He' Hc') as [F1 F2].
      split; [|done]. rewrite <- F1. split; [apply elem_of_splice1|].
      apply Hkeep. intros ->. rewrite He0 in He'. injection He' as <-. done.
  - split; [done| |done].
    intros r' e' He' Hc' Hr'. destruct (Hcl r' e' He' Hc' Hr') as [Hin'|?]; [|by right].
    apply elem_of_cons in Hin' as [->|?]; [done | by left].
Qed.

Lemma Visiting_fold todo h :
  (forall r, r ∈ todo -> exists e0, S !! r = Some e0 /\ clientId e0 = Some cid) ->
  Visiting todo h ->
  Visiting [] (fold_left (fixMdSession clients therapists selectedDate callouts allowedIds)
                         todo h).
Proof.
  revert h. induction todo as [|r todo IH]; intros h Hall Hv; simpl; [done|].
  apply IH.
  - intros r' Hr'. by apply Hall, list_elem_of_further.
  - apply Visiting_step; [|done]. apply Hall, list_elem_of_here.
Qed.

End OneClient.

(** ** The loop over the clients *)

(** A client id whose cap was enforced by one of the clients visited so far:
    the client carries the marker and its entries in [S] name more than three
    therapists. *)
Definition touched (processed : list Client) (cid : string) : bool :=
  existsb (fun c => str_eqb (cl_id c) cid && isMd c) processed &&
  Nat.ltb 3 (length (therapistsOf S cid)).

Lemma touched_snoc processed c cid :
  touched (processed ++ [c]) cid =
  touched processed cid ||
  (str_eqb (cl_id c) cid && isMd c && Nat.ltb 3 (length (therapistsOf S cid))).
Proof.
  unfold touched. rewrite existsb_app. simpl. rewrite orb_false_r.
  destruct (existsb _ processed), (str_eqb _ _ && isMd c), (Nat.ltb _ _); done.
Qed.

Record Capped (processed : list Client) (h : Heap) : Prop := {
  ca_wf : Wf h;
  ca_touched : forall r e0 cid, S !! r = Some e0 -> clientId e0 = Some cid ->
    touched processed cid = true -> r ∈ arr h ->
    exists e, objs h !! r = Some e /\ therapistId e ∈ firstThree S cid;
  ca_untouched : forall r e0, S !! r = Some e0 ->
    (forall cid, clientId e0 = Some cid -> touched processed cid = false) ->
    r ∈ arr h /\ objs h !! r = Some e0
}.

Lemma Capped_init : Capped [] (heapOf S).
Proof.
  split; [apply Wf_heapOf | done |].
  intros r e0 He0 _. split; [|done]. simpl. apply elem_of_seq.
  apply lookup_lt_Some in He0. lia.
Qed.

Lemma uniq_length_le {A} `{EqDecision A} (xs ys : list A) :
  (forall x, x ∈ xs -> x ∈ ys) -> (length (uniq xs) <= length ys)%nat.
Proof.
  intros H. apply submseteq_length, NoDup_submseteq; [apply NoDup_uniq|].
  intros x Hx. by apply H, elem_of_uniq.
Qed.

Lemma firstThree_length cid : (length (firstThree S cid) <= 3)%nat.
Proof. unfold firstThree. rewrite length_take. lia. Qed.

(** The references the operator collects for a client. *)
Definition sessionRefs (h : Heap) (cid : string) : list nat :=
  List.filter (fun r => match objs h !! r with
                        | Some s => opt_is (clientId s) cid
                        | None => false
                        end) (arr h).

Lemma sessionRefs_spec h cid r :
  Wf h -> r ∈ sessionRefs h cid <->
  r ∈ arr h /\ exists e0, S !! r = Some e0 /\ clientId e0 = Some cid.
Proof.
  intros Hwf. unfold sessionRefs. rewrite elem_of_filter_list. split.
  - intros [Hr Hp]. split; [done|].
    destruct (Wf_lookup h r Hwf (Wf_valid h r Hwf Hr)) as (e0 & e & He0 & He & Hs).
    rewrite He in Hp. unfold opt_is in Hp. apply bool_decide_eq_true in Hp.
    exists e0. split; [done|]. destruct Hs as (_ & Hc & _). congruence.
  - intros [Hr (e0 & He0 & Hc)]. split; [done|].
    destruct (Wf_lookup h r Hwf (Wf_valid h r Hwf Hr)) as (e0' & e & He0' & He & Hs).
    rewrite He. unfold opt_is. apply bool_decide_eq_true.
    rewrite He0 in He0'. injection He0' as <-. destruct Hs as (_ & Hc' & _). congruence.
Qed.

(** As long as the client was not touched, the operator sees the entries of
    the client as they are in [S], in the same order. *)
Lemma untouched_therapists processed h cid :
  Capped processed h -> touched processed cid = false ->
  omap (fun r => therapistId <$> objs h !! r) (sessionRefs h cid)
  = map therapistId (entriesOf S cid).
Proof.
  intros [Hwf Ht Hu] Hno.
  assert (Hin : forall r e0, S !! r = Some e0 -> clientId e0 = Some cid ->
                  r ∈ arr h /\ objs h !! r = Some e0).
  { intros r e0 He0 Hc. apply Hu; [done|]. intros cid' Hc'. congruence. }
  assert (Hrefs : sessionRefs h cid =
            List.filter (fun r => match S !! r with
                                  | Some s => opt_is (clientId s) cid
                                  | None => false
                                  end) (seq 0 (length S))).
  { unfold sessionRefs.
    rewrite (filter_list_ext _ (fun r => match S !! r with
                                         | Some s => opt_is (clientId s) cid
                                         | None => false
                                         end)).
    - apply filter_sublist_all; [apply (wf_sub h Hwf) | apply NoDup_seq |].
      intros r _ Hp. destruct (S !! r) as [e0|] eqn:He0; [|done].
      unfold opt_is in Hp. apply bool_decide_eq_true in Hp. by apply (Hin r e0).
    - intros r Hr.
      destruct (Wf_lookup h r Hwf (Wf_valid h r Hwf Hr)) as (e0 & e & He0 & He & Hs).
      rewrite He0, He. destruct Hs as (_ & Hc & _). by rewrite Hc. }
  rewrite Hrefs. unfold entriesOf.
  rewrite <- (filter_through_refs (fun s => opt_is (clientId s) cid) therapistId S).
  apply omap_ext_in. intros r Hr.
  apply elem_of_filter_list in Hr as [_ Hp].
  destruct (S !! r) as [e0|] eqn:He0; [|done].
  unfold opt_is in Hp. apply bool_decide_eq_true in Hp.
  destruct (Hin r e0 He0 Hp) as [_ ->]. done.
Qed.


Lemma Capped_same_touched p1 p2 h :
  (forall cid, touched p2 cid = touched p1 cid) -> Capped p1 h -> Capped p2 h.
Proof.
  intros Heq [Hwf Ht Hu]. split; [done| |].
  - intros r e0 cid He0 Hc Htc. rewrite Heq in Htc. by eapply Ht.
  - intros r e0 He0 Hno. apply Hu; [done|]. intros cid Hc. rewrite <- Heq. by apply Hno.
Qed.

Lemma Capped_step processed h c :
  Capped processed h ->
  Capped (processed ++ [c]) (fixMdClient therapists clients selectedDate callouts h c).
Proof.
  intros HC. pose proof HC as [Hwf Ht Hu]. unfold fixMdClient.
  change (includes (insuranceRequirements c) "MD_MEDICAID"%string) with (isMd c).
  destruct (isMd c) eqn:Hmd; simpl.
  2: { apply (Capped_same_touched processed); [|done].
       intros cid. rewrite touched_snoc, Hmd, andb_false_r. simpl. apply orb_false_r. }
  fold (sessionRefs h (cl_id c)). set (cid := cl_id c).
  destruct (touched processed cid) eqn:Htc.
  - assert (Hsmall : Nat.ltb 3 (length (uniq (omap (fun r => therapistId <$> objs h !! r)
                                                  (sessionRefs h cid)))) = false).
    { apply Nat.ltb_ge. etrans; [|apply (firstThree_length cid)].
      apply uniq_length_le. intros x Hx.
      apply list_elem_of_omap in Hx as (r & Hr & Hx).
      apply (sessionRefs_spec h cid r Hwf) in Hr as [Hr (e0 & He0 & Hc)].
      destruct (Ht r e0 cid He0 Hc Htc Hr) as (e & He & Hin).
      rewrite He in Hx. simpl in Hx. by injection Hx as <-. }
    rewrite Hsmall. apply (Capped_same_touched processed); [|done].
    intros cid'. rewrite touched_snoc.
    destruct (str_eqb (cl_id c) cid') eqn:E; simpl; [|apply orb_false_r].
    unfold str_eqb in E. apply bool_decide_eq_true in E. subst cid'.
    fold cid. by rewrite Htc.
  - rewrite (untouched_therapists processed h cid HC Htc). fold (therapistsOf S cid).
    destruct (Nat.ltb 3 (length (therapistsOf S cid))) eqn:Hover.
    + fold (firstThree S cid).
      assert (Hv : Visiting cid (firstThree S cid) h (sessionRefs h cid) h).
      { split; [done| |done].
        intros r e0 He0 Hc Hr. left. apply (sessionRefs_spec h cid r Hwf). eauto. }
      apply Visiting_fold in Hv.
      2: { intros r Hr. by apply (sessionRefs_spec h cid r Hwf) in Hr as [_ ?]. }
      destruct Hv as [Hwf' Hcl Hfr]. split; [done| |].
      * intros r e0 cid' He0 Hc Htc' Hr.
        destruct (decide (cid' = cid)) as [->|Hne].
        -- destruct (Hcl r e0 He0 Hc Hr) as [Hnil|?]; [by apply elem_of_nil in Hnil | done].
        -- assert (Hc' : clientId e0 <> Some cid) by congruence.
           destruct (Hfr r e0 He0 Hc') as [F1 F2]. rewrite F2. apply (Ht r e0 cid' He0 Hc).
           ++ rewrite touched_snoc in Htc'. apply orb_true_iff in Htc' as [?|Htc']; [done|].
              apply andb_true_iff in Htc' as [Htc' _]. apply andb_true_iff in Htc' as [Htc' _].
              unfold str_eqb in Htc'. apply bool_decide_eq_true in Htc'. done.
           ++ by apply F1.
      * intros r e0 He0 Hno.
        assert (Hc' : clientId e0 <> Some cid).
        { intros Hc. specialize (Hno cid Hc). rewrite touched_snoc in Hno.
          apply orb_false_iff in Hno as [_ Hno]. unfold str_eqb in Hno.
          rewrite bool_decide_eq_true_2, Hmd, Hover in Hno by done. done. }
        destruct (Hfr r e0 He0 Hc') as [F1 F2]. rewrite F1, F2. apply Hu; [done|].
        intros cid' Hc. specialize (Hno cid' Hc). rewrite touched_snoc in Hno.
        by apply orb_false_iff in Hno as [? _].
    + apply (Capped_same_touched processed); [|done].
      intros cid'. rewrite touched_snoc.
      destruct (str_eqb (cl_id c) cid') eqn:E; simpl; [|apply orb_false_r].
      unfold str_eqb in E. apply bool_decide_eq_true in E. subst cid'.
      fold cid. rewrite Hover, andb_false_r. apply orb_false_r.
Qed.

Lemma Capped_fold processed cs h :
  Capped processed h ->
  Capped (processed ++ cs)
         (fold_left (fixMdClient therapists clients selectedDate callouts) cs h).
Proof.
  revert processed h. induction cs as [|c cs IH]; intros processed h HC; simpl.
  - by rewrite app_nil_r.
  - replace (processed ++ c :: cs) with ((processed ++ [c]) ++ cs)
      by (by rewrite <- app_assoc).
    apply IH. by apply Capped_step.
Qed.

(** The visit to a client is a sequence of steps. *)
Lemma fixMdClient_run processed h c :
  Capped processed h -> c ∈ clients ->
  rtc step (deref h) (deref (fixMdClient therapists clients selectedDate callouts h c)).
Proof.
  intros HC Hc. pose proof HC as [Hwf Ht Hu]. unfold fixMdClient.
  change (includes (insuranceRequirements c) "MD_MEDICAID"%string) with (isMd c).
  destruct (isMd c) eqn:Hmd; simpl; [|done].
  fold (sessionRefs h (cl_id c)). set (cid := cl_id c).
  destruct (touched processed cid) eqn:Htc.
  - assert (Hsmall : Nat.ltb 3 (length (uniq (omap (fun r => therapistId <$> objs h !! r)
                                                  (sessionRefs h cid)))) = false).
    { apply Nat.ltb_ge. etrans; [|apply (firstThree_length cid)].
      apply uniq_length_le. intros x Hx.
      apply list_elem_of_omap in Hx as (r & Hr & Hx).
      apply (sessionRefs_spec h cid r Hwf) in Hr as [Hr (e0 & He0 & Hcl)].
      destruct (Ht r e0 cid He0 Hcl Htc Hr) as (e & He & Hin).
      rewrite He in Hx. simpl in Hx. by injection Hx as <-. }
    by rewrite Hsmall.
  - rewrite (untouched_therapists processed h cid HC Htc). fold (therapistsOf S cid).
    destruct (Nat.ltb 3 (length (therapistsOf S cid))) eqn:Hover; [|done].
    fold (firstThree S cid). apply Nat.ltb_lt in Hover.
    apply (fixMdSessions_run c); try done.
    intros r Hr. by apply (sessionRefs_spec h cid r Hwf) in Hr as [_ ?].
Qed.

Lemma fixMdClients_run processed cs h :
  Capped processed h -> (forall c, c ∈ cs -> c ∈ clients) ->
  rtc step (deref h)
    (deref (fold_left (fixMdClient therapists clients selectedDate callouts) cs h)).
Proof.
  revert processed h. induction cs as [|c cs IH]; intros processed h HC Hall; simpl; [done|].
  etrans.
  - apply (fixMdClient_run processed h c HC). apply Hall, list_elem_of_here.
  - apply (IH (processed ++ [c])); [by apply Capped_step|].
    intros x Hx. by apply Hall, list_elem_of_further.
Qed.

(** ** The schedule that is returned *)

Lemma touched_intro c ps :
  c ∈ ps -> isMd c = true -> (3 < length (therapistsOf S (cl_id c)))%nat ->
  touched ps (cl_id c) = true.
Proof.
  intros Hc Hmd Hover. unfold touched. apply andb_true_iff. split.
  - apply existsb_exists. exists c. split; [by apply list_elem_of_In|].
    unfold str_eqb. by rewrite bool_decide_eq_true_2, Hmd.
  - by apply Nat.ltb_lt.
Qed.

Lemma touched_elim ps cid :
  touched ps cid = true ->
  exists c, c ∈ ps /\ cl_id c = cid /\ isMd c = true /\
            (3 < length (therapistsOf S cid))%nat.
Proof.
  unfold touched. intros H. apply andb_true_iff in H as [H1 H2].
  apply existsb_exists in H1 as (c & Hc & Hp). apply andb_true_iff in Hp as [Hp1 Hp2].
  unfold str_eqb in Hp1. apply bool_decide_eq_true in Hp1.
  exists c. split; [by apply list_elem_of_In|]. by apply Nat.ltb_lt in H2.
Qed.

Lemma deref_origin h e :
  Wf h -> e ∈ deref h ->
  exists r e0, r ∈ arr h /\ objs h !! r = Some e /\ S !! r = Some e0 /\ sameButTherapist e0 e.
Proof.
  intros Hwf He. apply (elem_of_deref h e (Wf_validRefs h Hwf)) in He as (r & Hr & He).
  destruct (Wf_lookup h r Hwf (Wf_valid h r Hwf Hr)) as (e0 & e' & He0 & He' & Hs).
  rewrite He in He'. injection He' as <-. by exists r, e0.
Qed.

Lemma cap_bound ps h c :
  Capped ps h -> c ∈ ps -> isMd c = true ->
  (length (therapistsOf (deref h) (cl_id c)) <= 3)%nat.
Proof.
  intros HC Hc Hmd. pose proof HC as [Hwf Ht Hu]. set (cid := cl_id c).
  assert (Hof : forall e, e ∈ entriesOf (deref h) cid ->
            exists r e0, r ∈ arr h /\ objs h !! r = Some e /\ S !! r = Some e0 /\
                         clientId e0 = Some cid).
  { intros e He. apply elem_of_filter_list in He as [He Hp].
    destruct (deref_origin h e Hwf He) as (r & e0 & Hr & Hre & He0 & Hs).
    exists r, e0. repeat (split; [done|]).
    unfold opt_is in Hp. apply bool_decide_eq_true in Hp.
    destruct Hs as (_ & Hcl & _). congruence. }
  destruct (touched ps cid) eqn:Htc.
  - etrans; [|apply (firstThree_length cid)].
    apply uniq_length_le. intros x Hx.
    apply list_elem_of_In, in_map_iff in Hx as (e & <- & He). apply list_elem_of_In in He.
    destruct (Hof e He) as (r & e0 & Hr & Hre & He0 & Hcl).
    destruct (Ht r e0 cid He0 Hcl Htc Hr) as (e' & He' & Hin).
    rewrite Hre in He'. by injection He' as <-.
  - assert (Hle : (length (therapistsOf S cid) <= 3)%nat).
    { destruct (Nat.le_gt_cases (length (therapistsOf S cid)) 3) as [?|Hgt]; [done|].
      pose proof (touched_intro c ps Hc Hmd Hgt) as X. unfold cid in Htc. congruence. }
    etrans; [|exact Hle].
    apply uniq_length_le. intros x Hx.
    apply list_elem_of_In, in_map_iff in Hx as (e & <- & He). apply list_elem_of_In in He.
    destruct (Hof e He) as (r & e0 & Hr & Hre & He0 & Hcl).
    destruct (Hu r e0 He0) as [_ Hsame]; [intros cid' Hc'; congruence|].
    rewrite Hre in Hsame. injection Hsame as ->.
    apply elem_of_uniq, list_elem_of_In, in_map_iff. exists e0. split; [done|].
    apply list_elem_of_In, elem_of_filter_list. split; [by eapply list_elem_of_lookup_2|].
    unfold opt_is. by apply bool_decide_eq_true.
Qed.

Lemma cap_reassigned ps h cid e0 e :
  Capped ps h -> touched ps cid = true ->
  e0 ∈ S -> clientId e0 = Some cid -> e ∈ deref h -> id e = id e0 ->
  sameButTherapist e0 e /\ therapistId e ∈ firstThree S cid.
Proof.
  intros [Hwf Ht Hu] Htc He0 Hcl He Hid.
  destruct (deref_origin h e Hwf He) as (r & e1 & Hr & Hre & He1 & Hs).
  apply list_elem_of_lookup in He0 as [r0 He0].
  assert (r = r0) as ->.
  { apply (NoDup_lookup (map id S) r r0 (id e1) ids_unique).
    - by rewrite list_lookup_fmap, He1.
    - rewrite list_lookup_fmap, He0. simpl. destruct Hs as (Hi & _). congruence. }
  rewrite He0 in He1. injection He1 as <-. split; [done|].
  destruct (Ht r0 e0 cid He0 Hcl Htc Hr) as (e' & He' & Hin).
  rewrite Hre in He'. by injection He' as <-.
Qed.

Lemma cap_frame ps h e0 :
  Capped ps h -> e0 ∈ S ->
  (forall cid, clientId e0 = Some cid -> touched ps cid = false) ->
  e0 ∈ deref h.
Proof.
  intros [Hwf Ht Hu] He0 Hno. apply list_elem_of_lookup in He0 as [r He0].
  destruct (Hu r e0 He0 Hno) as [Hr Hre].
  apply (elem_of_deref h e0 (Wf_validRefs h Hwf)). by exists r.
Qed.

Lemma Capped_result :
  Capped clients (fold_left (fixMdClient therapists clients selectedDate callouts)
                            clients (heapOf S)).
Proof. apply (Capped_fold [] clients), Capped_init. Qed.

(** The result is reached by steps. *)
Lemma Capped_run :
  rtc step S (deref (fold_left (fixMdClient therapists clients selectedDate callouts)
                               clients (heapOf S))).
Proof.
  pose proof (fixMdClients_run [] clients (heapOf S) Capped_init (fun c Hc => Hc)) as H.
  by rewrite heapOf_deref in H.
Qed.

(** ** What a run does to one entry *)

Lemma capStep_ids s s' : step s s' -> map id s' `sublist_of` map id s.
Proof.
  intros [l1 l2 session c tid t _ _ _ _ _ _ _ _|l1 l2 session c _ _ _ _ _ _].
  - by rewrite !fmap_app, !fmap_cons.
  - rewrite !fmap_app, fmap_cons. apply sublist_app; [done|]. by apply sublist_cons.
Qed.

Lemma capRun_ids s s' : rtc step s s' -> map id s' `sublist_of` map id s.
Proof.
  induction 1 as [|x y z Hxy _ IH]; [done|]. etrans; [exact IH | by apply capStep_ids].
Qed.

(** No step touches an entry whose therapist is one of the first three. *)
Lemma capStep_keeps s s' e :
  step s s' -> e ∈ s ->
  (forall cid, clientId e = Some cid -> therapistId e ∈ firstThree S cid) ->
  e ∈ s'.
Proof.
  intros [l1 l2 session c tid t _ _ _ Hcl Hout _ _ _|l1 l2 session c _ _ _ Hcl Hout _]
    He Hok.
  - apply elem_of_app in He as [He|He]; [apply elem_of_app; by left|].
    apply elem_of_cons in He as [->|He]; [by destruct (Hout (Hok _ Hcl))|].
    apply elem_of_app. right. by apply list_elem_of_further.
  - apply elem_of_app in He as [He|He]; [apply elem_of_app; by left|].
    apply elem_of_cons in He as [->|He]; [by destruct (Hout (Hok _ Hcl))|].
    apply elem_of_app. by right.
Qed.

Lemma capRun_keeps s s' e :
  rtc step s s' -> e ∈ s ->
  (forall cid, clientId e = Some cid -> therapistId e ∈ firstThree S cid) ->
  e ∈ s'.
Proof.
  induction 1 as [|x y z Hxy _ IH]; intros He Hok; [done|].
  apply IH; [|done]. by eapply capStep_keeps.
Qed.

#[local] Abbreviation outcome :=
  (capOutcome S clients therapists selectedDate callouts).

Lemma capRun_decides cid e0 out s :
  clientId e0 = Some cid -> (therapistId e0 ∉ firstThree S cid) ->
  (forall e, e ∈ out -> id e = id e0 -> therapistId e ∈ firstThree S cid) ->
  rtc step s out -> NoDup (map id s) -> e0 ∈ s ->
  exists mid, rtc step s mid /\ e0 ∈ mid /\ outcome cid e0 mid out.
Proof.
  intros Hcl Hout Hres Hrun. induction Hrun as [s|s s' out Hstep Hrun IH]; intros Hnd He0.
  { by destruct (Hout (Hres e0 He0 eq_refl)). }
  assert (Hnd' : NoDup (map id s')).
  { eapply sublist_NoDup; [exact Hnd | by apply capStep_ids]. }
  assert (Hlater : e0 ∈ s' -> exists mid, rtc step s mid /\ e0 ∈ mid /\
                                          outcome cid e0 mid out).
  { intros He. destruct (IH Hres Hnd' He) as (mid & Hmid & Hin & Hdone).
    exists mid. split; [by eapply rtc_l | done]. }
  pose proof Hstep as Hstep'.
  destruct Hstep' as [l1 l2 session c tid t _ _ _ Hcs Hfar Hbest Hne Ht
                     |l1 l2 session c _ _ _ Hcs Hfar Hnone].
  - apply elem_of_app in He0 as [He0|He0]; [apply Hlater, elem_of_app; by left|].
    apply elem_of_cons in He0 as [->|He0].
    2: { apply Hlater, elem_of_app. right. by apply list_elem_of_further. }
    assert (Hc : cid = cl_id c) by congruence. subst cid.
    exists (l1 ++ session :: l2). split; [done|].
    split; [apply elem_of_app; right; apply list_elem_of_here|].
    left. exists tid, t.
    pose proof Hbest as Hfound. apply find_Some_elem in Hfound as [Hin Hacc].
    unfold swapAccepted in Hacc. rewrite Ht in Hacc.
    do 5 (split; [done|]).
    apply (capRun_keeps _ _ _ Hrun).
    + apply elem_of_app. right. apply list_elem_of_here.
    + simpl. intros cid' Hcid'. rewrite Hcs in Hcid'. injection Hcid' as <-.
      by rewrite (getTherapistById_id _ _ _ Ht).
  - apply elem_of_app in He0 as [He0|He0]; [apply Hlater, elem_of_app; by left|].
    apply elem_of_cons in He0 as [->|He0]; [|apply Hlater, elem_of_app; by right].
    assert (Hc : cid = cl_id c) by congruence. subst cid.
    exists (l1 ++ session :: l2). split; [done|].
    split; [apply elem_of_app; right; apply list_elem_of_here|].
    right. split; [done|]. intros e He Hid.
    assert (Hin : id session ∈ map id (l1 ++ l2)).
    { eapply elem_of_sublist; [|by apply capRun_ids].
      rewrite <- Hid. by apply list_elem_of_fmap_2. }
    rewrite fmap_app, fmap_cons in Hnd.
    apply NoDup_app in Hnd as (_ & N2 & N3). apply NoDup_cons in N3 as [N3 _].
    rewrite fmap_app in Hin. apply elem_of_app in Hin as [Hin|Hin]; [|done].
    apply (N2 _ Hin), list_elem_of_here.
Qed.

End MdCap.

(** C2 (as amended).  When the ids of the entries are pairwise distinct, the
    schedule returned by [fixMdMedicaidLimit] names at most three therapists
    for every client of the list that carries the Medicaid marker.  For such
    a client with more than three therapists in the input, every entry of the
    client is either absent from the result or present with one of the first
    three therapists and otherwise as it was.  Every returned entry is an
    entry of the input but for its therapist, and the entries of all other
    clients are kept.  The result is reached from the input by steps, each
    on an entry of such a client under a therapist outside the first three:
    the entry is reassigned to the first of the three under whom the kernel
    accepts it against the schedule of that moment, or removed when the
    kernel accepts it under none of them.  Every such entry of the input
    meets its step: at some schedule reached by these steps the kernel
    accepted it and the result holds it under the accepted therapist, or the
    kernel accepted it under none and the result has no entry of its id. *)
Theorem md_medicaid_limit_enforced
    (schedule : GeneratedSchedule) (clients : list Client) (therapists : list Therapist)
    (selectedDate : JsDate) (callouts : list Callout) :
  NoDup (map id schedule) ->
  let out := fixMdMedicaidLimit schedule clients therapists selectedDate callouts in
  let step := capStep schedule clients therapists selectedDate callouts in
  (forall c, c ∈ clients -> isMd c = true ->
     (length (therapistsOf out (cl_id c)) <= 3)%nat) /\
  (forall c e0 e, c ∈ clients -> isMd c = true ->
     (3 < length (therapistsOf schedule (cl_id c)))%nat ->
     e0 ∈ schedule -> clientId e0 = Some (cl_id c) ->
     e ∈ out -> id e = id e0 ->
     sameButTherapist e0 e /\ therapistId e ∈ firstThree schedule (cl_id c)) /\
  (forall e, e ∈ out -> exists e0, e0 ∈ schedule /\ sameButTherapist e0 e) /\
  (forall e0, e0 ∈ schedule ->
     (forall c, c ∈ clients -> isMd c = true -> clientId e0 = Some (cl_id c) ->
        (length (therapistsOf schedule (cl_id c)) <= 3)%nat) ->
     e0 ∈ out) /\
  rtc step schedule out /\
  (forall c e0, c ∈ clients -> isMd c = true ->
     (3 < length (therapistsOf schedule (cl_id c)))%nat ->
     e0 ∈ schedule -> clientId e0 = Some (cl_id c) ->
     (therapistId e0 ∉ firstThree schedule (cl_id c)) ->
     exists mid,
       rtc step schedule mid /\ e0 ∈ mid /\
       capOutcome schedule clients therapists selectedDate callouts (cl_id c) e0 mid out).
Proof.
  intros Hids out step.
  pose proof (Capped_result schedule Hids clients therapists selectedDate callouts) as HC.
  pose proof (Capped_run schedule Hids clients therapists selectedDate callouts) as Hrun.
  fold (fixMdMedicaidLimit schedule clients therapists selectedDate callouts) in out, Hrun.
  assert (Hsame : forall c e0 e, c ∈ clients -> isMd c = true ->
            (3 < length (therapistsOf schedule (cl_id c)))%nat ->
            e0 ∈ schedule -> clientId e0 = Some (cl_id c) ->
            e ∈ out -> id e = id e0 ->
            sameButTherapist e0 e /\ therapistId e ∈ firstThree schedule (cl_id c)).
  { intros c e0 e Hc Hmd Hover He0 Hcl He Hid.
    apply (cap_reassigned schedule Hids clients _ (cl_id c) e0 e HC); try done.
    by apply touched_intro. }
  split; [|split; [|split; [|split; [|split]]]].
  - intros c Hc Hmd. by apply (cap_bound schedule clients).
  - exact Hsame.
  - intros e He. destruct (deref_origin schedule _ e (ca_wf _ _ _ HC) He)
      as (r & e0 & _ & _ & He0 & Hs).
    exists e0. split; [by eapply list_elem_of_lookup_2 | done].
  - intros e0 He0 Hsmall. apply (cap_frame schedule clients _ e0 HC He0).
    intros cid Hcl. destruct (touched schedule clients cid) eqn:Htc; [|done].
    apply touched_elim in Htc as (c & Hc & <- & Hmd & Hover).
    specialize (Hsmall c Hc Hmd Hcl). lia.
  - exact Hrun.
  - intros c e0 Hc Hmd Hover He0 Hcl Hfar.
    apply (capRun_decides schedule clients therapists selectedDate callouts
             (cl_id c) e0 out schedule); try done.
    intros e He Hid. by apply (Hsame c e0 e).
Qed.

(** The theorem at a client with five sessions under four therapists.  The
    session of the fourth therapist at 11:00 goes to the first therapist,
    whom the kernel accepts; the one at 8:00, when the client is already in
    a session, is accepted under none of the three and is dropped. *)
Lemma md_medicaid_limit_enforced_witness :
  let th i := {| th_id := i; th_name := i; th_role := "RBT"; th_teamId := None;
                 qualifications := ["MD_MEDICAID"%string];
                 canProvideAlliedHealth := [] |} in
  let c1 := {| cl_id := "c1"; cl_name := "Ann"; cl_teamId := None;
               insuranceRequirements := ["MD_MEDICAID"%string]; alliedHealthNeeds := [] |} in
  let e i t a b := mkEntry i (Some "Ann"%string) (Some "c1"%string) t t MONDAY
                     {| mins := a; half := false |} {| mins := b; half := false |} ABA in
  let schedule := [e "1" "t1" 480 540; e "2" "t2" 540 600; e "3" "t3" 600 660;
                   e "4" "t4" 660 720; e "5" "t4" 480 540]%string in
  let therapists := [th "t1"; th "t2"; th "t3"; th "t4"]%string in
  let out := fixMdMedicaidLimit schedule [c1] therapists {| dayNumber := 4 |} [] in
  NoDup (map id schedule) /\
  (length (therapistsOf schedule "c1") = 4)%nat /\
  (length (therapistsOf out (cl_id c1)) <= 3)%nat /\
  out = [e "1" "t1" 480 540; e "2" "t2" 540 600; e "3" "t3" 600 660;
         e "4" "t1" 660 720]%string /\
  rtc (capStep schedule [c1] therapists {| dayNumber := 4 |} []) schedule out /\
  (exists mid,
     rtc (capStep schedule [c1] therapists {| dayNumber := 4 |} []) schedule mid /\
     e "4"%string "t4"%string 660 720 ∈ mid /\
     capOutcome schedule [c1] therapists {| dayNumber := 4 |} [] (cl_id c1)
       (e "4"%string "t4"%string 660 720) mid out).
Proof.
  intros th c1 e schedule therapists out.
  assert (Hids : NoDup (map id schedule)) by (apply (bool_decide_unpack _); exact I).
  destruct (md_medicaid_limit_enforced schedule [c1] therapists {| dayNumber := 4 |} [] Hids)
    as (Hbound & _ & _ & _ & Hrun & Heach).
  split; [exact Hids|]. split; [reflexivity|]. split; [|split; [|split]].
  - apply Hbound; [apply list_elem_of_here | reflexivity].
  - reflexivity.
  - exact Hrun.
  - apply (Heach c1 (e "4" "t4" 660 720)%string).
    + apply list_elem_of_here.
    + reflexivity.
    + vm_compute. lia.
    + apply (bool_decide_unpack _). vm_compute. exact I.
    + reflexivity.
    + apply (bool_decide_unpack _). vm_compute. exact I.
Defined.

(** C2, the claim as stated, fails when two entries share an id: the entry to
    drop is looked up by its id, so the first entry with that id is removed
    in its place.  Here the last session, under a fourth therapist, has the
    id of the first one; the first one is removed, the last one stays, and
    the client is left with four therapists. *)
Lemma md_medicaid_limit_duplicate_id :
  let th i := {| th_id := i; th_name := i; th_role := "RBT"; th_teamId := None;
                 qualifications := []; canProvideAlliedHealth := [] |} in
  let c1 := {| cl_id := "c1"; cl_name := "Ann"; cl_teamId := None;
               insuranceRequirements := ["MD_MEDICAID"%string]; alliedHealthNeeds := [] |} in
  let e i t := mkEntry i (Some "Ann"%string) (Some "c1"%string) t t MONDAY
                 {| mins := 540; half := false |} {| mins := 600; half := false |} ABA in
  let schedule := [e "1" "t1"; e "9" "t1"; e "2" "t2"; e "3" "t3"; e "1" "t4"]%string in
  let out := fixMdMedicaidLimit schedule [c1] [th "t1"; th "t2"; th "t3"; th "t4"]%string
               {| dayNumber := 4 |} [] in
  isMd c1 = true /\
  firstThree schedule "c1" = ["t1"; "t2"; "t3"]%string /\
  therapistsOf out "c1" = ["t1"; "t2"; "t3"; "t4"]%string /\
  e "1"%string "t4"%string ∈ out.
Proof.
  cbv zeta. split; [reflexivity|]. split; [reflexivity|]. split; [reflexivity|].
  apply (bool_decide_unpack _). vm_compute. exact I.
Qed.

(** * The generational loop *)

(** ** The monad *)

Lemma bind_Some {A B} (c : M A) (k : A -> M B) (o : Oracle) (y : B) (o' : Oracle) :
  bind c k o = Some (y, o') <->
  exists x o1, c o = Some (x, o1) /\ k x o1 = Some (y, o').
Proof.
  unfold bind. split.
  - destruct (c o) as [[x o1]|]; [|done]. intros H. by exists x, o1.
  - intros (x & o1 & -> & H). done.
Qed.

Lemma ret_Some {A} (x y : A) (o o' : Oracle) :
  ret x o = Some (y, o') <-> x = y /\ o = o'.
Proof. unfold ret. split; [by intros [= -> ->] | by intros [-> ->]]. Qed.

(** ** Comparisons *)

Lemma Qltb_lt (x y : Q) : Qltb x y = true <-> (x < y)%Q.
Proof.
  unfold Qltb. rewrite negb_true_iff. split.
  - intros H. apply Qnot_le_lt. intros Hle. apply Qle_bool_iff in Hle. congruence.
  - intros H. destruct (Qle_bool y x) eqn:E; [|done].
    apply Qle_bool_iff in E. by apply Qlt_not_le in H.
Qed.

Lemma num_ltb_lt (a b : JsNumber) : num_ltb a b = true <-> num_lt a b.
Proof.
  destruct a as [x|], b as [y|]; simpl; try done.
  apply Qltb_lt.
Qed.

Lemma shouldStop_spec (st : LoopState) : shouldStop st = true <-> stopCondition st.
Proof.
  unfold shouldStop, stopCondition. rewrite orb_true_iff.
  assert (H1 : num_is_zero (bestFitnessOverall st) = true <->
               exists q, bestFitnessOverall st = Finite q /\ (q == 0)%Q).
  { unfold num_is_zero. destruct (bestFitnessOverall st) as [x|].
    - rewrite Qeq_bool_iff. split; [intros H; by exists x|].
      by intros (q & [= <-] & H).
    - split; [done|]. by intros (q & ? & _). }
  assert (H2 : Nat.leb PLATEAU_LIMIT (generationsWithoutImprovement st) = true <->
               (30 <= generationsWithoutImprovement st)%nat).
  { unfold PLATEAU_LIMIT. apply Nat.leb_le. }
  tauto.
Qed.

(** ** One generation *)

Section Loop.

Variable Math_log2 : Z -> Q.
Variables (clients : list Client) (therapists : list Therapist)
          (selectedDate : JsDate) (callouts : list Callout).

#[local] Abbreviation generation_ :=
  (generation Math_log2 clients therapists selectedDate callouts).
#[local] Abbreviation generationalLoop_ :=
  (generationalLoop Math_log2 clients therapists selectedDate callouts).
#[local] Abbreviation generationalTrace_ :=
  (generationalTrace Math_log2 clients therapists selectedDate callouts).

Lemma recordBest_run gen st best : generationsRun (recordBest gen st best) = Datatypes.S gen.
Proof. unfold recordBest. by destruct (num_ltb _ _). Qed.

Lemma recordBest_follows gen st best : followsFrom st (recordBest gen st best).
Proof.
  unfold recordBest, followsFrom.
  destruct (num_ltb _ _) eqn:E; simpl; [left|right; done].
  split; [|done]. exact (proj1 (num_ltb_lt _ _) E).
Qed.

Lemma generation_spec day_ gen st o st1 b o1 :
  generation_ day_ gen st o = Some ((st1, b), o1) ->
  generationsRun st1 = Datatypes.S gen /\ followsFrom st st1 /\ b = shouldStop st1.
Proof.
  unfold generation. intros H.
  apply bind_Some in H as (best & o2 & _ & H).
  pose proof (recordBest_run gen st best) as Hrun.
  pose proof (recordBest_follows gen st best) as Hfol.
  destruct (shouldStop (recordBest gen st best)) eqn:Hs.
  - apply ret_Some in H as [[= <- <-] _]. by rewrite Hs.
  - apply bind_Some in H as (newPop & o3 & _ & H).
    apply ret_Some in H as [[= <- <-] _]. simpl.
    split; [done|]. split; [exact Hfol|].
    exact (eq_sym Hs).
Qed.

(** ** The loop and its record *)

(** What the record of a run that starts at generation [gen] in state [st]
    and may take [n] turns looks like. *)
Record TraceOf (n gen : nat) (st : LoopState) (trace : list LoopState)
    (st' : LoopState) : Prop := {
  tr_last : last trace = Some st';
  tr_length : (1 <= length trace <= n)%nat;
  tr_run : forall i s, trace !! i = Some s -> generationsRun s = Datatypes.S (gen + i);
  tr_goes : forall i s, trace !! i = Some s -> (Datatypes.S i < length trace)%nat ->
            shouldStop s = false;
  tr_ends : shouldStop st' = true \/ length trace = n;
  tr_follows : forall i prev s, (st :: trace) !! i = Some prev -> trace !! i = Some s ->
               followsFrom prev s
}.

Lemma loop_trace day_ n gen st o st' o' :
  generationalLoop_ day_ (Datatypes.S n) gen st o = Some (st', o') ->
  exists trace, generationalTrace_ day_ (Datatypes.S n) gen st o = Some (trace, o') /\
                TraceOf (Datatypes.S n) gen st trace st'.
Proof.
  revert gen st o. induction n as [|n IH]; intros gen st o H.
  - simpl in H. apply bind_Some in H as ([st1 b] & o1 & Hg & H).
    pose proof (generation_spec _ _ _ _ _ _ _ Hg) as (Hrun & Hfol & Hb).
    assert (st1 = st' /\ o1 = o') as [-> ->].
    { simpl in H. destruct b; by apply ret_Some in H. }
    exists [st']. split.
    + simpl. unfold bind. rewrite Hg. simpl. by destruct b.
    + split.
      * done.
      * simpl. lia.
      * intros [|i] s Hi; [|done]. injection Hi as <-. by rewrite Hrun, Nat.add_0_r.
      * intros [|i] s Hi; simpl; [lia|done].
      * by right.
      * intros [|i] prev s Hp Hi; [|done]. simpl in Hp, Hi. congruence.
  - change (generationalLoop_ day_ (Datatypes.S (Datatypes.S n)) gen st o)
      with (bind (generation_ day_ gen st)
              (fun next => if snd next then ret (fst next)
                           else generationalLoop_ day_ (Datatypes.S n) (Datatypes.S gen)
                                  (fst next)) o) in H.
    apply bind_Some in H as ([st1 b] & o1 & Hg & H).
    pose proof (generation_spec _ _ _ _ _ _ _ Hg) as (Hrun & Hfol & Hb).
    change (generationalTrace_ day_ (Datatypes.S (Datatypes.S n)) gen st o)
      with (bind (generation_ day_ gen st)
              (fun next => if snd next then ret [fst next]
                           else bind (generationalTrace_ day_ (Datatypes.S n)
                                        (Datatypes.S gen) (fst next))
                                     (fun rest => ret (fst next :: rest))) o).
    unfold bind at 1. rewrite Hg. cbn [fst snd] in H |- *. destruct b.
    + apply ret_Some in H as [-> ->]. exists [st']. split; [done|].
      split.
      * done.
      * simpl. lia.
      * intros [|i] s Hi; [|done]. injection Hi as <-. by rewrite Hrun, Nat.add_0_r.
      * intros [|i] s Hi; simpl; [lia|done].
      * left. by rewrite <- Hb.
      * intros [|i] prev s Hp Hi; [|done]. simpl in Hp, Hi. congruence.
    + destruct (IH _ _ _ H) as (rest & Hrest & [T1 T2 T3 T4 T5 T6]).
      exists (st1 :: rest). split; [unfold bind; by rewrite Hrest|].
      split.
      * destruct rest as [|x rest]; [simpl in T2; lia|]. exact T1.
      * simpl. lia.
      * intros [|i] s Hi; simpl in Hi.
        -- injection Hi as <-. by rewrite Hrun, Nat.add_0_r.
        -- rewrite (T3 i s Hi). lia.
      * intros [|i] s Hi Hlen; simpl in Hi, Hlen.
        -- injection Hi as <-. by rewrite <- Hb.
        -- apply (T4 i s Hi). lia.
      * destruct T5 as [?|T5]; [by left|right]. simpl. by rewrite T5.
      * intros [|i] prev s Hp Hi; simpl in Hp, Hi.
        -- congruence.
        -- by apply (T6 i).
Qed.

End Loop.

(** ** The whole run *)

(** The steps of [runCsoAlgorithm], read off a run that returned. *)
Lemma runCsoAlgorithm_inv Math_log2 clients therapists selectedDate callouts
    services initial o r o' :
  runCsoAlgorithm Math_log2 clients therapists selectedDate callouts services initial o
    = Some (r, o') ->
  exists population0 o0 st o1,
    initialPopulation clients therapists selectedDate callouts services
      (getDayOfWeekFromDate selectedDate) initial o = Some (population0, o0) /\
    generationalLoop Math_log2 clients therapists selectedDate callouts
      (getDayOfWeekFromDate selectedDate) MAX_GENERATIONS 0 (startState population0) o0
      = Some (st, o1) /\
    generations r = generationsRun st /\
    success r = num_ltb (bestFitness r) (Finite 500).
Proof.
  unfold runCsoAlgorithm. intros H.
  apply bind_Some in H as (population0 & o0 & Hpop & H).
  apply bind_Some in H as (st & o1 & Hloop & H).
  apply bind_Some in H as ([bestSchedule bestFitness_] & o2 & _ & H).
  apply ret_Some in H as [<- _]. simpl.
  exists population0, o0, st, o1. done.
Qed.

(** C1.  Whatever the clients, therapists, date, callouts, stored schedules,
    initial schedule and random draws, a run of [runCsoAlgorithm] that
    returns reports success exactly when the best fitness it returns is
    strictly below 500. *)
Theorem success_iff_fitness_below_500
    (Math_log2 : Z -> Q) (clients : list Client) (therapists : list Therapist)
    (selectedDate : JsDate) (callouts : list Callout) (services : Services)
    (initialScheduleForOptimization : option GeneratedSchedule)
    (o : Oracle) (r : GAGenerationResult) (o' : Oracle) :
  runCsoAlgorithm Math_log2 clients therapists selectedDate callouts services
    initialScheduleForOptimization o = Some (r, o') ->
  (success r = true <-> num_lt (bestFitness r) (Finite 500)).
Proof.
  intros H. apply runCsoAlgorithm_inv in H as (_ & _ & _ & _ & _ & _ & _ & ->).
  apply num_ltb_lt.
Qed.

(** C4.  A run of [runCsoAlgorithm] that returns went through at least one
    and at most 150 generations, and that is the count it returns.  The
    record of the loop, one state per generation, shows when it was left: no
    generation before the last met the stop condition (best fitness on record
    zero, or thirty generations in a row without improvement), and the last
    one met it unless it was the 150th.  From one generation to the next the
    best fitness on record either improves, and the count of generations
    without improvement restarts at zero, or stays, and the count grows by
    one. *)
Theorem generations_bounded_and_loop_left
    (Math_log2 : Z -> Q) (clients : list Client) (therapists : list Therapist)
    (selectedDate : JsDate) (callouts : list Callout) (services : Services)
    (initialScheduleForOptimization : option GeneratedSchedule)
    (o : Oracle) (r : GAGenerationResult) (o' : Oracle) :
  runCsoAlgorithm Math_log2 clients therapists selectedDate callouts services
    initialScheduleForOptimization o = Some (r, o') ->
  (1 <= generations r <= 150)%nat /\
  exists population0 o0 trace o1,
    initialPopulation clients therapists selectedDate callouts services
      (getDayOfWeekFromDate selectedDate) initialScheduleForOptimization o
      = Some (population0, o0) /\
    generationalTrace Math_log2 clients therapists selectedDate callouts
      (getDayOfWeekFromDate selectedDate) MAX_GENERATIONS 0 (startState population0) o0
      = Some (trace, o1) /\
    length trace = generations r /\
    (forall i st, trace !! i = Some st -> generationsRun st = Datatypes.S i) /\
    (forall i st, trace !! i = Some st -> (Datatypes.S i < length trace)%nat ->
                  ~ stopCondition st) /\
    (forall st, last trace = Some st -> stopCondition st \/ length trace = 150%nat) /\
    (forall i prev st, (startState population0 :: trace) !! i = Some prev ->
                       trace !! i = Some st -> followsFrom prev st).
Proof.
  intros H.
  apply runCsoAlgorithm_inv in H as (population0 & o0 & st' & o1 & Hpop & Hloop & Hgen & _).
  change MAX_GENERATIONS with (Datatypes.S 149) in Hloop.
  apply loop_trace in Hloop as (trace & Htrace & [T1 T2 T3 T4 T5 T6]).
  assert (Hlen : length trace = generations r).
  { rewrite Hgen. rewrite last_lookup in T1. rewrite (T3 _ _ T1). simpl. lia. }
  split; [lia|].
  exists population0, o0, trace, o1.
  split; [done|]. split; [exact Htrace|]. split; [done|]. split; [|split; [|split]].
  - intros i st Hi. by rewrite (T3 i st Hi).
  - intros i st Hi Hlt Hstop. apply shouldStop_spec in Hstop.
    by rewrite (T4 i st Hi Hlt) in Hstop.
  - intros st Hst. rewrite T1 in Hst. injection Hst as <-.
    destruct T5 as [T5|T5]; [left; by apply shouldStop_spec | by right].
  - exact T6.
Qed.

(** The theorem at a run for one client, no therapist and a callout of the
    client from 08:00 to 16:30. *)
Lemma success_iff_fitness_below_500_witness :
  let log2 := fun n => inject_Z (Z.log2 n) in
  let c1 := {| cl_id := "c1"; cl_name := "Ann"; cl_teamId := None;
               insuranceRequirements := []; alliedHealthNeeds := [] |} in
  let co := {| co_id := "k"; entityType := EClient; entityId := "c1"; entityName := "Ann";
               startDate := Some 4; endDate := Some 4;
               co_startTime := {| mins := 480; half := false |};
               co_endTime := {| mins := 990; half := false |}; reason := None |} in
  let o := {| draws := fun n => Z.of_nat n * 2 ^ 50; drawPos := 0;
              freshIds := fun n => String (Ascii.ascii_of_nat (97 + n)) EmptyString;
              idPos := 0; today := {| dayNumber := 4 |} |} in
  exists r o',
    runCsoAlgorithm log2 [c1] [] {| dayNumber := 4 |} [co]
      {| baseSchedules := []; highRatedSchedules := [] |} None o = Some (r, o') /\
    (success r = true <-> num_lt (bestFitness r) (Finite 500)).
Proof.
  intros log2 c1 co o.
  destruct (runCsoAlgorithm log2 [c1] [] {| dayNumber := 4 |} [co]
              {| baseSchedules := []; highRatedSchedules := [] |} None o)
    as [[r o']|] eqn:E.
  - exists r, o'. split; [reflexivity|].
    exact (success_iff_fitness_below_500 _ _ _ _ _ _ _ _ _ _ E).
  - vm_compute in E. discriminate E.
Defined.

(** The theorem at a run for one therapist and no client. *)
Lemma generations_bounded_and_loop_left_witness :
  let log2 := fun n => inject_Z (Z.log2 n) in
  let t1 := {| th_id := "t1"; th_name := "Tina"; th_role := "RBT"; th_teamId := None;
               qualifications := ["RBT"%string]; canProvideAlliedHealth := [] |} in
  let o := {| draws := fun n => Z.of_nat n * 2 ^ 50; drawPos := 0;
              freshIds := fun n => String (Ascii.ascii_of_nat (97 + n)) EmptyString;
              idPos := 0; today := {| dayNumber := 4 |} |} in
  exists r o',
    runCsoAlgorithm log2 [] [t1] {| dayNumber := 4 |} []
      {| baseSchedules := []; highRatedSchedules := [] |} None o = Some (r, o') /\
    (1 <= generations r <= 150)%nat.
Proof.
  intros log2 t1 o.
  destruct (runCsoAlgorithm log2 [] [t1] {| dayNumber := 4 |} []
              {| baseSchedules := []; highRatedSchedules := [] |} None o)
    as [[r o']|] eqn:E.
  - exists r, o'. split; [reflexivity|].
    exact (proj1 (generations_bounded_and_loop_left _ _ _ _ _ _ _ _ _ _ E)).
  - vm_compute in E. discriminate E.
Defined.

(** ** A run without clients *)

Lemma seeder_no_clients therapists day_ d callouts lc o :
  constructiveHeuristicInitialization [] therapists day_ d callouts None lc o = Some ([], o).
Proof. reflexivity. Qed.

Lemma validate_nothing therapists d callouts a b :
  validateFullSchedule [] [] therapists (Some d) a b callouts = [].
Proof. reflexivity. Qed.

Lemma cleanup_nothing : cleanupScheduleIssues [] = [].
Proof. reflexivity. Qed.

Lemma localSearch_nothing Math_log2 clients therapists d callouts n o :
  localSearchImprovement Math_log2 [] clients therapists d callouts n o = Some ([], o).
Proof. destruct n; reflexivity. Qed.

Lemma no_idle therapists acc :
  fold_left (fun acc t => acc + idleMinutes (sessionsOf [] (th_id t))) therapists acc = acc.
Proof.
  revert acc. induction therapists as [|t r IH]; intros acc; simpl; [done|].
  rewrite IH. unfold sessionsOf. simpl. lia.
Qed.

Lemma fitness_nothing Math_log2 therapists d callouts :
  (calculateFitness Math_log2 [] [] therapists d callouts == 0)%Q.
Proof.
  unfold calculateFitness. rewrite validate_nothing.
  unfold calculateFragmentationPenalty. rewrite no_idle.
  unfold countOf. simpl length. change (Z.of_nat 0) with 0.
  rewrite (Z.min_l 0 (Z.of_nat (length therapists))) by lia.
  change (countStaggerViolations [] therapists) with 0.
  change ((0 `div` 4) `min` (0 * 2)) with 0.
  change (Z.min 0 5) with 0. change (inject_Z 0) with 0%Q. ring.
Qed.

Lemma fillPopulation_no_clients therapists d callouts day_ lc n population_ o :
  fillPopulation [] therapists d callouts day_ None lc n population_ o
  = Some (population_ ++ replicate n [], o).
Proof.
  revert population_. induction n as [|n IH]; intros population_; simpl.
  - by rewrite app_nil_r.
  - unfold bind. rewrite seeder_no_clients. rewrite IH. by rewrite <- app_assoc.
Qed.

Lemma initialPopulation_no_clients therapists d callouts services day_ o :
  find_ (fun bs => includes (appliesToDays bs) day_) (baseSchedules services) = None ->
  highRatedSchedules services = [] ->
  initialPopulation [] therapists d callouts services day_ None o
  = Some (replicate POPULATION_SIZE [], o).
Proof.
  intros Hbase Hhigh. unfold initialPopulation. rewrite Hbase.
  assert (Hlc : topRatedSchedules (loadLearningContext services) = []).
  { unfold loadLearningContext. simpl. exact Hhigh. }
  rewrite Hlc.
  exact (fillPopulation_no_clients therapists d callouts day_
           (loadLearningContext services) POPULATION_SIZE [] o).
Qed.

(** The best of a population of empty schedules is an empty schedule. *)
Lemma evaluatePopulation_head Math_log2 clients therapists d callouts population_ :
  population_ <> [] -> (forall p, p ∈ population_ -> p = []) ->
  exists best,
    evaluatePopulation Math_log2 clients therapists d callouts population_ !! 0%nat
      = Some best /\
    ind_schedule best = [] /\
    fitness best = calculateFitness Math_log2 [] clients therapists d callouts.
Proof.
  intros Hne Hall. unfold evaluatePopulation.
  set (gt := fun a b : Individual => Qltb (fitness b) (fitness a)).
  set (l := map _ population_).
  pose proof (sortBy_Permutation gt l) as Hperm.
  destruct (sortBy gt l) as [|best rest] eqn:E.
  - apply Permutation_nil_l in Hperm. unfold l in Hperm.
    destruct population_; [done | discriminate Hperm].
  - exists best. split; [done|].
    assert (Hin : best ∈ l).
    { rewrite <- Hperm. apply list_elem_of_here. }
    apply list_elem_of_In, in_map_iff in Hin as (p & <- & Hp).
    apply list_elem_of_In, Hall in Hp. subst p. done.
Qed.

Lemma generation_no_clients Math_log2 therapists d callouts day_ o :
  generation Math_log2 [] therapists d callouts day_ 0
    (startState (replicate POPULATION_SIZE [])) o
  = Some (({| population := replicate POPULATION_SIZE [];
              bestFitnessOverall :=
                Finite (calculateFitness Math_log2 [] [] therapists d callouts);
              bestScheduleOverall := Some [];
              generationsRun := 1;
              generationsWithoutImprovement := 0 |}, true), o).
Proof.
  destruct (evaluatePopulation_head Math_log2 [] therapists d callouts
              (replicate POPULATION_SIZE [])) as (best & Hhead & Hsched & Hfit).
  { discriminate. }
  { intros p Hp. by apply elem_of_replicate in Hp as [-> _]. }
  unfold generation, startState. cbn [population]. rewrite Hhead.
  unfold bind, unwrap, ret.
  unfold recordBest. cbn [bestFitnessOverall num_ltb].
  unfold shouldStop. cbn [bestFitnessOverall num_is_zero population
                          bestScheduleOverall generationsWithoutImprovement].
  rewrite Hfit, Hsched.
  rewrite (proj2 (Qeq_bool_iff _ _) (fitness_nothing Math_log2 therapists d callouts)).
  reflexivity.
Qed.

(** Without clients and without seeds the run is over after one generation. *)
Lemma run_without_clients
    (Math_log2 : Z -> Q) (therapists : list Therapist) (selectedDate : JsDate)
    (callouts : list Callout) (services : Services) (o : Oracle) :
  find_ (fun bs => includes (appliesToDays bs) (getDayOfWeekFromDate selectedDate))
        (baseSchedules services) = None ->
  highRatedSchedules services = [] ->
  exists r,
    runCsoAlgorithm Math_log2 [] therapists selectedDate callouts services None o
      = Some (r, o) /\
    res_schedule r = [] /\ finalValidationErrors r = [] /\ success r = true /\
    generations r = 1%nat /\ num_is_zero (bestFitness r) = true.
Proof.
  intros Hbase Hhigh.
  pose proof (fitness_nothing Math_log2 therapists selectedDate callouts) as Hzero.
  unfold runCsoAlgorithm. unfold bind at 1.
  rewrite (initialPopulation_no_clients _ _ _ _ _ o Hbase Hhigh).
  unfold bind at 1. change MAX_GENERATIONS with (Datatypes.S 149).
  cbn [generationalLoop]. unfold bind at 1.
  fold (startState (replicate POPULATION_SIZE [])).
  rewrite generation_no_clients. cbn [snd fst ret bestScheduleOverall].
  unfold bind at 1. unfold bind at 1. rewrite localSearch_nothing.
  cbn [ret]. eexists. split; [reflexivity|]. cbn [res_schedule finalValidationErrors
    success generations bestFitness generationsRun].
  split; [reflexivity|]. split; [reflexivity|]. split; [|split; [reflexivity|]].
  - apply num_ltb_lt. simpl. rewrite Hzero. reflexivity.
  - simpl. by apply Qeq_bool_iff.
Qed.


(** ** A run without therapists *)

Lemma placeTask_no_therapist clients day_ d callouts st task o :
  possibleTherapists task = [] ->
  placeTask clients [] day_ d callouts st task o = Some (st, o).
Proof. intros H. unfold placeTask. rewrite H. reflexivity. Qed.

Lemma clientTasks_no_therapist schedule client task :
  task ∈ clientTasks schedule [] client -> possibleTherapists task = [].
Proof.
  unfold clientTasks. simpl. rewrite app_nil_r. intros H.
  apply list_elem_of_In, in_flat_map in H as (need & _ & H).
  destruct (_ <? _); [|by apply list_elem_of_In, elem_of_nil in H].
  apply list_elem_of_In, list_elem_of_singleton in H as ->. done.
Qed.

Lemma placeTasks_no_therapist clients day_ d callouts tasks st o :
  (forall task, task ∈ tasks -> possibleTherapists task = []) ->
  foldM (placeTask clients [] day_ d callouts) tasks st o = Some (st, o).
Proof.
  induction tasks as [|task rest IH]; intros Hall; [done|].
  cbn [foldM]. unfold bind.
  rewrite placeTask_no_therapist by apply Hall, list_elem_of_here.
  apply IH. intros t Ht. by apply Hall, list_elem_of_further.
Qed.

Lemma seeder_no_therapists clients day_ d callouts lc o :
  constructiveHeuristicInitialization clients [] day_ d callouts None lc o = Some ([], o).
Proof.
  unfold constructiveHeuristicInitialization. cbn [bind ret]. unfold bind at 1.
  cbn [ret]. unfold bind at 1.
  rewrite placeTasks_no_therapist; [reflexivity|].
  intros task Ht. unfold sortByZ in Ht. apply elem_of_sortBy in Ht.
  apply list_elem_of_In, in_flat_map in Ht as (client & _ & Ht).
  by apply list_elem_of_In, clientTasks_no_therapist in Ht.
Qed.

Lemma fillPopulation_no_therapists clients d callouts day_ lc n population_ o :
  fillPopulation clients [] d callouts day_ None lc n population_ o
  = Some (population_ ++ replicate n [], o).
Proof.
  revert population_. induction n as [|n IH]; intros population_; simpl.
  - by rewrite app_nil_r.
  - unfold bind. rewrite seeder_no_therapists. rewrite IH. by rewrite <- app_assoc.
Qed.

Lemma initialPopulation_no_therapists clients d callouts services day_ o :
  find_ (fun bs => includes (appliesToDays bs) day_) (baseSchedules services) = None ->
  highRatedSchedules services = [] ->
  initialPopulation clients [] d callouts services day_ None o
  = Some (replicate POPULATION_SIZE [], o).
Proof.
  intros Hbase Hhigh. unfold initialPopulation. rewrite Hbase.
  assert (Hlc : topRatedSchedules (loadLearningContext services) = []).
  { unfold loadLearningContext. simpl. exact Hhigh. }
  rewrite Hlc.
  exact (fillPopulation_no_therapists clients d callouts day_
           (loadLearningContext services) POPULATION_SIZE [] o).
Qed.

Lemma fixMdMedicaidLimit_nothing clients d callouts :
  fixMdMedicaidLimit [] clients [] d callouts = [].
Proof.
  unfold fixMdMedicaidLimit.
  assert (H : forall cs, fold_left (fixMdClient [] clients d callouts) cs (heapOf [])
                         = heapOf []); [|by rewrite H].
  induction cs as [|c cs IH]; [done|]. cbn [fold_left].
  assert (Hc : fixMdClient [] clients d callouts (heapOf []) c = heapOf [])
    by (unfold fixMdClient; destruct (negb _); reflexivity).
  by rewrite Hc.
Qed.

Lemma fillGapWith_no_therapist client day_ gap lens st o :
  fillGapWith client [] day_ gap lens st o = Some (st, o).
Proof.
  destruct st as [schedule tracker].
  induction lens as [|len rest IH]; [done|]. exact IH.
Qed.

Lemma fillGaps_no_therapist client day_ gaps st o :
  foldM (fillGap client [] day_) gaps st o = Some (st, o).
Proof.
  induction gaps as [|g rest IH]; [done|]. cbn [foldM]. unfold bind.
  assert (Hg : fillGap client [] day_ st g o = Some (st, o)).
  { unfold fillGap. destruct (_ <? 60); [done|]. apply fillGapWith_no_therapist. }
  by rewrite Hg.
Qed.

Lemma fixClientCoverageGaps_no_therapist schedule clients day_ d callouts o :
  fixClientCoverageGaps schedule clients [] day_ d callouts o = Some (schedule, o).
Proof.
  unfold fixClientCoverageGaps.
  assert (H : forall cs st, foldM (fillClientGaps [] day_ d callouts) cs st o = Some (st, o)).
  { induction cs as [|c cs IH]; intros st; [done|]. cbn [foldM]. unfold bind.
    unfold fillClientGaps at 1. cbn [List.filter]. rewrite fillGaps_no_therapist.
    apply IH. }
  unfold bind. by rewrite H.
Qed.

Lemma repairAndMutate_nothing clients day_ d callouts o :
  repairAndMutate [] clients [] day_ d callouts o = Some ([], afterDraw o).
Proof.
  unfold repairAndMutate. unfold bind at 1. unfold random.
  assert (Hm : (if Qltb (nextRandom o) MUTATION_RATE
                then mutateIncremental (cloneSchedule []) clients [] d callouts
                else ret (cloneSchedule [])) (afterDraw o) = Some ([], afterDraw o))
    by (destruct (Qltb _ _); reflexivity).
  unfold bind at 1. rewrite Hm.
  change (cleanupScheduleIssues []) with (@nil ScheduleEntry).
  change (fixSessionDurations []) with (@nil ScheduleEntry).
  change (fixCredentialIssues [] clients [] d callouts) with (@nil ScheduleEntry).
  rewrite fixMdMedicaidLimit_nothing.
  change (fixSameClientBackToBackIssues [] clients [] day_ d callouts)
    with (@nil ScheduleEntry).
  unfold bind at 1. rewrite fixClientCoverageGaps_no_therapist. reflexivity.
Qed.

Lemma crossover_nothing clients d callouts o :
  exists o', crossover [] [] [] clients d callouts o = Some ([], o').
Proof.
  unfold crossover. unfold bind at 1. unfold random.
  destruct (Qltb CROSSOVER_RATE (nextRandom o)).
  - unfold bind, ret. eexists. destruct (Qltb _ HALF); reflexivity.
  - eexists. reflexivity.
Qed.

(** *** Selection from a population of empty schedules *)

Section Stationary.

Variable population_ : list Individual.
Hypothesis inhabited : population_ <> [].
Hypothesis all_empty : forall i, i ∈ population_ -> ind_schedule i = [].

Lemma randomIndividual_member o :
  exists i, randomIndividual population_ o = Some (i, afterDraw o) /\ i ∈ population_.
Proof.
  unfold randomIndividual, bind, random.
  destruct (random_index o population_ inhabited) as [i Hi].
  exists i. rewrite Hi. split; [done|]. by eapply list_elem_of_lookup_2.
Qed.

Lemma tournament_member n best o :
  (forall b, best = Some b -> b ∈ population_) ->
  exists best' o',
    repeatM n (tournamentRound population_) best o = Some (best', o') /\
    (forall b, best' = Some b -> b ∈ population_) /\
    (best' = None -> n = 0%nat /\ best = None).
Proof.
  revert best o. induction n as [|n IH]; intros best o Hb.
  - exists best, o. done.
  - destruct (randomIndividual_member o) as (c & Hc & Hin).
    assert (Hround : exists best1,
              tournamentRound population_ best o = Some (Some best1, afterDraw o) /\
              best1 ∈ population_).
    { unfold tournamentRound, bind. rewrite Hc. destruct best as [b|].
      - destruct (Qltb _ _); eexists; (split; [reflexivity|]); [done | by apply Hb].
      - eexists. split; [reflexivity | done]. }
    destruct Hround as (best1 & Hr & Hin1).
    destruct (IH (Some best1) (afterDraw o)) as (best' & o' & E & H1 & H2).
    { by intros b [= <-]. }
    exists best', o'. split; [|split; [done|]].
    + cbn [repeatM]. unfold bind. by rewrite Hr.
    + intros Hn. by destruct (H2 Hn) as [_ ?].
Qed.

Lemma selection_nothing o :
  exists o', diversityPreservingSelection population_ o = Some ([], o').
Proof.
  unfold diversityPreservingSelection. unfold bind at 1. unfold random.
  destruct (Qltb (nextRandom o) (3 # 10)).
  - destruct (randomIndividual_member (afterDraw o)) as (c & Hc & Hin).
    unfold bind. rewrite Hc. eexists. unfold ret, cloneSchedule. by rewrite all_empty.
  - destruct (tournament_member 5 None (afterDraw o)) as (best & o' & E & H1 & H2); [done|].
    unfold bind at 1. rewrite E. destruct best as [b|]; [|by destruct (H2 eq_refl)].
    eexists. unfold bind, unwrap, ret, cloneSchedule.
    by rewrite (all_empty b (H1 b eq_refl)).
Qed.

End Stationary.

(** *** The generations *)

Section NoTherapist.

Variable Math_log2 : Z -> Q.
Variables (clients : list Client) (selectedDate : JsDate) (callouts : list Callout).

#[local] Abbreviation emptyPopulation := (replicate POPULATION_SIZE (@nil ScheduleEntry)).
#[local] Abbreviation evaluated :=
  (evaluatePopulation Math_log2 clients [] selectedDate callouts emptyPopulation).

Lemma evaluated_props :
  length evaluated = POPULATION_SIZE /\
  forall i, i ∈ evaluated -> ind_schedule i = [].
Proof.
  unfold evaluatePopulation. split.
  - rewrite (Permutation_length (sortBy_Permutation _ _)).
    by rewrite length_map, length_replicate.
  - intros i Hi. apply elem_of_sortBy, list_elem_of_In, in_map_iff in Hi as (p & <- & Hp).
    apply list_elem_of_In, elem_of_replicate in Hp as [-> _]. done.
Qed.

Lemma evaluated_inhabited : evaluated <> [].
Proof.
  destruct evaluated_props as [Hlen _]. intros E. rewrite E in Hlen. discriminate Hlen.
Qed.

Lemma breed_nothing day_ newPop o :
  exists o', breed clients [] selectedDate callouts day_ evaluated newPop o
             = Some (newPop ++ [[]], o').
Proof.
  destruct evaluated_props as [_ Hall].
  destruct (selection_nothing evaluated evaluated_inhabited Hall o) as (o1 & E1).
  destruct (selection_nothing evaluated evaluated_inhabited Hall o1) as (o2 & E2).
  destruct (crossover_nothing clients selectedDate callouts o2) as (o3 & E3).
  exists (afterDraw o3). unfold breed.
  unfold bind at 1. rewrite E1. unfold bind at 1. rewrite E2.
  unfold bind at 1. rewrite E3. unfold bind at 1.
  by rewrite repairAndMutate_nothing.
Qed.

Lemma breeding_nothing day_ n newPop o :
  exists o', repeatM n (breed clients [] selectedDate callouts day_ evaluated) newPop o
             = Some (newPop ++ replicate n [], o').
Proof.
  revert newPop o. induction n as [|n IH]; intros newPop o.
  - exists o. simpl. by rewrite app_nil_r.
  - destruct (breed_nothing day_ newPop o) as (o1 & E1).
    destruct (IH (newPop ++ [[]]) o1) as (o' & E').
    exists o'. cbn [repeatM]. unfold bind. rewrite E1, E'.
    by rewrite <- app_assoc.
Qed.

Lemma elites_nothing (indices : list nat) o :
  (forall i, i ∈ indices -> (i < POPULATION_SIZE)%nat) ->
  mapM (fun i => let* ind := unwrap (evaluated !! i) in
                 ret (cloneSchedule (ind_schedule ind))) indices o
  = Some (replicate (length indices) [], o).
Proof.
  destruct evaluated_props as [Hlen Hall].
  induction indices as [|i rest IH]; intros Hin; [done|].
  cbn [mapM]. unfold bind at 1.
  destruct (lookup_lt_is_Some_2 evaluated i) as [ind Hind].
  { rewrite Hlen. apply Hin, list_elem_of_here. }
  unfold bind at 1. rewrite Hind. cbn [unwrap ret]. unfold bind at 1.
  rewrite IH by (intros j Hj; by apply Hin, list_elem_of_further).
  unfold cloneSchedule. rewrite (Hall ind) by (by eapply list_elem_of_lookup_2). done.
Qed.

Lemma evolve_nothing day_ o :
  exists o', evolve clients [] selectedDate callouts day_ evaluated o
             = Some (emptyPopulation, o').
Proof.
  unfold evolve. unfold bind at 1.
  rewrite elites_nothing.
  2: { intros i Hi. apply elem_of_seq in Hi. vm_compute in Hi. unfold POPULATION_SIZE. lia. }
  destruct (breeding_nothing day_
              (POPULATION_SIZE - length (replicate (length (seq 0 eliteCount))
                                                   (@nil ScheduleEntry)))
              (replicate (length (seq 0 eliteCount)) []) o) as (o' & E).
  exists o'. rewrite E. reflexivity.
Qed.

(** The loop keeps a population of empty schedules; once a generation has
    been evaluated, the best schedule on record is the empty one. *)
Definition stationary (st : LoopState) : Prop :=
  population st = emptyPopulation /\
  (bestScheduleOverall st = Some [] \/ bestFitnessOverall st = Infinity).

Lemma generation_nothing day_ gen st o :
  stationary st ->
  exists st1 b o',
    generation Math_log2 clients [] selectedDate callouts day_ gen st o
      = Some ((st1, b), o') /\
    population st1 = emptyPopulation /\ bestScheduleOverall st1 = Some [].
Proof.
  intros [Hpop Hbest]. unfold generation. rewrite Hpop.
  destruct evaluated_props as [Hlen Hall].
  destruct (lookup_lt_is_Some_2 evaluated 0) as [best Hb].
  { rewrite Hlen. unfold POPULATION_SIZE. lia. }
  unfold bind at 1. rewrite Hb. cbn [unwrap ret].
  assert (Hrec : bestScheduleOverall (recordBest gen st best) = Some []).
  { unfold recordBest. destruct (num_ltb _ _) eqn:E; simpl.
    - unfold cloneSchedule. rewrite (Hall best) by (by eapply list_elem_of_lookup_2). done.
    - destruct Hbest as [?|Hinf]; [done|]. by rewrite Hinf in E. }
  assert (Hrpop : population (recordBest gen st best) = emptyPopulation).
  { unfold recordBest. by destruct (num_ltb _ _). }
  destruct (shouldStop (recordBest gen st best)).
  - eexists _, _, _. split; [reflexivity|]. done.
  - destruct (evolve_nothing day_ o) as (o' & E). unfold bind. rewrite E.
    eexists _, _, _. split; [reflexivity|]. done.
Qed.

Lemma loop_nothing day_ n gen st o :
  stationary st ->
  exists st' o',
    generationalLoop Math_log2 clients [] selectedDate callouts day_ (Datatypes.S n) gen st o
      = Some (st', o') /\
    bestScheduleOverall st' = Some [].
Proof.
  revert gen st o. induction n as [|n IH]; intros gen st o Hst.
  - destruct (generation_nothing day_ gen st o Hst) as (st1 & b & o' & E & _ & Hbest).
    exists st1, o'. split; [|done]. simpl. unfold bind. rewrite E. simpl. by destruct b.
  - destruct (generation_nothing day_ gen st o Hst) as (st1 & b & o1 & E & Hpop & Hbest).
    change (generationalLoop Math_log2 clients [] selectedDate callouts day_
              (Datatypes.S (Datatypes.S n)) gen st o)
      with (bind (generation Math_log2 clients [] selectedDate callouts day_ gen st)
              (fun next => if snd next then ret (fst next)
                           else generationalLoop Math_log2 clients [] selectedDate callouts
                                  day_ (Datatypes.S n) (Datatypes.S gen) (fst next)) o).
    unfold bind at 1. rewrite E. cbn [fst snd]. destruct b.
    + exists st1, o1. done.
    + apply IH. split; [done | by left].
Qed.

(** Without therapists and without seeds the run returns the empty schedule,
    with the fitness and the violations of the empty schedule. *)
Lemma run_without_therapists services o :
  find_ (fun bs => includes (appliesToDays bs) (getDayOfWeekFromDate selectedDate))
        (baseSchedules services) = None ->
  highRatedSchedules services = [] ->
  exists r o',
    runCsoAlgorithm Math_log2 clients [] selectedDate callouts services None o
      = Some (r, o') /\
    res_schedule r = [] /\
    finalValidationErrors r =
      validateFullSchedule [] clients [] (Some selectedDate)
        COMPANY_OPERATING_HOURS_START COMPANY_OPERATING_HOURS_END callouts /\
    bestFitness r = Finite (calculateFitness Math_log2 [] clients [] selectedDate callouts).
Proof.
  intros Hbase Hhigh. unfold runCsoAlgorithm. unfold bind at 1.
  rewrite (initialPopulation_no_therapists _ _ _ _ _ o Hbase Hhigh).
  change MAX_GENERATIONS with (Datatypes.S 149).
  destruct (loop_nothing (getDayOfWeekFromDate selectedDate) 149 0
              (startState emptyPopulation) o) as (st' & o' & E & Hbest).
  { split; [done | by right]. }
  unfold bind at 1. unfold startState in E. rewrite E. rewrite Hbest.
  unfold bind at 1. unfold bind at 1. rewrite localSearch_nothing. cbn [ret].
  eexists _, _. split; [reflexivity|]. done.
Qed.

End NoTherapist.

(** C9 (as amended).  With no initial schedule, no stored base schedule for
    the day and no high-rated schedule, [runCsoAlgorithm] returns the empty
    schedule when the list of clients or the list of therapists is empty.
    Without clients it returns after one generation, with no violation,
    fitness zero and success, whatever the therapists and the callouts.
    Without therapists the violations and the fitness are those of the empty
    schedule for the clients, and the run is a success exactly when that
    fitness is below 500. *)
Theorem empty_inputs_empty_schedule
    (Math_log2 : Z -> Q) (clients : list Client) (therapists : list Therapist)
    (selectedDate : JsDate) (callouts : list Callout) (services : Services) (o : Oracle) :
  find_ (fun bs => includes (appliesToDays bs) (getDayOfWeekFromDate selectedDate))
        (baseSchedules services) = None ->
  highRatedSchedules services = [] ->
  (clients = [] ->
   exists r,
     runCsoAlgorithm Math_log2 clients therapists selectedDate callouts services None o
       = Some (r, o) /\
     res_schedule r = [] /\ finalValidationErrors r = [] /\ success r = true /\
     generations r = 1%nat /\ num_is_zero (bestFitness r) = true) /\
  (therapists = [] ->
   exists r o',
     runCsoAlgorithm Math_log2 clients therapists selectedDate callouts services None o
       = Some (r, o') /\
     res_schedule r = [] /\
     finalValidationErrors r =
       validateFullSchedule [] clients [] (Some selectedDate)
         COMPANY_OPERATING_HOURS_START COMPANY_OPERATING_HOURS_END callouts /\
     bestFitness r =
       Finite (calculateFitness Math_log2 [] clients [] selectedDate callouts) /\
     (success r = true <->
      (calculateFitness Math_log2 [] clients [] selectedDate callouts < 500)%Q)).
Proof.
  intros Hbase Hhigh. split.
  - intros ->. by apply run_without_clients.
  - intros ->.
    destruct (run_without_therapists Math_log2 clients selectedDate callouts services o
                Hbase Hhigh) as (r & o' & E & H1 & H2 & H3).
    exists r, o'. repeat (split; [done|]).
    pose proof (runCsoAlgorithm_inv _ _ _ _ _ _ _ _ _ _ E) as (_ & _ & _ & _ & _ & _ & _ & Hs).
    rewrite Hs, H3. apply (num_ltb_lt (Finite _) (Finite 500)).
Qed.

(** The theorem at a run for one client without therapists, and at a run for
    two therapists without clients. *)
Lemma empty_inputs_empty_schedule_witness :
  let log2 := fun n => inject_Z (Z.log2 n) in
  let th i := {| th_id := i; th_name := i; th_role := "RBT"; th_teamId := None;
                 qualifications := ["RBT"%string]; canProvideAlliedHealth := [] |} in
  let c1 := {| cl_id := "c1"; cl_name := "Ann"; cl_teamId := None;
               insuranceRequirements := []; alliedHealthNeeds := [] |} in
  let co := {| co_id := "k"; entityType := ETherapist; entityId := "t1"; entityName := "t1";
               startDate := Some 4; endDate := Some 4;
               co_startTime := {| mins := 480; half := false |};
               co_endTime := {| mins := 600; half := false |}; reason := None |} in
  let o := {| draws := fun n => Z.of_nat n * 2 ^ 50; drawPos := 0;
              freshIds := fun n => String (Ascii.ascii_of_nat (97 + n)) EmptyString;
              idPos := 0; today := {| dayNumber := 4 |} |} in
  let none := {| baseSchedules := []; highRatedSchedules := [] |} in
  (exists r,
     runCsoAlgorithm log2 [] [th "t1"; th "t2"]%string {| dayNumber := 4 |} [co] none None o
       = Some (r, o) /\
     res_schedule r = [] /\ finalValidationErrors r = [] /\ success r = true /\
     generations r = 1%nat /\ num_is_zero (bestFitness r) = true) /\
  (exists r o',
     runCsoAlgorithm log2 [c1] [] {| dayNumber := 4 |} [] none None o = Some (r, o') /\
     res_schedule r = [] /\ length (finalValidationErrors r) = 36%nat).
Proof.
  intros log2 th c1 co o none. split.
  - apply (empty_inputs_empty_schedule log2 [] [th "t1"; th "t2"]%string {| dayNumber := 4 |}
             [co] none o); reflexivity.
  - destruct (proj2 (empty_inputs_empty_schedule log2 [c1] [] {| dayNumber := 4 |}
                       [] none o eq_refl eq_refl) eq_refl)
      as (r & o' & E & H1 & H2 & _).
    exists r, o'. split; [exact E|]. split; [exact H1|]. rewrite H2. reflexivity.
Defined.

(** C9, the claim as stated, fails: the engine has no guard for empty
    inputs.  Without therapists, a client whose callout ends at 16:30 is left
    with a coverage gap until 17:00, which the returned list reports; and two
    clients without a callout make a fitness of 1600, so that the run is not
    a success.  With neither clients nor therapists, an initial schedule of
    one session comes back with that session in it and a violation for its
    therapist. *)
Lemma empty_inputs_not_guarded :
  let log2 := fun n => inject_Z (Z.log2 n) in
  let cl i := {| cl_id := i; cl_name := i; cl_teamId := None;
                 insuranceRequirements := []; alliedHealthNeeds := [] |} in
  let co := {| co_id := "k"; entityType := EClient; entityId := "c1"; entityName := "c1";
               startDate := Some 4; endDate := Some 4;
               co_startTime := {| mins := 480; half := false |};
               co_endTime := {| mins := 990; half := false |}; reason := None |} in
  let adm := mkEntry "a1" None None "Tina" "t1" MONDAY
               {| mins := 540; half := false |} {| mins := 600; half := false |}
               AdminTime in
  let o := {| draws := fun n => Z.of_nat n * 2 ^ 50; drawPos := 0;
              freshIds := fun n => String (Ascii.ascii_of_nat (97 + n)) EmptyString;
              idPos := 0; today := {| dayNumber := 4 |} |} in
  let none := {| baseSchedules := []; highRatedSchedules := [] |} in
  (exists r o', runCsoAlgorithm log2 [cl "c1"] [] {| dayNumber := 4 |} [co] none None o
                  = Some (r, o') /\
     map ruleId (finalValidationErrors r)
       = ["CLIENT_COVERAGE_GAP_AT_TIME"; "CLIENT_COVERAGE_GAP_AT_TIME"]%string) /\
  (exists r o', runCsoAlgorithm log2 [cl "c1"; cl "c2"]%string [] {| dayNumber := 4 |} []
                  none None o = Some (r, o') /\
     success r = false) /\
  (exists r o', runCsoAlgorithm log2 [] [] {| dayNumber := 4 |} [] none (Some [adm]) o
                  = Some (r, o') /\
     map id (res_schedule r) = ["a1"%string] /\
     map ruleId (finalValidationErrors r) = ["THERAPIST_NOT_FOUND"%string]).
Proof.
  intros log2 cl co adm o none. split; [|split].
  - destruct (runCsoAlgorithm log2 [cl "c1"] [] {| dayNumber := 4 |} [co] none None o)
      as [[r o']|] eqn:E; vm_compute in E; [|discriminate E].
    exists r, o'. split; [reflexivity|]. injection E as <- _. reflexivity.
  - destruct (run_without_therapists log2 [cl "c1"; cl "c2"]%string {| dayNumber := 4 |} []
                none o eq_refl eq_refl) as (r & o' & E & _ & _ & Hfit).
    exists r, o'. split; [exact E|].
    pose proof (runCsoAlgorithm_inv _ _ _ _ _ _ _ _ _ _ E) as (_ & _ & _ & _ & _ & _ & _ & Hs).
    rewrite Hs, Hfit. reflexivity.
  - destruct (runCsoAlgorithm log2 [] [] {| dayNumber := 4 |} [] none (Some [adm]) o)
      as [[r o']|] eqn:E; vm_compute in E; [|discriminate E].
    exists r, o'. split; [reflexivity|]. injection E as <- _. split; reflexivity.
Qed.

(** * Crossover *)

(** ** Sorting with a comparator *)

Section Sorting.

Context {A : Type} (gt : A -> A -> bool).

Hypothesis gt_asym : forall a b, gt a b = true -> gt b a = false.
Hypothesis le_trans : forall a b c, gt a b = false -> gt b c = false -> gt a c = false.

Let le (a b : A) : Prop := gt a b = false.

Lemma insertBy_StronglySorted (x : A) (xs : list A) :
  StronglySorted le xs -> StronglySorted le (insertBy gt x xs).
Proof.
  induction 1 as [|y r Hr IH Hy]; simpl.
  - repeat constructor.
  - destruct (gt x y) eqn:E.
    + constructor; [exact IH|].
      apply Forall_forall. intros z Hz.
      apply (elem_of_Permutation_proper _ _ _ (insertBy_Permutation gt x r)) in Hz.
      apply elem_of_cons in Hz as [->|Hz].
      * by apply gt_asym.
      * by apply (proj1 (Forall_forall _ _) Hy).
    + constructor; [by constructor|].
      constructor; [exact E|].
      apply Forall_forall. intros z Hz.
      apply (le_trans x y z E). by apply (proj1 (Forall_forall _ _) Hy).
Qed.

Lemma sortBy_StronglySorted (xs : list A) : StronglySorted le (sortBy gt xs).
Proof.
  induction xs as [|x r IH]; simpl; [constructor|].
  by apply insertBy_StronglySorted.
Qed.

End Sorting.

Lemma StronglySorted_weaken {A} (R R' : A -> A -> Prop) (xs : list A) :
  (forall a b, R a b -> R' a b) -> StronglySorted R xs -> StronglySorted R' xs.
Proof.
  intros H. induction 1 as [|x r Hr IH Hx]; constructor; [done|].
  eapply Forall_impl; [exact Hx|]. intros y. apply H.
Qed.

Lemma crossover_order_sorted therapists (xs : list ScheduleEntry) :
  StronglySorted (fun a b => crossoverOrder therapists a b <= 0)
                 (sortByZ (crossoverOrder therapists) xs).
Proof.
  unfold sortByZ.
  eapply StronglySorted_weaken;
    [|apply (sortBy_StronglySorted (fun a b => 0 <? crossoverOrder therapists a b))].
  - intros a b H. apply Z.ltb_ge in H. exact H.
  - intros a b H. apply Z.ltb_lt in H. apply Z.ltb_ge.
    unfold crossoverOrder in *.
    destruct (Z.eqb_spec (bcbaRank therapists a) (bcbaRank therapists b)),
             (Z.eqb_spec (bcbaRank therapists b) (bcbaRank therapists a));
      simpl in *; lia.
  - intros a b c H1 H2. apply Z.ltb_ge in H1, H2. apply Z.ltb_ge.
    unfold crossoverOrder in *.
    destruct (Z.eqb_spec (bcbaRank therapists a) (bcbaRank therapists b)),
             (Z.eqb_spec (bcbaRank therapists b) (bcbaRank therapists c)),
             (Z.eqb_spec (bcbaRank therapists a) (bcbaRank therapists c));
      simpl in *; lia.
Qed.

(** ** Slots and ranges *)

Lemma overlap_common_slot (e1 e2 : ScheduleEntry) :
  onGrid e1 -> onGrid e2 -> rangesOverlap e1 e2 ->
  exists k, 0 <= k /\
    timeToBit (timeToMinutes (startTime e1)) <= k < timeToBit (timeToMinutes (endTime e1)) /\
    timeToBit (timeToMinutes (startTime e2)) <= k < timeToBit (timeToMinutes (endTime e2)).
Proof.
  intros (P1 & _ & A1) (P2 & _ & A2) (m & [L1 U1] & [L2 U2]).
  apply timeToBit_aligned in A1, A2. unfold timeToBit in *.
  exists (m / 15). split; [apply Z.div_pos; lia|].
  split; (split; [apply Z.div_le_mono; lia | apply Z.div_lt_upper_bound; lia]).
Qed.

Lemma rangesOverlap_sym (e1 e2 : ScheduleEntry) : rangesOverlap e1 e2 -> rangesOverlap e2 e1.
Proof. intros (m & H1 & H2). by exists m. Qed.

Lemma conflictFree_nil : conflictFree [].
Proof. intros i j e1 e2 _ H. by rewrite lookup_nil in H. Qed.

Lemma conflictFree_snoc (kept : list ScheduleEntry) (e : ScheduleEntry) :
  conflictFree kept ->
  (forall e', e' ∈ kept -> rangesOverlap e' e ->
     therapistId e' <> therapistId e /\
     (forall c, clientId e' = Some c -> clientId e = Some c -> c = EmptyString)) ->
  conflictFree (kept ++ [e]).
Proof.
  intros Hfree Hnew i j e1 e2 Hij H1 H2 Hov.
  apply lookup_snoc_Some in H1 as [[L1 H1]|[L1 <-]];
    apply lookup_snoc_Some in H2 as [[L2 H2]|[L2 <-]].
  - by apply (Hfree i j).
  - apply Hnew; [by eapply list_elem_of_lookup_2 | done].
  - destruct (Hnew e2) as [Ht Hc];
      [by eapply list_elem_of_lookup_2 | by apply rangesOverlap_sym |].
    split; [congruence|]. intros c C1 C2. by apply Hc.
  - lia.
Qed.

(** ** The tracker while the offspring is replayed *)

(** The entries kept so far are on the grid and free of conflicts, and the
    masks hold every slot of every one of them. *)
Record Booked (kept : list ScheduleEntry) (tr : AvailabilityTracker) : Prop := {
  bk_grid : Forall onGrid kept;
  bk_therapist : forall e k, e ∈ kept ->
    timeToBit (timeToMinutes (startTime e)) <= k < timeToBit (timeToMinutes (endTime e)) ->
    Z.testbit (maskOf (therapistMasks tr) (therapistId e)) k = true;
  bk_client : forall e c k, e ∈ kept -> clientId e = Some c -> c <> EmptyString ->
    timeToBit (timeToMinutes (startTime e)) <= k < timeToBit (timeToMinutes (endTime e)) ->
    Z.testbit (maskOf (clientMasks tr) c) k = true;
  bk_free : conflictFree kept
}.

Lemma Booked_nil tr : Booked [] tr.
Proof.
  split; [constructor | | | apply conflictFree_nil].
  - intros e k He. by apply elem_of_nil in He.
  - intros e c k He. by apply elem_of_nil in He.
Qed.

Lemma slot_in_mask (e : ScheduleEntry) (k : Z) :
  onGrid e ->
  timeToBit (timeToMinutes (startTime e)) <= k < timeToBit (timeToMinutes (endTime e)) ->
  0 <= k /\
  Z.testbit (getRangeMask (timeToMinutes (startTime e)) (timeToMinutes (endTime e))) k = true.
Proof.
  intros (P & _ & _) [L U].
  assert (0 <= k).
  { etrans; [|exact L]. unfold timeToBit. apply Z.div_pos; lia. }
  split; [done|]. rewrite getRangeMask_testbit by done.
  apply andb_true_iff. split; [by apply Z.leb_le | by apply Z.ltb_lt].
Qed.

Lemma free_slot_not_booked (mask : Z) (e : ScheduleEntry) (k : Z) :
  onGrid e ->
  (Z.land mask (getRangeMask (timeToMinutes (startTime e)) (timeToMinutes (endTime e)))
     =? 0) = true ->
  timeToBit (timeToMinutes (startTime e)) <= k < timeToBit (timeToMinutes (endTime e)) ->
  Z.testbit mask k = false.
Proof.
  intros Hg Hfree Hk. destruct (slot_in_mask e k Hg Hk) as [H0 Hbit].
  by apply (proj1 (land_eq_0_iff _ _) Hfree k).
Qed.

Lemma replayEntry_Booked kept tr e :
  Booked kept tr -> onGrid e ->
  Booked (fst (replayEntry (kept, tr) e)) (snd (replayEntry (kept, tr) e)).
Proof.
  intros HB Hg. pose proof HB as [Bg Bt Bc Bf]. unfold replayEntry.
  destruct (isAvailable tr ETherapist _ _ _ None && _) eqn:Hav; [|exact HB].
  apply andb_true_iff in Hav as [Ht Hc].
  rewrite isAvailable_no_ignore in Ht. simpl.
  set (mask := getRangeMask (timeToMinutes (startTime e)) (timeToMinutes (endTime e))).
  split.
  - apply Forall_app. split; [done|]. by constructor.
  - intros e' k He' Hk. simpl. rewrite maskOf_orMask.
    apply elem_of_app in He' as [He'|He'].
    + destruct (decide _); [|by apply Bt].
      rewrite Z.lor_spec, (Bt e' k He' Hk). done.
    + apply list_elem_of_singleton in He' as ->.
      rewrite decide_True by done. rewrite Z.lor_spec.
      destruct (slot_in_mask e k Hg Hk) as [_ ->]. apply orb_true_r.
  - intros e' c k He' Hcl Hne Hk. simpl.
    assert (Hold : e' ∈ kept -> Z.testbit (maskOf (clientMasks tr) c) k = true).
    { intros Hin. by apply (Bc e'). }
    apply elem_of_app in He' as [He'|He'].
    + destruct (clientId e) as [c0|]; [|by apply Hold].
      destruct (truthy (Some c0)); [|by apply Hold].
      rewrite maskOf_orMask. destruct (decide _); [|by apply Hold].
      rewrite Z.lor_spec, (Hold He'). done.
    + apply list_elem_of_singleton in He' as ->. rewrite Hcl.
      rewrite (proj2 (truthy_spec (Some c))) by (by exists c).
      rewrite maskOf_orMask, decide_True by done. rewrite Z.lor_spec.
      destruct (slot_in_mask e k Hg Hk) as [_ ->]. apply orb_true_r.
  - apply conflictFree_snoc; [done|].
    intros e' He' Hov.
    pose proof (proj1 (Forall_forall _ _) Bg e' He') as Hg'.
    destruct (overlap_common_slot e' e Hg' Hg Hov) as (k & Hk0 & Hk' & Hk).
    split.
    + intros Heq.
      pose proof (Bt e' k He' Hk') as Hset. rewrite Heq in Hset.
      by rewrite (free_slot_not_booked _ e k Hg Ht Hk) in Hset.
    + intros c C' C. destruct (decide (c = EmptyString)) as [|Hne]; [done|].
      exfalso. rewrite C in Hc.
      rewrite (proj2 (truthy_spec (Some c))) in Hc by (by exists c). simpl in Hc.
      rewrite isAvailable_no_ignore in Hc.
      pose proof (Bc e' c k He' C' Hne Hk') as Hset.
      by rewrite (free_slot_not_booked _ e k Hg Hc Hk) in Hset.
Qed.

Lemma replay_Booked (offspring kept : list ScheduleEntry) (tr : AvailabilityTracker) :
  Booked kept tr -> Forall onGrid offspring ->
  Booked (fst (fold_left replayEntry offspring (kept, tr)))
         (snd (fold_left replayEntry offspring (kept, tr))).
Proof.
  revert kept tr. induction offspring as [|e r IH]; intros kept tr HB Hg; [done|].
  cbn [fold_left]. apply Forall_cons in Hg as [Hg Hr].
  pose proof (replayEntry_Booked kept tr e HB Hg) as HB'.
  destruct (replayEntry (kept, tr) e) as [kept' tr']. by apply IH.
Qed.

Lemma replayEntry_kept kept tr e :
  fst (replayEntry (kept, tr) e) = kept ++ [e] \/ fst (replayEntry (kept, tr) e) = kept.
Proof. unfold replayEntry. destruct (_ && _); [by left | by right]. Qed.

(** The entries that are kept are kept in the order of the replay. *)
Lemma replay_sublist (offspring kept : list ScheduleEntry) (tr : AvailabilityTracker) :
  exists l, fst (fold_left replayEntry offspring (kept, tr)) = kept ++ l /\
            l `sublist_of` offspring.
Proof.
  revert kept tr. induction offspring as [|e r IH]; intros kept tr.
  - exists []. by rewrite app_nil_r.
  - cbn [fold_left]. pose proof (replayEntry_kept kept tr e) as Hk.
    destruct (replayEntry (kept, tr) e) as [kept' tr']. simpl in Hk.
    destruct (IH kept' tr') as (l & -> & Hl). destruct Hk as [->| ->].
    + exists (e :: l). split; [by rewrite <- app_assoc|]. by constructor.
    + exists l. split; [done|]. by constructor.
Qed.

(** ** Crossover *)

Lemma mapM_withFreshId (l : list ScheduleEntry) (o : Oracle) :
  exists l' o', mapM withFreshId l o = Some (l', o') /\ Forall2 sameButId l l'.
Proof.
  revert o. induction l as [|e r IH]; intros o.
  - exists [], o. split; [done | constructor].
  - destruct (IH (afterId o)) as (r' & o' & Hr & HF).
    exists (with_id e (freshIds o (idPos o)) :: r'), o'. split.
    + cbn [mapM]. unfold bind at 1. unfold withFreshId at 1, generateId, bind at 1, ret at 1.
      unfold bind at 1. by rewrite Hr.
    + constructor; [|done]. unfold sameButId. simpl. tauto.
Qed.

Lemma sameButId_onGrid (e e' : ScheduleEntry) : sameButId e e' -> onGrid e -> onGrid e'.
Proof.
  intros (_ & _ & _ & _ & _ & Hs & He & _). unfold onGrid. by rewrite Hs, He.
Qed.

Lemma fresh_copies (p : ScheduleEntry -> bool) (parent copies : list ScheduleEntry) :
  Forall onGrid parent -> Forall2 sameButId (List.filter p parent) copies ->
  Forall (fun e => onGrid e /\ exists e0, e0 ∈ parent /\ sameButId e0 e) copies.
Proof.
  intros Hg HF. apply Forall_forall. intros e He.
  apply list_elem_of_lookup in He as [i Hi].
  destruct (Forall2_lookup_r _ _ _ _ _ HF Hi) as (e0 & H0 & Hs).
  apply list_elem_of_lookup_2, elem_of_filter_list in H0 as [H0 _].
  split.
  - apply (sameButId_onGrid e0); [done|]. by apply (proj1 (Forall_forall _ _) Hg).
  - by exists e0.
Qed.




(** * The repair operators and conflicts *)

(** ** Counting pairs *)

Section Pairs.

Context {A : Type} (P : A -> A -> bool).

(** The pairs with one element in [l1] and the other in [l2]. *)
Fixpoint cross (l1 l2 : list A) : nat :=
  match l1 with
  | [] => 0
  | x :: r => length (List.filter (P x) l2) + cross r l2
  end.

Lemma cross_nil_r (l : list A) : cross l [] = 0%nat.
Proof. induction l as [|x r IH]; simpl; [done | exact IH]. Qed.

Lemma cross_cons_r (l1 l2 : list A) (x : A) :
  cross l1 (x :: l2) = (length (List.filter (fun a => P a x) l1) + cross l1 l2)%nat.
Proof.
  induction l1 as [|a r IH]; simpl; [done|].
  rewrite IH. destruct (P a x); simpl; lia.
Qed.

Lemma cross_app_r (l l1 l2 : list A) :
  cross l (l1 ++ l2) = (cross l l1 + cross l l2)%nat.
Proof.
  induction l as [|a r IH]; simpl; [done|].
  rewrite IH, filter_list_app, length_app. lia.
Qed.

Lemma countPairs_app (l1 l2 : list A) :
  countPairs P (l1 ++ l2) = (countPairs P l1 + cross l1 l2 + countPairs P l2)%nat.
Proof.
  induction l1 as [|x r IH]; simpl; [done|].
  rewrite IH, filter_list_app, length_app. lia.
Qed.

Lemma filter_none (p : A -> bool) (l : list A) :
  (forall a, a ∈ l -> p a = false) -> List.filter p l = [].
Proof.
  induction l as [|x r IH]; intros H; simpl; [done|].
  rewrite (H x) by apply list_elem_of_here.
  apply IH. intros a Ha. by apply H, list_elem_of_further.
Qed.

Lemma length_filter_sublist (p : A -> bool) (l1 l2 : list A) :
  l1 `sublist_of` l2 -> (length (List.filter p l1) <= length (List.filter p l2))%nat.
Proof.
  induction 1 as [|x l1 l2 _ IH|x l1 l2 _ IH]; simpl; [done| |].
  - destruct (p x); simpl; lia.
  - destruct (p x); simpl; lia.
Qed.

(** Taking entries away takes pairs away. *)
Lemma countPairs_sublist (l1 l2 : list A) :
  l1 `sublist_of` l2 -> (countPairs P l1 <= countPairs P l2)%nat.
Proof.
  induction 1 as [|x l1 l2 Hs IH|x l1 l2 Hs IH]; simpl; [done| |].
  - pose proof (length_filter_sublist (P x) l1 l2 Hs). lia.
  - lia.
Qed.

(** An element that is in no pair can replace any other. *)
Lemma countPairs_replace (l1 l2 : list A) (x x' : A) :
  (forall a, a ∈ l1 -> P a x' = false) ->
  (forall b, b ∈ l2 -> P x' b = false) ->
  (countPairs P (l1 ++ x' :: l2) <= countPairs P (l1 ++ x :: l2))%nat.
Proof.
  intros H1 H2. rewrite !countPairs_app, !cross_cons_r. simpl.
  rewrite (filter_none (fun a => P a x') l1 H1), (filter_none (P x') l2 H2). simpl. lia.
Qed.

(** An element that is in no pair can be added. *)
Lemma countPairs_snoc (l : list A) (x : A) :
  (forall a, a ∈ l -> P a x = false) ->
  countPairs P (l ++ [x]) = countPairs P l.
Proof.
  intros H. rewrite countPairs_app, cross_cons_r, cross_nil_r. simpl.
  rewrite (filter_none (fun a => P a x) l H). simpl. lia.
Qed.

Hypothesis P_sym : forall a b, P a b = P b a.

Lemma countPairs_Permutation (l l' : list A) :
  l ≡ₚ l' -> countPairs P l = countPairs P l'.
Proof.
  induction 1 as [|x l l' Hp IH|x y l|l l' l'' _ IH1 _ IH2]; simpl.
  - done.
  - rewrite IH. f_equal.
    clear IH. induction Hp as [|a l l' _ IH|a b l|l l' l'' _ IH1 _ IH2]; simpl;
      [done | | | congruence].
    + destruct (P x a); simpl; congruence.
    + destruct (P x a), (P x b); done.
  - rewrite (P_sym y x). destruct (P x y); simpl; lia.
  - congruence.
Qed.

End Pairs.

(** Pairs are counted alike in two lists whose elements correspond. *)
Lemma countPairs_Forall2 {A} (P : A -> A -> bool) (R : A -> A -> Prop) (l l' : list A) :
  (forall a a' b b', R a a' -> R b b' -> P a b = P a' b') ->
  Forall2 R l l' -> countPairs P l = countPairs P l'.
Proof.
  intros HR. induction 1 as [|x x' l l' Hx Hl IH]; simpl; [done|].
  rewrite IH. f_equal.
  clear IH. induction Hl as [|y y' l l' Hy _ IH]; simpl; [done|].
  rewrite (HR x x' y y' Hx Hy). destruct (P x' y'); simpl; congruence.
Qed.

(** ** Overlap and the kernel *)

Lemma timesOverlap_spec (a b : ScheduleEntry) :
  timesOverlap a b = true <-> rangesOverlap a b.
Proof.
  unfold timesOverlap, rangesOverlap. rewrite Z.ltb_lt. split.
  - intros H.
    exists (Z.max (timeToMinutes (startTime a)) (timeToMinutes (startTime b))). lia.
  - intros (m & H1 & H2). lia.
Qed.

Lemma timesOverlap_sym (a b : ScheduleEntry) : timesOverlap a b = timesOverlap b a.
Proof. unfold timesOverlap. by rewrite Z.max_comm, Z.min_comm. Qed.

Lemma therapistConflict_sym (a b : ScheduleEntry) :
  therapistConflict a b = therapistConflict b a.
Proof.
  unfold therapistConflict, str_eqb. rewrite (timesOverlap_sym a b).
  f_equal. f_equal; apply bool_decide_ext; split; congruence.
Qed.

Lemma clientConflict_sym (a b : ScheduleEntry) :
  clientConflict a b = clientConflict b a.
Proof.
  unfold clientConflict, opt_eqb. rewrite (timesOverlap_sym a b).
  rewrite (bool_decide_ext (day a = day b) (day b = day a)) by (split; congruence).
  f_equal. f_equal.
  destruct (decide (clientId a = clientId b)) as [E|E].
  - rewrite E. by rewrite !bool_decide_eq_true_2.
  - rewrite !bool_decide_eq_false_2 by congruence. by rewrite !andb_false_r.
Qed.

(** On entries that run forward in time, the two conflicts are what the
    kernel reports of the second entry against the first. *)
Lemma timesOverlap_kernel (a b : ScheduleEntry) :
  timeToMinutes (startTime a) < timeToMinutes (endTime a) ->
  timeToMinutes (startTime b) < timeToMinutes (endTime b) ->
  timesOverlap a b = sessionsOverlap (startTime a) (endTime a) (startTime b) (endTime b).
Proof.
  intros Ha Hb. unfold timesOverlap, sessionsOverlap.
  destruct (Z.ltb_spec (timeToMinutes (startTime a)) (timeToMinutes (endTime b))),
           (Z.ltb_spec (timeToMinutes (startTime b)) (timeToMinutes (endTime a)));
    simpl; [apply Z.ltb_lt | apply Z.ltb_ge ..]; lia.
Qed.

Lemma therapistConflict_kernel (a b : ScheduleEntry) :
  timeToMinutes (startTime a) < timeToMinutes (endTime a) ->
  timeToMinutes (startTime b) < timeToMinutes (endTime b) ->
  therapistConflict a b = hasTherapistConflict [a] b None.
Proof.
  intros Ha Hb. unfold therapistConflict, hasTherapistConflict, some, notIgnored, opt_is.
  simpl. rewrite orb_false_r, (timesOverlap_kernel a b Ha Hb). done.
Qed.

Lemma clientConflict_kernel (a b : ScheduleEntry) :
  timeToMinutes (startTime a) < timeToMinutes (endTime a) ->
  timeToMinutes (startTime b) < timeToMinutes (endTime b) ->
  clientConflict a b = hasClientConflict [a] b None.
Proof.
  intros Ha Hb. unfold clientConflict, hasClientConflict, some, notIgnored, opt_is, opt_eqb.
  simpl. rewrite orb_false_r, (timesOverlap_kernel a b Ha Hb).
  destruct (decide (clientId a = clientId b)) as [E|E].
  - rewrite E, bool_decide_eq_true_2 by done.
    destruct (truthy (clientId b)); done.
  - rewrite bool_decide_eq_false_2 by done. rewrite andb_false_r. simpl.
    by destruct (negb (truthy (clientId b))).
Qed.

Lemma timesOverlap_sessionsOverlap (a b : ScheduleEntry) :
  timesOverlap a b = true ->
  sessionsOverlap (startTime a) (endTime a) (startTime b) (endTime b) = true.
Proof.
  unfold timesOverlap, sessionsOverlap. rewrite Z.ltb_lt. intros H.
  apply andb_true_iff. split; apply Z.ltb_lt; lia.
Qed.

Lemma valid_no_therapist_conflict entry schedule clients therapists d callouts ig :
  valid (canAddEntryToSchedule entry schedule clients therapists d callouts ig) = true ->
  hasTherapistConflict schedule entry ig = false.
Proof.
  unfold canAddEntryToSchedule. simpl. intros H. apply bool_decide_eq_true in H.
  destruct (hasTherapistConflict schedule entry ig); [|done].
  simpl in H. discriminate H.
Qed.

(** An entry that the kernel accepts is in no therapist conflict with the
    entries that are not ignored. *)
Lemma accepted_no_therapist_conflict entry schedule clients therapists d callouts i s :
  valid (canAddEntryToSchedule entry schedule clients therapists d callouts (Some i))
    = true ->
  s ∈ schedule -> id s <> i ->
  therapistConflict s entry = false.
Proof.
  intros Hv Hs Hid. apply valid_no_therapist_conflict in Hv.
  unfold hasTherapistConflict in Hv. pose proof (proj1 (some_false _ _) Hv s Hs) as Hp.
  cbv beta in Hp.
  unfold therapistConflict. destruct (str_eqb (therapistId s) (therapistId entry)) eqn:Ht;
    [|done]. simpl.
  destruct (bool_decide (day s = day entry)) eqn:Hd; [|done]. simpl.
  destruct (timesOverlap s entry) eqn:Ho; [|done].
  rewrite (timesOverlap_sessionsOverlap _ _ Ho) in Hp.
  rewrite (proj2 (notIgnored_spec s (Some i))) in Hp by congruence.
  done.
Qed.

(** ** Schedules under repair *)

(** The bounds that the operators keep: distinct ids, and no more conflicts
    of either kind than [nt] and [nc]. *)
Record Tame (nt nc : nat) (l : list ScheduleEntry) : Prop := {
  tm_ids : NoDup (map id l);
  tm_therapist : (therapistConflicts l <= nt)%nat;
  tm_client : (clientConflicts l <= nc)%nat
}.

Lemma Tame_sublist nt nc (l l' : list ScheduleEntry) :
  l' `sublist_of` l -> Tame nt nc l -> Tame nt nc l'.
Proof.
  intros Hs [T1 T3 T4]. split.
  - eapply sublist_NoDup; [exact T1|]. by apply (fmap_sublist id).
  - etrans; [|exact T3]. by apply countPairs_sublist.
  - etrans; [|exact T4]. by apply countPairs_sublist.
Qed.

(** The swap of a therapist that the kernel accepts. *)
Lemma Tame_swap nt nc (l1 l2 : list ScheduleEntry) (e : ScheduleEntry) (t : Therapist)
    clients therapists d callouts :
  Tame nt nc (l1 ++ e :: l2) ->
  valid (canAddEntryToSchedule (with_therapist e t) (l1 ++ e :: l2) clients therapists
           d callouts (Some (id e))) = true ->
  Tame nt nc (l1 ++ with_therapist e t :: l2).
Proof.
  intros [T1 T3 T4] Hv.
  assert (Hother : forall s, s ∈ l1 ++ l2 -> therapistConflict s (with_therapist e t) = false).
  { intros s Hs.
    apply (accepted_no_therapist_conflict _ _ _ _ _ _ _ _ Hv).
    - apply elem_of_app in Hs as [Hs|Hs]; apply elem_of_app; [by left|].
      right. by apply list_elem_of_further.
    - rewrite fmap_app, fmap_cons in T1.
      apply NoDup_app in T1 as (_ & N2 & N3).
      apply NoDup_cons in N3 as [N3 _].
      intros Heq. apply elem_of_app in Hs as [Hs|Hs].
      + apply (N2 (id s)); [by apply list_elem_of_fmap_2|]. rewrite Heq. apply list_elem_of_here.
      + apply N3. rewrite <- Heq. by apply list_elem_of_fmap_2. }
  split.
  - by rewrite fmap_app, fmap_cons in *.
  - etrans; [|exact T3]. apply countPairs_replace.
    + intros a Ha. apply Hother, elem_of_app. by left.
    + intros b Hb. rewrite therapistConflict_sym. apply Hother, elem_of_app. by right.
  - etrans; [|exact T4]. apply Nat.eq_le_incl.
    apply (countPairs_Forall2 clientConflict
             (fun a b => clientId b = clientId a /\ day b = day a /\
                         startTime b = startTime a /\ endTime b = endTime a)).
    + intros a a' b b' (A1 & A0 & A2 & A3) (B1 & B0 & B2 & B3).
      unfold clientConflict, timesOverlap. by rewrite A0, A1, A2, A3, B0, B1, B2, B3.
    + apply Forall2_app; [apply Forall_Forall2_diag, Forall_forall; done|].
      constructor; [done|]. apply Forall_Forall2_diag, Forall_forall. done.
Qed.

(** ** Credential swap and team realignment *)

Lemma fixCredentialEntry_cases clients therapists d callouts schedule entry :
  let entry' := fixCredentialEntry clients therapists d callouts schedule entry in
  entry' = entry \/
  exists t, entry' = with_therapist entry t /\
    valid (canAddEntryToSchedule (with_therapist entry t) schedule clients therapists
             d callouts (Some (id entry))) = true.
Proof.
  unfold fixCredentialEntry.
  destruct (negb (truthy (clientId entry))); [by left|].
  destruct (find_ _ clients) as [client|]; [|by left].
  destruct (getTherapistById therapists (therapistId entry)) as [therapist|]; [|by left].
  destruct (negb (meetsRequirements client therapist)); [|by left].
  match goal with |- context [find_ ?p ?l] => destruct (find_ p l) as [t|] eqn:E end;
    [|by left].
  right. exists t. split; [done|]. by apply find_Some_elem in E as [_ E].
Qed.

Lemma fixCredentialFrom_Tame nt nc clients therapists d callouts done todo :
  Tame nt nc (done ++ todo) ->
  Tame nt nc (fixCredentialFrom clients therapists d callouts done todo).
Proof.
  revert done. induction todo as [|entry rest IH]; intros done HT; simpl.
  - by rewrite app_nil_r in HT.
  - apply IH. rewrite <- app_assoc. simpl.
    destruct (fixCredentialEntry_cases clients therapists d callouts
                (done ++ entry :: rest) entry) as [->|(t & -> & Hv)]; [done|].
    by eapply Tame_swap.
Qed.

Lemma fixTeamEntry_cases clients therapists now schedule entry :
  let entry' := fixTeamEntry clients therapists now schedule entry in
  entry' = entry \/
  exists t, entry' = with_therapist entry t /\
    valid (canAddEntryToSchedule (with_therapist entry t) schedule clients therapists
             now [] (Some (id entry))) = true.
Proof.
  unfold fixTeamEntry.
  destruct (negb (truthy (clientId entry))); [by left|].
  destruct (find_ _ clients) as [client|]; [|by left].
  destruct (getTherapistById therapists (therapistId entry)) as [therapist|]; [|by left].
  destruct (_ && _); [|by left].
  match goal with |- context [find_ ?p ?l] => destruct (find_ p l) as [t|] eqn:E end;
    [|by left].
  right. exists t. split; [done|]. by apply find_Some_elem in E as [_ E].
Qed.

Lemma fixTeamFrom_Tame nt nc clients therapists now done todo :
  Tame nt nc (done ++ todo) ->
  Tame nt nc (fixTeamFrom clients therapists now done todo).
Proof.
  revert done. induction todo as [|entry rest IH]; intros done HT; simpl.
  - by rewrite app_nil_r in HT.
  - apply IH. rewrite <- app_assoc. simpl.
    destruct (fixTeamEntry_cases clients therapists now (done ++ entry :: rest) entry)
      as [->|(t & -> & Hv)]; [done|].
    by eapply Tame_swap.
Qed.

(** ** The Medicaid cap *)

Section MdConflicts.

Variable S : list ScheduleEntry.
Hypothesis ids_unique : NoDup (map id S).
Variables (clients : list Client) (therapists : list Therapist)
          (selectedDate : JsDate) (callouts : list Callout).
Variables (nt nc : nat).

Lemma fixMdSession_Tame allowedIds h r :
  Wf S h -> (r < length S)%nat -> Tame nt nc (deref h) ->
  Tame nt nc
    (deref (fixMdSession clients therapists selectedDate callouts allowedIds h r)).
Proof.
  intros Hwf Hr HT.
  destruct (Wf_lookup S h r Hwf Hr) as (e0 & session & He0 & Hs & Hsame).
  destruct (fixMdSession_cases S ids_unique clients therapists selectedDate callouts
              allowedIds h r session Hwf Hs)
    as [[-> _]|[(t & _ & Hv & ->)|[(idx & Hidx & ->)|[_ ->]]]]; try done.
  - destruct (decide (r ∈ arr h)) as [Hin|Hout].
    + apply list_elem_of_lookup in Hin as [idx Hidx].
      destruct (deref_around h idx r session (with_therapist session t)
                  (Wf_NoDup S h Hwf) Hidx Hs) as (l1 & l2 & E1 & ->).
      rewrite E1 in HT, Hv. by eapply Tame_swap.
    + by rewrite deref_elsewhere.
  - eapply Tame_sublist; [|exact HT]. unfold deref. simpl.
    apply omap_sublist. rewrite splice1_delete. apply sublist_delete.
Qed.

Lemma fixMdSessions_Tame allowedIds todo h :
  (forall r, r ∈ todo -> (r < length S)%nat) ->
  Wf S h -> Tame nt nc (deref h) ->
  let h' := fold_left (fixMdSession clients therapists selectedDate callouts allowedIds)
                      todo h in
  Wf S h' /\ Tame nt nc (deref h').
Proof.
  revert h. induction todo as [|r todo IH]; intros h Hall Hwf HT; simpl; [done|].
  apply IH.
  - intros x Hx. by apply Hall, list_elem_of_further.
  - apply (fixMdSession_Wf S ids_unique); [done|]. apply Hall, list_elem_of_here.
  - apply fixMdSession_Tame; [done | | done]. apply Hall, list_elem_of_here.
Qed.

Lemma fixMdClient_Tame h c :
  Wf S h -> Tame nt nc (deref h) ->
  let h' := fixMdClient therapists clients selectedDate callouts h c in
  Wf S h' /\ Tame nt nc (deref h').
Proof.
  intros Hwf HT. unfold fixMdClient.
  destruct (negb _); [done|]. cbv zeta.
  destruct (Nat.ltb 3 _); [|done].
  apply fixMdSessions_Tame; [|done|done].
  intros r Hr. apply elem_of_filter_list in Hr as [Hr _]. by eapply Wf_valid.
Qed.

Lemma fixMdClients_Tame cs h :
  Wf S h -> Tame nt nc (deref h) ->
  let h' := fold_left (fixMdClient therapists clients selectedDate callouts) cs h in
  Wf S h' /\ Tame nt nc (deref h').
Proof.
  revert h. induction cs as [|c cs IH]; intros h Hwf HT; simpl; [done|].
  destruct (fixMdClient_Tame h c Hwf HT) as [Hwf' HT']. by apply IH.
Qed.

End MdConflicts.

Lemma fixMdMedicaidLimit_Tame nt nc schedule clients therapists d callouts :
  Tame nt nc schedule ->
  Tame nt nc (fixMdMedicaidLimit schedule clients therapists d callouts).
Proof.
  intros HT. unfold fixMdMedicaidLimit.
  apply (fixMdClients_Tame schedule (tm_ids _ _ _ HT)).
  - apply Wf_heapOf.
  - by rewrite heapOf_deref.
Qed.

(** ** Cleanup: merging contiguous sessions *)

(** A list is a permutation of its classes under a key, taken in any order
    that lists every key once. *)
Lemma partition_by_key {A K} `{EqDecision K} (key : A -> K) (l : list A) (ks : list K) :
  NoDup ks -> (forall x, x ∈ l -> key x ∈ ks) ->
  flat_map (fun k => List.filter (fun x => bool_decide (key x = k)) l) ks ≡ₚ l.
Proof.
  intros Hnd. induction l as [|x r IH]; intros Hall.
  - clear. induction ks as [|k ks IH]; simpl; [done | exact IH].
  - assert (Hx : key x ∈ ks) by apply Hall, list_elem_of_here.
    assert (Hstep :
      flat_map (fun k => List.filter (fun y => bool_decide (key y = k)) (x :: r)) ks
      ≡ₚ x :: flat_map (fun k => List.filter (fun y => bool_decide (key y = k)) r) ks).
    { clear IH Hall. induction ks as [|k ks IH]; [by apply elem_of_nil in Hx|].
      apply NoDup_cons in Hnd as [Hk Hnd]. cbn [flat_map List.filter].
      destruct (decide (key x = k)) as [E|E].
      + rewrite bool_decide_eq_true_2 by done. simpl. constructor.
        apply Permutation_app_head.
        assert (Hout : key x ∉ ks) by (by rewrite E).
        clear -Hout. induction ks as [|k ks IH]; simpl; [done|].
        rewrite bool_decide_eq_false_2
          by (intros E; apply Hout; rewrite E; apply list_elem_of_here).
        f_equiv. apply IH. intros H. by apply Hout, list_elem_of_further.
      + rewrite bool_decide_eq_false_2 by done.
        apply elem_of_cons in Hx as [?|Hx]; [done|].
        rewrite (IH Hnd Hx). by rewrite Permutation_middle. }
    rewrite Hstep. constructor. apply IH.
    intros y Hy. by apply Hall, list_elem_of_further.
Qed.

Section Merge.

Variable P : ScheduleEntry -> ScheduleEntry -> bool.
Hypothesis P_sym : forall a b, P a b = P b a.

(** What is related to the merged session was related to one of the two. *)
Hypothesis P_absorbs : forall cur next x,
  therapistId cur = therapistId next -> clientId cur = clientId next ->
  endTime cur = startTime next ->
  P x (with_endTime cur (endTime next)) = true -> P x cur = true \/ P x next = true.

Lemma filter_absorbs (cur next : ScheduleEntry) (l : list ScheduleEntry) :
  therapistId cur = therapistId next -> clientId cur = clientId next ->
  endTime cur = startTime next ->
  (length (List.filter (P (with_endTime cur (endTime next))) l)
   <= length (List.filter (P cur) l) + length (List.filter (P next) l))%nat.
Proof.
  intros H1 H2 H3. induction l as [|x r IH]; [done|]. cbn [List.filter].
  destruct (P (with_endTime cur (endTime next)) x) eqn:E,
           (P cur x) eqn:E1, (P next x) eqn:E2; cbn [length]; try lia.
  exfalso. rewrite P_sym in E.
  destruct (P_absorbs cur next x H1 H2 H3 E) as [E'|E']; rewrite P_sym in E'; congruence.
Qed.

Lemma mergeSessions_count (sessions : list ScheduleEntry) (cur : ScheduleEntry)
    (others : list ScheduleEntry) (tid : string) :
  therapistId cur = tid -> Forall (fun s => therapistId s = tid) sessions ->
  (countPairs P (fst (mergeSessions cur sessions) ++ others)
   <= countPairs P (cur :: sessions ++ others))%nat.
Proof.
  revert cur others. induction sessions as [|next rest IH]; intros cur others Hc Hall.
  - done.
  - apply Forall_cons in Hall as [Hn Hall]. cbn [mergeSessions].
    assert (Hskip :
      (countPairs P ((cur :: fst (mergeSessions next rest)) ++ others)
       <= countPairs P (cur :: (next :: rest) ++ others))%nat).
    { rewrite (countPairs_Permutation P P_sym
                 ((cur :: fst (mergeSessions next rest)) ++ others)
                 (fst (mergeSessions next rest) ++ (others ++ [cur])))
        by (simpl; rewrite (app_assoc _ others [cur]); apply Permutation_cons_append).
      etrans; [apply (IH next (others ++ [cur]) Hn Hall)|].
      apply Nat.eq_le_incl, (countPairs_Permutation P P_sym).
      rewrite (app_assoc rest others [cur]), app_comm_cons.
      symmetry. apply Permutation_cons_append. }
    destruct (opt_eqb (clientId cur) (clientId next) && _ && _ && _) eqn:Hm.
    + destruct (duration next + duration cur <=? 180).
      * destruct (mergeSessions (with_endTime cur (endTime next)) rest) as [out b] eqn:E.
        simpl.
        pose proof (IH (with_endTime cur (endTime next)) others Hc Hall) as Hle.
        rewrite E in Hle. simpl in Hle. etrans; [exact Hle|].
        apply andb_true_iff in Hm as [Hm _]. apply andb_true_iff in Hm as [Hm H3].
        apply andb_true_iff in Hm as [H2 _].
        unfold opt_eqb in H2. apply bool_decide_eq_true in H2, H3.
        pose proof (filter_absorbs cur next (rest ++ others)
                      (eq_trans Hc (eq_sym Hn)) H2 H3) as Hf.
        simpl. destruct (P cur next); simpl; lia.
      * destruct (mergeSessions next rest) as [out b]. exact Hskip.
    + destruct (mergeSessions next rest) as [out b]. exact Hskip.
Qed.

Lemma sessionsOf_spec (schedule : GeneratedSchedule) (tid : string) :
  sessionsOf schedule tid ≡ₚ
    List.filter (fun s => bool_decide (therapistId s = tid)) schedule /\
  Forall (fun s => therapistId s = tid) (sessionsOf schedule tid).
Proof.
  unfold sessionsOf. split; [apply sortByZ_Permutation|].
  apply Forall_forall. intros s Hs. unfold sortByZ in Hs.
  apply elem_of_sortBy, elem_of_filter_list in Hs as [_ Hs].
  unfold str_eqb in Hs. by apply bool_decide_eq_true in Hs.
Qed.

Lemma mergeTherapist_count (schedule others : list ScheduleEntry) (tid : string) :
  (countPairs P (fst (mergeTherapist schedule tid) ++ others)
   <= countPairs P (List.filter (fun s => bool_decide (therapistId s = tid)) schedule
                    ++ others))%nat.
Proof.
  destruct (sessionsOf_spec schedule tid) as [Hperm Hall].
  rewrite <- (countPairs_Permutation P P_sym _ _ (Permutation_app_tail others Hperm)).
  unfold mergeTherapist. destruct (sessionsOf schedule tid) as [|s [|s' rest]]; [done..|].
  apply Forall_cons in Hall as [Hs Hall].
  by apply (mergeSessions_count (s' :: rest) s others tid).
Qed.

Lemma mergePass_fold_count (schedule : GeneratedSchedule) (ts : list string)
    (acc : list ScheduleEntry) (b : bool) :
  (countPairs P
     (fst (fold_left (fun acc therapistId_ =>
                        let '(out, merged) := mergeTherapist schedule therapistId_ in
                        (fst acc ++ out, snd acc || merged)) ts (acc, b)))
   <= countPairs P
        (acc ++ flat_map (fun t => List.filter (fun s => bool_decide (therapistId s = t))
                                               schedule) ts))%nat.
Proof.
  revert acc b. induction ts as [|t ts IH]; intros acc b.
  - simpl. by rewrite app_nil_r.
  - cbn [fold_left flat_map].
    pose proof (mergeTherapist_count schedule
                  (acc ++ flat_map (fun t => List.filter
                                      (fun s => bool_decide (therapistId s = t)) schedule) ts)
                  t) as Hm.
    destruct (mergeTherapist schedule t) as [out merged]. cbn [fst snd] in *.
    etrans; [apply IH|].
    rewrite (countPairs_Permutation P P_sym ((acc ++ out) ++ _) (out ++ acc ++ _))
      by (rewrite <- app_assoc; apply Permutation_app_swap_app).
    etrans; [exact Hm|].
    apply Nat.eq_le_incl, (countPairs_Permutation P P_sym).
    apply Permutation_app_swap_app.
Qed.

Lemma mergePass_count (schedule : GeneratedSchedule) :
  (countPairs P (fst (mergePass schedule)) <= countPairs P schedule)%nat.
Proof.
  unfold mergePass. etrans; [apply mergePass_fold_count|]. simpl.
  apply Nat.eq_le_incl, (countPairs_Permutation P P_sym).
  apply (partition_by_key therapistId); [apply NoDup_uniq|].
  intros x Hx. apply elem_of_uniq, list_elem_of_In, in_map, list_elem_of_In, Hx.
Qed.

Lemma cleanupLoop_count (n : nat) (schedule : GeneratedSchedule) :
  (countPairs P (cleanupLoop n schedule) <= countPairs P schedule)%nat.
Proof.
  revert schedule. induction n as [|n IH]; intros schedule; simpl; [done|].
  pose proof (mergePass_count schedule) as Hp.
  destruct (mergePass schedule) as [newSchedule merged]. simpl in Hp.
  destruct merged; [|done]. etrans; [apply IH | done].
Qed.

End Merge.

Lemma overlap_absorbed (cur next x : ScheduleEntry) :
  endTime cur = startTime next ->
  timesOverlap x (with_endTime cur (endTime next)) = true ->
  timesOverlap x cur = true \/ timesOverlap x next = true.
Proof.
  unfold timesOverlap. simpl. intros ->. rewrite !Z.ltb_lt. lia.
Qed.

(** *** What every entry of a schedule keeps through the merges *)

Section Kept.

Variable Q : ScheduleEntry -> Prop.
Hypothesis Q_merge : forall cur next, Q cur -> Q (with_endTime cur (endTime next)).

Lemma mergeSessions_Forall (sessions : list ScheduleEntry) (cur : ScheduleEntry) :
  Q cur -> Forall Q sessions -> Forall Q (fst (mergeSessions cur sessions)).
Proof.
  revert cur. induction sessions as [|next rest IH]; intros cur Hc Hall; cbn [mergeSessions].
  - by constructor.
  - apply Forall_cons in Hall as [Hn Hall].
    assert (Hskip : Forall Q (cur :: fst (mergeSessions next rest)))
      by (constructor; [done | by apply IH]).
    destruct (_ && _ && _ && _).
    + destruct (_ <=? 180).
      * pose proof (IH (with_endTime cur (endTime next)) (Q_merge cur next Hc) Hall) as H.
        by destruct (mergeSessions (with_endTime cur (endTime next)) rest).
      * by destruct (mergeSessions next rest).
    + by destruct (mergeSessions next rest).
Qed.

Lemma mergeTherapist_Forall (schedule : GeneratedSchedule) (tid : string) :
  Forall Q schedule -> Forall Q (fst (mergeTherapist schedule tid)).
Proof.
  intros Hall.
  assert (Hs : Forall Q (sessionsOf schedule tid)).
  { apply Forall_forall. intros x Hx.
    destruct (sessionsOf_spec schedule tid) as [Hperm _]. rewrite Hperm in Hx.
    apply list_elem_of_In, filter_In in Hx as [Hx _]. apply list_elem_of_In in Hx.
    by apply (proj1 (Forall_forall _ _) Hall). }
  unfold mergeTherapist. destruct (sessionsOf schedule tid) as [|x [|y rest]]; [done..|].
  apply Forall_cons in Hs as [Hx Hs]. by apply mergeSessions_Forall.
Qed.

Lemma mergePass_Forall (schedule : GeneratedSchedule) :
  Forall Q schedule -> Forall Q (fst (mergePass schedule)).
Proof.
  intros Hall. unfold mergePass.
  assert (Hacc : Forall Q (fst (([] : list ScheduleEntry), false))) by constructor.
  revert Hacc. generalize (([] : list ScheduleEntry), false).
  induction (uniq (map therapistId schedule)) as [|t ts IH]; intros acc Hacc; [done|].
  cbn [fold_left]. apply IH.
  pose proof (mergeTherapist_Forall schedule t Hall) as Hm.
  destruct (mergeTherapist schedule t) as [out merged]. cbn [fst] in *.
  by apply Forall_app.
Qed.

Lemma cleanupLoop_Forall (n : nat) (schedule : GeneratedSchedule) :
  Forall Q schedule -> Forall Q (cleanupLoop n schedule).
Proof.
  revert schedule. induction n as [|n IH]; intros schedule Hall; simpl; [done|].
  pose proof (mergePass_Forall schedule Hall) as Hp.
  destruct (mergePass schedule) as [newSchedule merged]. cbn [fst] in Hp.
  destruct merged; [by apply IH | done].
Qed.

End Kept.

Lemma cleanupScheduleIssues_onDay (day_ : DayOfWeek) (schedule : GeneratedSchedule) :
  onDay day_ schedule -> onDay day_ (cleanupScheduleIssues schedule).
Proof. apply (cleanupLoop_Forall (fun e => day e = day_)). by intros cur next. Qed.

(** *** Conflicts among the entries of one day *)

(** The two conflicts without the test of the day. *)
Definition therapistClash (a b : ScheduleEntry) : bool :=
  str_eqb (therapistId a) (therapistId b) && timesOverlap a b.

Definition clientClash (a b : ScheduleEntry) : bool :=
  truthy (clientId a) && opt_eqb (clientId a) (clientId b) && timesOverlap a b.

Lemma countPairs_ext_in {A} (P Q : A -> A -> bool) (l : list A) :
  (forall a b, a ∈ l -> b ∈ l -> P a b = Q a b) -> countPairs P l = countPairs Q l.
Proof.
  induction l as [|x r IH]; intros H; simpl; [done|].
  rewrite IH by (intros a b Ha Hb; apply H; by apply list_elem_of_further).
  f_equal. f_equal. apply filter_list_ext. intros b Hb.
  apply H; [apply list_elem_of_here | by apply list_elem_of_further].
Qed.

Lemma onDay_conflicts (day_ : DayOfWeek) (l : list ScheduleEntry) :
  onDay day_ l ->
  therapistConflicts l = countPairs therapistClash l /\
  clientConflicts l = countPairs clientClash l.
Proof.
  intros Hd.
  assert (Hsame : forall a b, a ∈ l -> b ∈ l -> bool_decide (day a = day b) = true).
  { intros a b Ha Hb. apply bool_decide_eq_true.
    rewrite (proj1 (Forall_forall _ _) Hd a Ha), (proj1 (Forall_forall _ _) Hd b Hb). done. }
  split; apply countPairs_ext_in; intros a b Ha Hb.
  - unfold therapistConflict, therapistClash. rewrite (Hsame a b Ha Hb).
    by rewrite andb_true_r.
  - unfold clientConflict, clientClash. rewrite (Hsame a b Ha Hb).
    by rewrite andb_true_r.
Qed.

Lemma cleanupScheduleIssues_clashes (schedule : GeneratedSchedule) :
  (countPairs therapistClash (cleanupScheduleIssues schedule)
   <= countPairs therapistClash schedule)%nat /\
  (countPairs clientClash (cleanupScheduleIssues schedule)
   <= countPairs clientClash schedule)%nat.
Proof.
  split; apply cleanupLoop_count.
  - intros a b. unfold therapistClash, str_eqb. rewrite (timesOverlap_sym a b).
    f_equal. apply bool_decide_ext. split; congruence.
  - intros cur next x Ht _ He. unfold therapistClash. simpl.
    rewrite !andb_true_iff. intros [H1 H2].
    destruct (overlap_absorbed cur next x He H2) as [?|?]; [by left|right].
    split; [|done]. unfold str_eqb in *. apply bool_decide_eq_true in H1.
    apply bool_decide_eq_true. congruence.
  - intros a b. unfold clientClash, opt_eqb. rewrite (timesOverlap_sym a b).
    f_equal. destruct (decide (clientId a = clientId b)) as [E|E].
    + rewrite E. by rewrite !bool_decide_eq_true_2.
    + rewrite !bool_decide_eq_false_2 by congruence. by rewrite !andb_false_r.
  - intros cur next x _ Hc He. unfold clientClash. simpl.
    rewrite !andb_true_iff. intros [H1 H2].
    destruct (overlap_absorbed cur next x He H2) as [?|?]; [by left|right].
    split; [|done]. by rewrite <- Hc.
Qed.

(** On a schedule of one day the merges add no conflict. *)
Lemma cleanupScheduleIssues_conflicts (day_ : DayOfWeek) (schedule : GeneratedSchedule) :
  onDay day_ schedule ->
  (therapistConflicts (cleanupScheduleIssues schedule) <= therapistConflicts schedule)%nat /\
  (clientConflicts (cleanupScheduleIssues schedule) <= clientConflicts schedule)%nat.
Proof.
  intros Hd.
  destruct (onDay_conflicts day_ schedule Hd) as [-> ->].
  destruct (onDay_conflicts day_ _ (cleanupScheduleIssues_onDay day_ schedule Hd))
    as [-> ->].
  apply cleanupScheduleIssues_clashes.
Qed.

(** ** Coverage-gap fill *)

(** *** The masks of a tracker only grow *)

Lemma book_keeps tr t c a b t' k :
  Z.testbit (maskOf (therapistMasks tr) t') k = true ->
  Z.testbit (maskOf (therapistMasks (book tr t c a b)) t') k = true.
Proof.
  intros H. simpl. rewrite maskOf_orMask. destruct (decide _); [|done].
  by rewrite Z.lor_spec, H.
Qed.

Lemma book_sets tr t c a b k :
  0 <= a -> timeToBit a <= k < timeToBit b ->
  Z.testbit (maskOf (therapistMasks (book tr t c a b)) t) k = true.
Proof.
  intros Ha Hk. simpl. rewrite maskOf_orMask, decide_True by done.
  rewrite Z.lor_spec, getRangeMask_testbit.
  - replace (timeToBit a <=? k) with true by (symmetry; apply Z.leb_le; lia).
    replace (k <? timeToBit b) with true by (symmetry; apply Z.ltb_lt; lia).
    apply orb_true_r.
  - done.
  - etrans; [|exact (proj1 Hk)]. unfold timeToBit. apply Z.div_pos; lia.
Qed.

Lemma applyEntries_booked (l : list ScheduleEntry) (tr : AvailabilityTracker) :
  (forall e, e ∈ l -> 0 <= timeToMinutes (startTime e)) ->
  forall e k, e ∈ l ->
    timeToBit (timeToMinutes (startTime e)) <= k < timeToBit (timeToMinutes (endTime e)) ->
    Z.testbit (maskOf (therapistMasks (fold_left applyEntry l tr)) (therapistId e)) k = true.
Proof.
  intros Hpos.
  assert (Hkeep : forall l tr t k,
            Z.testbit (maskOf (therapistMasks tr) t) k = true ->
            Z.testbit (maskOf (therapistMasks (fold_left applyEntry l tr)) t) k = true).
  { clear. induction l as [|x r IH]; intros tr t k H; simpl; [done|].
    apply IH. unfold applyEntry. by apply book_keeps. }
  revert tr. induction l as [|x r IH]; intros tr e k He Hk; [by apply elem_of_nil in He|].
  simpl. apply elem_of_cons in He as [->|He].
  - apply Hkeep. unfold applyEntry. apply book_sets; [|done].
    apply Hpos, list_elem_of_here.
  - apply IH; [|done|done]. intros y Hy. by apply Hpos, list_elem_of_further.
Qed.

Lemma newTracker_booked schedule callouts date e k :
  (forall x, x ∈ schedule -> 0 <= timeToMinutes (startTime x)) ->
  e ∈ schedule ->
  timeToBit (timeToMinutes (startTime e)) <= k < timeToBit (timeToMinutes (endTime e)) ->
  Z.testbit (maskOf (therapistMasks (newTracker schedule callouts date)) (therapistId e)) k
    = true.
Proof. intros Hpos He Hk. unfold newTracker. by apply applyEntries_booked. Qed.

(** *** The loops *)

Lemma downFrom_spec (from to x : Z) :
  x ∈ downFrom from to 15 -> to <= x <= from /\ (from - x) mod 15 = 0.
Proof.
  unfold downFrom. destruct (Z.ltb_spec from to); [by intros ?%elem_of_nil|].
  intros Hx. apply list_elem_of_In, in_map_iff in Hx as (k & <- & Hk).
  apply in_seq in Hk.
  assert (Hq : 15 * ((from - to) / 15) <= from - to)
    by (apply Z.mul_div_le; lia).
  assert (Z.of_nat k <= (from - to) / 15).
  { assert (0 <= (from - to) / 15) by (apply Z.div_pos; lia). lia. }
  split; [lia|].
  replace (from - (from - 15 * Z.of_nat k)) with (Z.of_nat k * 15) by lia.
  apply Z.mod_mul. lia.
Qed.

Lemma foldM_total {A St} (f : St -> A -> M St) (Inv : St -> Prop) (xs : list A) :
  (forall st x o, x ∈ xs -> Inv st -> exists st' o', f st x o = Some (st', o') /\ Inv st') ->
  forall st o, Inv st -> exists st' o', foldM f xs st o = Some (st', o') /\ Inv st'.
Proof.
  induction xs as [|x r IH]; intros Hf st o Hst.
  - exists st, o. done.
  - destruct (Hf st x o (list_elem_of_here _ _) Hst) as (st1 & o1 & E1 & H1).
    destruct (IH (fun st x o Hx => Hf st x o (list_elem_of_further _ _ _ Hx)) st1 o1 H1)
      as (st' & o' & E' & H').
    exists st', o'. split; [|done]. cbn [foldM]. unfold bind. by rewrite E1.
Qed.

Lemma fillGapWith_cases client q day_ gap lens st o :
  exists st' o',
    fillGapWith client q day_ gap lens st o = Some (st', o') /\
    (st' = st \/
     exists len t newId,
       len ∈ lens /\
       isAvailable (snd st) ETherapist (th_id t) (r_start gap) (r_start gap + len) None
         = true /\
       st' = (fst st ++ [mkEntry newId (Some (cl_name client)) (Some (cl_id client))
                           (th_name t) (th_id t) day_ (minutesToTime (r_start gap))
                           (minutesToTime (r_start gap + len)) ABA],
              book (snd st) (th_id t) (Some (cl_id client)) (r_start gap)
                   (r_start gap + len))).
Proof.
  destruct st as [schedule tracker].
  induction lens as [|len rest IH]; cbn [fillGapWith].
  - exists (schedule, tracker), o. split; [done | by left].
  - match goal with |- context [find_ ?p q] => destruct (find_ p q) as [t|] eqn:E end.
    + eexists _, _. split; [reflexivity|]. right.
      exists len, t, (freshIds o (idPos o)).
      split; [apply list_elem_of_here|]. split; [|done].
      by apply find_Some_elem in E as [_ E].
    + destruct IH as (st' & o' & E' & [->|(len' & t & i & Hl & Ha & ->)]).
      * exists (schedule, tracker), o'. split; [done | by left].
      * eexists _, o'. split; [exact E'|]. right. exists len', t, i.
        split; [by apply list_elem_of_further | done].
Qed.

(** *** The gaps of a client *)

Lemma covered_by_aligned schedule c callouts date m :
  Forall wellTimed schedule -> Forall calloutWellTimed callouts ->
  coveredAt schedule c callouts date m ->
  exists a b, a mod 15 = 0 /\ b mod 15 = 0 /\ a <= m < b /\
              forall m', a <= m' < b -> coveredAt schedule c callouts date m'.
Proof.
  intros Hs Hc [(co & Hin & H1 & H2 & H3 & Hm)|(s & Hin & H1 & Hm)].
  - destruct (proj1 (Forall_forall _ _) Hc co Hin) as (A1 & A2 & _).
    exists (timeToMinutes (co_startTime co)), (timeToMinutes (co_endTime co)).
    repeat (split; [done|]). intros m' Hm'. left. by exists co.
  - destruct (proj1 (Forall_forall _ _) Hs s Hin) as ((_ & A1 & A2) & _).
    exists (timeToMinutes (startTime s)), (timeToMinutes (endTime s)).
    repeat (split; [done|]). intros m' Hm'. right. by exists s.
Qed.

Lemma properPeriods_wellTimed schedule c callouts date :
  Forall wellTimed schedule -> Forall calloutWellTimed callouts ->
  properPeriods schedule c callouts date.
Proof.
  intros Hs Hc. split.
  - intros co Hin _ _ _. by destruct (proj1 (Forall_forall _ _) Hc co Hin) as (_ & _ & ?).
  - intros s Hin _. by destruct (proj1 (Forall_forall _ _) Hs s Hin) as [_ ?].
Qed.

(** A gap lies in the day and on the grid, and no entry of the client
    reaches into it. *)
Definition gapFree (c : string) (schedule : GeneratedSchedule) (g : Range) : Prop :=
  0 <= r_start g /\ r_start g mod 15 = 0 /\ r_end g mod 15 = 0 /\
  forall a m, a ∈ schedule -> clientId a = Some c -> r_start g <= m < r_end g ->
              ~ (timeToMinutes (startTime a) <= m < timeToMinutes (endTime a)).

Lemma coverage_gaps_free schedule c callouts date :
  Forall wellTimed schedule -> Forall calloutWellTimed callouts ->
  let gaps := getClientCoverageGaps schedule c callouts date in
  StronglySorted (fun g h => r_end g < r_start h) gaps /\
  forall g, g ∈ gaps -> gapFree c schedule g.
Proof.
  intros Hs Hc gaps.
  destruct (coverage_gaps_inv schedule c callouts date
              (properPeriods_wellTimed schedule c callouts date Hs Hc))
    as (Hmax & _ & Hsort & _).
  split; [exact Hsort|]. intros g Hg.
  destruct (Hmax g Hg) as (G1 & G2 & G3 & G4 & G5 & G6).
  change (timeToMinutes COMPANY_OPERATING_HOURS_START) with 480 in *.
  change (timeToMinutes COMPANY_OPERATING_HOURS_END) with 1020 in *.
  split; [lia|]. split; [|split].
  - destruct G5 as [->|G5]; [done|].
    destruct (covered_by_aligned _ _ _ _ _ Hs Hc G5) as (a & b & _ & Ab & Hm & Hall).
    destruct (Z.lt_ge_cases (r_start g) b) as [Hlt|Hge].
    + exfalso. apply (G4 (r_start g)); [lia|]. apply Hall. lia.
    + by replace (r_start g) with b by lia.
  - destruct G6 as [->|G6]; [done|].
    destruct (covered_by_aligned _ _ _ _ _ Hs Hc G6) as (a & b & Aa & _ & Hm & Hall).
    destruct (Z.lt_ge_cases a (r_end g)) as [Hlt|Hge].
    + exfalso. apply (G4 (r_end g - 1)); [lia|]. apply Hall. lia.
    + by replace (r_end g) with a by lia.
  - intros a m Ha Hcl Hm Hin. apply (G4 m Hm). right. by exists a.
Qed.

(** *** The schedule and the tracker while gaps are filled *)

Section Fill.

Variables (nt nc : nat).

Record Filling (st : GeneratedSchedule * AvailabilityTracker) : Prop := {
  fl_timed : Forall wellTimed (fst st);
  fl_booked : forall e k, e ∈ fst st ->
    timeToBit (timeToMinutes (startTime e)) <= k < timeToBit (timeToMinutes (endTime e)) ->
    Z.testbit (maskOf (therapistMasks (snd st)) (therapistId e)) k = true;
  fl_therapist : (therapistConflicts (fst st) <= nt)%nat;
  fl_client : (clientConflicts (fst st) <= nc)%nat
}.

Lemma Filling_add st (client : Client) (t : Therapist) (newId : string)
    (day_ : DayOfWeek) (start len : Z) :
  Filling st ->
  0 <= start -> start mod 15 = 0 -> (start + len) mod 15 = 0 -> 0 < len ->
  isAvailable (snd st) ETherapist (th_id t) start (start + len) None = true ->
  (forall a m, a ∈ fst st -> clientId a = Some (cl_id client) ->
     start <= m < start + len ->
     ~ (timeToMinutes (startTime a) <= m < timeToMinutes (endTime a))) ->
  Filling (fst st ++ [mkEntry newId (Some (cl_name client)) (Some (cl_id client))
                        (th_name t) (th_id t) day_ (minutesToTime start)
                        (minutesToTime (start + len)) ABA],
           book (snd st) (th_id t) (Some (cl_id client)) start (start + len)).
Proof.
  intros [F1 F2 F3 F4] H0 Hs He Hlen Hav Hfree.
  set (new := mkEntry _ _ _ _ _ _ _ _ _).
  assert (Hgrid : onGrid new) by (unfold onGrid; simpl; done).
  rewrite isAvailable_no_ignore in Hav.
  split; cbn [fst snd].
  - apply Forall_app. split; [done|]. constructor; [|done].
    split; [done|]. simpl. lia.
  - intros e k Hin Hk. apply elem_of_app in Hin as [Hin|Hin].
    + apply book_keeps. by apply F2.
    + apply list_elem_of_singleton in Hin as ->. by apply book_sets.
  - unfold therapistConflicts in *. rewrite countPairs_snoc; [done|].
    intros a Ha. unfold therapistConflict.
    destruct (str_eqb (therapistId a) (therapistId new)) eqn:Ht; [|done]. simpl.
    destruct (timesOverlap a new) eqn:Ho; [|by rewrite andb_false_r]. exfalso.
    unfold str_eqb in Ht. apply bool_decide_eq_true in Ht.
    apply timesOverlap_spec in Ho.
    destruct (proj1 (Forall_forall _ _) F1 a Ha) as [Hga _].
    destruct (overlap_common_slot a new Hga Hgrid Ho) as (k & Hk0 & Hka & Hkn).
    pose proof (F2 a k Ha Hka) as Hset. rewrite Ht in Hset. simpl in Hset.
    by rewrite (free_slot_not_booked _ new k Hgrid Hav Hkn) in Hset.
  - unfold clientConflicts in *. rewrite countPairs_snoc; [done|].
    intros a Ha. unfold clientConflict.
    destruct (timesOverlap a new) eqn:Ho; [|by rewrite andb_false_r].
    destruct (opt_eqb (clientId a) (clientId new)) eqn:Heq;
      [|by rewrite andb_false_r]. exfalso.
    unfold opt_eqb in Heq. apply bool_decide_eq_true in Heq.
    assert (Hc : clientId a = Some (cl_id client)) by (by rewrite Heq).
    apply timesOverlap_spec in Ho. destruct Ho as (m & Hm1 & Hm2).
    by apply (Hfree a m Ha Hc Hm2).
Qed.

Lemma fillGap_Filling client q day_ st gap o :
  Filling st -> gapFree (cl_id client) (fst st) gap ->
  exists st' o',
    fillGap client q day_ st gap o = Some (st', o') /\ Filling st' /\
    (forall h, r_end gap < r_start h -> gapFree (cl_id client) (fst st) h ->
               gapFree (cl_id client) (fst st') h).
Proof.
  intros HF (G0 & G1 & G2 & G3). unfold fillGap.
  destruct (r_end gap - r_start gap <? 60) eqn:Hshort.
  { exists st, o. done. }
  apply Z.ltb_ge in Hshort.
  destruct (fillGapWith_cases client q day_ gap
              (downFrom (Z.min 180 (r_end gap - r_start gap)) 60 15) st o)
    as (st' & o' & E & [->|(len & t & newId & Hlen & Hav & ->)]).
  { exists st, o'. done. }
  apply downFrom_spec in Hlen as [[L1 L2] L3].
  assert (Hend : (r_start gap + len) mod 15 = 0).
  { destruct (Z.min_spec 180 (r_end gap - r_start gap)) as [[_ Hmin]|[_ Hmin]];
      rewrite Hmin in L3.
    - replace (r_start gap + len) with (r_start gap + 180 - (180 - len)) by lia.
      rewrite Zminus_mod, Zplus_mod, G1, L3. reflexivity.
    - replace (r_start gap + len) with (r_end gap - (r_end gap - r_start gap - len)) by lia.
      rewrite Zminus_mod, G2, L3. reflexivity. }
  eexists _, o'. split; [exact E|]. split.
  - apply Filling_add; try done; [lia|].
    intros a m Ha Hc Hm. apply (G3 a m Ha Hc). lia.
  - intros h Happ (H0 & H1 & H2 & H3). cbn [fst]. repeat (split; [done|]).
    intros a m Ha Hc Hm. apply elem_of_app in Ha as [Ha|Ha]; [by apply (H3 a m)|].
    apply list_elem_of_singleton in Ha as ->. simpl. lia.
Qed.

Lemma fillGaps_Filling client q day_ gaps :
  forall st o,
  StronglySorted (fun g h => r_end g < r_start h) gaps ->
  (forall g, g ∈ gaps -> gapFree (cl_id client) (fst st) g) ->
  Filling st ->
  exists st' o', foldM (fillGap client q day_) gaps st o = Some (st', o') /\ Filling st'.
Proof.
  induction gaps as [|g rest IH]; intros st o Hsort Hfree HF.
  - exists st, o. done.
  - apply StronglySorted_inv in Hsort as [Hsort Happ].
    destruct (fillGap_Filling client q day_ st g o HF (Hfree g (list_elem_of_here _ _)))
      as (st1 & o1 & E1 & HF1 & Hkeep).
    destruct (IH st1 o1 Hsort) as (st' & o' & E' & HF'); [|done|].
    + intros h Hh. apply Hkeep.
      * by apply (proj1 (Forall_forall _ _) Happ).
      * by apply Hfree, list_elem_of_further.
    + exists st', o'. split; [|done]. cbn [foldM]. unfold bind. by rewrite E1.
Qed.

Lemma fillClientGaps_Filling therapists day_ date callouts st client o :
  Forall calloutWellTimed callouts -> Filling st ->
  exists st' o',
    fillClientGaps therapists day_ date callouts st client o = Some (st', o') /\
    Filling st'.
Proof.
  intros Hc HF. unfold fillClientGaps.
  destruct (coverage_gaps_free (fst st) (cl_id client) callouts date (fl_timed st HF) Hc)
    as [Hsort Hfree].
  by apply fillGaps_Filling.
Qed.

End Fill.

Lemma fixClientCoverageGaps_conflicts schedule clients therapists day_ date callouts o :
  Forall wellTimed schedule -> Forall calloutWellTimed callouts ->
  exists out o',
    fixClientCoverageGaps schedule clients therapists day_ date callouts o
      = Some (out, o') /\
    (therapistConflicts out <= therapistConflicts schedule)%nat /\
    (clientConflicts out <= clientConflicts schedule)%nat.
Proof.
  intros Hs Hc. unfold fixClientCoverageGaps.
  destruct (foldM_total (fillClientGaps therapists day_ date callouts)
              (Filling (therapistConflicts schedule) (clientConflicts schedule)) clients)
    with (st := (schedule, newTracker schedule callouts date)) (o := o)
    as (st' & o' & E & [_ _ F3 F4]).
  - intros st x o0 _ HF. by apply fillClientGaps_Filling.
  - split; cbn [fst snd]; [done | | done | done].
    intros e k He Hk. apply newTracker_booked; [|done|done].
    intros x Hx. by destruct (proj1 (Forall_forall _ _) Hs x Hx) as [[? _] _].
  - exists (fst st'), o'. split; [|done]. unfold bind. by rewrite E.
Qed.

(** ** The operators of the pipeline *)

(** C3 (as amended).  A conflict is a pair of entries on the same weekday,
    of one therapist or of one client (neither null nor the empty string),
    whose ranges overlap.  Cleanup-merge never increases the number of
    therapist time conflicts or of client time conflicts of a schedule whose
    entries are all on one day.  Neither do the credential swap, the Medicaid
    cap and the team realignment on a schedule whose entries have distinct
    ids; nor does the coverage-gap fill when the entries and the callouts lie
    on the grid of fifteen minutes and run forward in time.  The operators
    that draw on the oracle return. *)
Theorem repairs_add_no_conflict
    (schedule : GeneratedSchedule) (clients : list Client) (therapists : list Therapist)
    (day_ : DayOfWeek) (selectedDate : JsDate) (callouts : list Callout) (o : Oracle) :
  let within s :=
    (therapistConflicts s <= therapistConflicts schedule)%nat /\
    (clientConflicts s <= clientConflicts schedule)%nat in
  (onDay day_ schedule -> within (cleanupScheduleIssues schedule)) /\
  (NoDup (map id schedule) ->
     within (fixCredentialIssues schedule clients therapists selectedDate callouts) /\
     within (fixMdMedicaidLimit schedule clients therapists selectedDate callouts) /\
     exists out o',
       fixTeamAlignmentIssues schedule clients therapists o = Some (out, o') /\
       within out) /\
  (Forall wellTimed schedule -> Forall calloutWellTimed callouts ->
     exists out o',
       fixClientCoverageGaps schedule clients therapists day_ selectedDate callouts o
         = Some (out, o') /\
       within out).
Proof.
  intros within. split; [apply cleanupScheduleIssues_conflicts|]. split.
  - intros Hids.
    assert (HT : Tame (therapistConflicts schedule) (clientConflicts schedule) schedule)
      by (by split).
    split; [|split].
    + destruct (fixCredentialFrom_Tame _ _ clients therapists selectedDate callouts
                  [] schedule HT) as [_ T3 T4]. by split.
    + destruct (fixMdMedicaidLimit_Tame _ _ schedule clients therapists
                  selectedDate callouts HT) as [_ T3 T4]. by split.
    + eexists _, _. split; [reflexivity|].
      destruct (fixTeamFrom_Tame _ _ clients therapists (today o) [] schedule HT)
        as [_ T3 T4]. by split.
  - intros Hs Hc. by apply fixClientCoverageGaps_conflicts.
Qed.

(** The theorem at a schedule of three sessions: two at the same hour, the
    first under a therapist who lacks the credential its client requires,
    and a third that continues the first and is merged with it. *)
Lemma repairs_add_no_conflict_witness :
  let th i q := {| th_id := i; th_name := i; th_role := q; th_teamId := None;
                   qualifications := [q]; canProvideAlliedHealth := [] |} in
  let cl i q := {| cl_id := i; cl_name := i; cl_teamId := None;
                   insuranceRequirements := q; alliedHealthNeeds := [] |} in
  let e i c t a b := mkEntry i (Some c) (Some c) t t MONDAY
                       {| mins := a; half := false |} {| mins := b; half := false |} ABA in
  let schedule := [e "a" "c1" "t1" 540 600; e "b" "c2" "t2" 540 600;
                   e "c" "c1" "t1" 600 660]%string in
  let clients := [cl "c1" ["BCBA"]; cl "c2" []]%string in
  let therapists := [th "t1" "RBT"; th "t2" "BCBA"; th "t3" "BCBA"]%string in
  let o := {| draws := fun _ => 0; drawPos := 0;
              freshIds := fun n => String (Ascii.ascii_of_nat (120 + n)) EmptyString;
              idPos := 0; today := {| dayNumber := 4 |} |} in
  NoDup (map id schedule) /\ onDay MONDAY schedule /\ Forall wellTimed schedule /\
  map id (cleanupScheduleIssues schedule) = ["a"; "b"]%string /\
  (therapistConflicts (cleanupScheduleIssues schedule) <= therapistConflicts schedule)%nat /\
  map therapistId (fixCredentialIssues schedule clients therapists {| dayNumber := 4 |} [])
    = ["t3"; "t2"; "t2"]%string /\
  (therapistConflicts
     (fixCredentialIssues schedule clients therapists {| dayNumber := 4 |} [])
   <= therapistConflicts schedule)%nat /\
  exists out o',
    fixClientCoverageGaps schedule clients therapists MONDAY {| dayNumber := 4 |} [] o
      = Some (out, o') /\
    (therapistConflicts out <= therapistConflicts schedule)%nat /\
    (clientConflicts out <= clientConflicts schedule)%nat.
Proof.
  intros th cl e schedule clients therapists o.
  assert (Hids : NoDup (map id schedule)) by (apply (bool_decide_unpack _); exact I).
  assert (Hday : onDay MONDAY schedule) by (repeat constructor).
  assert (Hs : Forall wellTimed schedule).
  { repeat (apply List.Forall_cons;
            [split; [split; [simpl; lia | split; reflexivity] | simpl; lia]|]).
    apply List.Forall_nil. }
  destruct (repairs_add_no_conflict schedule clients therapists MONDAY {| dayNumber := 4 |}
              [] o) as (Hmerge & Hswap & Hfill).
  destruct (Hmerge Hday) as [Hclean _].
  destruct (Hswap Hids) as ([Hcred _] & _).
  split; [exact Hids|]. split; [exact Hday|]. split; [exact Hs|].
  split; [reflexivity|]. split; [exact Hclean|].
  split; [reflexivity|]. split; [exact Hcred|].
  apply Hfill; [exact Hs | apply List.Forall_nil].
Defined.

(** C3, the claim as stated, fails for four operators.  The duration clamp
    stretches a session of thirty minutes to an hour, into the next session
    of its therapist.  The back-to-back shift moves a session a quarter of an
    hour later, into the lunch of its therapist, which it does not look at.
    The lunch placement splits a session in two, and a session of the same
    client that overlapped the whole now overlaps both parts.  Cleanup-merge
    does not compare the days of the sessions it joins: a session of Monday
    from 9:00 to 10:00 absorbs one of Tuesday from 10:00 to 11:00 and then
    overlaps another session of its therapist on Monday from 10:00 to 11:00.
    The side conditions of the other operators are needed as well: the
    credential swap adds a conflict when two entries share an id, and the
    coverage-gap fill when a callout ends off the grid. *)
Lemma repairs_that_add_conflicts :
  let th i q := {| th_id := i; th_name := i; th_role := q; th_teamId := None;
                   qualifications := [q]; canProvideAlliedHealth := [] |} in
  let cl i q := {| cl_id := i; cl_name := i; cl_teamId := None;
                   insuranceRequirements := q; alliedHealthNeeds := [] |} in
  let e i c t d a b := mkEntry i (Some c) (Some c) t t d
                         {| mins := a; half := false |} {| mins := b; half := false |} ABA in
  let lunch i t a b := mkEntry i None None t t MONDAY
                         {| mins := a; half := false |} {| mins := b; half := false |}
                         IndirectTime in
  let o := {| draws := fun _ => 0; drawPos := 0;
              freshIds := fun n => String (Ascii.ascii_of_nat (120 + n)) EmptyString;
              idPos := 0; today := {| dayNumber := 4 |} |} in
  let date := {| dayNumber := 4 |} in
  let counts s := (therapistConflicts s, clientConflicts s) in
  let s1 := [e "a" "c1" "t1" MONDAY 540 570; e "b" "c2" "t1" MONDAY 570 630]%string in
  let s2 := [e "a" "c1" "t1" MONDAY 540 600; e "b" "c1" "t1" MONDAY 600 660;
             lunch "l" "t1" 660 690]%string in
  let s3 := [e "a" "c1" "t1" MONDAY 480 660; e "b" "c2" "t1" MONDAY 660 840;
             e "c" "c1" "t2" MONDAY 480 660]%string in
  let s4 := [e "a" "c1" "t1" MONDAY 540 600; e "a" "c2" "t2" MONDAY 540 600]%string in
  let s5 := [e "a" "c1" "t1" MONDAY 540 600; e "b" "c1" "t1" TUESDAY 600 660;
             e "c" "c2" "t1" MONDAY 600 660]%string in
  let s5' := [e "a" "c1" "t1" MONDAY 540 660; e "c" "c2" "t1" MONDAY 600 660]%string in
  let s6 := [e "a" "c2" "t1" MONDAY 720 780]%string in
  let co := {| co_id := "k"; entityType := EClient; entityId := "c1"; entityName := "c1";
               startDate := Some 4; endDate := Some 4;
               co_startTime := {| mins := 480; half := false |};
               co_endTime := {| mins := 545; half := false |}; reason := None |} in
  (counts s1 = (0, 0) /\ counts (fixSessionDurations s1) = (1, 0))%nat /\
  (counts s2 = (0, 0) /\
   counts (fixSameClientBackToBackIssues s2 [cl "c1" []] [th "t1" "RBT"] MONDAY date [])
     = (1, 0))%nat /\
  (counts s3 = (0, 1) /\
   (counts ∘ fst) <$> fixLunchIssues s3 [th "t1" "RBT"; th "t2" "RBT"]%string MONDAY date [] o
     = Some (0, 2))%nat /\
  (counts s4 = (0, 0) /\
   counts (fixCredentialIssues s4 [cl "c1" ["BCBA"]; cl "c2" []]%string
             [th "t1" "RBT"; th "t2" "BCBA"]%string date []) = (1, 0))%nat /\
  (counts s5 = (0, 0) /\
   cleanupScheduleIssues s5 = s5' /\
   counts (cleanupScheduleIssues s5) = (1, 0))%nat /\
  (counts s6 = (0, 0) /\
   (counts ∘ fst) <$> fixClientCoverageGaps s6 [cl "c1" []] [th "t1" "RBT"] MONDAY date
                        [co] o = Some (1, 0))%nat.
Proof. cbv zeta. repeat split; vm_compute; reflexivity. Qed.

(** * The duration clamp *)

(** ** The duration clamp at work *)

Lemma fixSessionDuration_sameButEnd entry :
  fixSessionDuration entry = with_endTime entry (endTime (fixSessionDuration entry)).
Proof.
  unfold fixSessionDuration.
  destruct (bool_decide _); [|by destruct entry].
  destruct (180 <? _); [done|]. destruct (_ <? 60); [done|]. by destruct entry.
Qed.

Lemma fixSessionDuration_valid entry :
  sessionType entry = ABA -> isSessionDurationValid (fixSessionDuration entry) = true.
Proof.
  intros HA. unfold fixSessionDuration. rewrite bool_decide_eq_true_2 by done.
  unfold isSessionDurationValid.
  destruct (180 <? _) eqn:E1; [|destruct (_ <? 60) eqn:E2]; simpl; rewrite HA.
  - apply andb_true_iff. split; [apply Z.leb_le | apply Z.leb_le]; lia.
  - apply andb_true_iff. split; [apply Z.leb_le | apply Z.leb_le]; lia.
  - apply Z.ltb_ge in E1, E2. apply andb_true_iff.
    split; apply Z.leb_le; lia.
Qed.

Lemma fixSessionDuration_fixed entry :
  sessionType entry <> ABA \/ isSessionDurationValid entry = true ->
  fixSessionDuration entry = entry.
Proof.
  unfold fixSessionDuration. intros H.
  destruct (bool_decide (sessionType entry = ABA)) eqn:EA; [|done].
  apply bool_decide_eq_true in EA. destruct H as [H|H]; [done|].
  unfold isSessionDurationValid in H. rewrite EA in H.
  apply andb_true_iff in H as [H1 H2]. apply Z.leb_le in H1, H2.
  destruct (180 <? _) eqn:E1; [apply Z.ltb_lt in E1; lia|].
  destruct (_ <? 60) eqn:E2; [apply Z.ltb_lt in E2; lia|]. done.
Qed.


(** * The cleanup merge *)

(** ** What the cleanup merge keeps *)

(** A quantity that is added up over the entries of a schedule. *)
Definition sumOf (mu : ScheduleEntry -> Z) (l : list ScheduleEntry) : Z :=
  foldr (fun s acc => mu s + acc) 0 l.

Lemma sumOf_app mu l1 l2 : sumOf mu (l1 ++ l2) = sumOf mu l1 + sumOf mu l2.
Proof. induction l1 as [|x r IH]; simpl; [done|]. rewrite IH. lia. Qed.

Lemma sumOf_Permutation mu l1 l2 : l1 ≡ₚ l2 -> sumOf mu l1 = sumOf mu l2.
Proof. induction 1; simpl; lia. Qed.

Lemma sumDurations_sumOf l : sumDurations l = sumOf duration l.
Proof.
  unfold sumDurations.
  assert (H : forall a, fold_left (fun acc s => acc + duration s) l a = a + sumOf duration l).
  { induction l as [|x r IH]; intros a; simpl; [lia|]. rewrite IH. lia. }
  rewrite H. lia.
Qed.

(** The minutes of an entry, counted for one therapist. *)
Definition minutesFor (tid : string) (e : ScheduleEntry) : Z :=
  if str_eqb (therapistId e) tid then duration e else 0.

Lemma bookedMinutes_sumOf schedule tid :
  bookedMinutes schedule tid = sumOf (minutesFor tid) schedule.
Proof.
  unfold bookedMinutes. rewrite sumDurations_sumOf.
  induction schedule as [|e r IH]; simpl; [done|]. unfold minutesFor at 1.
  destruct (str_eqb (therapistId e) tid); simpl; lia.
Qed.

Lemma with_endTime_same e : with_endTime e (endTime e) = e.
Proof. by destruct e. Qed.

(** An entry of the result stems from an entry [e] of the input: it is [e]
    itself, or [e] stretched to the end of a later session [last] of the same
    therapist and client. *)
Definition mergedFrom (orig : list ScheduleEntry) (e' : ScheduleEntry) : Prop :=
  exists e last, e ∈ orig /\ last ∈ orig /\
    therapistId last = therapistId e /\ clientId last = clientId e /\
    e' = with_endTime e (endTime last) /\
    (last = e \/ (sessionType e = ABA /\ duration e' <= 180)).

Lemma mergedFrom_self orig e : e ∈ orig -> mergedFrom orig e.
Proof.
  intros H. exists e, e. repeat split; try done.
  - by rewrite with_endTime_same.
  - by left.
Qed.

Lemma mergedFrom_merge orig cur next :
  mergedFrom orig cur -> mergedFrom orig next ->
  therapistId cur = therapistId next -> clientId cur = clientId next ->
  endTime cur = startTime next -> sessionType cur = ABA ->
  duration next + duration cur <= 180 ->
  mergedFrom orig (with_endTime cur (endTime next)).
Proof.
  intros (e & l & He & Hl & Ht & Hc & -> & _) (e2 & l2 & He2 & Hl2 & Ht2 & Hc2 & -> & _).
  simpl. intros HT HC HE HA HD.
  exists e, l2. split; [done|]. split; [done|].
  split; [congruence|]. split; [congruence|]. split; [done|]. right.
  split; [done|]. unfold duration in *. simpl in *. rewrite HE in HD. lia.
Qed.

Section Additive.

Variable mu : ScheduleEntry -> Z.
Variable tid : string.

(** Merging two touching sessions of the therapist [tid] adds their shares. *)
Hypothesis mu_merge : forall cur next,
  therapistId cur = tid -> therapistId next = tid -> endTime cur = startTime next ->
  mu (with_endTime cur (endTime next)) = mu cur + mu next.

Lemma mergeSessions_sumOf (sessions : list ScheduleEntry) (cur : ScheduleEntry) :
  therapistId cur = tid -> Forall (fun s => therapistId s = tid) sessions ->
  sumOf mu (fst (mergeSessions cur sessions)) = mu cur + sumOf mu sessions.
Proof.
  revert cur. induction sessions as [|next rest IH]; intros cur Hc Hall.
  - simpl. lia.
  - apply Forall_cons in Hall as [Hn Hall]. cbn [mergeSessions].
    assert (Hskip : sumOf mu (cur :: fst (mergeSessions next rest))
                    = mu cur + sumOf mu (next :: rest)).
    { simpl. rewrite (IH next Hn Hall). lia. }
    destruct (opt_eqb (clientId cur) (clientId next) && _ && _ && _) eqn:Hm.
    + destruct (duration next + duration cur <=? 180).
      * destruct (mergeSessions (with_endTime cur (endTime next)) rest) as [out b] eqn:E.
        pose proof (IH (with_endTime cur (endTime next)) Hc Hall) as Hs.
        rewrite E in Hs. simpl in Hs. simpl. rewrite Hs.
        apply andb_true_iff in Hm as [Hm _]. apply andb_true_iff in Hm as [_ H3].
        apply bool_decide_eq_true in H3. rewrite (mu_merge cur next Hc Hn H3). lia.
      * destruct (mergeSessions next rest) as [out b]. exact Hskip.
    + destruct (mergeSessions next rest) as [out b]. exact Hskip.
Qed.

Lemma mergeTherapist_sumOf (schedule : GeneratedSchedule) :
  sumOf mu (fst (mergeTherapist schedule tid))
  = sumOf mu (List.filter (fun s => bool_decide (therapistId s = tid)) schedule).
Proof.
  destruct (sessionsOf_spec schedule tid) as [Hperm Hall].
  rewrite <- (sumOf_Permutation mu _ _ Hperm).
  unfold mergeTherapist. destruct (sessionsOf schedule tid) as [|s [|s' rest]]; [done..|].
  apply Forall_cons in Hall as [Hs Hall].
  by rewrite (mergeSessions_sumOf (s' :: rest) s).
Qed.

End Additive.

(** The same for the other aspects of a merge: the length, the flag and the
    origin of the entries. *)
Lemma mergeSessions_shape (orig sessions : list ScheduleEntry) (cur : ScheduleEntry)
    (tid : string) :
  therapistId cur = tid -> Forall (fun s => therapistId s = tid) sessions ->
  mergedFrom orig cur -> Forall (mergedFrom orig) sessions ->
  let '(out, merged) := mergeSessions cur sessions in
  Forall (mergedFrom orig) out /\
  (if merged then (length out < S (length sessions))%nat else out = cur :: sessions).
Proof.
  revert cur. induction sessions as [|next rest IH]; intros cur Hc Hall Hcur Hrest.
  - simpl. split; [by apply Forall_singleton | done].
  - apply Forall_cons in Hall as [Hn Hall]. apply Forall_cons in Hrest as [Hnext Hrest].
    cbn [mergeSessions].
    assert (Hskip : let '(out, merged) := mergeSessions next rest in
              Forall (mergedFrom orig) (cur :: out) /\
              (if merged then (length (cur :: out) < S (length (next :: rest)))%nat
               else cur :: out = cur :: next :: rest)).
    { pose proof (IH next Hn Hall Hnext Hrest) as Hi.
      destruct (mergeSessions next rest) as [out b]. destruct Hi as [Hf Hb].
      split; [by apply List.Forall_cons|]. destruct b; simpl in *; [lia | by rewrite Hb]. }
    destruct (opt_eqb (clientId cur) (clientId next) && _ && _ && _) eqn:Hm.
    + destruct (duration next + duration cur <=? 180) eqn:Hd.
      * apply andb_true_iff in Hm as [Hm H4]. apply andb_true_iff in Hm as [Hm H3].
        apply andb_true_iff in Hm as [H1 H2].
        unfold opt_eqb in H1. apply bool_decide_eq_true in H1, H3, H4.
        apply Z.leb_le in Hd.
        pose proof (IH (with_endTime cur (endTime next)) Hc Hall
                      (mergedFrom_merge orig cur next Hcur Hnext
                         (eq_trans Hc (eq_sym Hn)) H1 H3 H4 Hd) Hrest) as Hi.
        destruct (mergeSessions (with_endTime cur (endTime next)) rest) as [out b].
        destruct Hi as [Hf Hb]. split; [done|].
        destruct b; simpl in *; [lia | rewrite Hb; simpl; lia].
      * destruct (mergeSessions next rest) as [out b]. exact Hskip.
    + destruct (mergeSessions next rest) as [out b]. exact Hskip.
Qed.

Lemma mergeTherapist_shape (orig schedule : GeneratedSchedule) (tid : string) :
  Forall (mergedFrom orig) schedule ->
  let '(out, merged) := mergeTherapist schedule tid in
  Forall (mergedFrom orig) out /\
  (if merged then (length out < length (sessionsOf schedule tid))%nat
   else out = sessionsOf schedule tid).
Proof.
  intros Hfrom.
  destruct (sessionsOf_spec schedule tid) as [Hperm Hall].
  assert (Hsrc : Forall (mergedFrom orig) (sessionsOf schedule tid)).
  { apply Forall_forall. intros s Hs. rewrite Hperm in Hs.
    apply elem_of_filter_list in Hs as [Hs _].
    by apply (proj1 (Forall_forall _ _) Hfrom). }
  unfold mergeTherapist. destruct (sessionsOf schedule tid) as [|s [|s' rest]].
  - done.
  - done.
  - apply Forall_cons in Hall as [Hs Hall]. apply Forall_cons in Hsrc as [Hs' Hsrc].
    exact (mergeSessions_shape orig (s' :: rest) s tid Hs Hall Hs' Hsrc).
Qed.

(** One pass over the therapists [ts]. *)
Lemma mergePass_fold (orig schedule : GeneratedSchedule) (ts : list string)
    (acc : list ScheduleEntry) (b : bool) :
  Forall (mergedFrom orig) schedule -> Forall (mergedFrom orig) acc ->
  let classes :=
    flat_map (fun t => List.filter (fun s => bool_decide (therapistId s = t)) schedule) ts in
  let '(out, merged) :=
    fold_left (fun acc therapistId_ =>
                 let '(out, merged) := mergeTherapist schedule therapistId_ in
                 (fst acc ++ out, snd acc || merged)) ts (acc, b) in
  Forall (mergedFrom orig) out /\
  (forall mu, (forall t cur next, therapistId cur = t -> therapistId next = t ->
                 endTime cur = startTime next ->
                 mu (with_endTime cur (endTime next)) = mu cur + mu next) ->
     sumOf mu out = sumOf mu acc + sumOf mu classes) /\
  (length out <= length acc + length classes)%nat /\
  (if merged then b = true \/ (length out < length acc + length classes)%nat
   else b = false /\ out ≡ₚ acc ++ classes).
Proof.
  intros Hfrom. revert acc b. induction ts as [|t ts IH]; intros acc b Hacc.
  - simpl. split; [done|]. split; [intros; lia|]. split; [lia|].
    destruct b; [by left|]. split; [done|]. by rewrite app_nil_r.
  - cbn [fold_left flat_map].
    pose proof (mergeTherapist_shape orig schedule t Hfrom) as Hshape.
    pose proof (fun mu H => mergeTherapist_sumOf mu t (H t) schedule) as Hsum.
    destruct (sessionsOf_spec schedule t) as [Hperm _].
    destruct (mergeTherapist schedule t) as [out merged]. cbn [fst snd] in *.
    destruct Hshape as [Hout Hflag].
    assert (Hlen : (length out <= length (List.filter
                      (fun s => bool_decide (therapistId s = t)) schedule))%nat).
    { rewrite <- (Permutation_length Hperm).
      destruct merged; [lia | by rewrite Hflag]. }
    assert (Hacc' : Forall (mergedFrom orig) (acc ++ out)) by (by apply Forall_app).
    specialize (IH (acc ++ out) (b || merged) Hacc').
    destruct (fold_left _ ts (acc ++ out, b || merged)) as [res flag].
    destruct IH as (Hres & Hmu & Hle & Hfl).
    pose proof (Permutation_length Hperm) as Hpl.
    rewrite length_app in Hle.
    split; [done|]. split; [|split].
    + intros mu Hadd. rewrite (Hmu mu Hadd), !sumOf_app, (Hsum mu Hadd). lia.
    + rewrite length_app. lia.
    + rewrite length_app in Hfl |- *. destruct flag.
      * destruct Hfl as [Hfl|Hfl]; [|right; lia].
        apply orb_true_iff in Hfl as [->| ->]; [by left|].
        right. lia.
      * destruct Hfl as [Hfl Hp]. apply orb_false_iff in Hfl as [-> ->].
        split; [done|]. rewrite Hp, Hflag, <- app_assoc.
        by rewrite Hperm.
Qed.

Lemma mergePass_shape (orig schedule : GeneratedSchedule) :
  Forall (mergedFrom orig) schedule ->
  let '(out, merged) := mergePass schedule in
  Forall (mergedFrom orig) out /\
  (forall tid, sumOf (minutesFor tid) out = sumOf (minutesFor tid) schedule) /\
  (if merged then (length out < length schedule)%nat else out ≡ₚ schedule).
Proof.
  intros Hfrom. unfold mergePass.
  pose proof (mergePass_fold orig schedule (uniq (map therapistId schedule)) [] false
                Hfrom (Forall_nil_2 _)) as H.
  assert (Hp : flat_map (fun t => List.filter
                  (fun s => bool_decide (therapistId s = t)) schedule)
                  (uniq (map therapistId schedule)) ≡ₚ schedule).
  { apply (partition_by_key therapistId); [apply NoDup_uniq|].
    intros x Hx. apply elem_of_uniq, list_elem_of_In, in_map, list_elem_of_In, Hx. }
  cbv zeta in H. destruct (fold_left _ _ _) as [out merged].
  destruct H as (Hout & Hmu & Hle & Hfl). split; [done|]. split.
  - intros tid. rewrite (Hmu (minutesFor tid)).
    + simpl. by rewrite (sumOf_Permutation _ _ _ Hp).
    + intros t cur next Hc Hn He. unfold minutesFor, duration. simpl.
      rewrite Hc, Hn, He. destruct (str_eqb t tid); lia.
  - simpl in Hfl. rewrite (Permutation_length Hp) in Hfl. destruct merged.
    + by destruct Hfl.
    + destruct Hfl as [_ Hfl]. by rewrite Hfl.
Qed.

Lemma cleanupLoop_shape (orig : GeneratedSchedule) (n : nat) (schedule : GeneratedSchedule) :
  Forall (mergedFrom orig) schedule ->
  let out := cleanupLoop n schedule in
  Forall (mergedFrom orig) out /\
  (forall tid, sumOf (minutesFor tid) out = sumOf (minutesFor tid) schedule) /\
  (length out <= length schedule)%nat /\
  (length out = length schedule -> out ≡ₚ schedule).
Proof.
  revert schedule. induction n as [|n IH]; intros schedule Hfrom; simpl.
  - done.
  - pose proof (mergePass_shape orig schedule Hfrom) as Hp.
    destruct (mergePass schedule) as [newSchedule merged].
    destruct Hp as (Hnew & Hmu & Hfl). destruct merged.
    + destruct (IH newSchedule Hnew) as (Hout & Hmu' & Hle & _).
      split; [done|]. split; [intros tid; by rewrite Hmu', Hmu|]. split; lia.
    + split; [done|]. split; [done|]. split; [by rewrite Hfl | done].
Qed.

(** X2: [cleanupScheduleIssues] only merges.  Every therapist is booked for
    as many minutes as before; no entry is added, and when none is removed the
    result is a rearrangement of the input; an entry of the result is an entry
    of the input, or such an entry [e], an ABA session, whose end was moved
    to the end of another session of the same therapist and client, and which
    is then at most 180 minutes long. *)
Theorem cleanupScheduleIssues_merges_only (schedule : GeneratedSchedule) :
  let out := cleanupScheduleIssues schedule in
  (forall tid, bookedMinutes out tid = bookedMinutes schedule tid) /\
  (length out <= length schedule)%nat /\
  (length out = length schedule -> out ≡ₚ schedule) /\
  (forall e', e' ∈ out ->
     exists e last, e ∈ schedule /\ last ∈ schedule /\
       therapistId last = therapistId e /\ clientId last = clientId e /\
       e' = with_endTime e (endTime last) /\
       (last = e \/ (sessionType e = ABA /\ duration e' <= 180))).
Proof.
  assert (Hself : Forall (mergedFrom schedule) schedule).
  { apply Forall_forall. intros e. apply mergedFrom_self. }
  destruct (cleanupLoop_shape schedule MAX_MERGE_ITERATIONS schedule Hself)
    as (Hout & Hmu & Hle & Hperm).
  unfold cleanupScheduleIssues. cbv zeta.
  split; [intros tid; by rewrite !bookedMinutes_sumOf|].
  split; [done|]. split; [done|].
  intros e' He'. exact (proj1 (Forall_forall _ _) Hout e' He').
Qed.

(** * The credential swap and the team realignment *)

(** ** The two swaps of a therapist *)

(** An entry that the kernel accepts has no credential mismatch. *)
Lemma valid_no_credential_mismatch entry schedule clients therapists d callouts ign :
  valid (canAddEntryToSchedule entry schedule clients therapists d callouts ign) = true ->
  hasCredentialMismatch entry clients therapists = false.
Proof.
  unfold canAddEntryToSchedule. cbn [valid]. intros H.
  apply bool_decide_eq_true in H. apply length_zero_iff_nil in H.
  repeat (apply app_eq_nil in H as [? H]).
  match goal with
  | Hc : violationIf (hasCredentialMismatch _ _ _) _ = [] |- _ =>
      unfold violationIf in Hc; by destruct (hasCredentialMismatch _ _ _)
  end.
Qed.

(** In-place updates of the entries, one after the other: the result has the
    entries already visited in front, and each of the others in a version
    related to it by [R]. *)
Lemma zipper_Forall2 (step : list ScheduleEntry -> ScheduleEntry -> ScheduleEntry)
    (run : list ScheduleEntry -> list ScheduleEntry -> list ScheduleEntry)
    (R : ScheduleEntry -> ScheduleEntry -> Prop) :
  (forall done, run done [] = done) ->
  (forall done entry rest,
     run done (entry :: rest) = run (done ++ [step (done ++ entry :: rest) entry]) rest) ->
  (forall schedule entry, R entry (step schedule entry)) ->
  forall done todo, exists out, run done todo = done ++ out /\ Forall2 R todo out.
Proof.
  intros Hnil Hcons HR done todo. revert done.
  induction todo as [|entry rest IH]; intros done.
  - exists []. rewrite Hnil, app_nil_r. split; [done | constructor].
  - rewrite Hcons. destruct (IH (done ++ [step (done ++ entry :: rest) entry])) as (out & E & F).
    exists (step (done ++ entry :: rest) entry :: out). split.
    + by rewrite E, <- app_assoc.
    + by constructor.
Qed.

Lemma fixCredentialEntry_frame clients therapists d callouts schedule entry :
  let entry' := fixCredentialEntry clients therapists d callouts schedule entry in
  sameButTherapist entry entry' /\
  (entry' = entry \/
   hasCredentialMismatch entry clients therapists = true /\
   hasCredentialMismatch entry' clients therapists = false /\
   exists t, t ∈ therapists /\ entry' = with_therapist entry t).
Proof.
  cbv zeta. unfold fixCredentialEntry.
  destruct (negb (truthy (clientId entry))) eqn:Ec;
    [split; [apply sameButTherapist_refl | by left]|].
  destruct (find_ _ clients) as [client|] eqn:Efc;
    [|split; [apply sameButTherapist_refl | by left]].
  unfold getTherapistById.
  destruct (find_ _ therapists) as [therapist|] eqn:Eft;
    [|split; [apply sameButTherapist_refl | by left]].
  destruct (negb (meetsRequirements client therapist)) eqn:Em;
    [|split; [apply sameButTherapist_refl | by left]].
  match goal with |- context [find_ ?p ?l] => destruct (find_ p l) as [t|] eqn:E end;
    [|split; [apply sameButTherapist_refl | by left]].
  apply find_Some_elem in E as [Ht Hv].
  apply elem_of_filter_list in Ht as [Ht _].
  split; [apply sameButTherapist_with_therapist, sameButTherapist_refl|]. right.
  split; [|split; [by apply valid_no_credential_mismatch in Hv | by exists t]].
  unfold hasCredentialMismatch. by rewrite Ec, Efc, Eft.
Qed.

(** X3: [fixCredentialIssues] keeps every entry in its place and changes at
    most its therapist.  It changes an entry only when the kernel's test
    [hasCredentialMismatch] holds of it, and then the entry it returns names a
    therapist of the list and fails that test. *)
Theorem fixCredentialIssues_frame (schedule : GeneratedSchedule)
    (clients : list Client) (therapists : list Therapist)
    (selectedDate : JsDate) (callouts : list Callout) :
  Forall2 (fun e e' =>
     sameButTherapist e e' /\
     (e' = e \/
      hasCredentialMismatch e clients therapists = true /\
      hasCredentialMismatch e' clients therapists = false /\
      exists t, t ∈ therapists /\ e' = with_therapist e t))
    schedule (fixCredentialIssues schedule clients therapists selectedDate callouts).
Proof.
  unfold fixCredentialIssues.
  destruct (zipper_Forall2
              (fixCredentialEntry clients therapists selectedDate callouts)
              (fixCredentialFrom clients therapists selectedDate callouts)
              (fun e e' =>
                 sameButTherapist e e' /\
                 (e' = e \/
                  hasCredentialMismatch e clients therapists = true /\
                  hasCredentialMismatch e' clients therapists = false /\
                  exists t, t ∈ therapists /\ e' = with_therapist e t))
              (fun _ => eq_refl) (fun _ _ _ => eq_refl)
              (fun s e => fixCredentialEntry_frame clients therapists selectedDate
                            callouts s e)
              [] schedule) as (out & E & F).
  by rewrite E.
Qed.

Lemma fixTeamEntry_frame clients therapists now schedule entry :
  let entry' := fixTeamEntry clients therapists now schedule entry in
  sameButTherapist entry entry' /\
  (entry' = entry \/
   exists client therapist t,
     find_ (fun c => opt_is (clientId entry) (cl_id c)) clients = Some client /\
     getTherapistById therapists (therapistId entry) = Some therapist /\
     truthy (cl_teamId client) = true /\ truthy (th_teamId therapist) = true /\
     cl_teamId client <> th_teamId therapist /\
     t ∈ therapists /\ th_teamId t = cl_teamId client /\
     meetsRequirements client t = true /\
     entry' = with_therapist entry t).
Proof.
  cbv zeta. unfold fixTeamEntry.
  destruct (negb (truthy (clientId entry))) eqn:Ec;
    [split; [apply sameButTherapist_refl | by left]|].
  destruct (find_ _ clients) as [client|] eqn:Efc;
    [|split; [apply sameButTherapist_refl | by left]].
  destruct (getTherapistById therapists (therapistId entry)) as [therapist|] eqn:Eft;
    [|split; [apply sameButTherapist_refl | by left]].
  destruct (truthy (cl_teamId client) && truthy (th_teamId therapist) && _) eqn:Et;
    [|split; [apply sameButTherapist_refl | by left]].
  match goal with |- context [find_ ?p ?l] => destruct (find_ p l) as [t|] eqn:E end;
    [|split; [apply sameButTherapist_refl | by left]].
  apply find_Some_elem in E as [Ht _].
  apply elem_of_filter_list in Ht as [Ht Hq].
  apply andb_true_iff in Hq as [Hq1 Hq2]. unfold opt_eqb in Hq1.
  apply bool_decide_eq_true in Hq1.
  apply andb_true_iff in Et as [Et Et3]. apply andb_true_iff in Et as [Et1 Et2].
  apply negb_true_iff in Et3. unfold opt_eqb in Et3. apply bool_decide_eq_false in Et3.
  split; [apply sameButTherapist_with_therapist, sameButTherapist_refl|]. right.
  exists client, therapist, t. done.
Qed.

(** X4: [fixTeamAlignmentIssues] always returns, keeps every entry in its
    place and changes at most its therapist.  It changes an entry only when
    the client of the entry and its therapist both have a team and the two
    teams differ, and then the new therapist is one of the list who is on the
    client's team and meets the client's insurance requirements. *)
Theorem fixTeamAlignmentIssues_frame (schedule : GeneratedSchedule)
    (clients : list Client) (therapists : list Therapist) (o : Oracle) :
  exists out,
    fixTeamAlignmentIssues schedule clients therapists o = Some (out, o) /\
    Forall2 (fun e e' =>
       sameButTherapist e e' /\
       (e' = e \/
        exists client therapist t,
          find_ (fun c => opt_is (clientId e) (cl_id c)) clients = Some client /\
          getTherapistById therapists (therapistId e) = Some therapist /\
          truthy (cl_teamId client) = true /\ truthy (th_teamId therapist) = true /\
          cl_teamId client <> th_teamId therapist /\
          t ∈ therapists /\ th_teamId t = cl_teamId client /\
          meetsRequirements client t = true /\
          e' = with_therapist e t))
      schedule out.
Proof.
  unfold fixTeamAlignmentIssues, bind, newDate, ret.
  destruct (zipper_Forall2
              (fixTeamEntry clients therapists (today o))
              (fixTeamFrom clients therapists (today o))
              (fun e e' =>
                 sameButTherapist e e' /\
                 (e' = e \/
                  exists client therapist t,
                    find_ (fun c => opt_is (clientId e) (cl_id c)) clients = Some client /\
                    getTherapistById therapists (therapistId e) = Some therapist /\
                    truthy (cl_teamId client) = true /\
                    truthy (th_teamId therapist) = true /\
                    cl_teamId client <> th_teamId therapist /\
                    t ∈ therapists /\ th_teamId t = cl_teamId client /\
                    meetsRequirements client t = true /\
                    e' = with_therapist e t))
              (fun _ => eq_refl) (fun _ _ _ => eq_refl)
              (fun s e => fixTeamEntry_frame clients therapists (today o) s e)
              [] schedule) as (out & E & F).
  exists out. split; [by rewrite E | done].
Qed.

(** * The coverage-gap fill *)

(** ** What the coverage-gap fill adds *)

(** A fold in a computation, with an invariant on the state and the oracle. *)
Lemma foldM_invariant {A St} (f : St -> A -> M St) (Inv : St -> Oracle -> Prop)
    (xs : list A) :
  (forall st x o, x ∈ xs -> Inv st o -> exists st' o', f st x o = Some (st', o') /\ Inv st' o') ->
  forall st o, Inv st o -> exists st' o', foldM f xs st o = Some (st', o') /\ Inv st' o'.
Proof.
  induction xs as [|x r IH]; intros Hf st o Hst.
  - exists st, o. done.
  - destruct (Hf st x o (list_elem_of_here _ _) Hst) as (st1 & o1 & E1 & H1).
    destruct (IH (fun st x o Hx => Hf st x o (list_elem_of_further _ _ _ Hx)) st1 o1 H1)
      as (st' & o' & E' & H').
    exists st', o'. split; [|done]. cbn [foldM]. unfold bind. by rewrite E1.
Qed.

(** The ranges that remain lie within the range they were cut from. *)
Lemma remains_inside b g p :
  p ∈ remains b g -> r_start g <= r_start p /\ r_end p <= r_end g.
Proof.
  intros Hp. apply elem_of_remains in Hp as [[-> _]|[[-> H]|[-> H]]]; simpl; lia.
Qed.

Lemma subtractBusy_inside lo hi b ranges :
  Forall (fun g => lo <= r_start g /\ r_end g <= hi) ranges ->
  Forall (fun g => lo <= r_start g /\ r_end g <= hi) (subtractBusy b ranges).
Proof.
  intros H. apply Forall_forall. intros p Hp.
  rewrite subtractBusy_flat_map in Hp.
  apply list_elem_of_In, in_flat_map in Hp as (g & Hg & Hp).
  apply list_elem_of_In in Hg, Hp.
  destruct (proj1 (Forall_forall _ _) H g Hg) as [? ?]. apply remains_inside in Hp. lia.
Qed.

Lemma coverage_gap_inside schedule cid callouts d g :
  g ∈ getClientCoverageGaps schedule cid callouts d ->
  timeToMinutes COMPANY_OPERATING_HOURS_START <= r_start g /\
  r_start g < r_end g /\
  r_end g <= timeToMinutes COMPANY_OPERATING_HOURS_END.
Proof.
  unfold getClientCoverageGaps, getClientCoverageGapsIn. intros Hg.
  apply elem_of_filter_list in Hg as [Hg Hlt]. apply Z.ltb_lt in Hlt.
  match type of Hg with
  | _ ∈ fold_left _ ?busy ?init =>
      assert (H : Forall (fun g => timeToMinutes COMPANY_OPERATING_HOURS_START <= r_start g /\
                                   r_end g <= timeToMinutes COMPANY_OPERATING_HOURS_END)
                    (fold_left (fun ranges b => subtractBusy b ranges) busy init))
  end.
  { match goal with |- Forall _ (fold_left _ ?busy ?init) =>
      generalize busy; intros l;
      assert (Hi : Forall (fun g => timeToMinutes COMPANY_OPERATING_HOURS_START <= r_start g /\
                                    r_end g <= timeToMinutes COMPANY_OPERATING_HOURS_END) init)
        by (repeat constructor; simpl; lia);
      revert Hi; generalize init
    end.
    induction l as [|b l IH]; intros ranges Hr; simpl; [done|].
    apply IH. by apply subtractBusy_inside. }
  destruct (proj1 (Forall_forall _ _) H g Hg) as [? ?]. lia.
Qed.

(** The oracle after [n] more calls of [generateId]. *)
Definition afterIds (n : nat) (o : Oracle) : Oracle :=
  {| draws := draws o; drawPos := drawPos o; freshIds := freshIds o;
     idPos := (idPos o + n)%nat; today := today o |}.

Lemma afterIds_0 o : afterIds 0 o = o.
Proof. destruct o. unfold afterIds. simpl. by rewrite Nat.add_0_r. Qed.

Lemma afterId_afterIds n o : afterId (afterIds n o) = afterIds (S n) o.
Proof. unfold afterId, afterIds. simpl. f_equal. lia. Qed.

Section Appending.

Variables (schedule : GeneratedSchedule) (clients : list Client)
          (therapists : list Therapist) (day_ : DayOfWeek) (o0 : Oracle).

(** A session the fill may add. *)
Definition filler (e : ScheduleEntry) : Prop :=
  sessionType e = ABA /\ day e = day_ /\
  isSessionDurationValid e = true /\ isWithinOperatingHours e = true /\
  exists c t, c ∈ clients /\ t ∈ therapists /\ meetsRequirements c t = true /\
    clientId e = Some (cl_id c) /\ clientName e = Some (cl_name c) /\
    therapistId e = th_id t /\ therapistName e = th_name t.

Definition Appended (st : GeneratedSchedule * AvailabilityTracker) (o : Oracle) : Prop :=
  exists added,
    fst st = schedule ++ added /\ o = afterIds (length added) o0 /\
    map id added = map (freshIds o0) (seq (idPos o0) (length added)) /\
    Forall filler added.

Lemma Appended_add st o (e : ScheduleEntry) tr :
  Appended st o -> filler e -> id e = freshIds o (idPos o) ->
  Appended (fst st ++ [e], tr) (afterId o).
Proof.
  intros (added & E & -> & Hid & Hall) He Hi.
  exists (added ++ [e]). cbn [fst]. split; [by rewrite E, <- app_assoc|].
  rewrite length_app. simpl. split; [|split].
  - rewrite afterId_afterIds. f_equal. lia.
  - rewrite map_app, Hid. simpl. rewrite Nat.add_1_r, seq_S, map_app. simpl.
    by rewrite Hi.
  - apply Forall_app. split; [done | by constructor].
Qed.

Lemma fillGapWith_Appended client q gap lens st o :
  client ∈ clients -> Forall (fun t => t ∈ therapists /\ meetsRequirements client t = true) q ->
  timeToMinutes COMPANY_OPERATING_HOURS_START <= r_start gap ->
  Forall (fun len => 60 <= len <= 180 /\
                     r_start gap + len <= timeToMinutes COMPANY_OPERATING_HOURS_END) lens ->
  Appended st o ->
  exists st' o', fillGapWith client q day_ gap lens st o = Some (st', o') /\ Appended st' o'.
Proof.
  intros Hc Hq Hlo Hlens. destruct st as [sched tracker].
  induction lens as [|len rest IH]; intros Hst; cbn [fillGapWith].
  - by exists (sched, tracker), o.
  - apply Forall_cons in Hlens as [[Hlen Hhi] Hlens].
    match goal with |- context [find_ ?p q] => destruct (find_ p q) as [t|] eqn:E end.
    + apply find_Some_elem in E as [Ht _].
      destruct (proj1 (Forall_forall _ _) Hq t Ht) as [Ht1 Ht2].
      eexists _, _. split; [reflexivity|].
      apply (Appended_add (sched, tracker) o); [done| |done].
      unfold filler, isSessionDurationValid, isWithinOperatingHours. simpl.
      split; [done|]. split; [done|]. split; [|split].
      * apply andb_true_iff. split; apply Z.leb_le; lia.
      * apply andb_true_iff. split; apply Z.leb_le; simpl in *; lia.
      * by exists client, t.
    + by apply IH.
Qed.

Lemma fillGap_Appended client q st gap o :
  client ∈ clients -> Forall (fun t => t ∈ therapists /\ meetsRequirements client t = true) q ->
  timeToMinutes COMPANY_OPERATING_HOURS_START <= r_start gap ->
  r_end gap <= timeToMinutes COMPANY_OPERATING_HOURS_END ->
  Appended st o ->
  exists st' o', fillGap client q day_ st gap o = Some (st', o') /\ Appended st' o'.
Proof.
  intros Hc Hq Hlo Hhi Hst. unfold fillGap.
  destruct (Z.ltb_spec (r_end gap - r_start gap) 60); [by exists st, o|].
  apply fillGapWith_Appended; try done.
  apply Forall_forall. intros len Hlen. apply downFrom_spec in Hlen as [Hlen _]. lia.
Qed.

Lemma fillClientGaps_Appended d callouts st client o :
  client ∈ clients -> Appended st o ->
  exists st' o',
    fillClientGaps therapists day_ d callouts st client o = Some (st', o') /\
    Appended st' o'.
Proof.
  intros Hc Hst. unfold fillClientGaps.
  apply (foldM_invariant _ Appended); [|done].
  intros st1 gap o1 Hgap H1. apply coverage_gap_inside in Hgap.
  apply fillGap_Appended; try done; try lia.
  apply Forall_forall. intros t Ht. by apply elem_of_filter_list in Ht.
Qed.

End Appending.

(** X5: [fixClientCoverageGaps] always returns, and only appends.  It draws
    no random number and one id for each entry it adds; an added entry is an
    ABA session on the day asked for, 60 to 180 minutes long, within the
    operating hours, for a client of the list with a therapist of the list
    who meets the client's insurance requirements. *)
Theorem fixClientCoverageGaps_appends (schedule : GeneratedSchedule)
    (clients : list Client) (therapists : list Therapist) (day_ : DayOfWeek)
    (selectedDate : JsDate) (callouts : list Callout) (o : Oracle) :
  exists added,
    fixClientCoverageGaps schedule clients therapists day_ selectedDate callouts o
      = Some (schedule ++ added,
              {| draws := draws o; drawPos := drawPos o; freshIds := freshIds o;
                 idPos := (idPos o + length added)%nat; today := today o |}) /\
    map id added = map (freshIds o) (seq (idPos o) (length added)) /\
    Forall (fun e =>
       sessionType e = ABA /\ day e = day_ /\
       isSessionDurationValid e = true /\ isWithinOperatingHours e = true /\
       exists c t, c ∈ clients /\ t ∈ therapists /\ meetsRequirements c t = true /\
         clientId e = Some (cl_id c) /\ clientName e = Some (cl_name c) /\
         therapistId e = th_id t /\ therapistName e = th_name t) added.
Proof.
  unfold fixClientCoverageGaps.
  destruct (foldM_invariant (fillClientGaps therapists day_ selectedDate callouts)
              (Appended schedule clients therapists day_ o) clients)
    with (st := (schedule, newTracker schedule callouts selectedDate)) (o := o)
    as (st' & o' & E & (added & Hst & -> & Hid & Hall)).
  - intros st x o1 Hx H1. by apply fillClientGaps_Appended.
  - exists []. simpl. rewrite app_nil_r, afterIds_0. repeat split; constructor.
  - exists added. unfold bind. rewrite E. cbn [fst ret]. rewrite Hst. done.
Qed.

(** * The back-to-back shift *)

(** ** What the back-to-back shift returns *)

Section Shift.

Variables (schedule : GeneratedSchedule) (day_ : DayOfWeek).

(** An entry of the result: a client session of the input, as it was or moved
    as a whole by a quarter of an hour, within the operating window. *)
Definition shifted (e' : ScheduleEntry) : Prop :=
  exists e, e ∈ schedule /\ truthy (clientId e) = true /\
    (e' = e \/
     (e' = with_times e (minutesToTime (timeToMinutes (startTime e) + 15))
                        (minutesToTime (timeToMinutes (endTime e) + 15)) /\
      timeToMinutes (endTime e) + 15 <= timeToMinutes COMPANY_OPERATING_HOURS_END) \/
     (e' = with_times e (minutesToTime (timeToMinutes (startTime e) - 15))
                        (minutesToTime (timeToMinutes (endTime e) - 15)) /\
      timeToMinutes COMPANY_OPERATING_HOURS_START <= timeToMinutes (startTime e) - 15)).

Definition source (e : ScheduleEntry) : Prop :=
  e ∈ schedule /\ truthy (clientId e) = true.

(** One more entry is owed when the last session visited is not in the
    result: the next round may still put it there. *)
Definition owed (fixedSchedule : GeneratedSchedule) (prev : option ScheduleEntry) : nat :=
  match prev with
  | Some p =>
      match findIndex (fun e => str_eqb (id e) (id p)) fixedSchedule with
      | Some _ => 0
      | None => 1
      end
  | None => 0
  end.

Lemma findIndex_app_Some {A} (p : A -> bool) (l1 l2 : list A) (x : A) :
  p x = true -> x ∈ l2 -> exists i, findIndex p (l1 ++ l2) = Some i.
Proof.
  intros Hp Hx. destruct (findIndex p (l1 ++ l2)) as [i|] eqn:E; [by exists i|].
  assert (Hin : x ∈ l1 ++ l2) by (apply elem_of_app; by right).
  rewrite (findIndex_None p (l1 ++ l2) x E Hin) in Hp. done.
Qed.

Lemma owed_last fixedSchedule (x cur : ScheduleEntry) :
  id x = id cur -> owed (fixedSchedule ++ [x]) (Some cur) = 0%nat.
Proof.
  intros Hi. unfold owed.
  destruct (findIndex_app_Some (fun e => str_eqb (id e) (id cur)) fixedSchedule [x] x)
    as (i & ->); [|apply list_elem_of_here|done].
  unfold str_eqb. by apply bool_decide_eq_true.
Qed.

Lemma owed_le fixedSchedule prev : (owed fixedSchedule prev <= 1)%nat.
Proof. unfold owed. destruct prev; [|lia]. destruct (findIndex _ _); lia. Qed.

Lemma fixBackToBackStep_inv tid fixedSchedule prev current (k : nat) :
  Forall shifted fixedSchedule -> source current ->
  match prev with Some p => source p | None => True end ->
  (length fixedSchedule + owed fixedSchedule prev <= k)%nat ->
  let fixed' := fixBackToBackStep day_ tid fixedSchedule prev current in
  Forall shifted fixed' /\
  (length fixed' + owed fixed' (Some current) <= S k)%nat.
Proof.
  intros Hall [Hc1 Hc2] Hp Hk. cbv zeta.
  assert (Hself : shifted current) by (exists current; split; [done|]; split; [done | by left]).
  assert (Hpush : Forall shifted (fixedSchedule ++ [current]) /\
                  (length (fixedSchedule ++ [current])
                   + owed (fixedSchedule ++ [current]) (Some current) <= S k)%nat).
  { split; [apply Forall_app; split; [done | by constructor]|].
    rewrite owed_last by done. rewrite length_app. simpl. lia. }
  unfold fixBackToBackStep. destruct prev as [p|]; [|exact Hpush].
  destruct Hp as [Hp1 Hp2].
  destruct (opt_eqb (clientId p) (clientId current) && _) eqn:Hb2b; [|exact Hpush].
  apply andb_true_iff in Hb2b as [_ Htouch]. apply bool_decide_eq_true in Htouch.
  match goal with |- context [if ?c then fixedSchedule ++ [with_times current _ _] else _] =>
    destruct c eqn:Hlater end.
  - apply andb_true_iff in Hlater as [Hend _]. apply Z.leb_le in Hend.
    split.
    + apply Forall_app. split; [done|]. constructor; [|done].
      exists current. split; [done|]. split; [done|]. right. left.
      rewrite Htouch in Hend |- *. split; [|lia].
      f_equal; f_equal; lia.
    + rewrite owed_last by done. rewrite length_app. simpl. lia.
  - match goal with |- context [if ?c then match findIndex _ _ with _ => _ end else _] =>
      destruct c eqn:Hearlier end.
    + apply andb_true_iff in Hearlier as [Hstart _]. apply Z.leb_le in Hstart.
      assert (Hmoved : shifted
                (with_times p
                   (minutesToTime (timeToMinutes (startTime current) - 15
                                   - (timeToMinutes (endTime p) - timeToMinutes (startTime p))))
                   (minutesToTime (timeToMinutes (startTime current) - 15)))).
      { exists p. split; [done|]. split; [done|]. right. right.
        rewrite <- Htouch in Hstart |- *. split; [|lia].
        f_equal; f_equal; lia. }
      destruct (findIndex (fun e => str_eqb (id e) (id p)) fixedSchedule) as [i|] eqn:Ei.
      * split.
        -- apply Forall_app. split; [|by constructor].
           apply Forall_insert; done.
        -- rewrite owed_last by done. rewrite length_app, length_insert. simpl. lia.
      * split.
        -- apply Forall_app. split; [done|]. constructor; [done|]. by constructor.
        -- unfold owed in Hk. rewrite Ei in Hk.
           rewrite (app_assoc fixedSchedule [_] [current]), owed_last by done.
           rewrite !length_app. simpl. lia.
    + split; [done|]. pose proof (owed_le fixedSchedule (Some current)). lia.
Qed.

Lemma fixBackToBackSessions_inv tid sessions fixedSchedule prev (k : nat) :
  Forall shifted fixedSchedule -> Forall source sessions ->
  match prev with Some p => source p | None => True end ->
  (length fixedSchedule + owed fixedSchedule prev <= k)%nat ->
  let fixed' := fixBackToBackSessions day_ tid fixedSchedule prev sessions in
  Forall shifted fixed' /\ (length fixed' <= k + length sessions)%nat.
Proof.
  revert fixedSchedule prev k.
  induction sessions as [|current rest IH]; intros fixedSchedule prev k Hall Hs Hp Hk; simpl.
  - split; [done | lia].
  - apply Forall_cons in Hs as [Hc Hs].
    destruct (fixBackToBackStep_inv tid fixedSchedule prev current k Hall Hc Hp Hk)
      as [Hall' Hk'].
    destruct (IH _ (Some current) (S k) Hall' Hs Hc Hk') as [H1 H2].
    split; [done | lia].
Qed.

Lemma groups_inv (sessions : list ScheduleEntry) (ts : list string)
    (fixedSchedule : GeneratedSchedule) :
  Forall source sessions -> Forall shifted fixedSchedule ->
  let fixed' :=
    fold_left (fun fixedSchedule '(therapistId_, sessions) =>
                 fixBackToBackSessions day_ therapistId_ fixedSchedule None
                   (sortByZ byStart sessions))
              (map (fun t => (t, List.filter (fun s => str_eqb (therapistId s) t) sessions)) ts)
              fixedSchedule in
  Forall shifted fixed' /\
  (length fixed' <= length fixedSchedule
     + length (flat_map (fun t => List.filter (fun s => bool_decide (therapistId s = t))
                                              sessions) ts))%nat.
Proof.
  intros Hsrc. revert fixedSchedule.
  induction ts as [|t ts IH]; intros fixedSchedule Hall; simpl.
  - split; [done | lia].
  - assert (Hgroup : Forall source
              (sortByZ byStart (List.filter (fun s => str_eqb (therapistId s) t) sessions))).
    { apply Forall_forall. intros s Hs. unfold sortByZ in Hs.
      apply elem_of_sortBy, elem_of_filter_list in Hs as [Hs _].
      by apply (proj1 (Forall_forall _ _) Hsrc). }
    destruct (fixBackToBackSessions_inv t _ fixedSchedule None (length fixedSchedule)
                Hall Hgroup I) as [H1 H2]; [simpl; lia|].
    destruct (IH _ H1) as [H3 H4]. split; [done|].
    rewrite length_app. cbv zeta in H4.
    assert (Hl : length (sortByZ byStart
                   (List.filter (fun s => str_eqb (therapistId s) t) sessions))
                 = length (List.filter (fun s => bool_decide (therapistId s = t)) sessions))
      by (by rewrite (Permutation_length (sortByZ_Permutation _ _))).
    lia.
Qed.

End Shift.

(** X6: [fixSameClientBackToBackIssues] returns the entries without a client
    as they are, in their order and after all others.  Before them come client
    sessions of the input, each as it was or moved as a whole by fifteen
    minutes: later, to end within the operating hours, or earlier, to start
    within them.  The result never has more entries than the input. *)
Theorem fixSameClientBackToBackIssues_frame (schedule : GeneratedSchedule)
    (clients : list Client) (therapists : list Therapist) (day_ : DayOfWeek)
    (selectedDate : JsDate) (callouts : list Callout) :
  exists fixed,
    fixSameClientBackToBackIssues schedule clients therapists day_ selectedDate callouts
      = fixed ++ List.filter (fun e => negb (truthy (clientId e))) schedule /\
    (length fixed <= length (List.filter (fun e => truthy (clientId e)) schedule))%nat /\
    Forall (fun e' =>
      exists e, e ∈ schedule /\ truthy (clientId e) = true /\
        (e' = e \/
         (e' = with_times e (minutesToTime (timeToMinutes (startTime e) + 15))
                            (minutesToTime (timeToMinutes (endTime e) + 15)) /\
          timeToMinutes (endTime e) + 15 <= timeToMinutes COMPANY_OPERATING_HOURS_END) \/
         (e' = with_times e (minutesToTime (timeToMinutes (startTime e) - 15))
                            (minutesToTime (timeToMinutes (endTime e) - 15)) /\
          timeToMinutes COMPANY_OPERATING_HOURS_START <= timeToMinutes (startTime e) - 15)))
      fixed.
Proof.
  unfold fixSameClientBackToBackIssues. eexists. split; [reflexivity|].
  set (clientSessions := List.filter (fun e => truthy (clientId e)) schedule).
  assert (Hsrc : Forall (source schedule) clientSessions).
  { apply Forall_forall. intros e He. by apply elem_of_filter_list in He. }
  destruct (groups_inv schedule day_ clientSessions (uniq (map therapistId clientSessions))
              [] Hsrc (Forall_nil_2 _)) as [H1 H2].
  split; [|exact H1].
  unfold groupByTherapist. etrans; [exact H2|]. simpl.
  apply Nat.eq_le_incl, Permutation_length.
  apply (partition_by_key therapistId); [apply NoDup_uniq|].
  intros x Hx. apply elem_of_uniq, list_elem_of_In, in_map, list_elem_of_In, Hx.
Qed.

(** * Local search *)

(** ** Local search *)

(** Exchanging two elements of a list rearranges it. *)
Lemma insert_other_Permutation {A} (l : list A) (j : nat) (a b : A) :
  l !! j = Some b -> b :: <[ j := a ]> l ≡ₚ a :: l.
Proof.
  revert j. induction l as [|y r IH]; intros j; [done|].
  destruct j as [|k]; simpl.
  - intros [= ->]. apply Permutation_swap.
  - intros H. rewrite (Permutation_swap y b), (IH k H). apply Permutation_swap.
Qed.

Lemma exchange_Permutation {A} (l : list A) (i j : nat) (a b : A) :
  i <> j -> l !! i = Some a -> l !! j = Some b ->
  <[ j := a ]> (<[ i := b ]> l) ≡ₚ l.
Proof.
  revert i j. induction l as [|y r IH]; intros i j Hij Hi Hj; [done|].
  destruct i as [|i], j as [|j]; simpl in *; try done.
  - injection Hi as ->. by apply insert_other_Permutation.
  - injection Hj as ->. by apply insert_other_Permutation.
  - f_equiv. apply IH; [lia | done | done].
Qed.

Section LocalSearch.

Variable Math_log2 : Z -> Q.
Variables (clients : list Client) (therapists : list Therapist)
          (selectedDate : JsDate) (callouts : list Callout).

#[local] Abbreviation fitnessOf s :=
  (calculateFitness Math_log2 s clients therapists selectedDate callouts).

(** The therapist of every client entry is in the list. *)
Definition staffed (schedule : GeneratedSchedule) : Prop :=
  forall e, e ∈ schedule -> truthy (clientId e) = true ->
    getTherapistById therapists (therapistId e) <> None.

(** What a sequence of exchanges leaves of a schedule. *)
Definition exchanged (schedule out : GeneratedSchedule) : Prop :=
  Forall2 sameButTherapist schedule out /\
  map therapistId out ≡ₚ map therapistId schedule.

Lemma exchanged_refl schedule : exchanged schedule schedule.
Proof.
  split; [|done]. apply Forall_Forall2_diag, Forall_forall.
  intros e _. apply sameButTherapist_refl.
Qed.

Lemma sameButTherapist_trans e1 e2 e3 :
  sameButTherapist e1 e2 -> sameButTherapist e2 e3 -> sameButTherapist e1 e3.
Proof.
  unfold sameButTherapist. intros (?&?&?&?&?&?&?) (?&?&?&?&?&?&?).
  repeat split; congruence.
Qed.

Lemma exchanged_trans s1 s2 s3 : exchanged s1 s2 -> exchanged s2 s3 -> exchanged s1 s3.
Proof.
  intros [F1 P1] [F2 P2]. split; [|by rewrite P2].
  clear P1 P2. revert s3 F2. induction F1 as [|a b l1 l2 Hab F1 IH]; intros s3 F2.
  - by inversion F2.
  - inversion F2 as [|? c ? l3 Hbc F3]; subst. constructor.
    + by eapply sameButTherapist_trans.
    + by apply IH.
Qed.

Lemma swapTherapists_spec schedule i j entry1 entry2 o :
  i <> j -> schedule !! i = Some entry1 -> schedule !! j = Some entry2 ->
  truthy (clientId entry1) = true -> truthy (clientId entry2) = true ->
  staffed schedule ->
  exists test, swapTherapists therapists schedule i j entry1 entry2 o = Some (test, o) /\
    exchanged schedule test /\ staffed test.
Proof.
  intros Hij Hi Hj Hc1 Hc2 Hst. unfold swapTherapists.
  assert (H1 : entry1 ∈ schedule) by (by eapply list_elem_of_lookup_2).
  assert (H2 : entry2 ∈ schedule) by (by eapply list_elem_of_lookup_2).
  destruct (getTherapistById therapists (therapistId entry2)) as [t2|] eqn:E2;
    [|by destruct (Hst entry2 H2 Hc2)].
  destruct (getTherapistById therapists (therapistId entry1)) as [t1|] eqn:E1;
    [|by destruct (Hst entry1 H1 Hc1)].
  eexists. split; [reflexivity|].
  set (e1' := {| id := id entry1; therapistId := therapistId entry2 |}).
  set (e2' := {| id := id entry2; therapistId := therapistId entry1 |}).
  split; [split|].
  - apply Forall2_same_length_lookup_2; [by rewrite !length_insert|].
    intros k x y Hx Hy.
    destruct (decide (k = j)) as [->|Hkj].
    + rewrite list_lookup_insert_eq in Hy
        by (rewrite length_insert; by eapply lookup_lt_Some).
      injection Hy as <-. rewrite Hj in Hx. injection Hx as <-.
      unfold sameButTherapist. done.
    + rewrite list_lookup_insert_ne in Hy by done.
      destruct (decide (k = i)) as [->|Hki].
      * rewrite list_lookup_insert_eq in Hy by (by eapply lookup_lt_Some).
        injection Hy as <-. rewrite Hi in Hx. injection Hx as <-.
        unfold sameButTherapist. done.
      * rewrite list_lookup_insert_ne in Hy by done.
        rewrite Hx in Hy. injection Hy as <-. apply sameButTherapist_refl.
  - rewrite !list_fmap_insert. simpl.
    apply exchange_Permutation; [done | |]; rewrite list_lookup_fmap.
    + by rewrite Hi.
    + by rewrite Hj.
  - intros e He Hc.
    apply list_elem_of_lookup in He as [k Hk].
    destruct (decide (k = j)) as [->|Hkj].
    + rewrite list_lookup_insert_eq in Hk
        by (rewrite length_insert; by eapply lookup_lt_Some).
      injection Hk as <-. simpl. by rewrite E1.
    + rewrite list_lookup_insert_ne in Hk by done.
      destruct (decide (k = i)) as [->|Hki].
      * rewrite list_lookup_insert_eq in Hk by (by eapply lookup_lt_Some).
        injection Hk as <-. simpl. by rewrite E2.
      * rewrite list_lookup_insert_ne in Hk by done.
        apply Hst; [by eapply list_elem_of_lookup_2 | done].
Qed.

Lemma elem_of_indexPairs n i j : (i, j) ∈ indexPairs n -> i <> j.
Proof.
  unfold indexPairs. intros H.
  apply list_elem_of_In, in_flat_map in H as (i' & _ & H).
  apply in_map_iff in H as (j' & [= <- <-] & Hj). apply in_seq in Hj. lia.
Qed.

Lemma firstImprovement_spec schedule current pairs o :
  staffed schedule -> Forall (fun ij => fst ij <> snd ij) pairs ->
  exists found,
    firstImprovement Math_log2 clients therapists selectedDate callouts
      schedule current pairs o = Some (found, o) /\
    match found with
    | Some (test, testFitness) =>
        exchanged schedule test /\ staffed test /\
        testFitness = fitnessOf test /\ (testFitness < current)%Q
    | None => True
    end.
Proof.
  intros Hst. induction pairs as [|[i j] rest IH]; intros Hp; cbn [firstImprovement].
  - by exists None.
  - apply Forall_cons in Hp as [Hij Hp]. simpl in Hij. specialize (IH Hp).
    destruct (schedule !! i) as [entry1|] eqn:Ei; [|exact IH].
    destruct (schedule !! j) as [entry2|] eqn:Ej; [|exact IH].
    destruct (truthy (clientId entry1) && truthy (clientId entry2) && _) eqn:Hc; [|exact IH].
    apply andb_true_iff in Hc as [Hc _]. apply andb_true_iff in Hc as [Hc1 Hc2].
    destruct (swapTherapists_spec schedule i j entry1 entry2 o Hij Ei Ej Hc1 Hc2 Hst)
      as (test & E & Hex & Hst').
    unfold bind. rewrite E.
    destruct (Qltb (fitnessOf test) current) eqn:Hlt; [|exact IH].
    exists (Some (test, fitnessOf test)). split; [done|].
    apply Qltb_lt in Hlt. done.
Qed.

Lemma localSearchLoop_spec n schedule o :
  staffed schedule ->
  exists out,
    localSearchLoop Math_log2 clients therapists selectedDate callouts n
      schedule (fitnessOf schedule) o = Some (out, o) /\
    exchanged schedule out /\
    (out = schedule \/ (fitnessOf out < fitnessOf schedule)%Q).
Proof.
  revert schedule. induction n as [|n IH]; intros schedule Hst; cbn [localSearchLoop].
  - exists schedule. split; [done|]. split; [apply exchanged_refl | by left].
  - destruct (firstImprovement_spec schedule (fitnessOf schedule)
                (indexPairs (length schedule)) o Hst) as (found & E & Hf).
    { apply Forall_forall. intros [i j] Hij. simpl. by eapply elem_of_indexPairs. }
    unfold bind. rewrite E. destruct found as [[test testFitness]|].
    + destruct Hf as (Hex & Hst' & -> & Hlt).
      destruct (IH test Hst') as (out & E' & Hex' & Hout).
      exists out. split; [done|]. split; [by eapply exchanged_trans|]. right.
      destruct Hout as [->|Hout]; [done|]. by eapply Qlt_trans.
    + exists schedule. split; [done|]. split; [apply exchanged_refl | by left].
Qed.

(** X7: when the therapist of every entry with a client is in the list,
    [localSearchImprovement] returns, without a draw.  The entries of the
    result are those of the input, in their places, up to their therapists,
    and the therapists named are the same, as many times each.  The result is
    the input itself, or a schedule of strictly lower fitness. *)
Theorem localSearchImprovement_improves (schedule : GeneratedSchedule)
    (maxIterations : nat) (o : Oracle) :
  (forall e, e ∈ schedule -> truthy (clientId e) = true ->
     getTherapistById therapists (therapistId e) <> None) ->
  exists out,
    localSearchImprovement Math_log2 schedule clients therapists selectedDate callouts
      maxIterations o = Some (out, o) /\
    Forall2 sameButTherapist schedule out /\
    map therapistId out ≡ₚ map therapistId schedule /\
    (out = schedule \/ (fitnessOf out < fitnessOf schedule)%Q).
Proof.
  intros Hst. unfold localSearchImprovement, cloneSchedule.
  destruct (localSearchLoop_spec maxIterations schedule o Hst) as (out & E & [H1 H2] & H3).
  by exists out.
Qed.

End LocalSearch.

(** The theorem at two sessions whose therapists are better exchanged: the
    client of the first needs a qualification that only the therapist of the
    second has. *)
Lemma localSearchImprovement_improves_witness :
  let th i q := {| th_id := i; th_name := i; th_role := "RBT"; th_teamId := None;
                   qualifications := q; canProvideAlliedHealth := [] |} in
  let cl i r := {| cl_id := i; cl_name := i; cl_teamId := None;
                   insuranceRequirements := r; alliedHealthNeeds := [] |} in
  let e i c t a b := mkEntry i (Some c) (Some c) t t THURSDAY
                       {| mins := a; half := false |} {| mins := b; half := false |} ABA in
  let schedule := [e "a" "c1" "t2" 480 540; e "b" "c2" "t1" 480 540]%string in
  let clients := [cl "c1" ["CPR"]; cl "c2" []]%string in
  let therapists := [th "t1" ["CPR"]; th "t2" []]%string in
  let o := {| draws := fun _ => 0; drawPos := 0; freshIds := fun _ => "x"%string;
              idPos := 0; today := {| dayNumber := 0 |} |} in
  exists out,
    localSearchImprovement (fun _ => 0%Q) schedule clients therapists {| dayNumber := 0 |} []
      30 o = Some (out, o) /\
    map therapistId out = ["t1"; "t2"]%string.
Proof.
  intros th cl e schedule clients therapists o.
  destruct (localSearchImprovement_improves (fun _ => 0%Q) clients therapists
              {| dayNumber := 0 |} [] schedule 30 o) as (out & E & _).
  - intros x Hx _.
    repeat (apply elem_of_cons in Hx as [->|Hx]; [vm_compute; discriminate|]).
    by apply elem_of_nil in Hx.
  - exists out. split; [exact E|].
    assert (Hout : match localSearchImprovement (fun _ => 0%Q) schedule clients therapists
                           {| dayNumber := 0 |} [] 30 o with
                   | Some (out, _) => map therapistId out
                   | None => []
                   end = ["t1"; "t2"]%string) by (vm_compute; reflexivity).
    set (r := localSearchImprovement _ _ _ _ _ _ _ _) in E, Hout.
    clearbody r. subst r. exact Hout.
Defined.

(** * Selection and elitism *)

(** ** Selection *)

Lemma Qltb_ge (x y : Q) : Qltb x y = false <-> (y <= x)%Q.
Proof.
  unfold Qltb. rewrite negb_false_iff. apply Qle_bool_iff.
Qed.

Lemma randomIndividual_empty o : randomIndividual [] o = None.
Proof. reflexivity. Qed.

(** The rounds of a tournament: [drawn] are the individuals drawn, the best
    on record afterwards is the first of the least fitness among the best
    before and those drawn. *)
Lemma tournament_rounds (population_ : list Individual) (n : nat)
    (best : option Individual) (o : Oracle) :
  population_ <> [] ->
  exists drawn best' o',
    repeatM n (tournamentRound population_) best o = Some (best', o') /\
    length drawn = n /\ Forall (fun c => c ∈ population_) drawn /\
    match best' with
    | Some b' =>
        (b' ∈ drawn \/ best = Some b') /\
        Forall (fun c => (fitness b' <= fitness c)%Q) drawn /\
        (forall b, best = Some b -> (fitness b' <= fitness b)%Q)
    | None => n = 0%nat /\ best = None
    end.
Proof.
  intros Hne. revert best o. induction n as [|n IH]; intros best o.
  - exists [], best, o. split; [done|]. split; [done|]. split; [constructor|].
    destruct best as [b|]; [|done].
    split; [by right|]. split; [constructor|]. intros b' [= <-]. apply Qle_refl.
  - destruct (randomIndividual_member population_ Hne o) as (c & Hc & Hin).
    set (next := match best with
                 | None => c
                 | Some b => if Qltb (fitness c) (fitness b) then c else b
                 end).
    assert (Hround : tournamentRound population_ best o = Some (Some next, afterDraw o)).
    { unfold tournamentRound, bind. rewrite Hc. unfold next. destruct best as [b|]; [|done].
      by destruct (Qltb _ _). }
    assert (Hnext : (next = c \/ best = Some next) /\ (fitness next <= fitness c)%Q /\
                    (forall b, best = Some b -> (fitness next <= fitness b)%Q)).
    { unfold next. destruct best as [b|].
      - destruct (Qltb (fitness c) (fitness b)) eqn:E.
        + apply Qltb_lt in E. split; [by left|]. split; [apply Qle_refl|].
          intros b' [= <-]. by apply Qlt_le_weak.
        + apply Qltb_ge in E. split; [by right|]. split; [done|].
          intros b' [= <-]. apply Qle_refl.
      - split; [by left|]. split; [apply Qle_refl | done]. }
    destruct Hnext as (Hn1 & Hn2 & Hn3).
    destruct (IH (Some next) (afterDraw o)) as (drawn & best' & o' & E & Hlen & Hall & Hb).
    exists (c :: drawn), best', o'. split.
    { cbn [repeatM]. unfold bind. by rewrite Hround. }
    split; [simpl; by rewrite Hlen|]. split; [by constructor|].
    destruct best' as [b'|]; [|by destruct Hb as [_ ?]].
    destruct Hb as (Hb1 & Hb2 & Hb3). specialize (Hb3 next eq_refl).
    split; [|split].
    + destruct Hb1 as [Hb1|[= <-]]; [left; by apply list_elem_of_further|].
      destruct Hn1 as [->|Hn1]; [left; apply list_elem_of_here | by right].
    + constructor; [by eapply Qle_trans | done].
    + intros b Hbest. eapply Qle_trans; [exact Hb3 | by apply Hn3].
Qed.

(** X8: on a population that is not empty [diversityPreservingSelection]
    returns the schedule of one of its individuals: after a first draw below
    0.3 the individual of one more draw; otherwise one of five individuals
    drawn, of a fitness not above that of the others.  On the empty
    population it throws. *)
Theorem diversityPreservingSelection_member (population_ : list Individual) (o : Oracle) :
  (population_ <> [] ->
   exists chosen o',
     diversityPreservingSelection population_ o = Some (ind_schedule chosen, o') /\
     chosen ∈ population_ /\
     (Qltb (nextRandom o) (3 # 10) = true /\ o' = afterDraw (afterDraw o) \/
      Qltb (nextRandom o) (3 # 10) = false /\
      exists drawn, length drawn = 5%nat /\ Forall (fun c => c ∈ population_) drawn /\
        chosen ∈ drawn /\ Forall (fun c => (fitness chosen <= fitness c)%Q) drawn)) /\
  (population_ = [] -> diversityPreservingSelection population_ o = None).
Proof.
  split.
  - intros Hne. unfold diversityPreservingSelection. unfold bind at 1. unfold random.
    destruct (Qltb (nextRandom o) (3 # 10)) eqn:Hr.
    + destruct (randomIndividual_member population_ Hne (afterDraw o)) as (c & Hc & Hin).
      exists c, (afterDraw (afterDraw o)). unfold bind. rewrite Hc.
      split; [done|]. split; [done | by left].
    + destruct (tournament_rounds population_ 5 None (afterDraw o) Hne)
        as (drawn & best & o' & E & Hlen & Hall & Hb).
      destruct best as [b|]; [|by destruct Hb as [? _]].
      destruct Hb as ([Hb1|?] & Hb2 & _); [|done].
      exists b, o'. unfold bind at 1. rewrite E. split; [done|].
      split; [exact (proj1 (Forall_forall _ _) Hall b Hb1)|]. right.
      split; [done|]. by exists drawn.
  - intros ->. unfold diversityPreservingSelection. unfold bind at 1. unfold random.
    by destruct (Qltb (nextRandom o) (3 # 10)).
Qed.

(** ** Elitism *)

Section Elitism.

Variable Math_log2 : Z -> Q.
Variables (clients : list Client) (therapists : list Therapist)
          (selectedDate : JsDate) (callouts : list Callout).

#[local] Abbreviation evaluate :=
  (evaluatePopulation Math_log2 clients therapists selectedDate callouts).
#[local] Abbreviation fitnessOf s :=
  (calculateFitness Math_log2 s clients therapists selectedDate callouts).

Lemma evaluate_elem ind population_ :
  ind ∈ evaluate population_ <->
  exists p, p ∈ population_ /\ ind = {| ind_schedule := p; fitness := fitnessOf p |}.
Proof.
  unfold evaluatePopulation. rewrite elem_of_sortBy, list_elem_of_In, in_map_iff.
  split; intros (p & H1 & H2); exists p; rewrite list_elem_of_In in *; done.
Qed.

Lemma evaluate_length population_ : length (evaluate population_) = length population_.
Proof.
  unfold evaluatePopulation.
  by rewrite (Permutation_length (sortBy_Permutation _ _)), length_map.
Qed.

(** The evaluated population is in ascending order of fitness. *)
Lemma evaluate_sorted population_ :
  StronglySorted (fun a b => (fitness a <= fitness b)%Q) (evaluate population_).
Proof.
  unfold evaluatePopulation.
  eapply StronglySorted_weaken; [|apply sortBy_StronglySorted].
  - intros a b H. cbv beta in H. by apply Qltb_ge in H.
  - intros a b H. apply Qltb_lt in H. apply Qltb_ge. by apply Qlt_le_weak.
  - intros a b c H1 H2. apply Qltb_ge in H1, H2. apply Qltb_ge. by eapply Qle_trans.
Qed.

Lemma evaluate_head_least population_ best ind :
  evaluate population_ !! 0%nat = Some best -> ind ∈ evaluate population_ ->
  (fitness best <= fitness ind)%Q.
Proof.
  intros Hb Hi. pose proof (evaluate_sorted population_) as Hs.
  destruct (evaluate population_) as [|x r]; [done|].
  injection Hb as ->. apply StronglySorted_inv in Hs as [_ Hall].
  apply elem_of_cons in Hi as [->|Hi]; [apply Qle_refl|].
  exact (proj1 (Forall_forall _ _) Hall ind Hi).
Qed.

Lemma elites_spec (popWithFitness : list Individual) (indices : list nat) o elites o' :
  mapM (fun i => let* ind := unwrap (popWithFitness !! i) in
                 ret (cloneSchedule (ind_schedule ind))) indices o = Some (elites, o') ->
  o' = o /\ Forall2 (fun i s => ind_schedule <$> popWithFitness !! i = Some s) indices elites.
Proof.
  revert elites. induction indices as [|i rest IH]; intros elites H.
  - apply ret_Some in H as [<- <-]. split; [done | constructor].
  - cbn [mapM] in H. apply bind_Some in H as (s & o1 & Hs & H).
    apply bind_Some in Hs as (ind & o2 & Hi & Hs).
    apply ret_Some in Hs as [<- <-].
    destruct (popWithFitness !! i) as [x|] eqn:Ex; [|done].
    apply ret_Some in Hi as [<- <-].
    apply bind_Some in H as (ss & o3 & Hss & H). apply ret_Some in H as [<- <-].
    destruct (IH ss Hss) as [-> HF]. split; [done|]. constructor; [|done].
    by rewrite Ex.
Qed.

Lemma breeding_length day_ (popWithFitness : list Individual) n newPop o out o' :
  repeatM n (breed clients therapists selectedDate callouts day_ popWithFitness) newPop o
    = Some (out, o') ->
  exists children, out = newPop ++ children /\ length children = n.
Proof.
  revert newPop o. induction n as [|n IH]; intros newPop o H.
  - apply ret_Some in H as [<- _]. exists []. by rewrite app_nil_r.
  - cbn [repeatM] in H. apply bind_Some in H as (pop1 & o1 & Hb & H).
    unfold breed in Hb.
    apply bind_Some in Hb as (p1 & ? & _ & Hb). apply bind_Some in Hb as (p2 & ? & _ & Hb).
    apply bind_Some in Hb as (c1 & ? & _ & Hb). apply bind_Some in Hb as (c2 & ? & _ & Hb).
    apply ret_Some in Hb as [<- _].
    destruct (IH _ _ H) as (children & -> & Hlen).
    exists (c2 :: children). split; [by rewrite <- app_assoc | simpl; by rewrite Hlen].
Qed.

(** X9: a generation that does not leave the loop hands on a population of
    [POPULATION_SIZE] schedules.  The first five are the five best of the
    population it was given, in their order, so that the least fitness in the
    new population is not above the least fitness in the old one. *)
Theorem generation_keeps_elites (day_ : DayOfWeek) (gen : nat) (st st' : LoopState)
    (o o' : Oracle) :
  generation Math_log2 clients therapists selectedDate callouts day_ gen st o
    = Some ((st', false), o') ->
  length (population st') = POPULATION_SIZE /\
  take 5 (population st') = map ind_schedule (take 5 (evaluate (population st))) /\
  (5 <= length (population st))%nat /\
  forall best best',
    evaluate (population st) !! 0%nat = Some best ->
    evaluate (population st') !! 0%nat = Some best' ->
    (fitness best' <= fitness best)%Q.
Proof.
  unfold generation. intros H.
  apply bind_Some in H as (best0 & o1 & Hb0 & H).
  destruct (shouldStop _); [by apply ret_Some in H as [[= _ ?] _]|].
  apply bind_Some in H as (newPop & o2 & Hev & H).
  apply ret_Some in H as [[= <-] _]. cbn [population].
  unfold evolve in Hev. apply bind_Some in Hev as (elites & o3 & Hel & Hbr).
  apply elites_spec in Hel as [-> Hel].
  apply breeding_length in Hbr as (children & -> & Hlen).
  pose proof (Forall2_length _ _ _ Hel) as Hn. rewrite length_seq in Hn.
  change eliteCount with 5%nat in Hn, Hel.
  assert (Hfive : (5 <= length (evaluate (population st)))%nat).
  { destruct (le_lt_dec 5 (length (evaluate (population st)))) as [?|Hlt]; [done|].
    exfalso.
    assert (H4 : (seq 0 5) !! 4%nat = Some 4%nat) by done.
    destruct (Forall2_lookup_l _ _ _ _ _ Hel H4) as (s & _ & Hs).
    rewrite (lookup_ge_None_2 (evaluate (population st)) 4) in Hs by lia. done. }
  assert (Htake : elites = map ind_schedule (take 5 (evaluate (population st)))).
  { apply list_eq_same_length with 5%nat.
    - rewrite length_map, length_take. lia.
    - lia.
    - intros i x y Hi Hx Hy.
      assert (Hsi : (seq 0 5) !! i = Some i) by (apply lookup_seq; lia).
      destruct (Forall2_lookup_l _ _ _ _ _ Hel Hsi) as (s & Hs1 & Hs2).
      rewrite Hx in Hs1. injection Hs1 as <-.
      rewrite list_lookup_fmap, lookup_take_lt in Hy by done.
      rewrite Hs2 in Hy. by injection Hy. }
  split; [|split; [|split]].
  - rewrite length_app, Hlen, <- Hn. reflexivity.
  - rewrite take_app_length' by lia. exact Htake.
  - by rewrite <- evaluate_length.
  - intros best best' Hb Hb'.
    assert (Hin : best ∈ evaluate (population st)) by (by eapply list_elem_of_lookup_2).
    apply evaluate_elem in Hin as (p & Hp & Hbest).
    apply (evaluate_head_least (elites ++ children) best' best Hb').
    apply evaluate_elem. exists p. split; [|done].
    apply elem_of_app. left. rewrite Htake.
    apply list_elem_of_fmap. exists best. split; [by rewrite Hbest|].
    apply (list_elem_of_lookup_2 _ 0%nat). rewrite lookup_take_lt by lia. done.
Qed.

End Elitism.

(** The theorem at the first generation of a run for one client and no
    therapist: the client is called out from 09:00 on, the schedules are
    empty, their fitness is that of the uncovered hour, and the loop goes on. *)
Lemma generation_keeps_elites_witness :
  let c1 := {| cl_id := "c1"; cl_name := "Ann"; cl_teamId := None;
               insuranceRequirements := []; alliedHealthNeeds := [] |} in
  let co := {| co_id := "k"; entityType := EClient; entityId := "c1"; entityName := "Ann";
               startDate := Some 0; endDate := Some 0;
               co_startTime := {| mins := 540; half := false |};
               co_endTime := {| mins := 1020; half := false |}; reason := None |} in
  let o := {| draws := fun _ => 0; drawPos := 0; freshIds := fun _ => "x"%string;
              idPos := 0; today := {| dayNumber := 0 |} |} in
  let st := startState (replicate POPULATION_SIZE []) in
  exists st' o',
    generation (fun _ => 0%Q) [c1] [] {| dayNumber := 0 |} [co] THURSDAY 0 st o
      = Some ((st', false), o') /\
    length (population st') = POPULATION_SIZE /\
    take 5 (population st')
    = map ind_schedule
        (take 5 (evaluatePopulation (fun _ => 0%Q) [c1] [] {| dayNumber := 0 |} [co]
                   (population st))).
Proof.
  intros c1 co o st.
  assert (Hb : match generation (fun _ => 0%Q) [c1] [] {| dayNumber := 0 |} [co]
                       THURSDAY 0 st o with
               | Some (_, b, _) => b
               | None => true
               end = false) by (vm_compute; reflexivity).
  destruct (generation (fun _ => 0%Q) [c1] [] {| dayNumber := 0 |} [co] THURSDAY 0 st o)
    as [[[st' b] o']|] eqn:E; [|discriminate Hb].
  subst b. exists st', o'. split; [reflexivity|].
  destruct (generation_keeps_elites (fun _ => 0%Q) [c1] [] {| dayNumber := 0 |} [co]
              THURSDAY 0 st st' o o' E) as (H1 & H2 & _).
  split; [exact H1 | exact H2].
Defined.

(** * The tracker after a rebuild *)

(** ** What a rebuilt tracker knows *)

Lemma inSlots_testbit (start end_ k : Z) :
  0 <= start -> 0 <= k ->
  Z.testbit (getRangeMask start end_) k = true <-> inSlots start end_ k.
Proof.
  intros Hs Hk. rewrite getRangeMask_testbit by done. unfold inSlots.
  rewrite andb_true_iff, Z.leb_le, Z.ltb_lt. done.
Qed.

Lemma testbit_orMask masks i mask j k :
  Z.testbit (maskOf (orMask masks i mask) j) k = true <->
  Z.testbit (maskOf masks j) k = true \/ (i = j /\ Z.testbit mask k = true).
Proof.
  rewrite maskOf_orMask. destruct (decide (i = j)) as [->|Hne].
  - rewrite Z.lor_spec, orb_true_iff. tauto.
  - tauto.
Qed.

(** The two masks of a tracker, read as one. *)
Definition maskFor (tr : AvailabilityTracker) (kind : EntityType) (i : string) : Z :=
  match kind with
  | ETherapist => maskOf (therapistMasks tr) i
  | EClient => maskOf (clientMasks tr) i
  end.

Lemma applyCallout_bits d tr co kind i k :
  0 <= timeToMinutes (co_startTime co) -> 0 <= k ->
  Z.testbit (maskFor (applyCallout d tr co) kind i) k = true <->
  Z.testbit (maskFor tr kind i) k = true \/
  (isDateAffectedByCalloutRange d (startDate co) (endDate co) = true /\
   entityType co = kind /\ entityId co = i /\
   inSlots (timeToMinutes (co_startTime co)) (timeToMinutes (co_endTime co)) k).
Proof.
  intros Hs Hk. unfold applyCallout.
  destruct (isDateAffectedByCalloutRange d (startDate co) (endDate co)); [|by intuition].
  destruct (entityType co), kind; simpl; rewrite ?testbit_orMask, ?inSlots_testbit by done;
    intuition congruence.
Qed.

Lemma applyEntry_bits tr e kind i k :
  0 <= timeToMinutes (startTime e) -> 0 <= k ->
  Z.testbit (maskFor (applyEntry tr e) kind i) k = true <->
  Z.testbit (maskFor tr kind i) k = true \/
  (bookedFor kind i e /\
   inSlots (timeToMinutes (startTime e)) (timeToMinutes (endTime e)) k).
Proof.
  intros Hs Hk. unfold applyEntry, book.
  destruct kind; cbn [maskFor therapistMasks clientMasks bookedFor].
  - destruct (clientId e) as [c|] eqn:Ec.
    + destruct (truthy (Some c)) eqn:Et.
      * apply truthy_spec in Et as (c' & [= <-] & Hc).
        rewrite testbit_orMask, inSlots_testbit by done. split.
        -- intros [?|[-> ?]]; [by left | right]. done.
        -- intros [?|[[[= ->] _] ?]]; [by left | right]. done.
      * split; [by left|]. intros [?|[[[= ->] Hne] _]]; [done|].
        simpl in Et. apply negb_false_iff, bool_decide_eq_true in Et. done.
    + split; [by left|]. by intros [?|[[? _] _]].
  - rewrite testbit_orMask, inSlots_testbit by done. tauto.
Qed.

Lemma callouts_bits d (callouts : list Callout) tr kind i k :
  (forall co, co ∈ callouts -> 0 <= timeToMinutes (co_startTime co)) -> 0 <= k ->
  Z.testbit (maskFor (fold_left (applyCallout d) callouts tr) kind i) k = true <->
  Z.testbit (maskFor tr kind i) k = true \/
  exists co, co ∈ callouts /\
    isDateAffectedByCalloutRange d (startDate co) (endDate co) = true /\
    entityType co = kind /\ entityId co = i /\
    inSlots (timeToMinutes (co_startTime co)) (timeToMinutes (co_endTime co)) k.
Proof.
  intros Hpos Hk. revert tr. induction callouts as [|co rest IH]; intros tr; simpl.
  - split; [by left|]. intros [?|(co & Hco & _)]; [done | by apply elem_of_nil in Hco].
  - rewrite IH by (intros c Hc; by apply Hpos, list_elem_of_further).
    rewrite applyCallout_bits by (done || apply Hpos, list_elem_of_here).
    split.
    + intros [[?|H]|(c & Hc & H)]; [by left| |].
      * right. exists co. split; [apply list_elem_of_here | done].
      * right. exists c. split; [by apply list_elem_of_further | done].
    + intros [?|(c & Hc & H)]; [by left; left|].
      apply elem_of_cons in Hc as [->|Hc]; [left; by right|].
      right. by exists c.
Qed.

Lemma entries_bits (schedule : GeneratedSchedule) tr kind i k :
  (forall e, e ∈ schedule -> 0 <= timeToMinutes (startTime e)) -> 0 <= k ->
  Z.testbit (maskFor (fold_left applyEntry schedule tr) kind i) k = true <->
  Z.testbit (maskFor tr kind i) k = true \/
  exists e, e ∈ schedule /\ bookedFor kind i e /\
    inSlots (timeToMinutes (startTime e)) (timeToMinutes (endTime e)) k.
Proof.
  intros Hpos Hk. revert tr. induction schedule as [|e rest IH]; intros tr; simpl.
  - split; [by left|]. intros [?|(e & He & _)]; [done | by apply elem_of_nil in He].
  - rewrite IH by (intros c Hc; by apply Hpos, list_elem_of_further).
    rewrite applyEntry_bits by (done || apply Hpos, list_elem_of_here).
    split.
    + intros [[?|H]|(c & Hc & H)]; [by left| |].
      * right. exists e. split; [apply list_elem_of_here | done].
      * right. exists c. split; [by apply list_elem_of_further | done].
    + intros [?|(c & Hc & H)]; [by left; left|].
      apply elem_of_cons in Hc as [->|Hc]; [left; by right|].
      right. by exists c.
Qed.

Lemma stored_masks (schedule : GeneratedSchedule) tr :
  therapistMasks (fold_left storeEntry schedule tr) = therapistMasks tr /\
  clientMasks (fold_left storeEntry schedule tr) = clientMasks tr.
Proof.
  revert tr. induction schedule as [|e r IH]; intros tr; simpl; [done|].
  destruct (IH (storeEntry tr e)) as [-> ->]. done.
Qed.

(** The bits of a rebuilt tracker are the slots taken. *)
Lemma newTracker_bits schedule callouts d kind i k :
  (forall e, e ∈ schedule -> 0 <= timeToMinutes (startTime e)) ->
  (forall co, co ∈ callouts -> 0 <= timeToMinutes (co_startTime co)) -> 0 <= k ->
  Z.testbit (maskFor (newTracker schedule callouts d) kind i) k = true <->
  slotTaken schedule callouts d kind i k.
Proof.
  intros Hs Hc Hk. unfold newTracker, slotTaken.
  rewrite entries_bits, callouts_bits by done.
  destruct (stored_masks schedule emptyTracker) as [E1 E2].
  assert (H0 : Z.testbit (maskFor (fold_left storeEntry schedule emptyTracker) kind i) k
               = false).
  { unfold maskFor. rewrite E1, E2. simpl. destruct kind; rewrite maskOf_empty; apply Z.bits_0. }
  rewrite H0. intuition congruence.
Qed.

(** The details kept under an id are those of the last entry with the id. *)
Definition detailsOf (s : ScheduleEntry) : EntryDetails :=
  {| ed_therapistId := therapistId s; ed_clientId := clientId s;
     ed_start := timeToMinutes (startTime s); ed_end := timeToMinutes (endTime s) |}.

Lemma stored_details (schedule : GeneratedSchedule) tr x :
  scheduleByEntry (fold_left storeEntry schedule tr) !! x =
  match last (List.filter (fun s => str_eqb (id s) x) schedule) with
  | Some e => Some (detailsOf e)
  | None => scheduleByEntry tr !! x
  end.
Proof.
  revert tr. induction schedule as [|e r IH]; intros tr; [done|].
  cbn [fold_left List.filter]. rewrite IH. unfold str_eqb.
  destruct (decide (id e = x)) as [E|E].
  - rewrite bool_decide_eq_true_2 by done.
    destruct (List.filter _ r) as [|y l] eqn:Ef.
    + simpl. rewrite E. apply lookup_insert_eq.
    + rewrite last_cons_cons. destruct (last (y :: l)) eqn:E2; [done|].
      by apply last_None in E2.
  - rewrite bool_decide_eq_false_2 by done.
    destruct (last _); [done|]. simpl. by apply lookup_insert_ne.
Qed.

Lemma kept_details d (callouts : list Callout) tr :
  scheduleByEntry (fold_left (applyCallout d) callouts tr) = scheduleByEntry tr.
Proof.
  revert tr. induction callouts as [|co r IH]; intros tr; simpl; [done|].
  rewrite IH. unfold applyCallout. destruct (isDateAffectedByCalloutRange _ _ _); [|done].
  by destruct (entityType co).
Qed.

Lemma booked_details (schedule : GeneratedSchedule) tr :
  scheduleByEntry (fold_left applyEntry schedule tr) = scheduleByEntry tr.
Proof. revert tr. induction schedule as [|e r IH]; intros tr; simpl; [done|]. by rewrite IH. Qed.

Lemma newTracker_details schedule callouts d x :
  scheduleByEntry (newTracker schedule callouts d) !! x =
  detailsOf <$> last (List.filter (fun s => str_eqb (id s) x) schedule).
Proof.
  unfold newTracker. rewrite booked_details, kept_details, stored_details.
  destruct (last _); [done|]. apply lookup_empty.
Qed.

(** X10: the answers of a tracker built from a schedule and callouts whose
    times are not negative.  A range is available for an entity exactly when
    every slot of the range that is taken, by an entry booked for the entity
    or by a callout of the entity on the selected date, is a slot of the
    entry to ignore, provided that entry belongs to the entity. *)
Theorem isAvailable_after_rebuild (schedule : GeneratedSchedule) (callouts : list Callout)
    (selectedDate : JsDate) (kind : EntityType) (i : string) (a b : Z)
    (ignoreEntryId : option string) :
  (forall e, e ∈ schedule -> 0 <= timeToMinutes (startTime e)) ->
  (forall co, co ∈ callouts -> 0 <= timeToMinutes (co_startTime co)) ->
  0 <= a ->
  isAvailable (newTracker schedule callouts selectedDate) kind i a b ignoreEntryId = true <->
  forall k, inSlots a b k -> slotTaken schedule callouts selectedDate kind i k ->
            slotIgnored schedule kind i ignoreEntryId k.
Proof.
  intros Hs Hc Ha.
  set (tr := newTracker schedule callouts selectedDate).
  assert (Hslots : forall k, inSlots a b k -> 0 <= k).
  { intros k [H _]. unfold timeToBit in H.
    assert (0 <= a / 15) by (apply Z.div_pos; lia). lia. }
  (* the mask that is tested, bit by bit *)
  assert (Hmask : exists m,
    isAvailable tr kind i a b ignoreEntryId = (Z.land m (getRangeMask a b) =? 0) /\
    forall k, 0 <= k ->
      (Z.testbit m k = false <->
       (slotTaken schedule callouts selectedDate kind i k ->
        slotIgnored schedule kind i ignoreEntryId k))).
  { assert (Hplain : forall k, 0 <= k ->
      (Z.testbit (maskFor tr kind i) k = false <->
       ~ slotTaken schedule callouts selectedDate kind i k)).
    { intros k Hk. rewrite <- (newTracker_bits schedule callouts selectedDate kind i k)
        by done. fold tr. by destruct (Z.testbit _ _). }
    unfold isAvailable. fold (maskFor tr kind i).
    destruct (truthy ignoreEntryId) eqn:Et.
    - apply truthy_spec in Et as (x & -> & Hx). cbn [mbind option_bind].
      unfold tr at 1. rewrite newTracker_details. fold tr.
      destruct (last (List.filter (fun s => str_eqb (id s) x) schedule)) as [e|] eqn:El.
      + cbn [fmap option_fmap option_map detailsOf ed_therapistId ed_clientId ed_start ed_end].
        assert (He : e ∈ schedule).
        { apply last_Some in El as (l' & El).
          assert (Hin : e ∈ List.filter (fun s => str_eqb (id s) x) schedule)
            by (rewrite El; apply elem_of_app; right; apply list_elem_of_here).
          by apply elem_of_filter_list in Hin as [Hin _]. }
        destruct (match kind with
                  | ETherapist => str_eqb (therapistId e) i
                  | EClient => opt_is (clientId e) i
                  end) eqn:Em.
        * eexists. split; [reflexivity|]. intros k Hk.
          rewrite Z.land_spec, Z.lnot_spec, andb_false_iff, negb_false_iff by done.
          rewrite Hplain, inSlots_testbit by (done || by apply Hs).
          assert (Hent : match kind with
                         | ETherapist => therapistId e = i
                         | EClient => clientId e = Some i
                         end).
          { destruct kind; unfold str_eqb, opt_is in Em; by apply bool_decide_eq_true in Em. }
          split.
          -- intros [Hn|Hin] Ht; [done|]. by exists x, e.
          -- intros H.
             destruct (Z.testbit (maskFor tr kind i) k) eqn:Eb.
             ++ right. apply (newTracker_bits schedule callouts selectedDate kind i k) in Eb;
                  [|done..].
                destruct (H Eb) as (x' & e' & [= <-] & _ & El' & _ & Hin).
                rewrite El in El'. by injection El' as <-.
             ++ left. by apply Hplain.
        * eexists. split; [reflexivity|]. intros k Hk. rewrite Hplain by done.
          split; [by intros Hn Ht|]. intros H Ht.
          destruct (H Ht) as (x' & e' & [= <-] & _ & El' & Hent & _).
          rewrite El in El'. injection El' as <-.
          destruct kind; unfold str_eqb, opt_is in Em; apply bool_decide_eq_false in Em; done.
      + cbn [fmap option_fmap option_map].
        eexists. split; [reflexivity|]. intros k Hk. rewrite Hplain by done.
        split; [by intros Hn Ht|]. intros H Ht.
        destruct (H Ht) as (x' & e' & [= <-] & _ & El' & _). by rewrite El in El'.
    - eexists. split; [reflexivity|]. intros k Hk. rewrite Hplain by done.
      split; [by intros Hn Ht|]. intros H Ht.
      destruct (H Ht) as (x' & e' & -> & Hx & _).
      simpl in Et. apply negb_false_iff, bool_decide_eq_true in Et. done. }
  destruct Hmask as (m & -> & Hm).
  rewrite land_eq_0_iff. split.
  - intros H k Hk. apply Hm; [by apply Hslots|].
    apply H; [by apply Hslots|]. apply inSlots_testbit; [done | by apply Hslots | done].
  - intros H k Hk Hq. apply Hm; [done|].
    apply H. by apply inSlots_testbit in Hq.
Qed.

(** The theorem at two sessions of one therapist that overlap, 08:00-09:00
    and 08:30-09:30: with the first ignored, its hour counts as free. *)
Lemma isAvailable_after_rebuild_witness :
  let e i a b := mkEntry i (Some "Ann"%string) (Some "c1"%string) "Tom" "t1" MONDAY
                   {| mins := a; half := false |} {| mins := b; half := false |} ABA in
  let schedule := [e "a" 480 540; e "b" 510 570]%string in
  (isAvailable (newTracker schedule [] {| dayNumber := 4 |}) ETherapist "t1" 480 540
     (Some "a"%string) = true <->
   forall k, inSlots 480 540 k ->
     slotTaken schedule [] {| dayNumber := 4 |} ETherapist "t1" k ->
     slotIgnored schedule ETherapist "t1" (Some "a"%string) k) /\
  isAvailable (newTracker schedule [] {| dayNumber := 4 |}) ETherapist "t1" 480 540
    (Some "a"%string) = true.
Proof.
  intros e schedule. split; [|reflexivity].
  apply (isAvailable_after_rebuild schedule [] {| dayNumber := 4 |} ETherapist "t1" 480 540
           (Some "a"%string)).
  - intros x Hx.
    repeat (apply elem_of_cons in Hx as [->|Hx]; [simpl; lia|]).
    by apply elem_of_nil in Hx.
  - intros co Hco. by apply elem_of_nil in Hco.
  - lia.
Defined.

(** ** The tracker and the kernel *)

(** On the grid, two ranges that run forward share a slot exactly when the
    kernel's test of overlap holds of them. *)
Lemma common_slot_iff (a b x y : Z) :
  a mod 15 = 0 -> b mod 15 = 0 -> x mod 15 = 0 -> y mod 15 = 0 -> a < b -> x < y ->
  (exists k, inSlots a b k /\ inSlots x y k) <-> a < y /\ x < b.
Proof.
  intros Ha Hb Hx Hy Hab Hxy. unfold inSlots.
  apply timeToBit_aligned in Ha, Hb, Hx, Hy. split.
  - intros (k & H1 & H2). lia.
  - intros [H1 H2]. exists (Z.max (timeToBit a) (timeToBit x)). lia.
Qed.

Lemma sessionsOverlap_lt (s1 e1 s2 e2 : TimeStr) :
  sessionsOverlap s1 e1 s2 e2 = true <->
  timeToMinutes s1 < timeToMinutes e2 /\ timeToMinutes s2 < timeToMinutes e1.
Proof. unfold sessionsOverlap. by rewrite andb_true_iff, !Z.ltb_lt. Qed.

Lemma available_iff_free schedule callouts d kind i a b :
  (forall e, e ∈ schedule -> 0 <= timeToMinutes (startTime e)) ->
  (forall co, co ∈ callouts -> 0 <= timeToMinutes (co_startTime co)) ->
  0 <= a ->
  isAvailable (newTracker schedule callouts d) kind i a b None = true <->
  forall k, inSlots a b k -> ~ slotTaken schedule callouts d kind i k.
Proof.
  intros Hs Hc Ha. rewrite isAvailable_no_ignore.
  fold (maskFor (newTracker schedule callouts d) kind i). rewrite land_eq_0_iff.
  assert (Hslots : forall k, inSlots a b k -> 0 <= k).
  { intros k [H _]. unfold timeToBit in H.
    assert (0 <= a / 15) by (apply Z.div_pos; lia). lia. }
  split.
  - intros H k Hk Ht. apply newTracker_bits in Ht; [|done|done|by apply Hslots].
    rewrite H in Ht; [done | by apply Hslots|].
    apply inSlots_testbit; [done | by apply Hslots | done].
  - intros H k Hk Hq. apply inSlots_testbit in Hq; [|done..].
    destruct (Z.testbit _ k) eqn:Eb; [|done].
    apply newTracker_bits in Eb; [|done..]. by destruct (H k Hq).
Qed.

(** X11: on the grid of fifteen minutes the tracker and the kernel agree.
    For a schedule, callouts and a candidate entry that all start and end on
    the grid and run forward, the schedule being on the candidate's day and
    the candidate's client id not the empty string: the tracker built from
    the schedule and the callouts has the candidate's range available for its
    therapist and for its client exactly when the kernel finds no therapist
    conflict, no client conflict and no callout conflict for the candidate. *)
Theorem tracker_agrees_with_kernel (schedule : GeneratedSchedule) (callouts : list Callout)
    (selectedDate : JsDate) (entry : ScheduleEntry) :
  Forall wellTimed schedule ->
  Forall (fun co => 0 <= timeToMinutes (co_startTime co) /\ calloutWellTimed co) callouts ->
  wellTimed entry -> onDay (day entry) schedule -> clientId entry <> Some EmptyString ->
  let tr := newTracker schedule callouts selectedDate in
  let start := timeToMinutes (startTime entry) in
  let end_ := timeToMinutes (endTime entry) in
  (isAvailable tr ETherapist (therapistId entry) start end_ None = true /\
   (forall c, clientId entry = Some c -> isAvailable tr EClient c start end_ None = true))
  <->
  (hasTherapistConflict schedule entry None = false /\
   hasClientConflict schedule entry None = false /\
   hasCalloutConflict entry callouts selectedDate = false).
Proof.
  intros Hs Hc [(He0 & He1 & He2) He3] Hday Hcl. cbv zeta.
  assert (Hs0 : forall e, e ∈ schedule -> 0 <= timeToMinutes (startTime e)).
  { intros e He. by destruct (proj1 (Forall_forall _ _) Hs e He) as [[? _] _]. }
  assert (Hc0 : forall co, co ∈ callouts -> 0 <= timeToMinutes (co_startTime co)).
  { intros co Hco. by destruct (proj1 (Forall_forall _ _) Hc co Hco) as [? _]. }
  (* an entry of the schedule shares a slot with the candidate iff they overlap *)
  assert (Hes : forall s, s ∈ schedule ->
    (exists k, inSlots (timeToMinutes (startTime entry)) (timeToMinutes (endTime entry)) k /\
               inSlots (timeToMinutes (startTime s)) (timeToMinutes (endTime s)) k) <->
    sessionsOverlap (startTime s) (endTime s) (startTime entry) (endTime entry) = true).
  { intros s Hin. destruct (proj1 (Forall_forall _ _) Hs s Hin) as [(_ & S1 & S2) S3].
    rewrite common_slot_iff, sessionsOverlap_lt by done. tauto. }
  assert (Hcs : forall co, co ∈ callouts ->
    (exists k, inSlots (timeToMinutes (startTime entry)) (timeToMinutes (endTime entry)) k /\
               inSlots (timeToMinutes (co_startTime co)) (timeToMinutes (co_endTime co)) k) <->
    sessionsOverlap (startTime entry) (endTime entry) (co_startTime co) (co_endTime co)
      = true).
  { intros co Hin. destruct (proj1 (Forall_forall _ _) Hc co Hin) as [_ (S1 & S2 & S3)].
    rewrite common_slot_iff, sessionsOverlap_lt by done. tauto. }
  rewrite (available_iff_free schedule callouts selectedDate ETherapist) by done.
  split.
  - intros [Ht Hclient]. split; [|split].
    + apply some_false. intros s Hin. apply not_true_is_false. intros Hp.
      apply andb_true_iff in Hp as [Hp Ho]. apply andb_true_iff in Hp as [Hp _].
      apply andb_true_iff in Hp as [_ Hth].
      unfold str_eqb in Hth. apply bool_decide_eq_true in Hth.
      apply (Hes s Hin) in Ho as (k & Hk1 & Hk2).
      apply (Ht k Hk1). left. exists s. done.
    + unfold hasClientConflict. destruct (truthy (clientId entry)) eqn:Et; [|done].
      cbn [negb].
      apply truthy_spec in Et as (c & Ec & Hne).
      apply some_false. intros s Hin. apply not_true_is_false. intros Hp.
      apply andb_true_iff in Hp as [Hp Ho]. apply andb_true_iff in Hp as [Hp _].
      apply andb_true_iff in Hp as [_ Hsame].
      unfold opt_eqb in Hsame. apply bool_decide_eq_true in Hsame.
      apply (Hes s Hin) in Ho as (k & Hk1 & Hk2).
      pose proof (Hclient c Ec) as Hav.
      rewrite (available_iff_free schedule callouts selectedDate EClient) in Hav by done.
      apply (Hav k Hk1). left. exists s. split; [done|]. split; [|done].
      split; [congruence | done].
    + apply some_false. intros co Hin. apply not_true_is_false. intros Hp.
      apply andb_true_iff in Hp as [Hp Ho]. apply andb_true_iff in Hp as [Hdate Htarget].
      apply (Hcs co Hin) in Ho as (k & Hk1 & Hk2).
      unfold calloutTargets in Htarget. apply orb_true_iff in Htarget as [Hg|Hg];
        apply andb_true_iff in Hg as [Hg1 Hg2]; apply bool_decide_eq_true in Hg1.
      * unfold str_eqb in Hg2. apply bool_decide_eq_true in Hg2.
        apply (Ht k Hk1). right. exists co. done.
      * unfold opt_is in Hg2. apply bool_decide_eq_true in Hg2.
        pose proof (Hclient _ Hg2) as Hav.
        rewrite (available_iff_free schedule callouts selectedDate EClient) in Hav by done.
        apply (Hav k Hk1). right. exists co. done.
  - intros (Ht & Hclient & Hco).
    pose proof (proj1 (some_false _ _) Ht) as Ht'.
    pose proof (proj1 (some_false _ _) Hco) as Hco'. cbv beta in Ht', Hco'.
    split.
    + intros k Hk [(s & Hin & Hb & Hk')|(co & Hin & Hdate & Hkind & Hid & Hk')].
      * specialize (Ht' s Hin). simpl in Hb.
        rewrite (proj1 (Hes s Hin)) in Ht' by (by exists k).
        unfold str_eqb in Ht'. rewrite (bool_decide_eq_true_2 _ Hb) in Ht'.
        rewrite (bool_decide_eq_true_2 _ (proj1 (Forall_forall _ _) Hday s Hin)) in Ht'.
        done.
      * specialize (Hco' co Hin).
        rewrite (proj1 (Hcs co Hin)) in Hco' by (by exists k).
        rewrite Hdate in Hco'. unfold calloutTargets, str_eqb in Hco'.
        rewrite (bool_decide_eq_true_2 _ Hkind), (bool_decide_eq_true_2 _ Hid) in Hco'.
        done.
    + intros c Ec.
      rewrite (available_iff_free schedule callouts selectedDate EClient) by done.
      assert (Hne : c <> EmptyString) by (intros ->; done).
      unfold hasClientConflict in Hclient.
      rewrite (proj2 (truthy_spec (clientId entry))) in Hclient by (by exists c).
      cbn [negb] in Hclient.
      pose proof (proj1 (some_false _ _) Hclient) as Hcl'. cbv beta in Hcl'.
      intros k Hk [(s & Hin & Hb & Hk')|(co & Hin & Hdate & Hkind & Hid & Hk')].
      * specialize (Hcl' s Hin). destruct Hb as [Hb _].
        rewrite (proj1 (Hes s Hin)) in Hcl' by (by exists k).
        unfold opt_eqb in Hcl'. rewrite (bool_decide_eq_true_2 _ (eq_trans Hb (eq_sym Ec))) in Hcl'.
        rewrite (bool_decide_eq_true_2 _ (proj1 (Forall_forall _ _) Hday s Hin)) in Hcl'.
        done.
      * specialize (Hco' co Hin).
        rewrite (proj1 (Hcs co Hin)) in Hco' by (by exists k).
        rewrite Hdate in Hco'. unfold calloutTargets, opt_is in Hco'.
        rewrite (bool_decide_eq_true_2 _ Hkind) in Hco'.
        rewrite (bool_decide_eq_true_2 (clientId entry = Some (entityId co))) in Hco'
          by (by rewrite Hid).
        rewrite orb_true_r in Hco'. done.
Qed.

(** The theorem at a therapist booked 08:00-09:00 and a candidate session of
    the same therapist 08:30-09:30: the tracker and the kernel both refuse. *)
Lemma tracker_agrees_with_kernel_witness :
  let e i c a b := mkEntry i (Some c) (Some c) "Tom" "t1" MONDAY
                     {| mins := a; half := false |} {| mins := b; half := false |} ABA in
  let schedule := [e "a" "c1" 480 540]%string in
  let entry := e "b" "c2" 510 570 in
  let tr := newTracker schedule [] {| dayNumber := 4 |} in
  ((isAvailable tr ETherapist "t1" 510 570 None = true /\
    (forall c, clientId entry = Some c -> isAvailable tr EClient c 510 570 None = true))
   <->
   (hasTherapistConflict schedule entry None = false /\
    hasClientConflict schedule entry None = false /\
    hasCalloutConflict entry [] {| dayNumber := 4 |} = false)) /\
  hasTherapistConflict schedule entry None = true.
Proof.
  intros e schedule entry tr. split; [|reflexivity].
  apply (tracker_agrees_with_kernel schedule [] {| dayNumber := 4 |} entry).
  - repeat (apply List.Forall_cons; [split; [split; [simpl; lia | split; reflexivity]
                                            | simpl; lia]|]).
    apply List.Forall_nil.
  - apply List.Forall_nil.
  - split; [split; [simpl; lia | split; reflexivity] | simpl; lia].
  - repeat (apply List.Forall_cons; [reflexivity|]). apply List.Forall_nil.
  - discriminate.
Defined.

(** * The rules the validator reports *)

(** ** The rule ids of the validator *)

(** Membership in a list of errors that is put together from pieces. *)
Ltac split_errors H :=
  cbv zeta in H;
  repeat match type of H with
  | _ ∈ _ ++ _ => apply elem_of_app in H as [H|H]
  | _ ∈ errorIf ?b _ =>
      unfold errorIf in H; destruct b;
      [apply list_elem_of_singleton in H | apply elem_of_nil in H; destruct H]
  | _ ∈ [] => apply elem_of_nil in H; destruct H
  | _ ∈ [_] => apply list_elem_of_singleton in H
  | _ ∈ (if ?b then _ else _) => destruct b
  end.

Ltac rule_listed :=
  subst; cbn [ruleId mkError];
  repeat (first [apply list_elem_of_here | apply list_elem_of_further]).

Lemma conflictErrors_rules entryToValidate orig existingEntry e :
  e ∈ conflictErrors entryToValidate orig existingEntry ->
  ruleId e ∈ ["THERAPIST_TIME_CONFLICT"; "CLIENT_TIME_CONFLICT";
              "SAME_CLIENT_BACK_TO_BACK"]%string.
Proof. unfold conflictErrors. intros H. split_errors H; rule_listed. Qed.

Lemma validateSessionEntry_rules entryToValidate schedule clients therapists orig e :
  e ∈ validateSessionEntry entryToValidate schedule clients therapists orig ->
  ruleId e ∈ entryRules.
Proof.
  unfold validateSessionEntry, dedupe. intros H. apply (proj1 (elem_of_uniq _ _)) in H.
  cbv zeta in H.
  destruct (find_ _ therapists); destruct (find_ _ clients);
    destruct (sessionType entryToValidate); split_errors H;
    try (apply list_elem_of_In, in_flat_map in H as (x & _ & H);
         apply list_elem_of_In, conflictErrors_rules in H;
         set (r := ruleId e) in *; clearbody r;
         apply list_elem_of_In in H; simpl in H;
         destruct H as [<-|[<-|[<-|[]]]]);
    rule_listed.
Qed.

Lemma entryCheck_rules schedule clients therapists d callouts day_ entry e :
  e ∈ entryCheck schedule clients therapists d callouts day_ entry ->
  ruleId e ∈ scheduleEntryRules ++ entryRules.
Proof.
  unfold entryCheck. intros H.
  apply elem_of_app in H as [H|H]; [|apply elem_of_app in H as [H|H]].
  - split_errors H. subst. apply elem_of_app. left. apply list_elem_of_here.
  - apply list_elem_of_fmap in H as (x & -> & H).
    apply elem_of_app. right. cbn [ruleId mkError]. by eapply validateSessionEntry_rules.
  - apply list_elem_of_fmap in H as (x & -> & _).
    apply elem_of_app. left. cbn [ruleId mkError]. apply list_elem_of_further, list_elem_of_here.
Qed.

Lemma therapistCheck_rules schedule therapists day_ weekend tid e :
  e ∈ therapistCheck schedule therapists day_ weekend tid ->
  ruleId e ∈ therapistRules /\ therapists <> [].
Proof.
  unfold therapistCheck. intros H.
  destruct (find_ _ therapists) as [therapist|] eqn:Ef; [|by apply elem_of_nil in H].
  split; [|by intros ->].
  split_errors H; rule_listed.
Qed.

Lemma clientCheck_rules schedule d opStart opEnd callouts day_ weekend client e :
  e ∈ clientCheck schedule d opStart opEnd callouts day_ weekend client ->
  ruleId e ∈ clientRules.
Proof.
  unfold clientCheck. intros H. apply elem_of_app in H as [H|H].
  - split_errors H; rule_listed.
  - destruct weekend; [by apply elem_of_nil in H|].
    apply list_elem_of_In in H; apply in_flat_map in H as (x & _ & H); apply list_elem_of_In in H.
    split_errors H; rule_listed.
Qed.

(** Where an error of a schedule comes from. *)
Lemma validateFullSchedule_origin schedule clients therapists d opStart opEnd callouts e :
  e ∈ validateFullSchedule schedule clients therapists (Some d) opStart opEnd callouts ->
  ruleId e ∈ scheduleEntryRules ++ entryRules \/
  (ruleId e ∈ therapistRules /\ therapists <> []) \/
  (ruleId e ∈ clientRules /\ clients <> []).
Proof.
  unfold validateFullSchedule, dedupe. intros H. apply (proj1 (elem_of_uniq _ _)) in H.
  apply elem_of_app in H as [H|H]; [|apply elem_of_app in H as [H|H]];
    apply list_elem_of_In in H; apply in_flat_map in H as (x & Hx & H);
    apply list_elem_of_In in H.
  - left. by eapply entryCheck_rules.
  - right. left. by eapply therapistCheck_rules.
  - right. right. split; [by eapply clientCheck_rules|]. intros ->. destruct Hx.
Qed.

(** ** Counting the errors of a rule *)

Lemma countOf_nonneg errors r : 0 <= countOf errors r.
Proof. unfold countOf. lia. Qed.

Lemma countOf_zero errors r :
  countOf errors r = 0 <-> forall e, e ∈ errors -> ruleId e <> r.
Proof.
  unfold countOf. split.
  - intros H e He Hr.
    assert (Hin : e ∈ List.filter (fun e => str_eqb (ruleId e) r) errors).
    { apply elem_of_filter_list. split; [done|]. unfold str_eqb. by apply bool_decide_eq_true. }
    destruct (List.filter _ errors); [by apply elem_of_nil in Hin | simpl in H; lia].
  - intros H. destruct (List.filter _ errors) as [|e l] eqn:Ef; [done|].
    assert (Hin : e ∈ List.filter (fun e => str_eqb (ruleId e) r) errors)
      by (rewrite Ef; apply list_elem_of_here).
    apply elem_of_filter_list in Hin as [Hin Hr]. unfold str_eqb in Hr.
    apply bool_decide_eq_true in Hr. by destruct (H e Hin).
Qed.

Lemma countOf_positive errors r :
  1 <= countOf errors r -> exists e, e ∈ errors /\ ruleId e = r.
Proof.
  unfold countOf. intros H.
  destruct (List.filter _ errors) as [|e l] eqn:Ef; [simpl in H; lia|].
  assert (Hin : e ∈ List.filter (fun e => str_eqb (ruleId e) r) errors)
    by (rewrite Ef; apply list_elem_of_here).
  apply elem_of_filter_list in Hin as [Hin Hr]. unfold str_eqb in Hr.
  apply bool_decide_eq_true in Hr. by exists e.
Qed.

(** * The fitness *)

(** ** The terms of the fitness *)

Lemma scaleFactorOf_ge_1 Math_log2 n : (1 <= scaleFactorOf Math_log2 n)%Q.
Proof. unfold scaleFactorOf. destruct (n <=? 0); [lra | apply Q.le_max_l]. Qed.

Lemma countStaggerViolations_nonneg schedule therapists :
  0 <= countStaggerViolations schedule therapists.
Proof.
  unfold countStaggerViolations.
  generalize (List.filter (fun s => bool_decide (sessionType s = IndirectTime)) schedule).
  intros l.
  enough (H : forall (acc : Z * list (option string * Z)), 0 <= fst acc ->
            0 <= fst (fold_left (fun '(violations, teamLunches) s =>
              match getTherapistById therapists (therapistId s) with
              | Some t =>
                  if truthy (th_teamId t) then
                    let start := timeToMinutes (startTime s) in
                    let overlaps :=
                      List.filter (fun '(team, existing) =>
                        opt_eqb team (th_teamId t) && (Z.abs (existing - start) <? 30))
                        teamLunches in
                    ((if Nat.leb 1 (length overlaps) then violations + 1 else violations),
                     teamLunches ++ [(th_teamId t, start)])
                  else (violations, teamLunches)
              | None => (violations, teamLunches)
              end) l acc)) by (by apply H).
  induction l as [|s l IH]; intros [v seen] Hv; [done|].
  cbn [fold_left].
  destruct (getTherapistById therapists (therapistId s)) as [t|]; [|by apply IH].
  destruct (truthy (th_teamId t)); [|by apply IH].
  apply IH. cbn [fst] in *. destruct (Nat.leb _ _); lia.
Qed.

Lemma idleMinutes_nonneg sessions : 0 <= idleMinutes sessions.
Proof.
  induction sessions as [|a l IH]; [done|].
  destruct l as [|b r]; [done|].
  change (idleMinutes (a :: b :: r)) with
    ((let gap := timeToMinutes (startTime b) - timeToMinutes (endTime a) in
      if (0 <? gap) && negb (gap =? 30) then gap else 0) + idleMinutes (b :: r)).
  cbv zeta. destruct (0 <? _) eqn:E; cbn [andb]; [|lia].
  destruct (negb _); lia.
Qed.

Lemma fold_add_ge {A} (g : A -> Z) l a :
  (forall t, 0 <= g t) ->
  a <= fold_left (fun acc t => acc + g t) l a /\
  forall t, t ∈ l -> a + g t <= fold_left (fun acc t => acc + g t) l a.
Proof.
  intros Hg. revert a. induction l as [|x l IH]; intros a; cbn [fold_left].
  - split; [lia|]. intros t Ht. by apply elem_of_nil in Ht.
  - destruct (IH (a + g x)) as [H1 H2]. pose proof (Hg x). split; [lia|].
    intros t Ht. apply elem_of_cons in Ht as [->|Ht]; [lia|].
    specialize (H2 t Ht). lia.
Qed.

Lemma fold_add_zero {A} (g : A -> Z) l a :
  (forall t, t ∈ l -> g t = 0) -> fold_left (fun acc t => acc + g t) l a = a.
Proof.
  revert a. induction l as [|x l IH]; intros a H; cbn [fold_left]; [done|].
  rewrite IH; [|intros t Ht; apply H; by apply list_elem_of_further].
  rewrite (H x); [lia|apply list_elem_of_here].
Qed.

Lemma inject_Z_nonneg z : 0 <= z -> (0 <= inject_Z z)%Q.
Proof. intros H. unfold Qle, inject_Z. simpl. lia. Qed.

Lemma inject_Z_ge_1 z : 1 <= z -> (1 <= inject_Z z)%Q.
Proof. intros H. unfold Qle, inject_Z. simpl. lia. Qed.

Lemma inject_Z_zero z : (inject_Z z == 0)%Q -> z = 0.
Proof. unfold Qeq, inject_Z. simpl. lia. Qed.

Lemma inject_Z_lt_1 z : (inject_Z z < 1)%Q -> z < 1.
Proof. unfold Qlt, inject_Z. simpl. lia. Qed.

(** The weighted sum of [calculateFitness], in the order of the source. *)
Definition weighted (s n10 q1 q2 q3 q4 q5 q6 q7 q8 q9 q10 q11 q12 q13 q14 : Q) : Q :=
  (5000 * s * q1 + 5000 * s * q2 + 6000 * s * q3 + 4000 * s * q4 + 4500 * s * q5 +
   2500 * s * q6 + 200 * q7 + 800 * s * q8 + 1000 * s * q9 + 1000 * s * q10 +
   2000 * s * q11 + 2000 * s * n10 * q12 + q13 * 10 + 100 * q14)%Q.

Lemma weighted_lower s n10 q1 q2 q3 q4 q5 q6 q7 q8 q9 q10 q11 q12 q13 q14 :
  (1 <= s)%Q -> (0 <= n10)%Q ->
  (0 <= q1)%Q -> (0 <= q2)%Q -> (0 <= q3)%Q -> (0 <= q4)%Q -> (0 <= q5)%Q ->
  (0 <= q6)%Q -> (0 <= q7)%Q -> (0 <= q8)%Q -> (0 <= q9)%Q -> (0 <= q10)%Q ->
  (0 <= q11)%Q -> (0 <= q12)%Q -> (0 <= q13)%Q -> (0 <= q14)%Q ->
  let F := weighted s n10 q1 q2 q3 q4 q5 q6 q7 q8 q9 q10 q11 q12 q13 q14 in
  (0 <= F /\ 5000 * q1 <= F /\ 5000 * q2 <= F /\ 6000 * q3 <= F /\ 4000 * q4 <= F /\
   4500 * q5 <= F /\ 2500 * q6 <= F /\ 200 * q7 <= F /\ 800 * q8 <= F /\
   1000 * q9 <= F /\ 1000 * q10 <= F /\ 2000 * q11 <= F /\ 2000 * (n10 * q12) <= F /\
   10 * q13 <= F /\ 100 * q14 <= F)%Q.
Proof.
  intros Hs Hn H1 H2 H3 H4 H5 H6 H7 H8 H9 H10 H11 H12 H13 H14. unfold weighted.
  assert (q1 <= s * q1)%Q by nra. assert (q2 <= s * q2)%Q by nra.
  assert (q3 <= s * q3)%Q by nra. assert (q4 <= s * q4)%Q by nra.
  assert (q5 <= s * q5)%Q by nra. assert (q6 <= s * q6)%Q by nra.
  assert (q8 <= s * q8)%Q by nra. assert (q9 <= s * q9)%Q by nra.
  assert (q10 <= s * q10)%Q by nra. assert (q11 <= s * q11)%Q by nra.
  assert (Hc : (0 <= n10 * q12)%Q) by nra.
  assert (n10 * q12 <= s * (n10 * q12))%Q by nra.
  cbv zeta. repeat split; lra.
Qed.

Lemma weighted_zero s n10 q1 q2 q3 q4 q5 q6 q7 q8 q9 q10 q11 q12 q13 q14 :
  (q1 == 0)%Q -> (q2 == 0)%Q -> (q3 == 0)%Q -> (q4 == 0)%Q -> (q5 == 0)%Q ->
  (q6 == 0)%Q -> (q7 == 0)%Q -> (q8 == 0)%Q -> (q9 == 0)%Q -> (q10 == 0)%Q ->
  (q11 == 0)%Q -> (n10 * q12 == 0)%Q -> (q13 == 0)%Q -> (q14 == 0)%Q ->
  (weighted s n10 q1 q2 q3 q4 q5 q6 q7 q8 q9 q10 q11 q12 q13 q14 == 0)%Q.
Proof.
  intros H1 H2 H3 H4 H5 H6 H7 H8 H9 H10 H11 H12 H13 H14. unfold weighted.
  rewrite <- (Qmult_assoc (2000 * s) n10 q12).
  rewrite H1, H2, H3, H4, H5, H6, H7, H8, H9, H10, H11, H12, H13, H14. ring.
Qed.

Section Fitness.

Variable Math_log2 : Z -> Q.
Variables (schedule : GeneratedSchedule) (clients : list Client)
  (therapists : list Therapist) (d : JsDate) (callouts : list Callout).

Let errors : list ValidationError :=
  validateFullSchedule schedule clients therapists (Some d)
    COMPANY_OPERATING_HOURS_START COMPANY_OPERATING_HOURS_END callouts.

Let totalIdleMinutes : Z :=
  fold_left (fun acc t => acc + idleMinutes (sessionsOf schedule (th_id t))) therapists 0.

Lemma calculateFitness_weighted :
  calculateFitness Math_log2 schedule clients therapists d callouts =
  weighted
    (scaleFactorOf Math_log2 (Z.of_nat (length clients) * Z.of_nat (length therapists)))
    (inject_Z (Z.of_nat (length clients)) / 10)
    (inject_Z (Z.min (countOf errors "CLIENT_TIME_CONFLICT") 5))
    (inject_Z (Z.min (countOf errors "THERAPIST_TIME_CONFLICT") 5))
    (inject_Z (countOf errors "SAME_CLIENT_BACK_TO_BACK"))
    (inject_Z (Z.min (countOf errors "INSURANCE_MISMATCH") 5))
    (inject_Z (Z.min (countOf errors "SESSION_OVERLAPS_CALLOUT") 5))
    (inject_Z (Z.min (countOf errors "MISSING_LUNCH_BREAK") (Z.of_nat (length therapists))))
    (inject_Z (countOf errors "LUNCH_OUTSIDE_WINDOW"))
    (inject_Z (countStaggerViolations schedule therapists))
    (inject_Z (countOf errors "ABA_DURATION_TOO_SHORT"))
    (inject_Z (countOf errors "ABA_DURATION_TOO_LONG"))
    (inject_Z (countOf errors "MD_MEDICAID_LIMIT_VIOLATED"))
    (inject_Z (Z.min (countOf errors "CLIENT_COVERAGE_GAP_AT_TIME" / 4)
                     (Z.of_nat (length clients) * 2)))
    (inject_Z totalIdleMinutes)
    (inject_Z (countOf errors "TEAM_ALIGNMENT_MISMATCH")).
Proof. reflexivity. Qed.

Lemma not_listed (r : string) (l : list string) : bool_decide (r ∈ l) = false -> r ∉ l.
Proof. apply bool_decide_eq_false. Qed.

Lemma missing_lunch_origin :
  1 <= countOf errors "MISSING_LUNCH_BREAK" -> 1 <= Z.of_nat (length therapists).
Proof.
  intros H. apply countOf_positive in H as (e & He & Hr).
  apply validateFullSchedule_origin in He as [He|[[_ He]|[He _]]].
  - rewrite Hr in He. by apply not_listed in He.
  - destruct therapists; [done|]. simpl. lia.
  - rewrite Hr in He. by apply not_listed in He.
Qed.

Lemma coverage_gap_origin :
  1 <= countOf errors "CLIENT_COVERAGE_GAP_AT_TIME" -> 1 <= Z.of_nat (length clients).
Proof.
  intros H. apply countOf_positive in H as (e & He & Hr).
  apply validateFullSchedule_origin in He as [He|[[He _]|[_ He]]].
  - rewrite Hr in He. by apply not_listed in He.
  - rewrite Hr in He. by apply not_listed in He.
  - destruct clients; [done|]. simpl. lia.
Qed.

Lemma team_alignment_never : countOf errors "TEAM_ALIGNMENT_MISMATCH" = 0.
Proof.
  apply countOf_zero. intros e He Hr.
  apply validateFullSchedule_origin in He as [He|[[He _]|[He _]]];
    rewrite Hr in He; by apply not_listed in He.
Qed.

Lemma totalIdleMinutes_nonneg : 0 <= totalIdleMinutes.
Proof.
  apply (fold_add_ge (fun t => idleMinutes (sessionsOf schedule (th_id t)))).
  intros t. apply idleMinutes_nonneg.
Qed.

Lemma fitness_lower :
  let F := calculateFitness Math_log2 schedule clients therapists d callouts in
  (0 <= F /\
   5000 * inject_Z (Z.min (countOf errors "CLIENT_TIME_CONFLICT") 5) <= F /\
   5000 * inject_Z (Z.min (countOf errors "THERAPIST_TIME_CONFLICT") 5) <= F /\
   6000 * inject_Z (countOf errors "SAME_CLIENT_BACK_TO_BACK") <= F /\
   4000 * inject_Z (Z.min (countOf errors "INSURANCE_MISMATCH") 5) <= F /\
   4500 * inject_Z (Z.min (countOf errors "SESSION_OVERLAPS_CALLOUT") 5) <= F /\
   2500 * inject_Z (Z.min (countOf errors "MISSING_LUNCH_BREAK")
                          (Z.of_nat (length therapists))) <= F /\
   200 * inject_Z (countOf errors "LUNCH_OUTSIDE_WINDOW") <= F /\
   800 * inject_Z (countStaggerViolations schedule therapists) <= F /\
   1000 * inject_Z (countOf errors "ABA_DURATION_TOO_SHORT") <= F /\
   1000 * inject_Z (countOf errors "ABA_DURATION_TOO_LONG") <= F /\
   2000 * inject_Z (countOf errors "MD_MEDICAID_LIMIT_VIOLATED") <= F /\
   2000 * (inject_Z (Z.of_nat (length clients)) / 10 *
           inject_Z (Z.min (countOf errors "CLIENT_COVERAGE_GAP_AT_TIME" / 4)
                           (Z.of_nat (length clients) * 2))) <= F /\
   10 * inject_Z totalIdleMinutes <= F /\
   100 * inject_Z (countOf errors "TEAM_ALIGNMENT_MISMATCH") <= F)%Q.
Proof.
  rewrite calculateFitness_weighted.
  pose proof (countOf_nonneg errors) as Hc.
  apply weighted_lower.
  - apply scaleFactorOf_ge_1.
  - apply Qle_shift_div_l; [reflexivity|]. rewrite Qmult_0_l. apply inject_Z_nonneg. lia.
  - apply inject_Z_nonneg. specialize (Hc "CLIENT_TIME_CONFLICT"%string). lia.
  - apply inject_Z_nonneg. specialize (Hc "THERAPIST_TIME_CONFLICT"%string). lia.
  - apply inject_Z_nonneg, Hc.
  - apply inject_Z_nonneg. specialize (Hc "INSURANCE_MISMATCH"%string). lia.
  - apply inject_Z_nonneg. specialize (Hc "SESSION_OVERLAPS_CALLOUT"%string). lia.
  - apply inject_Z_nonneg. specialize (Hc "MISSING_LUNCH_BREAK"%string). lia.
  - apply inject_Z_nonneg, Hc.
  - apply inject_Z_nonneg, countStaggerViolations_nonneg.
  - apply inject_Z_nonneg, Hc.
  - apply inject_Z_nonneg, Hc.
  - apply inject_Z_nonneg, Hc.
  - apply inject_Z_nonneg. specialize (Hc "CLIENT_COVERAGE_GAP_AT_TIME"%string).
    pose proof (Z.div_pos _ 4 Hc). lia.
  - apply inject_Z_nonneg, totalIdleMinutes_nonneg.
  - apply inject_Z_nonneg, Hc.
Qed.

End Fitness.

Lemma Qmult_lt_1 (w q : Q) : (500 <= w)%Q -> (w * q < 500)%Q -> (q < 1)%Q.
Proof. intros Hw H. nra. Qed.

Lemma Qmult_le_0 (w q : Q) : (0 < w)%Q -> (0 <= q)%Q -> (w * q <= 0)%Q -> (q == 0)%Q.
Proof. intros Hw Hq H. nra. Qed.

Lemma coverage_term (n q F : Q) :
  (1 <= n)%Q -> (1 <= q)%Q -> (2000 * (n / 10 * q) <= F)%Q -> (F == 0)%Q -> False.
Proof.
  intros Hn Hq HF H0. assert (H3 : (1 <= n * q)%Q) by nra.
  assert (H4 : (2000 * (n / 10 * q) == 200 * (n * q))%Q) by field.
  rewrite H4, H0 in HF. set (p := (n * q)%Q) in *. lra.
Qed.

(** X12: a fitness below 500, the value under which [runCsoAlgorithm] reports
    success, leaves no error of a rule of [heavyRules] (time conflicts, sessions
    back to back, insurance mismatch, callout overlap, missing lunch, ABA
    duration, Medicaid limit), no lunch stagger violation, at most two lunches
    outside the window and less than 50 idle minutes for every therapist. *)
Theorem calculateFitness_below_500 (Math_log2 : Z -> Q) (schedule : GeneratedSchedule)
    (clients : list Client) (therapists : list Therapist) (d : JsDate)
    (callouts : list Callout) :
  let errors :=
    validateFullSchedule schedule clients therapists (Some d)
      COMPANY_OPERATING_HOURS_START COMPANY_OPERATING_HOURS_END callouts in
  (calculateFitness Math_log2 schedule clients therapists d callouts < 500)%Q ->
  (forall r, r ∈ heavyRules -> countOf errors r = 0) /\
  countStaggerViolations schedule therapists = 0 /\
  countOf errors "LUNCH_OUTSIDE_WINDOW" <= 2 /\
  (forall t, t ∈ therapists -> idleMinutes (sessionsOf schedule (th_id t)) < 50).
Proof.
  intros errors HF.
  pose proof (fitness_lower Math_log2 schedule clients therapists d callouts) as L.
  cbv zeta in L. fold errors in L.
  destruct L as (_ & L1 & L2 & L3 & L4 & L5 & L6 & L7 & L8 & L9 & L10 & L11 & _ & L13 & _).
  pose proof (countOf_nonneg errors) as Hc.
  pose proof (missing_lunch_origin schedule clients therapists d callouts) as Hm.
  cbv zeta in Hm. fold errors in Hm.
  assert (small : forall w z, (500 <= w)%Q ->
            (w * inject_Z z <= calculateFitness Math_log2 schedule clients therapists d callouts)%Q ->
            z < 1).
  { intros w z Hw Hz. apply inject_Z_lt_1, (Qmult_lt_1 w); [done|]. lra. }
  split; [|split; [|split]].
  - intros r Hr. unfold heavyRules in Hr.
    repeat (apply elem_of_cons in Hr as [->|Hr]); [..|by apply elem_of_nil in Hr].
    + apply small in L1; [|lra]. specialize (Hc "CLIENT_TIME_CONFLICT"%string). lia.
    + apply small in L2; [|lra]. specialize (Hc "THERAPIST_TIME_CONFLICT"%string). lia.
    + apply small in L3; [|lra]. specialize (Hc "SAME_CLIENT_BACK_TO_BACK"%string). lia.
    + apply small in L4; [|lra]. specialize (Hc "INSURANCE_MISMATCH"%string). lia.
    + apply small in L5; [|lra]. specialize (Hc "SESSION_OVERLAPS_CALLOUT"%string). lia.
    + apply small in L6; [|lra]. specialize (Hc "MISSING_LUNCH_BREAK"%string). lia.
    + apply small in L9; [|lra]. specialize (Hc "ABA_DURATION_TOO_SHORT"%string). lia.
    + apply small in L10; [|lra]. specialize (Hc "ABA_DURATION_TOO_LONG"%string). lia.
    + apply small in L11; [|lra]. specialize (Hc "MD_MEDICAID_LIMIT_VIOLATED"%string). lia.
  - apply small in L8; [|lra]. pose proof (countStaggerViolations_nonneg schedule therapists). lia.
  - assert (H : (inject_Z (countOf errors "LUNCH_OUTSIDE_WINDOW") < inject_Z 3)%Q).
    { change (inject_Z 3) with 3%Q. lra. }
    rewrite <- Zlt_Qlt in H. lia.
  - intros t Ht.
    pose proof (proj2 (fold_add_ge (fun t => idleMinutes (sessionsOf schedule (th_id t)))
                  therapists 0 (fun t => idleMinutes_nonneg _)) t Ht) as Hi.
    cbv beta in Hi. set (total := fold_left _ therapists 0) in L13, Hi.
    assert (H : (inject_Z total < inject_Z 50)%Q).
    { change (inject_Z 50) with 50%Q. lra. }
    rewrite <- Zlt_Qlt in H. lia.
Qed.

(** X13: the fitness is never negative, and the validator never reports
    TEAM_ALIGNMENT_MISMATCH, so that term is always zero.  The fitness is zero,
    which stops [runCsoAlgorithm] early, exactly when no rule of [heavyRules]
    and no LUNCH_OUTSIDE_WINDOW is reported, no lunch stagger is counted, no
    therapist has idle minutes and fewer than four coverage gaps are reported:
    up to three gaps of a quarter of an hour cost nothing. *)
Theorem calculateFitness_zero (Math_log2 : Z -> Q) (schedule : GeneratedSchedule)
    (clients : list Client) (therapists : list Therapist) (d : JsDate)
    (callouts : list Callout) :
  let errors :=
    validateFullSchedule schedule clients therapists (Some d)
      COMPANY_OPERATING_HOURS_START COMPANY_OPERATING_HOURS_END callouts in
  let F := calculateFitness Math_log2 schedule clients therapists d callouts in
  (0 <= F)%Q /\
  countOf errors "TEAM_ALIGNMENT_MISMATCH" = 0 /\
  ((F == 0)%Q <->
   (forall r, r ∈ "LUNCH_OUTSIDE_WINDOW"%string :: heavyRules -> countOf errors r = 0) /\
   countStaggerViolations schedule therapists = 0 /\
   countOf errors "CLIENT_COVERAGE_GAP_AT_TIME" < 4 /\
   (forall t, t ∈ therapists -> idleMinutes (sessionsOf schedule (th_id t)) = 0)).
Proof.
  intros errors F.
  pose proof (fitness_lower Math_log2 schedule clients therapists d callouts) as L.
  cbv zeta in L. fold errors in L. fold F in L.
  destruct L as (L0 & L1 & L2 & L3 & L4 & L5 & L6 & L7 & L8 & L9 & L10 & L11 & L12 & L13 & _).
  pose proof (countOf_nonneg errors) as Hc.
  pose proof (missing_lunch_origin schedule clients therapists d callouts) as Hm.
  pose proof (coverage_gap_origin schedule clients therapists d callouts) as Hg.
  pose proof (team_alignment_never schedule clients therapists d callouts) as Ht.
  cbv zeta in Hm, Hg, Ht. fold errors in Hm, Hg, Ht.
  pose proof (countStaggerViolations_nonneg schedule therapists) as Hs.
  pose proof (fold_add_ge (fun t => idleMinutes (sessionsOf schedule (th_id t)))
                therapists 0 (fun t => idleMinutes_nonneg _)) as [Hi0 Hi].
  cbv beta in Hi0, Hi.
  split; [done|]. split; [done|]. split.
  - intros HF.
    assert (zero : forall w z, (0 < w)%Q -> 0 <= z -> (w * inject_Z z <= F)%Q -> z = 0).
    { intros w z Hw Hz Hle. apply inject_Z_zero, (Qmult_le_0 w); [done| |lra].
      by apply inject_Z_nonneg. }
    split; [|split; [|split]].
    + intros r Hr. unfold heavyRules in Hr.
      repeat (apply elem_of_cons in Hr as [->|Hr]); [..|by apply elem_of_nil in Hr].
      * by apply zero in L7; [|lra|].
      * apply zero in L1; [|lra|]; specialize (Hc "CLIENT_TIME_CONFLICT"%string); lia.
      * apply zero in L2; [|lra|]; specialize (Hc "THERAPIST_TIME_CONFLICT"%string); lia.
      * by apply zero in L3; [|lra|].
      * apply zero in L4; [|lra|]; specialize (Hc "INSURANCE_MISMATCH"%string); lia.
      * apply zero in L5; [|lra|]; specialize (Hc "SESSION_OVERLAPS_CALLOUT"%string); lia.
      * apply zero in L6; [|lra|]; specialize (Hc "MISSING_LUNCH_BREAK"%string); lia.
      * by apply zero in L9; [|lra|].
      * by apply zero in L10; [|lra|].
      * by apply zero in L11; [|lra|].
    + by apply zero in L8; [|lra|].
    + specialize (Hc "CLIENT_COVERAGE_GAP_AT_TIME"%string).
      destruct (Z_lt_le_dec (countOf errors "CLIENT_COVERAGE_GAP_AT_TIME") 4) as [|Hge];
        [done|exfalso].
      assert (Hn : 1 <= Z.of_nat (length clients)) by (apply Hg; lia).
      assert (Hq : 1 <= countOf errors "CLIENT_COVERAGE_GAP_AT_TIME" / 4)
        by (apply Z.div_le_lower_bound; lia).
      assert (H1 : (1 <= inject_Z (Z.of_nat (length clients)))%Q)
        by (by apply inject_Z_ge_1).
      assert (H2 : (1 <= inject_Z (Z.min (countOf errors "CLIENT_COVERAGE_GAP_AT_TIME" / 4)
                                         (Z.of_nat (length clients) * 2)))%Q)
        by (apply inject_Z_ge_1; lia).
      apply (coverage_term _ _ _ H1 H2 L12 HF).
    + intros t Hin. specialize (Hi t Hin). pose proof (idleMinutes_nonneg (sessionsOf schedule (th_id t))).
      apply zero in L13; [|lra|done]. lia.
  - intros (Hr & Hst & Hgap & Hidle). unfold F. rewrite calculateFitness_weighted.
    fold errors.
    assert (Hz : forall r, r ∈ "LUNCH_OUTSIDE_WINDOW"%string :: heavyRules ->
              countOf errors r = 0) by done.
    assert (Hz5 : forall r cap, r ∈ "LUNCH_OUTSIDE_WINDOW"%string :: heavyRules ->
              0 <= cap -> Z.min (countOf errors r) cap = 0)
      by (intros r cap Hin Hcap; rewrite (Hr r Hin); lia).
    unfold heavyRules in Hz, Hz5.
    apply weighted_zero.
    + rewrite Hz5; [done| |lia].
      repeat (first [apply list_elem_of_here | apply list_elem_of_further]).
    + rewrite Hz5; [done| |lia].
      repeat (first [apply list_elem_of_here | apply list_elem_of_further]).
    + rewrite Hz; [done|].
      repeat (first [apply list_elem_of_here | apply list_elem_of_further]).
    + rewrite Hz5; [done| |lia].
      repeat (first [apply list_elem_of_here | apply list_elem_of_further]).
    + rewrite Hz5; [done| |lia].
      repeat (first [apply list_elem_of_here | apply list_elem_of_further]).
    + rewrite Hz5; [done| |lia].
      repeat (first [apply list_elem_of_here | apply list_elem_of_further]).
    + rewrite Hz; [done|].
      repeat (first [apply list_elem_of_here | apply list_elem_of_further]).
    + by rewrite Hst.
    + rewrite Hz; [done|].
      repeat (first [apply list_elem_of_here | apply list_elem_of_further]).
    + rewrite Hz; [done|].
      repeat (first [apply list_elem_of_here | apply list_elem_of_further]).
    + rewrite Hz; [done|].
      repeat (first [apply list_elem_of_here | apply list_elem_of_further]).
    + specialize (Hc "CLIENT_COVERAGE_GAP_AT_TIME"%string).
      rewrite (Z.div_small (countOf errors "CLIENT_COVERAGE_GAP_AT_TIME") 4); [|lia].
      rewrite Z.min_l; [|lia]. change (inject_Z 0) with 0%Q. ring.
    + rewrite fold_add_zero; [done|]. intros t Hin. by apply Hidle.
    + by rewrite Ht.
Qed.

(** The theorem for a Thursday on which one therapist sees the one client from
    09:00 to 12:00 and takes lunch at 12:15, the client being called out from
    12:00 on: the fitness is 350, for a quarter of an hour idle and four
    reported coverage gaps. *)
Lemma calculateFitness_below_500_witness :
  let c1 := {| cl_id := "c1"; cl_name := "Ann"; cl_teamId := None;
               insuranceRequirements := []; alliedHealthNeeds := [] |} in
  let t1 := {| th_id := "t1"; th_name := "Bo"; th_role := "RBT"; th_teamId := None;
               qualifications := []; canProvideAlliedHealth := [] |} in
  let co := {| co_id := "k"; entityType := EClient; entityId := "c1"; entityName := "Ann";
               startDate := Some 0; endDate := Some 0;
               co_startTime := {| mins := 720; half := false |};
               co_endTime := {| mins := 1020; half := false |}; reason := None |} in
  let s1 := {| id := "a"; clientName := Some "Ann"%string; clientId := Some "c1"%string;
               therapistName := "Bo"; therapistId := "t1"; day := THURSDAY;
               startTime := {| mins := 540; half := false |};
               endTime := {| mins := 720; half := false |}; sessionType := ABA |} in
  let s2 := {| id := "b"; clientName := None; clientId := None;
               therapistName := "Bo"; therapistId := "t1"; day := THURSDAY;
               startTime := {| mins := 735; half := false |};
               endTime := {| mins := 765; half := false |}; sessionType := IndirectTime |} in
  let errors :=
    validateFullSchedule [s1; s2] [c1] [t1] (Some {| dayNumber := 0 |})
      COMPANY_OPERATING_HOURS_START COMPANY_OPERATING_HOURS_END [co] in
  (calculateFitness (fun _ => 0%Q) [s1; s2] [c1] [t1] {| dayNumber := 0 |} [co] == 350)%Q /\
  (forall r, r ∈ heavyRules -> countOf errors r = 0) /\
  countStaggerViolations [s1; s2] [t1] = 0 /\
  countOf errors "LUNCH_OUTSIDE_WINDOW" <= 2 /\
  (forall t, t ∈ [t1] -> idleMinutes (sessionsOf [s1; s2] (th_id t)) < 50).
Proof.
  intros c1 t1 co s1 s2 errors. split; [vm_compute; reflexivity|].
  apply (calculateFitness_below_500 (fun _ => 0%Q) [s1; s2] [c1] [t1] {| dayNumber := 0 |} [co]).
  vm_compute. reflexivity.
Defined.

(** * The lunch repair *)

(** ** The loops of the lunch repair *)

Lemma mapM_pure {A B} (f : A -> M B) (g : A -> B) (xs : list A) (o : Oracle) :
  (forall x o, f x o = Some (g x, o)) -> mapM f xs o = Some (map g xs, o).
Proof.
  intros Hf. induction xs as [|x r IH]; [done|].
  cbn [mapM map]. unfold bind. rewrite Hf, IH. done.
Qed.

Lemma firstOf_Some {A B} (attempt : A -> option B) (xs : list A) (y : B) :
  firstOf attempt xs = Some y -> exists x, x ∈ xs /\ attempt x = Some y.
Proof.
  induction xs as [|x r IH]; [done|]. cbn [firstOf].
  destruct (attempt x) as [z|] eqn:E.
  - intros [= <-]. exists x. split; [apply list_elem_of_here|done].
  - intros H. destruct (IH H) as (x' & Hx & Hy). exists x'. split; [|done].
    by apply list_elem_of_further.
Qed.

Lemma upFrom_spec (from to x : Z) : x ∈ upFrom from to 15 -> from <= x <= to.
Proof.
  unfold upFrom. destruct (to <? from) eqn:E; [intros H; by apply elem_of_nil in H|].
  apply Z.ltb_ge in E. intros H. apply list_elem_of_fmap in H as (k & -> & Hk).
  apply elem_of_seq in Hk.
  assert (Hq : 0 <= (to - from) / 15) by (apply Z.div_pos; lia).
  assert (Hb : Z.of_nat k <= (to - from) / 15) by lia.
  pose proof (Z.mul_div_le (to - from) 15 ltac:(lia)). lia.
Qed.

Lemma upFromQ_spec (from to x : Q) : x ∈ upFromQ from to -> (from <= x /\ x <= to)%Q.
Proof.
  unfold upFromQ, Qltb. destruct (Qle_bool from to) eqn:E; cbn [negb];
    [|intros H; by apply elem_of_nil in H].
  apply Qle_bool_iff in E. intros H. apply list_elem_of_fmap in H as (k & -> & Hk).
  apply elem_of_seq in Hk.
  assert (Hq : 0 <= Qfloor ((to - from) / 15)).
  { change 0 with (Qfloor 0). apply Qfloor_resp_le.
    apply Qle_shift_div_l; [reflexivity|]. lra. }
  assert (Hb : Z.of_nat k <= Qfloor ((to - from) / 15)) by lia.
  assert (Hk0 : (0 <= inject_Z (Z.of_nat k))%Q) by (unfold Qle; simpl; lia).
  assert (Hk1 : (inject_Z (Z.of_nat k) <= (to - from) / 15)%Q).
  { eapply Qle_trans; [|apply Qfloor_le]. rewrite <- Zle_Qle. lia. }
  assert (Hk2 : (inject_Z (Z.of_nat k) * 15 <= to - from)%Q).
  { set (q := inject_Z (Z.of_nat k)) in *. set (w := (to - from)%Q) in *.
    assert (Hw : (w / 15 * 15 == w)%Q) by field. rewrite <- Hw.
    apply Qmult_le_compat_r; [done|]. discriminate. }
  split; lra.
Qed.

Lemma minutesToTimeQ_whole (z : Z) : minutesToTimeQ (inject_Z z) = minutesToTime z.
Proof.
  unfold minutesToTimeQ, minutesToTime. rewrite Qfloor_Z. f_equal.
  apply negb_false_iff, Qeq_bool_iff. reflexivity.
Qed.

Lemma filterIndexed_spec {A} (p : A -> bool) (xs : list A) (i : nat) (x : A) :
  (i, x) ∈ filterIndexed p xs -> xs !! i = Some x /\ p x = true.
Proof.
  unfold filterIndexed. intros H. apply elem_of_filter_list in H as [H Hp].
  split; [|done]. clear Hp.
  assert (G : forall n, (i, x) ∈ combine (seq n (length xs)) xs ->
            (n <= i)%nat /\ xs !! (i - n)%nat = Some x).
  { clear H. induction xs as [|y r IH]; intros n H; [by apply elem_of_nil in H|].
    cbn [length seq combine] in H. apply elem_of_cons in H as [[= -> ->]|H].
    - split; [lia|]. by rewrite Nat.sub_diag.
    - destruct (IH _ H) as [Hn Hl]. split; [lia|].
      replace (i - n)%nat with (S (i - S n)) by lia. done. }
  destruct (G 0%nat H) as [_ G']. by rewrite Nat.sub_0_r in G'.
Qed.

Lemma some_filter {A} (f g : A -> bool) (l : list A) :
  some (fun s => f s && g s) l = some g (List.filter f l).
Proof.
  unfold some. induction l as [|x r IH]; [done|]. cbn [existsb List.filter].
  destruct (f x); cbn [andb existsb]; by rewrite IH.
Qed.

Lemma filter_filter {A} (f g : A -> bool) (l : list A) :
  List.filter (fun s => f s && g s) l = List.filter g (List.filter f l).
Proof.
  induction l as [|x r IH]; [done|]. cbn [List.filter].
  destruct (f x); cbn [andb List.filter]; [|done]. destruct (g x); by rewrite IH.
Qed.

Section LunchStep.

Variables (tracker : AvailabilityTracker) (therapists : list Therapist) (day_ : DayOfWeek).

(** What the repair does for one therapist: nothing, a lunch at a free time,
    or a session cut in two around a lunch. *)
Definition lunchStep (i : string) (cur : GeneratedSchedule) (o : Oracle)
    (out : GeneratedSchedule) (o' : Oracle) : Prop :=
  (out = cur /\ o' = o) \/
  (exists th t,
     getTherapistById therapists i = Some th /\
     isAvailable tracker ETherapist i t (t + 30) None = true /\
     out = cur ++ [lunchEntry (freshIds o (idPos o)) th i day_
                     (minutesToTime t) (minutesToTime (t + 30))] /\
     o' = afterId o) \/
  (exists th idx session t,
     getTherapistById therapists i = Some th /\
     cur !! idx = Some session /\ therapistId session = i /\ sessionType session = ABA /\
     cutAt session t /\
     isAvailable tracker ETherapist i (Qfloor t) (Qfloor (t + 30)) (Some (id session)) = true /\
     out = <[ idx := with_endTime session (minutesToTimeQ t) ]> cur ++
           [lunchEntry (freshIds o (idPos o)) th i day_
              (minutesToTimeQ t) (minutesToTimeQ (t + 30));
            mkEntry (freshIds o (S (idPos o))) (clientName session) (clientId session)
              (therapistName session) (therapistId session) day_
              (minutesToTimeQ (t + 30)) (endTime session) ABA] /\
     o' = afterId (afterId o)).

Lemma splitAt_spec th i idx session cur t done :
  splitAt tracker (Some th) i day_ idx session cur t = Some done ->
  isAvailable tracker ETherapist i (Qfloor t) (Qfloor (t + 30)) (Some (id session)) = true /\
  forall o,
    done o = Some (<[ idx := with_endTime session (minutesToTimeQ t) ]> cur ++
                   [lunchEntry (freshIds o (idPos o)) th i day_
                      (minutesToTimeQ t) (minutesToTimeQ (t + 30));
                    mkEntry (freshIds o (S (idPos o))) (clientName session) (clientId session)
                      (therapistName session) (therapistId session) day_
                      (minutesToTimeQ (t + 30)) (endTime session) ABA],
                   afterId (afterId o)).
Proof.
  unfold splitAt. destruct (isAvailable _ _ _ _ _ _); [|done].
  intros [= <-]. split; [done|]. intros o.
  unfold bind, generateId, unwrap, ret. cbn [idPos freshIds afterId].
  by rewrite <- app_assoc.
Qed.

Lemma splitSession_spec th i mid cur idx session done :
  splitSession tracker (Some th) i day_ mid cur (idx, session) = Some done ->
  exists t, cutAt session t /\
            splitAt tracker (Some th) i day_ idx session cur t = Some done.
Proof.
  unfold splitSession.
  set (a := timeToMinutes (startTime session)). set (b := timeToMinutes (endTime session)).
  set (pref := Qmax (inject_Z (a + 60)) (Qmin (inject_Z (b - 60)) mid)).
  assert (Hpref : (inject_Z (a + 60) <= pref)%Q) by apply Q.le_max_l.
  destruct (firstOf _ (upFromQ pref _)) as [d|] eqn:E1.
  - intros [= <-]. apply firstOf_Some in E1 as (t & Ht & Hd).
    apply upFromQ_spec in Ht as [H1 H2]. exists t. split; [|done].
    split; fold a b; [lra|]. eapply Qle_trans; [exact H2|].
    rewrite <- Zle_Qle. lia.
  - intros E2. apply firstOf_Some in E2 as (t & Ht & Hd).
    apply elem_of_filter_list in Ht as [Ht Hlt].
    apply upFromQ_spec in Ht as [H1 H2]. exists t. split; [|done].
    unfold Qltb in Hlt. apply negb_true_iff in Hlt.
    assert (Hlt' : (t < pref)%Q).
    { apply Qnot_le_lt. intros Hle. apply Qle_bool_iff in Hle. congruence. }
    assert (Hlow : (inject_Z (a + 60) <= t)%Q).
    { eapply Qle_trans; [|exact H1]. rewrite <- Zle_Qle. lia. }
    split; fold a b; [done|].
    unfold pref in Hlt'.
    destruct (Q.max_spec (inject_Z (a + 60)) (Qmin (inject_Z (b - 60)) mid))
      as [[_ Hm]|[_ Hm]]; rewrite Hm in Hlt'; [|lra].
    pose proof (Q.le_min_l (inject_Z (b - 60)) mid). lra.
Qed.

Lemma fixLunchFor_spec i cur o :
  is_Some (getTherapistById therapists i) ->
  exists out o',
    fixLunchFor tracker therapists day_ cur i o = Some (out, o') /\
    lunchStep i cur o out o' /\
    (therapistHasLunch cur i = true \/ workMinutes cur i < 300 -> out = cur /\ o' = o).
Proof.
  intros [th Hth]. unfold fixLunchFor. fold (workMinutes cur i).
  destruct (workMinutes cur i <? 300) eqn:Ew.
  { exists cur, o. split; [done|]. split; [by left|done]. }
  apply Z.ltb_ge in Ew.
  destruct (therapistHasLunch cur i) eqn:El.
  { exists cur, o. split; [done|]. split; [by left|done]. }
  assert (Hlazy : forall out o', out = out ->
            (false = true \/ workMinutes cur i < 300 -> out = cur /\ o' = o)).
  { intros out o' _ [?|?]; [done|lia]. }
  rewrite Hth.
  destruct (sessionsOf cur i) as [|first rest] eqn:Es.
  { exists cur, o. split; [done|]. split; [by left|by apply Hlazy]. }
  destruct (last (first :: rest)) as [lastSession|] eqn:Elast;
    [|exists cur, o; split; [done|]; split; [by left|by apply Hlazy]].
  cbv zeta. unfold bind at 1.
  erewrite (mapM_pure _ (fun time => {| lc_time := time; lc_score := _ |}));
    [|intros x o1; reflexivity].
  match goal with
  | |- context [find_ ?p (take 5 ?l)] => destruct (find_ p (take 5 l)) as [c|] eqn:Ef
  end.
  - apply find_Some_elem in Ef as [Hin Hav].
    eexists _, _. split; [reflexivity|]. split; [|by apply Hlazy].
    right. left. exists th, (lc_time c). split; [done|]. split; [done|]. done.
  - match goal with
    | |- context [firstOf ?f ?l] => destruct (firstOf f l) as [d|] eqn:Ed
    end.
    + apply firstOf_Some in Ed as ([idx session] & Hin & Hd).
      apply elem_of_sortBy, filterIndexed_spec in Hin as [Hidx Hp].
      apply andb_true_iff in Hp as [Hp _]. apply andb_true_iff in Hp as [Hp1 Hp2].
      apply bool_decide_eq_true in Hp2. unfold str_eqb in Hp1.
      apply bool_decide_eq_true in Hp1.
      apply splitSession_spec in Hd as (t & Hcut & Hd).
      apply splitAt_spec in Hd as [Hav Hd].
      eexists _, _. split; [apply Hd|]. split; [|by apply Hlazy].
      right. right. exists th, idx, session, t. done.
    + exists cur, o. split; [done|]. split; [by left|by apply Hlazy].
Qed.

End LunchStep.

Lemma minutesToTimeQ_comp (x y : Q) : (x == y)%Q -> minutesToTimeQ x = minutesToTimeQ y.
Proof.
  intros H. unfold minutesToTimeQ. rewrite (Qfloor_comp _ _ H). f_equal. f_equal.
  destruct (Qeq_bool x _) eqn:E1, (Qeq_bool y _) eqn:E2; try done.
  - apply Qeq_bool_iff in E1. rewrite H in E1. apply Qeq_bool_iff in E1. congruence.
  - apply Qeq_bool_iff in E2.
    assert (E3 : (x == inject_Z (Qfloor y))%Q) by (by rewrite H).
    apply Qeq_bool_iff in E3. congruence.
Qed.

Lemma lunchCut_refl (l : list ScheduleEntry) : Forall2 lunchCut l l.
Proof. induction l; constructor; [by left|done]. Qed.

Lemma lunchCut_therapist e e' : lunchCut e e' -> therapistId e' = therapistId e.
Proof. intros [->|(_ & t & _ & ->)]; done. Qed.

Lemma Forall2_insert_r {A B} (P : A -> B -> Prop) (l : list A) (k : list B) i x y :
  Forall2 P l k -> l !! i = Some x -> P x y -> Forall2 P l (<[ i := y ]> k).
Proof.
  intros H. revert i. induction H as [|a b l k Hab H IH]; intros i Hi Hxy; [done|].
  destruct i as [|i]; cbn in *.
  - injection Hi as ->. by constructor.
  - constructor; [done|]. by apply IH.
Qed.

Lemma untouched_filter i schedule kept added :
  Forall2 lunchCut schedule kept -> untouchedBy i schedule kept added ->
  List.filter (fun s => str_eqb (therapistId s) i) (kept ++ added)
  = List.filter (fun s => str_eqb (therapistId s) i) schedule.
Proof.
  intros Hcut [Hk Ha]. rewrite filter_list_app.
  replace (List.filter _ added) with (@nil ScheduleEntry).
  - rewrite app_nil_r. clear Ha. induction Hcut as [|e e' l k Hc Hcut IH]; [done|].
    apply Forall2_cons in Hk as [He Hk]. cbn [List.filter].
    rewrite (lunchCut_therapist _ _ Hc). unfold str_eqb.
    destruct (bool_decide (therapistId e = i)) eqn:E.
    + apply bool_decide_eq_true in E. rewrite (He E). f_equal. by apply IH.
    + by apply IH.
  - symmetry. induction Ha as [|a l Hne Ha IH]; [done|]. cbn [List.filter].
    unfold str_eqb. by rewrite bool_decide_eq_false_2.
Qed.

Lemma afterIds_S n o : afterId (afterIds n o) = afterIds (n + 1) o.
Proof. rewrite afterId_afterIds. f_equal. lia. Qed.

Section LunchFold.

Variables (schedule : GeneratedSchedule) (therapists : list Therapist) (day_ : DayOfWeek)
          (tracker : AvailabilityTracker) (o0 : Oracle).

Definition lunchOf (i : string) (a : ScheduleEntry) : bool :=
  str_eqb (therapistId a) i && bool_decide (sessionType a = IndirectTime).

Definition LunchInv (done : list string) (cur : GeneratedSchedule) (o : Oracle) : Prop :=
  exists kept added,
    cur = kept ++ added /\ o = afterIds (length added) o0 /\
    map id added = map (freshIds o0) (seq (idPos o0) (length added)) /\
    Forall2 lunchCut schedule kept /\
    Forall (lunchAdded schedule therapists tracker day_) added /\
    (forall i, i ∉ done -> untouchedBy i schedule kept added) /\
    (forall i, therapistHasLunch schedule i = true \/ workMinutes schedule i < 300 ->
               untouchedBy i schedule kept added) /\
    (forall i, (length (List.filter (lunchOf i) added) <= 1)%nat).

Lemma LunchInv_init : LunchInv [] schedule o0.
Proof.
  exists schedule, []. rewrite app_nil_r, afterIds_0.
  assert (U : forall i, untouchedBy i schedule schedule []).
  { intros i. split; [|constructor]. clear. induction schedule; constructor; done. }
  repeat split; try done; try apply U.
  - apply lunchCut_refl.
  - cbn. lia.
Qed.

Lemma lunch_lazy_same i kept added :
  Forall2 lunchCut schedule kept -> untouchedBy i schedule kept added ->
  therapistHasLunch (kept ++ added) i = therapistHasLunch schedule i /\
  workMinutes (kept ++ added) i = workMinutes schedule i.
Proof.
  intros Hcut Hu. pose proof (untouched_filter i schedule kept added Hcut Hu) as Hf.
  unfold therapistHasLunch, workMinutes.
  rewrite !some_filter, !filter_filter, Hf. done.
Qed.

Lemma LunchInv_step done cur o i :
  LunchInv done cur o -> i ∉ done -> is_Some (getTherapistById therapists i) ->
  exists out o',
    fixLunchFor tracker therapists day_ cur i o = Some (out, o') /\
    LunchInv (i :: done) out o'.
Proof.
  intros (kept & added & -> & -> & Hid & Hcut & Hadd & Hun & Hlazy & Hone) Hi Hth.
  destruct (fixLunchFor_spec tracker therapists day_ i (kept ++ added)
              (afterIds (length added) o0) Hth) as (out & o' & E & Hstep & Hskip).
  exists out, o'. split; [done|].
  pose proof (Hun i Hi) as Hui.
  destruct (lunch_lazy_same i kept added Hcut Hui) as [Hl Hw].
  rewrite Hl, Hw in Hskip.
  assert (Hkeep : LunchInv (i :: done) (kept ++ added) (afterIds (length added) o0)).
  { exists kept, added. repeat split; try done; try (by apply Hlazy).
    - apply Hun. intros Hin. apply H. by apply list_elem_of_further.
    - apply Hun. intros Hin. apply H. by apply list_elem_of_further. }
  destruct (therapistHasLunch schedule i) eqn:Elunch;
    [destruct Hskip as [-> ->]; [by left|done]|].
  destruct (Z_lt_dec (workMinutes schedule i) 300) as [Hlow|Hwork];
    [destruct Hskip as [-> ->]; [by right|done]|].
  assert (Hother : forall j, j ∉ i :: done \/
            (therapistHasLunch schedule j = true \/ workMinutes schedule j < 300) ->
            j <> i /\ untouchedBy j schedule kept added).
  { intros j [Hj|Hj].
    - split; [intros ->; apply Hj, list_elem_of_here|].
      apply Hun. intros Hin. apply Hj. by apply list_elem_of_further.
    - split; [|by apply Hlazy]. intros ->. destruct Hj as [Hj|Hj]; [congruence|lia]. }
  assert (Hnone : forall l, Forall (fun a => therapistId a <> i) l ->
            List.filter (lunchOf i) l = []).
  { intros l Hl'. induction Hl' as [|a l Hne _ IH]; [done|]. cbn [List.filter].
    unfold lunchOf, str_eqb. by rewrite bool_decide_eq_false_2. }
  destruct Hstep as [[-> ->]|[Hstep|Hstep]]; [done| |].
  - destruct Hstep as (th & t & Eth & Hav & -> & ->).
    set (l := lunchEntry _ th i day_ _ _).
    exists kept, (added ++ [l]). rewrite length_app. cbn [length].
    split; [by rewrite app_assoc|]. split; [apply afterIds_S|]. split.
    { rewrite map_app, seq_app, map_app, Hid. f_equal. }
    split; [done|]. split.
    { apply Forall_app. split; [done|]. constructor; [|constructor].
      left. exists th, (inject_Z t), None. cbn [therapistId l lunchEntry mkEntry].
      split; [done|]. split.
      - rewrite Qfloor_Z.
        rewrite (Qfloor_comp (inject_Z t + 30) (inject_Z (t + 30)));
          [by rewrite Qfloor_Z|].
        rewrite inject_Z_plus. reflexivity.
      - unfold l, lunchEntry, mkEntry. cbn [id]. f_equal.
        + symmetry. apply minutesToTimeQ_whole.
        + rewrite <- minutesToTimeQ_whole. apply minutesToTimeQ_comp.
          rewrite inject_Z_plus. reflexivity. }
    assert (Hu : forall j, j <> i -> untouchedBy j schedule kept added ->
              untouchedBy j schedule kept (added ++ [l])).
    { intros j Hj [H1 H2]. split; [done|]. apply Forall_app. split; [done|].
      constructor; [|constructor]. cbn. congruence. }
    split; [|split].
    + intros j Hj. destruct (Hother j (or_introl Hj)) as [? ?]. by apply Hu.
    + intros j Hj. destruct (Hother j (or_intror Hj)) as [? ?]. by apply Hu.
    + intros j. rewrite filter_list_app, length_app.
      destruct (decide (j = i)) as [->|Hj].
      * rewrite (Hnone added (proj2 Hui)). cbn. destruct (lunchOf i l); cbn; lia.
      * specialize (Hone j). cbn [List.filter].
        assert (lunchOf j l = false) as ->
          by (unfold lunchOf, str_eqb; cbn; rewrite bool_decide_eq_false_2; done).
        cbn. lia.
  - destruct Hstep as (th & idx & session & t & Eth & Hidx & Hsi & Haba & Hc & Hav & -> & ->).
    destruct Hui as [Hk Ha].
    assert (Hlt : (idx < length kept)%nat).
    { destruct (le_lt_dec (length kept) idx) as [Hge|?]; [exfalso|done].
      rewrite lookup_app_r in Hidx by done.
      apply list_elem_of_lookup_2 in Hidx.
      by apply (proj1 (Forall_forall _ _) Ha) in Hidx. }
    rewrite lookup_app_l in Hidx by done.
    destruct (Forall2_lookup_r _ _ _ _ _ Hcut Hidx) as (e & He & Hce).
    destruct (Forall2_lookup_r _ _ _ _ _ Hk Hidx) as (e2 & He2 & Hke).
    rewrite He in He2. injection He2 as <-.
    assert (session = e) as ->.
    { apply Hke. rewrite <- (lunchCut_therapist _ _ Hce). done. }
    set (l := lunchEntry _ th i day_ _ _). set (r := mkEntry _ _ _ _ _ day_ _ _ ABA).
    exists (<[ idx := with_endTime e (minutesToTimeQ t) ]> kept), (added ++ [l; r]).
    rewrite length_app. cbn [length].
    split; [by rewrite insert_app_l, app_assoc by done|].
    split. { rewrite !afterId_afterIds. f_equal. lia. }
    split.
    { rewrite map_app, seq_app, map_app, Hid. f_equal. }
    split.
    { eapply Forall2_insert_r; [done|done|]. right. split; [done|]. by exists t. }
    split.
    { apply Forall_app. split; [done|]. constructor; [|constructor; [|constructor]].
      - left. exists th, t, (Some (id e)). cbn [therapistId l lunchEntry mkEntry]. done.
      - right. exists e, t. split; [by eapply list_elem_of_lookup_2|]. done. }
    assert (Hu : forall j, j <> i -> untouchedBy j schedule kept added ->
              untouchedBy j schedule (<[ idx := with_endTime e (minutesToTimeQ t) ]> kept)
                (added ++ [l; r])).
    { intros j Hj [H1 H2]. split.
      - eapply Forall2_insert_r; [done|done|]. intros Hej. congruence.
      - apply Forall_app. split; [done|].
        constructor; [|constructor; [|constructor]]; cbn; congruence. }
    split; [|split].
    + intros j Hj. destruct (Hother j (or_introl Hj)) as [? ?]. by apply Hu.
    + intros j Hj. destruct (Hother j (or_intror Hj)) as [? ?]. by apply Hu.
    + intros j. rewrite filter_list_app, length_app.
      destruct (decide (j = i)) as [->|Hj].
      * rewrite (Hnone added Ha). cbn [List.filter].
        replace (lunchOf i r) with false by (unfold lunchOf; cbn; by rewrite andb_false_r).
        destruct (lunchOf i l); cbn; lia.
      * specialize (Hone j). cbn [List.filter].
        assert (lunchOf j l = false) as ->
          by (unfold lunchOf, str_eqb; cbn; rewrite bool_decide_eq_false_2; done).
        assert (lunchOf j r = false) as ->
          by (unfold lunchOf, str_eqb; cbn; rewrite Hsi, bool_decide_eq_false_2; done).
        cbn. lia.
Qed.

Lemma LunchInv_fold ids :
  NoDup ids -> forall done cur o,
  (forall i, i ∈ ids -> (i ∉ done) /\ is_Some (getTherapistById therapists i)) ->
  LunchInv done cur o ->
  exists out o' done',
    foldM (fixLunchFor tracker therapists day_) ids cur o = Some (out, o') /\
    LunchInv done' out o'.
Proof.
  induction 1 as [|i ids Hni Hnd IH]; intros done cur o Hids Hinv.
  - exists cur, o, done. done.
  - destruct (Hids i (list_elem_of_here _ _)) as [Hi Hth].
    destruct (LunchInv_step done cur o i Hinv Hi Hth) as (c1 & o1 & E1 & H1).
    destruct (IH (i :: done) c1 o1) as (out & o' & done' & E & H); [|done|].
    + intros j Hj. destruct (Hids j (list_elem_of_further _ _ _ Hj)) as [Hjd Hjt].
      split; [|done]. intros Hin. apply elem_of_cons in Hin as [->|Hin]; done.
    + exists out, o', done'. split; [|done]. cbn [foldM]. unfold bind. by rewrite E1.
Qed.

End LunchFold.

(** X14: when the therapist of every session that is not indirect time is in
    the list, [fixLunchIssues] returns, draws no random number and one id per
    added entry.  The entries given stay in their places, an ABA session at
    most ending earlier, cut an hour or more after its start and an hour or more
    before its end; what is added comes after them, and is a lunch of thirty
    minutes for which the tracker was asked, or the rest of a cut session.  A
    therapist who has indirect time already, or works less than 300 minutes,
    keeps all entries and gets none; nobody gets a second lunch added. *)
Theorem fixLunchIssues_frame (schedule : GeneratedSchedule) (therapists : list Therapist)
    (day_ : DayOfWeek) (selectedDate : JsDate) (callouts : list Callout) (o : Oracle) :
  (forall s, s ∈ schedule -> sessionType s <> IndirectTime ->
             is_Some (getTherapistById therapists (therapistId s))) ->
  exists kept added,
    fixLunchIssues schedule therapists day_ selectedDate callouts o
    = Some (kept ++ added,
            {| draws := draws o; drawPos := drawPos o; freshIds := freshIds o;
               idPos := (idPos o + length added)%nat; today := today o |}) /\
    map id added = map (freshIds o) (seq (idPos o) (length added)) /\
    Forall2 lunchCut schedule kept /\
    Forall (lunchAdded schedule therapists (newTracker schedule callouts selectedDate) day_)
           added /\
    (forall i, therapistHasLunch schedule i = true \/ workMinutes schedule i < 300 ->
               untouchedBy i schedule kept added) /\
    (forall i, (length (List.filter (fun a => str_eqb (therapistId a) i &&
                                              bool_decide (sessionType a = IndirectTime))
                                    added) <= 1)%nat).
Proof.
  intros Hknown. unfold fixLunchIssues.
  destruct (LunchInv_fold schedule therapists day_
              (newTracker schedule callouts selectedDate) o
              (uniq (map therapistId
                 (List.filter (fun s => negb (bool_decide (sessionType s = IndirectTime)))
                              schedule)))
              (NoDup_uniq _) [] schedule o) as (out & o' & done' & E & Hinv).
  - intros i Hi. split; [by apply not_elem_of_nil|].
    apply elem_of_uniq, list_elem_of_fmap in Hi as (s & -> & Hs).
    apply elem_of_filter_list in Hs as [Hs Hn]. apply Hknown; [done|].
    apply negb_true_iff, bool_decide_eq_false in Hn. done.
  - apply LunchInv_init.
  - destruct Hinv as (kept & added & -> & -> & Hid & Hcut & Hadd & _ & Hlazy & Hone).
    exists kept, added. done.
Qed.

(** The theorem for a therapist who sees one client from 08:00 to 11:00 and
    from 11:00 to 14:00. *)
Lemma fixLunchIssues_frame_witness :
  let t1 := {| th_id := "t1"; th_name := "Bo"; th_role := "RBT"; th_teamId := None;
               qualifications := []; canProvideAlliedHealth := [] |} in
  let s1 := {| id := "a"; clientName := Some "Ann"%string; clientId := Some "c1"%string;
               therapistName := "Bo"; therapistId := "t1"; day := THURSDAY;
               startTime := {| mins := 480; half := false |};
               endTime := {| mins := 660; half := false |}; sessionType := ABA |} in
  let s2 := {| id := "b"; clientName := Some "Ann"%string; clientId := Some "c1"%string;
               therapistName := "Bo"; therapistId := "t1"; day := THURSDAY;
               startTime := {| mins := 660; half := false |};
               endTime := {| mins := 840; half := false |}; sessionType := ABA |} in
  let o := {| draws := fun _ => 0; drawPos := 0; freshIds := fun _ => "x"%string;
              idPos := 0; today := {| dayNumber := 0 |} |} in
  exists kept added,
    fixLunchIssues [s1; s2] [t1] THURSDAY {| dayNumber := 0 |} [] o
    = Some (kept ++ added,
            {| draws := draws o; drawPos := drawPos o; freshIds := freshIds o;
               idPos := (idPos o + length added)%nat; today := today o |}) /\
    Forall2 lunchCut [s1; s2] kept /\
    Forall (lunchAdded [s1; s2] [t1] (newTracker [s1; s2] [] {| dayNumber := 0 |}) THURSDAY)
           added.
Proof.
  intros t1 s1 s2 o.
  destruct (fixLunchIssues_frame [s1; s2] [t1] THURSDAY {| dayNumber := 0 |} [] o)
    as (kept & added & E & _ & Hcut & Hadd & _).
  - intros s Hs _. apply elem_of_cons in Hs as [->|Hs];
      [|apply elem_of_cons in Hs as [->|Hs]; [|by apply elem_of_nil in Hs]];
      by exists t1.
  - exists kept, added. done.
Defined.

(** * The kernel and the validator *)

(** ** What a list of errors reports *)

Lemma reports_nil r : reports [] r = false.
Proof. done. Qed.

Lemma reports_app l1 l2 r : reports (l1 ++ l2) r = reports l1 r || reports l2 r.
Proof. unfold reports, some. apply existsb_app. Qed.

Lemma reports_errorIf b r' m r :
  reports (errorIf b (mkError r' m)) r = b && str_eqb r' r.
Proof. destruct b; cbn; [by rewrite orb_false_r|done]. Qed.

Lemma reports_single r' m r : reports [mkError r' m] r = str_eqb r' r.
Proof. cbn. by rewrite orb_false_r. Qed.

Lemma reports_iff errors r :
  reports errors r = true <-> exists e, e ∈ errors /\ ruleId e = r.
Proof.
  unfold reports. rewrite some_true. split; intros (e & He & Hr); exists e; split; try done.
  - unfold str_eqb in Hr. by apply bool_decide_eq_true in Hr.
  - unfold str_eqb. by apply bool_decide_eq_true.
Qed.

Lemma reports_dedupe errors r : reports (dedupe errors) r = reports errors r.
Proof.
  apply eq_iff_eq_true. rewrite !reports_iff. unfold dedupe.
  split; intros (e & He & Hr); exists e; split; try done; by apply elem_of_uniq.
Qed.

Lemma reports_flat_map {A} (f : A -> list ValidationError) (l : list A) r :
  reports (flat_map f l) r = some (fun x => reports (f x) r) l.
Proof.
  induction l as [|x l IH]; [done|]. cbn [flat_map]. rewrite reports_app, IH. done.
Qed.

Lemma reports_renamed (g : ValidationError -> list MsgPart) errors r :
  reports (map (fun e => mkError (ruleId e) (g e)) errors) r = reports errors r.
Proof.
  induction errors as [|e l IH]; [done|].
  change (reports (mkError (ruleId e) (g e) :: map (fun e => mkError (ruleId e) (g e)) l) r
          = reports (e :: l) r).
  unfold reports, some in *. cbn [existsb]. by rewrite IH.
Qed.

Lemma reports_all {A} (g : A -> list MsgPart) (l : list A) r' r :
  reports (map (fun x => mkError r' (g x)) l) r = negb (Nat.eqb (length l) 0) && str_eqb r' r.
Proof.
  induction l as [|x l IH]; [done|].
  unfold reports, some in *. cbn [map existsb length Nat.eqb negb andb ruleId mkError].
  rewrite IH. destruct (str_eqb r' r); [done|]. by rewrite andb_false_r.
Qed.

Lemma reports_unlisted errors (rules : list string) r :
  (forall e, e ∈ errors -> ruleId e ∈ rules) -> bool_decide (r ∈ rules) = false ->
  reports errors r = false.
Proof.
  intros H Hr. apply not_true_is_false. intros Hrep.
  apply reports_iff in Hrep as (e & He & <-). apply bool_decide_eq_false in Hr.
  apply Hr. by apply H.
Qed.

(** The comparison of two rule ids that are both given. *)
Ltac compare_rules :=
  repeat match goal with
  | |- context [str_eqb (String ?a ?s) (String ?b ?t)] =>
      let v := eval vm_compute in (str_eqb (String a s) (String b t)) in
      match v with
      | true => change (str_eqb (String a s) (String b t)) with true
      | false => change (str_eqb (String a s) (String b t)) with false
      end
  end.

Ltac report :=
  rewrite ?reports_app, ?reports_errorIf, ?reports_single, ?reports_nil, ?reports_flat_map;
  compare_rules;
  rewrite ?andb_false_r, ?andb_true_r, ?orb_false_r, ?orb_false_l.

Lemma some_ext {A} (p q : A -> bool) (l : list A) :
  (forall x, p x = q x) -> some p l = some q l.
Proof. intros H. unfold some. induction l as [|x l IH]; [done|]. cbn. by rewrite H, IH. Qed.

Lemma some_none {A} (l : list A) : some (fun _ => false) l = false.
Proof. unfold some. by induction l. Qed.

Section Agreement.

Variables (entry : ScheduleEntry) (schedule : GeneratedSchedule)
          (clients : list Client) (therapists : list Therapist).
Hypothesis entry_has_id : id entry <> EmptyString.

Let errors := validateSessionEntry entry schedule clients therapists (Some (id entry)).

Lemma skip_ignored x :
  truthy (Some (id entry)) && opt_is (Some (id entry)) (id x)
  = negb (notIgnored x (Some (id entry))).
Proof.
  unfold truthy, notIgnored. rewrite negb_involutive.
  by rewrite (bool_decide_eq_false_2 _ entry_has_id).
Qed.

Lemma skip_own x :
  str_eqb (id x) (id entry) && negb (opt_is (Some (id entry)) (id entry)) = false.
Proof. unfold opt_is. rewrite bool_decide_eq_true_2 by done. apply andb_false_r. Qed.

Lemma conflict_therapist x :
  reports (conflictErrors entry (Some (id entry)) x) "THERAPIST_TIME_CONFLICT"
  = notIgnored x (Some (id entry)) &&
    str_eqb (therapistId x) (therapistId entry) &&
    bool_decide (day x = day entry) &&
    sessionsOverlap (startTime x) (endTime x) (startTime entry) (endTime entry).
Proof.
  unfold conflictErrors. rewrite skip_ignored, skip_own.
  destruct (notIgnored x _); cbn [negb andb]; [|done]. cbv zeta. report. done.
Qed.

Lemma conflict_client x :
  reports (conflictErrors entry (Some (id entry)) x) "CLIENT_TIME_CONFLICT"
  = truthy (clientId entry) &&
    (notIgnored x (Some (id entry)) &&
     opt_eqb (clientId x) (clientId entry) &&
     bool_decide (day x = day entry) &&
     sessionsOverlap (startTime x) (endTime x) (startTime entry) (endTime entry)).
Proof.
  unfold conflictErrors. rewrite skip_ignored, skip_own.
  destruct (notIgnored x _); cbn [negb andb]; [|by rewrite andb_false_r].
  cbv zeta. report. by rewrite <- !andb_assoc.
Qed.

Lemma conflict_back_to_back x :
  reports (conflictErrors entry (Some (id entry)) x) "SAME_CLIENT_BACK_TO_BACK"
  = truthy (clientId entry) &&
    (notIgnored x (Some (id entry)) &&
     str_eqb (therapistId x) (therapistId entry) &&
     opt_eqb (clientId x) (clientId entry) &&
     bool_decide (day x = day entry) &&
     (bool_decide (endTime x = startTime entry) || bool_decide (startTime x = endTime entry))).
Proof.
  unfold conflictErrors. rewrite skip_ignored, skip_own.
  destruct (notIgnored x _); cbn [negb andb]; [|by rewrite andb_false_r].
  cbv zeta. report.
  destruct (truthy (clientId entry)), (opt_eqb (clientId x) (clientId entry)),
    (str_eqb (therapistId x) (therapistId entry)); done.
Qed.

Lemma conflicts_silent orig r :
  bool_decide (r ∈ ["THERAPIST_TIME_CONFLICT"; "CLIENT_TIME_CONFLICT";
                    "SAME_CLIENT_BACK_TO_BACK"]%string) = false ->
  some (fun x => reports (conflictErrors entry orig x) r) schedule = false.
Proof.
  intros Hr. rewrite (some_ext _ (fun _ => false)); [apply some_none|].
  intros x. eapply reports_unlisted; [|exact Hr].
  intros e He. by eapply conflictErrors_rules.
Qed.

(** The pieces of the validator that cannot report the rule asked for. *)
Ltac split_cases :=
  repeat match goal with
  | |- context [match ?x with _ => _ end] => destruct x
  end.

Ltac drop_silent :=
  repeat match goal with
  | |- context [reports ?l ?r] =>
      let H := fresh in
      assert (H : reports l r = false)
        by (clear; cbv beta iota zeta delta [isAlliedHealth isBillable];
            split_cases; report; reflexivity);
      rewrite H; clear H
  end;
  rewrite ?orb_false_r, ?orb_false_l.

Ltac open_validator :=
  unfold errors, validateSessionEntry; rewrite reports_dedupe; cbv zeta;
  report; try rewrite conflicts_silent by reflexivity; drop_silent.

Lemma reports_therapist_conflict :
  reports errors "THERAPIST_TIME_CONFLICT" = hasTherapistConflict schedule entry (Some (id entry)).
Proof.
  open_validator. unfold hasTherapistConflict. apply some_ext. intros x.
  apply conflict_therapist.
Qed.

Lemma reports_client_conflict :
  reports errors "CLIENT_TIME_CONFLICT" = hasClientConflict schedule entry (Some (id entry)).
Proof.
  open_validator. unfold hasClientConflict.
  rewrite (some_ext _ _ _ conflict_client).
  destruct (truthy (clientId entry)); cbn [negb andb]; [done|apply some_none].
Qed.

Lemma reports_back_to_back :
  reports errors "SAME_CLIENT_BACK_TO_BACK"
  = hasSameClientBackToBackConflict schedule entry (Some (id entry)).
Proof.
  open_validator. unfold hasSameClientBackToBackConflict.
  rewrite (some_ext _ _ _ conflict_back_to_back).
  destruct (truthy (clientId entry)); cbn [negb andb]; [done|apply some_none].
Qed.

Lemma unmet_requirements (c : Client) (t : Therapist) :
  Nat.ltb 0 (length (List.filter (fun req => negb (includes (qualifications t) req))
                                 (insuranceRequirements c)))
  = negb (meetsRequirements c t).
Proof.
  unfold meetsRequirements, every. induction (insuranceRequirements c) as [|q l IH]; [done|].
  cbn [List.filter forallb].
  destruct (includes (qualifications t) q); cbn [negb andb]; [exact IH|reflexivity].
Qed.

Lemma reports_insurance :
  reports errors "INSURANCE_MISMATCH" = hasCredentialMismatch entry clients therapists.
Proof.
  open_validator. unfold hasCredentialMismatch.
  destruct (truthy (clientId entry)); cbn [negb]; [|done].
  destruct (find_ _ clients) as [c|]; [|by report].
  destruct (find_ _ therapists) as [t|]; [|done].
  cbv zeta. report. apply unmet_requirements.
Qed.

Lemma reports_allied_health :
  reports errors "ALLIED_HEALTH_QUALIFICATION_MISSING"
  = hasAlliedHealthQualificationMismatch entry therapists.
Proof.
  open_validator. unfold hasAlliedHealthQualificationMismatch.
  destruct (isAlliedHealth (sessionType entry)); cbn [negb]; [|done].
  destruct (find_ _ therapists) as [t|]; [|done]. cbv zeta. by report.
Qed.

Lemma reports_too_short :
  reports errors "ABA_DURATION_TOO_SHORT"
  = bool_decide (sessionType entry = ABA) &&
    (timeToMinutes (endTime entry) - timeToMinutes (startTime entry) <? 60).
Proof. open_validator. destruct (sessionType entry); by report. Qed.

Lemma reports_too_long :
  reports errors "ABA_DURATION_TOO_LONG"
  = bool_decide (sessionType entry = ABA) &&
    (180 <? timeToMinutes (endTime entry) - timeToMinutes (startTime entry)).
Proof. open_validator. destruct (sessionType entry); by report. Qed.

Lemma reports_duration :
  reports errors "ABA_DURATION_TOO_SHORT" || reports errors "ABA_DURATION_TOO_LONG" ||
  reports errors "ALLIED_HEALTH_DURATION_INVALID" || reports errors "LUNCH_DURATION_INVALID"
  = negb (isSessionDurationValid entry).
Proof.
  assert (H3 : reports errors "ALLIED_HEALTH_DURATION_INVALID"
               = isAlliedHealth (sessionType entry) &&
                 (timeToMinutes (endTime entry) - timeToMinutes (startTime entry) <=? 0)).
  { open_validator. destruct (sessionType entry); by report. }
  assert (H4 : reports errors "LUNCH_DURATION_INVALID"
               = bool_decide (sessionType entry = IndirectTime) &&
                 negb (timeToMinutes (endTime entry) - timeToMinutes (startTime entry) =? 30)).
  { open_validator. destruct (sessionType entry); by report. }
  rewrite reports_too_short, reports_too_long, H3, H4.
  unfold isSessionDurationValid. cbv zeta.
  set (d := timeToMinutes (endTime entry) - timeToMinutes (startTime entry)).
  destruct (sessionType entry); cbn; rewrite ?orb_false_r; try done.
  - destruct (Z.ltb_spec d 60), (Z.ltb_spec 180 d), (Z.leb_spec 60 d), (Z.leb_spec d 180);
      cbn; try done; lia.
  - destruct (Z.leb_spec d 0), (Z.ltb_spec 0 d); cbn; try done; lia.
  - destruct (Z.leb_spec d 0), (Z.ltb_spec 0 d); cbn; try done; lia.
Qed.

Lemma reports_operating_hours :
  sessionType entry <> AdminTime ->
  reports errors "OUTSIDE_OPERATING_HOURS" = negb (isWithinOperatingHours entry).
Proof.
  intros Hadmin. open_validator. unfold isWithinOperatingHours. cbv zeta.
  destruct (sessionType entry); try done; cbn;
    rewrite bool_decide_eq_false_2 by done;
    destruct (Z.ltb_spec (timeToMinutes (startTime entry)) 480),
             (Z.ltb_spec 1020 (timeToMinutes (endTime entry))),
             (Z.leb_spec 480 (timeToMinutes (startTime entry))),
             (Z.leb_spec (timeToMinutes (endTime entry)) 1020); cbn; try done; lia.
Qed.

Lemma reports_no_callout r :
  r ∈ ["SESSION_OVERLAPS_CALLOUT"; "WRONG_DAY_FOR_ENTRY"]%string -> reports errors r = false.
Proof.
  intros Hr. apply (reports_unlisted errors entryRules).
  - intros e He. by eapply validateSessionEntry_rules.
  - apply elem_of_cons in Hr as [->|Hr]; [done|].
    apply elem_of_cons in Hr as [->|Hr]; [done|]. by apply elem_of_nil in Hr.
Qed.

End Agreement.

Lemma some_filter_length {A} (p : A -> bool) (l : list A) :
  negb (Nat.eqb (length (List.filter p l)) 0) = some p l.
Proof.
  unfold some. induction l as [|x l IH]; [done|]. cbn [List.filter existsb].
  destruct (p x); [done|]. by rewrite IH.
Qed.

Lemma some_includes (rules : list string) (errors : list ValidationError) :
  some (fun e => includes rules (ruleId e)) errors = some (reports errors) rules.
Proof.
  apply eq_iff_eq_true. rewrite !some_true. split.
  - intros (e & He & Hin). unfold includes in Hin. apply bool_decide_eq_true in Hin.
    exists (ruleId e). split; [done|]. apply reports_iff. by exists e.
  - intros (r & Hr & Hrep). apply reports_iff in Hrep as (e & He & <-).
    exists e. split; [done|]. unfold includes. by apply bool_decide_eq_true.
Qed.

Lemma reports_entryCheck schedule clients therapists d callouts day_ entry r :
  bool_decide (r ∈ scheduleEntryRules) = false ->
  reports (entryCheck schedule clients therapists d callouts day_ entry) r
  = reports (validateSessionEntry entry schedule clients therapists (Some (id entry))) r.
Proof.
  intros Hr. apply bool_decide_eq_false in Hr. unfold entryCheck.
  rewrite !reports_app, reports_errorIf, reports_renamed, reports_all.
  assert (H1 : str_eqb "WRONG_DAY_FOR_ENTRY" r = false).
  { apply bool_decide_eq_false. intros <-. apply Hr, list_elem_of_here. }
  assert (H2 : str_eqb "SESSION_OVERLAPS_CALLOUT" r = false).
  { apply bool_decide_eq_false. intros <-. apply Hr, list_elem_of_further, list_elem_of_here. }
  rewrite H1, H2, !andb_false_r, orb_false_r. done.
Qed.

Lemma reports_callout schedule clients therapists d callouts day_ entry :
  reports (entryCheck schedule clients therapists d callouts day_ entry)
    "SESSION_OVERLAPS_CALLOUT"
  = hasCalloutConflict entry callouts d.
Proof.
  unfold entryCheck. rewrite !reports_app, reports_errorIf, reports_renamed, reports_all.
  rewrite (reports_unlisted _ entryRules "SESSION_OVERLAPS_CALLOUT");
    [|intros e He; by eapply validateSessionEntry_rules|done].
  compare_rules. rewrite andb_false_r, andb_true_r. cbn [orb].
  apply some_filter_length.
Qed.

Lemma valid_canAddEntryToSchedule entry schedule clients therapists d callouts ignore :
  valid (canAddEntryToSchedule entry schedule clients therapists d callouts ignore)
  = negb (hasTherapistConflict schedule entry ignore ||
          hasClientConflict schedule entry ignore ||
          hasSameClientBackToBackConflict schedule entry ignore ||
          hasCalloutConflict entry callouts d ||
          negb (isSessionDurationValid entry) ||
          negb (isWithinOperatingHours entry) ||
          hasCredentialMismatch entry clients therapists ||
          hasAlliedHealthQualificationMismatch entry therapists).
Proof.
  unfold canAddEntryToSchedule, valid. cbv zeta.
  generalize (hasTherapistConflict schedule entry ignore),
    (hasClientConflict schedule entry ignore),
    (hasSameClientBackToBackConflict schedule entry ignore),
    (hasCalloutConflict entry callouts d),
    (negb (isSessionDurationValid entry)),
    (negb (isWithinOperatingHours entry)),
    (hasCredentialMismatch entry clients therapists),
    (hasAlliedHealthQualificationMismatch entry therapists).
  intros b1 b2 b3 b4 b5 b6 b7 b8.
  destruct b1; [done|]. destruct b2; [done|]. destruct b3; [done|]. destruct b4; [done|].
  destruct b5; [done|]. destruct b6; [done|]. destruct b7; [done|]. destruct b8; done.
Qed.

(** X15: the kernel and the validator agree.  For an entry with an id, given
    as the entry to ignore, the validator of a schedule reports a therapist
    conflict, a client conflict, a back-to-back session, a callout overlap, an
    insurance mismatch, a missing allied health qualification or a duration
    error for the entry exactly when the kernel's check of that name holds; it
    reports OUTSIDE_OPERATING_HOURS exactly when the kernel finds the entry
    outside the operating hours, unless the entry is admin time, which only the
    kernel checks.  So but for admin time the kernel accepts the entry exactly
    when the validator reports none of [kernelRules] for it. *)
Theorem kernel_agrees_with_validator (entry : ScheduleEntry) (schedule : GeneratedSchedule)
    (clients : list Client) (therapists : list Therapist) (selectedDate : JsDate)
    (callouts : list Callout) (currentDay : DayOfWeek) :
  id entry <> EmptyString ->
  let errors := entryCheck schedule clients therapists selectedDate callouts currentDay entry in
  let ignore := Some (id entry) in
  reports errors "THERAPIST_TIME_CONFLICT" = hasTherapistConflict schedule entry ignore /\
  reports errors "CLIENT_TIME_CONFLICT" = hasClientConflict schedule entry ignore /\
  reports errors "SAME_CLIENT_BACK_TO_BACK"
    = hasSameClientBackToBackConflict schedule entry ignore /\
  reports errors "SESSION_OVERLAPS_CALLOUT" = hasCalloutConflict entry callouts selectedDate /\
  reports errors "INSURANCE_MISMATCH" = hasCredentialMismatch entry clients therapists /\
  reports errors "ALLIED_HEALTH_QUALIFICATION_MISSING"
    = hasAlliedHealthQualificationMismatch entry therapists /\
  reports errors "ABA_DURATION_TOO_SHORT" || reports errors "ABA_DURATION_TOO_LONG" ||
    reports errors "ALLIED_HEALTH_DURATION_INVALID" || reports errors "LUNCH_DURATION_INVALID"
    = negb (isSessionDurationValid entry) /\
  (sessionType entry <> AdminTime ->
   reports errors "OUTSIDE_OPERATING_HOURS" = negb (isWithinOperatingHours entry) /\
   valid (canAddEntryToSchedule entry schedule clients therapists selectedDate callouts ignore)
   = negb (some (fun e => includes kernelRules (ruleId e)) errors)).
Proof.
  intros Hid errors ignore.
  pose proof (reports_therapist_conflict entry schedule clients therapists Hid) as H1.
  pose proof (reports_client_conflict entry schedule clients therapists Hid) as H2.
  pose proof (reports_back_to_back entry schedule clients therapists Hid) as H3.
  pose proof (reports_callout schedule clients therapists selectedDate callouts currentDay entry)
    as H4.
  pose proof (reports_insurance entry schedule clients therapists) as H5.
  pose proof (reports_allied_health entry schedule clients therapists) as H6.
  pose proof (reports_duration entry schedule clients therapists) as H7.
  pose proof (reports_operating_hours entry schedule clients therapists) as H8.
  cbv zeta in H1, H2, H3, H5, H6, H7, H8. fold errors in H4. fold ignore in H1, H2, H3.
  assert (E : forall r, bool_decide (r ∈ scheduleEntryRules) = false ->
            reports errors r
            = reports (validateSessionEntry entry schedule clients therapists (Some (id entry))) r)
    by (intros r Hr; by apply reports_entryCheck).
  rewrite <- E in H1, H2, H3, H5, H6, H8 by done.
  rewrite <- (E "ABA_DURATION_TOO_SHORT"%string), <- (E "ABA_DURATION_TOO_LONG"%string),
    <- (E "ALLIED_HEALTH_DURATION_INVALID"%string), <- (E "LUNCH_DURATION_INVALID"%string)
    in H7 by done.
  do 7 (split; [done|]). intros Hadmin. specialize (H8 Hadmin). split; [done|].
  rewrite some_includes. unfold kernelRules, some. cbn [existsb].
  rewrite orb_false_r, valid_canAddEntryToSchedule.
  rewrite <- H1, <- H2, <- H3, <- H4, <- H5, <- H6, <- H7, <- H8.
  generalize (reports errors "THERAPIST_TIME_CONFLICT"),
    (reports errors "CLIENT_TIME_CONFLICT"),
    (reports errors "SAME_CLIENT_BACK_TO_BACK"),
    (reports errors "SESSION_OVERLAPS_CALLOUT"),
    (reports errors "ABA_DURATION_TOO_SHORT"),
    (reports errors "ABA_DURATION_TOO_LONG"),
    (reports errors "ALLIED_HEALTH_DURATION_INVALID"),
    (reports errors "LUNCH_DURATION_INVALID"),
    (reports errors "OUTSIDE_OPERATING_HOURS"),
    (reports errors "INSURANCE_MISMATCH"),
    (reports errors "ALLIED_HEALTH_QUALIFICATION_MISSING").
  intros b1 b2 b3 b4 b5 b6 b7 b8 b9 b10 b11. by rewrite <- !orb_assoc.
Qed.

(** The theorem for a session from 09:00 to 10:00 and a schedule in which the
    therapist has another session from 09:30 to 10:30: the validator reports the
    therapist conflict that the kernel finds. *)
Lemma kernel_agrees_with_validator_witness :
  let e1 := {| id := "a"; clientName := Some "Ann"%string; clientId := Some "c1"%string;
               therapistName := "Bo"; therapistId := "t1"; day := THURSDAY;
               startTime := {| mins := 540; half := false |};
               endTime := {| mins := 600; half := false |}; sessionType := ABA |} in
  let e2 := {| id := "b"; clientName := Some "Cy"%string; clientId := Some "c2"%string;
               therapistName := "Bo"; therapistId := "t1"; day := THURSDAY;
               startTime := {| mins := 570; half := false |};
               endTime := {| mins := 630; half := false |}; sessionType := ABA |} in
  let errors := entryCheck [e1; e2] [] [] {| dayNumber := 0 |} [] THURSDAY e1 in
  hasTherapistConflict [e1; e2] e1 (Some "a"%string) = true /\
  reports errors "THERAPIST_TIME_CONFLICT" = hasTherapistConflict [e1; e2] e1 (Some "a"%string) /\
  reports errors "CLIENT_TIME_CONFLICT" = hasClientConflict [e1; e2] e1 (Some "a"%string).
Proof.
  intros e1 e2 errors. split; [reflexivity|].
  assert (Hid : id e1 <> EmptyString) by done.
  pose proof (kernel_agrees_with_validator e1 [e1; e2] [] [] {| dayNumber := 0 |} []
                THURSDAY Hid) as H.
  cbv zeta in H. destruct H as (H1 & H2 & _). split; [exact H1|exact H2].
Defined.

(** * The constructive seeder *)

(** ** Computations that return *)

(** The computation returns from every oracle, with a result in [P]. *)
Definition returns {A} (c : M A) (P : A -> Prop) : Prop :=
  forall o, exists y o', c o = Some (y, o') /\ P y.

Lemma returns_ret {A} (x : A) (P : A -> Prop) : P x -> returns (ret x) P.
Proof. intros H o. by exists x, o. Qed.

Lemma returns_bind {A B} (c : M A) (k : A -> M B) (P : A -> Prop) (Q : B -> Prop) :
  returns c P -> (forall x, P x -> returns (k x) Q) -> returns (bind c k) Q.
Proof.
  intros Hc Hk o. destruct (Hc o) as (x & o1 & E1 & Hx).
  destruct (Hk x Hx o1) as (y & o2 & E2 & Hy).
  exists y, o2. split; [|done]. unfold bind. by rewrite E1.
Qed.

Lemma returns_weaken {A} (c : M A) (P Q : A -> Prop) :
  returns c P -> (forall x, P x -> Q x) -> returns c Q.
Proof.
  intros Hc HPQ o. destruct (Hc o) as (x & o1 & E1 & Hx). exists x, o1. split; [done|].
  by apply HPQ.
Qed.

Lemma returns_random : returns random (fun _ => True).
Proof. intros o. by eexists _, _. Qed.

Lemma returns_generateId : returns generateId (fun _ => True).
Proof. intros o. by eexists _, _. Qed.

Lemma returns_unwrap {A} (x : A) : returns (unwrap (Some x)) (fun y => y = x).
Proof. intros o. by exists x, o. Qed.

Lemma returns_foldM {A St} (f : St -> A -> M St) (Inv : St -> Prop) (xs : list A) (s : St) :
  Inv s -> (forall s x, x ∈ xs -> Inv s -> returns (f s x) Inv) ->
  returns (foldM f xs s) Inv.
Proof.
  revert s. induction xs as [|x r IH]; intros s Hs Hf; cbn [foldM].
  - by apply returns_ret.
  - eapply returns_bind; [apply Hf; [apply list_elem_of_here|done]|].
    intros s' Hs'. apply IH; [done|]. intros s2 y Hy. apply Hf. by apply list_elem_of_further.
Qed.

Lemma returns_insertRandomly {A} (x : A) (xs : list A) :
  returns (insertRandomly x xs) (fun ys => ys ≡ₚ x :: xs).
Proof.
  induction xs as [|y r IH]; cbn [insertRandomly].
  - by apply returns_ret.
  - eapply returns_bind; [apply returns_random|]. intros q _.
    destruct (Qltb q HALF).
    + eapply returns_bind; [apply IH|]. intros t Ht. apply returns_ret.
      rewrite Ht. apply Permutation_swap.
    + by apply returns_ret.
Qed.

Lemma returns_shuffle {A} (xs : list A) : returns (shuffle xs) (fun ys => ys ≡ₚ xs).
Proof.
  induction xs as [|x r IH]; cbn [shuffle].
  - by apply returns_ret.
  - eapply returns_bind; [apply IH|]. intros s Hs.
    eapply returns_weaken; [apply returns_insertRandomly|].
    intros ys Hys. cbv beta in Hys. by rewrite Hys, Hs.
Qed.

Lemma returns_firstOfM {A B} (attempt : A -> M (option B)) (xs : list A) (P : B -> Prop) :
  (forall x, x ∈ xs -> returns (attempt x) (fun y => forall b, y = Some b -> P b)) ->
  returns (firstOfM attempt xs) (fun y => forall b, y = Some b -> P b).
Proof.
  induction xs as [|x r IH]; intros H; cbn [firstOfM].
  - by apply returns_ret.
  - eapply returns_bind; [apply H, list_elem_of_here|]. intros y Hy.
    destruct y as [b|].
    + by apply returns_ret.
    + apply IH. intros z Hz. apply H. by apply list_elem_of_further.
Qed.

(** ** The placement of the sessions *)

Section Seeding.

Variables (clients : list Client) (therapists : list Therapist) (day_ : DayOfWeek)
          (selectedDate : JsDate) (callouts : list Callout)
          (learningContext : option LearningContext) (kept : list ScheduleEntry).

(** What [clientTasks] makes of a client. *)
Definition taskFor (c : Client) (task : PlanningTask) : Prop :=
  pt_clientId task = cl_id c /\ pt_clientName task = cl_name c /\
  (forall t, t ∈ possibleTherapists task -> t ∈ therapists /\ meetsRequirements c t = true) /\
  (pt_type task = ABA \/
   exists need, need ∈ alliedHealthNeeds c /\
     pt_type task = sessionTypeOf (ah_type need) /\
     minDuration task = durationMinutes need /\
     forall t, t ∈ possibleTherapists task ->
               includes (canProvideAlliedHealth t) (ah_type need) = true).

Lemma clientTasks_spec schedule c task :
  task ∈ clientTasks schedule therapists c -> taskFor c task.
Proof.
  unfold clientTasks. intros H. apply elem_of_app in H as [H|H].
  - apply list_elem_of_In in H. apply in_flat_map in H as (need & Hneed & H).
    apply list_elem_of_In in Hneed.
    destruct (_ <? _); [|destruct H].
    destruct H as [<-|[]]. split; [done|]. split; [done|]. cbn. split.
    + intros t Ht. apply elem_of_filter_list in Ht as [Ht Hq].
      apply andb_true_iff in Hq as [_ Hq]. done.
    + right. exists need. split; [done|]. split; [done|]. split; [done|].
      intros t Ht. apply elem_of_filter_list in Ht as [Ht Hq].
      apply andb_true_iff in Hq as [Hq _]. done.
  - destruct (Nat.ltb _ _); [|by apply elem_of_nil in H].
    apply list_elem_of_singleton in H as ->. split; [done|]. split; [done|]. cbn. split.
    + intros t Ht. by apply elem_of_filter_list in Ht.
    + by left.
Qed.

Definition Placing (st : list ScheduleEntry * AvailabilityTracker) : Prop :=
  exists placed,
    fst st = kept ++ placed /\
    forall k e, placed !! k = Some e ->
      placedOk clients therapists day_ selectedDate callouts (kept ++ take k placed) e.

Lemma Placing_add schedule tracker tracker' e :
  Placing (schedule, tracker) ->
  placedOk clients therapists day_ selectedDate callouts schedule e ->
  Placing (schedule ++ [e], tracker').
Proof.
  intros (placed & E & H) He. cbn [fst] in E. subst schedule.
  exists (placed ++ [e]). split; [by rewrite app_assoc|].
  intros k x Hk. destruct (decide (k < length placed)%nat) as [Hlt|Hge].
  - rewrite lookup_app_l in Hk by done. rewrite take_app_le by lia. by apply H.
  - rewrite lookup_app_r in Hk by lia.
    destruct (k - length placed)%nat as [|n] eqn:En; [|done].
    injection Hk as <-. replace k with (length placed) by lia.
    by rewrite take_app_length.
Qed.

Lemma tryTime_spec c task therapist searchEnd st time :
  c ∈ clients -> taskFor c task -> therapist ∈ possibleTherapists task -> Placing st ->
  returns (tryTime clients therapists day_ selectedDate callouts task therapist searchEnd st time)
          (fun y => forall st', y = Some st' -> Placing st').
Proof.
  intros Hc (Hcid & Hcname & Hposs & Htype) Ht Hst. destruct st as [schedule tracker].
  unfold tryTime. destruct (_ && _); [|by apply returns_ret].
  cbv zeta. eapply returns_bind with (P := fun _ => True).
  { destruct (match getClientById clients (pt_clientId task) with
              | Some _ => _ | None => _ end).
    - eapply returns_bind; [apply returns_random|]. intros. by apply returns_ret.
    - by apply returns_ret. }
  intros skip _. destruct skip; [by apply returns_ret|].
  eapply returns_bind; [apply returns_generateId|]. intros newId _.
  destruct (valid _) eqn:Ev; cbn [negb]; [|by apply returns_ret].
  apply returns_ret. intros st' [= <-]. eapply Placing_add; [done|].
  split; [done|]. split; [done|]. destruct (Hposs therapist Ht) as [Hin Hmeets].
  exists c, therapist. cbn. rewrite Hcid, Hcname. do 7 (split; [done|]).
  destruct Htype as [Haba|(need & Hneed & Hty & Hd & Hcan)]; [by left|].
  right. exists need. split; [done|]. split; [done|]. split; [by apply Hcan|].
  unfold duration. cbn. rewrite bool_decide_eq_false_2; [lia|].
  rewrite Hty. by destruct (ah_type need).
Qed.

Lemma placeTask_spec c st task :
  c ∈ clients -> taskFor c task -> Placing st ->
  returns (placeTask clients therapists day_ selectedDate callouts st task) Placing.
Proof.
  intros Hc Htask Hst. unfold placeTask.
  eapply returns_bind; [apply returns_shuffle|]. intros candidates Hperm. cbv zeta.
  eapply returns_bind.
  - apply (returns_firstOfM _ _ Placing). intros therapist Hth.
    apply returns_firstOfM. intros time _.
    apply (tryTime_spec c); [done|done| |done]. by rewrite <- Hperm.
  - intros placed Hplaced. apply returns_ret.
    destruct placed as [st'|]; [by apply Hplaced|done].
Qed.

End Seeding.

(** ** The lunches of the seeder *)

Lemma returns_foldM_once {St} (f : St -> string -> M St) (Inv : list string -> St -> Prop)
    (ids : list string) :
  NoDup ids ->
  (forall done s i, i ∈ ids -> i ∉ done -> Inv done s -> returns (f s i) (Inv (i :: done))) ->
  forall done s, (forall i, i ∈ ids -> i ∉ done) -> Inv done s ->
  returns (foldM f ids s) (fun s' => exists done', Inv done' s').
Proof.
  induction 1 as [|i ids Hni Hnd IH]; intros Hf done s Hids Hs; cbn [foldM].
  - apply returns_ret. by exists done.
  - eapply returns_bind.
    + apply (Hf done s i); [apply list_elem_of_here|apply Hids, list_elem_of_here|done].
    + intros s' Hs'. apply (IH (fun d s0 j Hj => Hf d s0 j (list_elem_of_further _ _ _ Hj))
                              (i :: done)); [|done].
      intros j Hj Hin. apply elem_of_cons in Hin as [->|Hin]; [done|].
      by apply (Hids j (list_elem_of_further _ _ _ Hj)).
Qed.

Lemma getTherapistById_known (therapists : list Therapist) (t : Therapist) :
  t ∈ therapists -> is_Some (getTherapistById therapists (th_id t)).
Proof.
  intros Ht. unfold getTherapistById, find_.
  destruct (List.find _ therapists) as [x|] eqn:E; [by exists x|].
  apply list_elem_of_In in Ht. pose proof (List.find_none _ _ E t Ht) as H.
  unfold str_eqb in H. cbv beta in H. by rewrite bool_decide_eq_true_2 in H.
Qed.

Section SeedLunch.

Variables (therapists : list Therapist) (day_ : DayOfWeek)
          (learningContext : option LearningContext) (sessions : list ScheduleEntry).

Definition Lunching (done : list string) (st : list ScheduleEntry * AvailabilityTracker)
    : Prop :=
  exists lunches,
    fst st = sessions ++ lunches /\
    Forall (seededLunch therapists day_ learningContext sessions) lunches /\
    (forall l, l ∈ lunches -> therapistId l ∈ done) /\
    NoDup (map therapistId lunches).

Lemma Lunching_skip done st i : Lunching done st -> Lunching (i :: done) st.
Proof.
  intros (lunches & E & Hl & Hd & Hn). exists lunches. repeat split; try done.
  intros l Hin. by apply list_elem_of_further, Hd.
Qed.

Lemma Lunching_add done schedule tracker tracker' i l :
  Lunching done (schedule, tracker) -> i ∉ done -> therapistId l = i ->
  seededLunch therapists day_ learningContext sessions l ->
  Lunching (i :: done) (schedule ++ [l], tracker').
Proof.
  intros (lunches & E & Hl & Hd & Hn) Hi Hid Hok. cbn [fst] in E. subst schedule.
  exists (lunches ++ [l]). split; [by rewrite app_assoc|]. split; [|split].
  - apply Forall_app. split; [done|]. by constructor.
  - intros x Hx. apply elem_of_app in Hx as [Hx|Hx].
    + by apply list_elem_of_further, Hd.
    + apply list_elem_of_singleton in Hx as ->. rewrite Hid. apply list_elem_of_here.
  - rewrite map_app. apply NoDup_app. split; [done|]. split; [|apply NoDup_singleton].
    intros x Hx Hx'. apply list_elem_of_singleton in Hx' as ->.
    apply list_elem_of_fmap in Hx as (y & Hy & Hin). apply Hd in Hin. congruence.
Qed.

Lemma seedLunch_spec done st i :
  Lunching done st -> i ∉ done -> is_Some (getTherapistById therapists i) ->
  returns (seedLunch therapists day_ learningContext st i) (Lunching (i :: done)).
Proof.
  intros Hst Hi [th Hth]. destruct st as [schedule tracker]. unfold seedLunch.
  pose proof Hst as (lunches & E & Hl & Hd & Hn). cbn [fst] in E.
  assert (Hnone : List.filter (fun s => str_eqb (therapistId s) i) lunches = []).
  { clear -Hd Hi. induction lunches as [|l r IH]; [done|]. cbn [List.filter].
    unfold str_eqb. rewrite bool_decide_eq_false_2.
    - apply IH. intros x Hx. by apply Hd, list_elem_of_further.
    - intros <-. apply Hi, Hd. apply list_elem_of_here. }
  assert (Hmins : sumDurations (List.filter (fun s => str_eqb (therapistId s) i) schedule)
                  = bookedMinutes sessions i).
  { unfold bookedMinutes. by rewrite E, filter_list_app, Hnone, app_nil_r. }
  assert (Hhas : therapistHasLunch schedule i = therapistHasLunch sessions i).
  { unfold therapistHasLunch. by rewrite !some_filter, E, filter_list_app, Hnone, app_nil_r. }
  rewrite Hmins, Hhas, Hth.
  destruct (bookedMinutes sessions i <? 300) eqn:Em;
    [by apply returns_ret, Lunching_skip|].
  apply Z.ltb_ge in Em.
  destruct (therapistHasLunch sessions i) eqn:El; [by apply returns_ret, Lunching_skip|].
  assert (Hlunch : forall newId time,
            (690 <= time <= 780 \/
             exists lc lp, learningContext = Some lc /\ lp ∈ learnedLunchTimes lc /\
               ll_therapistId lp = i /\ time = timeToMinutes (ll_startTime lp)) ->
            seededLunch therapists day_ learningContext sessions
              (lunchEntry newId th i day_ (minutesToTime time) (minutesToTime (time + 30)))).
  { intros newId time Htime. unfold seededLunch, lunchEntry, mkEntry, duration. cbn.
    do 4 (split; [done|]). split; [lia|]. split; [by exists th|]. done. }
  cbv zeta.
  match goal with
  | |- returns (match ?x with _ => _ end) _ => destruct x as [time|] eqn:Elearned
  end.
  - eapply returns_bind; [apply returns_generateId|]. intros newId _.
    eapply returns_bind; [apply returns_unwrap|]. intros ? ->.
    apply returns_ret. eapply Lunching_add; [done|done|done|].
    apply Hlunch. right.
    destruct learningContext as [lc|]; [|done].
    destruct (find_ _ (learnedLunchTimes lc)) as [lp|] eqn:Ef; [|done].
    apply find_Some_elem in Ef as [Hin Hlp]. unfold str_eqb in Hlp.
    apply bool_decide_eq_true in Hlp.
    destruct (isAvailable _ _ _ _ _ _); [|done]. injection Elearned as <-.
    by exists lc, lp.
  - destruct (find_ _ (upFrom _ _ 15)) as [time|] eqn:Ef;
      [|by apply returns_ret, Lunching_skip].
    apply find_Some_elem in Ef as [Hin _]. apply upFrom_spec in Hin.
    eapply returns_bind; [apply returns_generateId|]. intros newId _.
    eapply returns_bind; [apply returns_unwrap|]. intros ? ->.
    apply returns_ret. rewrite (getTherapistById_id _ _ _ Hth).
    eapply Lunching_add; [done|done|done|]. apply Hlunch. by left.
Qed.

End SeedLunch.

Lemma returns_withFreshIds (l : list ScheduleEntry) :
  returns (mapM withFreshId l) (Forall2 sameButId l).
Proof. intros o. apply mapM_withFreshId. Qed.

Lemma seeder_returns (clients : list Client) (therapists : list Therapist)
    (day_ : DayOfWeek) (selectedDate : JsDate) (callouts : list Callout)
    (baseScheduleForDay : option BaseScheduleConfig)
    (learningContext : option LearningContext) :
  (forall e, e ∈ baseEntries day_ selectedDate callouts baseScheduleForDay ->
             is_Some (getTherapistById therapists (therapistId e))) ->
  returns (constructiveHeuristicInitialization clients therapists day_
             selectedDate callouts baseScheduleForDay learningContext)
    (fun out => exists kept placed lunches,
       out = kept ++ placed ++ lunches /\
       Forall2 sameButId
         (baseEntries day_ selectedDate callouts baseScheduleForDay) kept /\
       (forall k e, placed !! k = Some e ->
          placedOk clients therapists day_ selectedDate callouts
            (kept ++ take k placed) e) /\
       Forall (seededLunch therapists day_ learningContext (kept ++ placed))
              lunches /\
       NoDup (map therapistId lunches)).
Proof.
  intros Hknown.
  unfold constructiveHeuristicInitialization.
  eapply returns_bind with
    (P := Forall2 sameButId (baseEntries day_ selectedDate callouts baseScheduleForDay)).
  { unfold baseEntries.
    destruct (match baseScheduleForDay with Some bs => bs_schedule bs | None => None end).
    - apply returns_withFreshIds.
    - apply returns_ret. constructor. }
  intros kept Hkept. cbv zeta.
  eapply returns_bind.
  { apply (returns_foldM _ (Placing clients therapists day_ selectedDate callouts kept)).
    - exists []. split; [by rewrite app_nil_r|done].
    - intros st task Htask Hst.
      rewrite (sortByZ_Permutation _ _) in Htask.
      apply list_elem_of_In, in_flat_map in Htask as (c & Hc & Htask).
      apply list_elem_of_In in Hc. apply list_elem_of_In in Htask.
      apply (placeTask_spec _ _ _ _ _ _ c); [done| |done].
      by eapply clientTasks_spec. }
  intros [schedule tracker] (placed & E & Hplaced). cbn [fst] in E. subst schedule.
  cbn [fst].
  eapply returns_bind.
  { apply (returns_foldM_once _ (Lunching therapists day_ learningContext (kept ++ placed)))
      with (done := []).
    - apply NoDup_uniq.
    - intros done st i Hi Hdone Hst. apply seedLunch_spec; [done|done|].
      apply elem_of_uniq, list_elem_of_fmap in Hi as (e & -> & He).
      apply elem_of_app in He as [He|He].
      + apply list_elem_of_lookup in He as [n Hn].
        destruct (Forall2_lookup_r _ _ _ _ _ Hkept Hn) as (e0 & H0 & Hs).
        destruct Hs as (_ & _ & -> & _). apply Hknown. by eapply list_elem_of_lookup_2.
      + apply list_elem_of_lookup in He as [n Hn].
        destruct (Hplaced n e Hn) as (_ & _ & c & t & _ & Ht & _ & _ & _ & -> & _).
        by apply getTherapistById_known.
    - intros i _. apply not_elem_of_nil.
    - exists []. rewrite app_nil_r. repeat split; try done; try constructor.
      intros l Hl. by apply elem_of_nil in Hl. }
  intros st (done' & lunches & E & Hl & _ & Hn). apply returns_ret.
  exists kept, placed, lunches. rewrite E, app_assoc. done.
Qed.



(** * Times as strings *)

(** ** The time helpers on strings *)

(** The whole numbers from 0 up to [n], for a check of each of them. *)
Definition wholeBelow (n : Z) : list Z := map Z.of_nat (seq 0 (Z.to_nat n)).

Lemma every_whole (p : Z -> bool) (n : Z) :
  forallb p (wholeBelow n) = true -> forall z, 0 <= z < n -> p z = true.
Proof.
  intros H z Hz. apply (proj1 (forallb_forall p (wholeBelow n)) H).
  apply list_elem_of_In. unfold wholeBelow. apply list_elem_of_fmap. exists (Z.to_nat z).
  split; [lia|]. apply elem_of_seq. lia.
Qed.

Definition digitChar (k : Z) : Ascii.ascii := Ascii.ascii_of_nat (48 + Z.to_nat k).

Lemma digitChar_spec (c : Ascii.ascii) :
  Text.isDigit c = true -> exists k, 0 <= k < 10 /\ c = digitChar k.
Proof.
  unfold Text.isDigit. intros H. apply andb_true_iff in H as [H1 H2].
  apply Nat.leb_le in H1, H2.
  exists (Z.of_nat (Ascii.nat_of_ascii c) - 48). split; [lia|].
  unfold digitChar. replace (48 + Z.to_nat _)%nat with (Ascii.nat_of_ascii c) by lia.
  by rewrite Ascii.ascii_nat_embedding.
Qed.

Lemma day_round_trips :
  forallb (fun t => bool_decide (Text.timeToMinutes (Text.minutesToTime t) = Some t))
          (wholeBelow 6000) = true.
Proof. vm_compute. reflexivity. Qed.

Definition reads (h1 h2 m1 m2 : Z) : bool :=
  let s := Text.clock (digitChar h1) (digitChar h2) (digitChar m1) (digitChar m2) in
  bool_decide (Text.timeToMinutes s = Some ((10 * h1 + h2) * 60 + (10 * m1 + m2)) /\
               Text.minutesToTime ((10 * h1 + h2) * 60 + (10 * m1 + m2)) = s).

Lemma clock_round_trips :
  forallb (fun h1 => forallb (fun h2 => forallb (fun m1 => forallb (fun m2 =>
    reads h1 h2 m1 m2) (wholeBelow 10)) (wholeBelow 6)) (wholeBelow 10)) (wholeBelow 10) = true.
Proof. vm_compute. reflexivity. Qed.

(** X17: the two time helpers undo each other on the strings of a clock.
    [timeToMinutes] gives back the minutes that [minutesToTime] printed, for
    every whole number from 0 up to 99:59; and [minutesToTime] prints again
    the string that [timeToMinutes] read, for every [HH:MM] of four decimal
    digits with [MM] below sixty.  Past 99:59 the hours take three characters,
    which [timeToMinutes] does not read: 100:00 is read as [NaN]. *)
Theorem time_strings_round_trip :
  (forall t, 0 <= t < 6000 -> Text.timeToMinutes (Text.minutesToTime t) = Some t) /\
  (forall h1 h2 m1 m2,
     Text.isDigit h1 = true -> Text.isDigit h2 = true ->
     Text.isDigit m1 = true -> Text.isDigit m2 = true -> Text.digitValue m1 < 6 ->
     exists t, 0 <= t < 6000 /\
       Text.timeToMinutes (Text.clock h1 h2 m1 m2) = Some t /\
       Text.minutesToTime t = Text.clock h1 h2 m1 m2) /\
  Text.timeToMinutes (Text.minutesToTime 6000) = None.
Proof.
  split; [|split; [|by vm_compute]].
  - intros t Ht.
    pose proof (every_whole _ 6000 day_round_trips t Ht) as H. cbv beta in H.
    by apply bool_decide_eq_true in H.
  - intros h1 h2 m1 m2 H1 H2 H3 H4 H5.
    apply digitChar_spec in H1 as (a & Ha & ->). apply digitChar_spec in H2 as (b & Hb & ->).
    apply digitChar_spec in H3 as (c & Hc & ->). apply digitChar_spec in H4 as (d & Hd & ->).
    assert (Hc' : 0 <= c < 6).
    { unfold Text.digitValue, digitChar in H5.
      rewrite Ascii.nat_ascii_embedding in H5 by lia. lia. }
    pose proof (every_whole _ 10 clock_round_trips a Ha) as G. cbv beta in G.
    pose proof (every_whole _ 10 G b Hb) as G2. cbv beta in G2.
    pose proof (every_whole _ 6 G2 c Hc') as G3. cbv beta in G3.
    pose proof (every_whole _ 10 G3 d Hd) as G4. cbv beta in G4.
    unfold reads in G4. apply bool_decide_eq_true in G4 as [G5 G6].
    exists ((10 * a + b) * 60 + (10 * c + d)). split; [lia|]. done.
Qed.

(** * The colour of a client *)

(** ** The colour of a client *)

Lemma toInt32_range (x : Z) : - 2 ^ 31 <= toInt32 x < 2 ^ 31.
Proof. unfold toInt32. pose proof (Z.mod_pos_bound (x + 2 ^ 31) (2 ^ 32)). lia. Qed.

Lemma toInt32_small (x : Z) : - 2 ^ 31 <= x < 2 ^ 31 -> toInt32 x = x.
Proof. intros H. unfold toInt32. rewrite Z.mod_small; lia. Qed.

Lemma hashStep_bound (hash code : Z) :
  0 <= code < 65536 -> Z.abs (hashStep hash code) <= Z.abs hash + 2 ^ 32.
Proof.
  intros Hc. unfold hashStep, shiftLeft.
  pose proof (toInt32_range (Z.shiftl (toInt32 hash) 5)). lia.
Qed.

Lemma hash_bound (id_ : list Z) (hash : Z) :
  Forall (fun c => 0 <= c < 65536) id_ ->
  Z.abs (fold_left hashStep id_ hash) <= Z.abs hash + Z.of_nat (length id_) * 2 ^ 32.
Proof.
  intros H. revert hash. induction H as [|c r Hc _ IH]; intros hash; cbn [fold_left length].
  - lia.
  - specialize (IH (hashStep hash c)). pose proof (hashStep_bound hash c Hc). lia.
Qed.

(** X18: [getClientColor] never returns [undefined]: for every id the index
    it computes is within the palette, so a colour of the palette comes back.
    When the code units of the id are below 65536, as those of a string are,
    the hash stays within the length of the id times [2^32], so that it is a
    whole number that a double holds for any id shorter than [2^21]. *)
Theorem getClientColor_in_palette (id_ : list Z) :
  (exists colour, getClientColor id_ = Some colour /\ colour ∈ CLIENT_PALETTE) /\
  (Forall (fun c => 0 <= c < 65536) id_ ->
   Z.abs (fold_left hashStep id_ 0) <= Z.of_nat (length id_) * 2 ^ 32).
Proof.
  split.
  - unfold getClientColor. cbv zeta.
    set (hash := fold_left hashStep id_ 0).
    assert (Hlen : 0 < Z.of_nat (length CLIENT_PALETTE)) by (by vm_compute).
    pose proof (Z.mod_pos_bound (Z.abs hash) _ Hlen) as Hb.
    destruct (CLIENT_PALETTE !! Z.to_nat (Z.abs hash mod Z.of_nat (length CLIENT_PALETTE)))
      as [colour|] eqn:E.
    + exists colour. split; [done|]. by eapply list_elem_of_lookup_2.
    + apply lookup_ge_None in E. lia.
  - intros H. pose proof (hash_bound id_ 0 H). lia.
Qed.

(** * A run that does not throw *)

(** ** Schedules whose therapists are known *)

Section Staffed.

Variables (clients : list Client) (therapists : list Therapist) (day_ : DayOfWeek)
          (selectedDate : JsDate) (callouts : list Callout).

Lemma staffed_from (s s' : list ScheduleEntry) :
  (forall e', e' ∈ s' -> exists e, e ∈ s /\ therapistId e' = therapistId e) ->
  staffedBy therapists s -> staffedBy therapists s'.
Proof.
  intros H Hs. apply Forall_forall. intros e' He'. destruct (H e' He') as (e & He & ->).
  by apply (proj1 (Forall_forall _ _) Hs).
Qed.

Lemma staffed_same (R : ScheduleEntry -> ScheduleEntry -> Prop) (s s' : list ScheduleEntry) :
  (forall e e', R e e' -> therapistId e' = therapistId e) ->
  Forall2 R s s' -> staffedBy therapists s -> staffedBy therapists s'.
Proof.
  intros HR HF. apply staffed_from. intros e' He'.
  apply list_elem_of_lookup in He' as [i Hi].
  destruct (Forall2_lookup_r _ _ _ _ _ HF Hi) as (e & He & Hee).
  exists e. split; [by eapply list_elem_of_lookup_2|by apply HR].
Qed.

Lemma staffed_with_therapist (e : ScheduleEntry) (t : Therapist) :
  t ∈ therapists -> is_Some (getTherapistById therapists (therapistId (with_therapist e t))).
Proof. intros Ht. cbn. by apply getTherapistById_known. Qed.

Lemma mutateIncremental_staffed s :
  staffedBy therapists s ->
  returns (mutateIncremental s clients therapists selectedDate callouts) (staffedBy therapists).
Proof.
  intros Hs o. unfold mutateIncremental.
  destruct (bool_decide (length s = 0%nat)) eqn:E; [by exists s, o|].
  apply bool_decide_eq_false in E.
  destruct (repeat_mutateOnce_spec clients therapists selectedDate callouts
              (numMutations (length (cloneSchedule s))) (cloneSchedule s) o)
    as (s' & o' & E' & HF);
    [intros H; apply E; unfold cloneSchedule in H; by rewrite H|].
  exists s', o'. split; [done|]. eapply staffed_same; [|exact HF|done].
  by intros e e' [(_ & _ & _ & H & _) _].
Qed.

Lemma cleanupScheduleIssues_staffed s :
  staffedBy therapists s -> staffedBy therapists (cleanupScheduleIssues s).
Proof.
  apply staffed_from. intros e' He'.
  assert (H0 : Forall (mergedFrom s) s).
  { apply Forall_forall. intros e He. by apply mergedFrom_self. }
  destruct (cleanupLoop_shape s MAX_MERGE_ITERATIONS s H0) as [H _].
  apply (proj1 (Forall_forall _ _) H) in He' as (e & last & He & _ & _ & _ & -> & _).
  by exists e.
Qed.

Lemma fixSessionDurations_staffed s :
  staffedBy therapists s -> staffedBy therapists (fixSessionDurations s).
Proof.
  apply staffed_from. intros e' He'. unfold fixSessionDurations in He'.
  apply list_elem_of_fmap in He' as (e & -> & He). exists e. split; [done|].
  by rewrite fixSessionDuration_sameButEnd.
Qed.

Lemma fixCredentialIssues_staffed s :
  staffedBy therapists s ->
  staffedBy therapists (fixCredentialIssues s clients therapists selectedDate callouts).
Proof.
  intros Hs. unfold fixCredentialIssues.
  destruct (zipper_Forall2
              (fixCredentialEntry clients therapists selectedDate callouts)
              (fixCredentialFrom clients therapists selectedDate callouts)
              (fun e e' => e' = e \/ exists t, t ∈ therapists /\ e' = with_therapist e t)
              (fun _ => eq_refl) (fun _ _ _ => eq_refl)) with (done := @nil ScheduleEntry)
              (todo := s) as (out & E & F).
  { intros sch e.
    destruct (fixCredentialEntry_frame clients therapists selectedDate callouts sch e)
      as [_ [H|(_ & _ & t & Ht & H)]]; [by left|right; by exists t]. }
  rewrite E. cbn [app]. apply Forall_forall. intros e' He'.
  apply list_elem_of_lookup in He' as [i Hi].
  destruct (Forall2_lookup_r _ _ _ _ _ F Hi) as (e & He & [->|(t & Ht & ->)]).
  - apply (proj1 (Forall_forall _ _) Hs). by eapply list_elem_of_lookup_2.
  - by apply staffed_with_therapist.
Qed.

Lemma fixMdSession_staffed allowedIds h r :
  staffedBy therapists (objs h) ->
  staffedBy therapists
    (objs (fixMdSession clients therapists selectedDate callouts allowedIds h r)).
Proof.
  intros Hh. unfold fixMdSession.
  destruct (objs h !! r) as [session|]; [|done].
  destruct (includes allowedIds (therapistId session)); [done|]. cbv zeta.
  match goal with
  | |- context [if truthy ?b then _ else None] =>
      destruct (if truthy b then b ≫= getTherapistById therapists else None) as [t|] eqn:Et
  end.
  - cbn [objs]. apply Forall_insert; [done|].
    destruct (truthy _); [|done].
    destruct (find_ _ allowedIds) as [tid|]; [|done]. cbn in Et.
    cbn. rewrite (getTherapistById_id _ _ _ Et). by rewrite Et.
  - destruct (findIndex _ _); done.
Qed.

Lemma fixMdClient_staffed h client :
  staffedBy therapists (objs h) ->
  staffedBy therapists (objs (fixMdClient therapists clients selectedDate callouts h client)).
Proof.
  intros Hh. unfold fixMdClient. destruct (negb _); [done|]. cbv zeta.
  destruct (_ <? _)%nat; [|done].
  match goal with |- context [fold_left (fixMdSession _ _ _ _ ?a) ?l h] =>
    generalize a; generalize l end.
  intros l allowed. revert h Hh. induction l as [|r l IH]; intros h Hh; [done|].
  cbn [fold_left]. apply IH. by apply fixMdSession_staffed.
Qed.

Lemma fixMdMedicaidLimit_staffed s :
  staffedBy therapists s ->
  staffedBy therapists (fixMdMedicaidLimit s clients therapists selectedDate callouts).
Proof.
  intros Hs. unfold fixMdMedicaidLimit.
  assert (H : staffedBy therapists
                (objs (fold_left (fixMdClient therapists clients selectedDate callouts)
                                 clients (heapOf s)))).
  { assert (H0 : staffedBy therapists (objs (heapOf s))) by done.
    revert H0. generalize (heapOf s). generalize clients at 2.
    intros cs. induction cs as [|c cs IH]; intros h Hh; [done|].
    cbn [fold_left]. apply IH. by apply fixMdClient_staffed. }
  apply Forall_forall. intros e He. unfold deref in He.
  apply list_elem_of_omap in He as (r & _ & Hr).
  apply (proj1 (Forall_forall _ _) H). by eapply list_elem_of_lookup_2.
Qed.

Lemma fixSameClientBackToBackIssues_staffed s :
  staffedBy therapists s ->
  staffedBy therapists
    (fixSameClientBackToBackIssues s clients therapists day_ selectedDate callouts).
Proof.
  apply staffed_from. intros e' He'. unfold fixSameClientBackToBackIssues in He'.
  set (clientSessions := List.filter (fun e => truthy (clientId e)) s) in He'.
  assert (Hsrc : Forall (source s) clientSessions).
  { apply Forall_forall. intros e He. by apply elem_of_filter_list in He. }
  destruct (groups_inv s day_ clientSessions (uniq (map therapistId clientSessions))
              [] Hsrc (Forall_nil_2 _)) as [H1 _].
  apply elem_of_app in He' as [He'|He'].
  - apply (proj1 (Forall_forall _ _) H1) in He' as (e & He & _ & [->|[[-> _]|[-> _]]]);
      by exists e.
  - apply elem_of_filter_list in He' as [He' _]. by exists e'.
Qed.

Lemma fixClientCoverageGaps_staffed s :
  staffedBy therapists s ->
  returns (fixClientCoverageGaps s clients therapists day_ selectedDate callouts)
          (staffedBy therapists).
Proof.
  intros Hs o. unfold fixClientCoverageGaps.
  destruct (foldM_invariant (fillClientGaps therapists day_ selectedDate callouts)
              (Appended s clients therapists day_ o) clients)
    with (st := (s, newTracker s callouts selectedDate)) (o := o)
    as (st' & o' & E & (added & Hst & -> & Hid & Hall)).
  - intros st x o1 Hx H1. by apply fillClientGaps_Appended.
  - exists []. simpl. rewrite app_nil_r, afterIds_0. repeat split; constructor.
  - eexists _, _. unfold bind. rewrite E. cbn [fst ret]. split; [reflexivity|].
    rewrite Hst. apply Forall_app. split; [done|].
    apply Forall_forall. intros e He.
    apply (proj1 (Forall_forall _ _) Hall) in He
      as (_ & _ & _ & _ & c & t & _ & Ht & _ & _ & _ & -> & _).
    by apply getTherapistById_known.
Qed.

Lemma fixLunchIssues_staffed s :
  staffedBy therapists s ->
  returns (fixLunchIssues s therapists day_ selectedDate callouts) (staffedBy therapists).
Proof.
  intros Hs o. unfold fixLunchIssues.
  destruct (LunchInv_fold s therapists day_ (newTracker s callouts selectedDate) o
              (uniq (map therapistId
                 (List.filter (fun s => negb (bool_decide (sessionType s = IndirectTime))) s)))
              (NoDup_uniq _) [] s o) as (out & o' & done' & E & Hinv).
  - intros i Hi. split; [by apply not_elem_of_nil|].
    apply elem_of_uniq, list_elem_of_fmap in Hi as (e & -> & He).
    apply elem_of_filter_list in He as [He _]. by apply (proj1 (Forall_forall _ _) Hs).
  - apply LunchInv_init.
  - exists out, o'. split; [done|].
    destruct Hinv as (kept & added & -> & _ & _ & Hcut & Hadd & _).
    apply Forall_app. split.
    + eapply staffed_same; [|exact Hcut|done]. apply lunchCut_therapist.
    + apply Forall_forall. intros a Ha.
      apply (proj1 (Forall_forall _ _) Hadd) in Ha
        as [(th & t & ig & Hth & _)|(e & t & He & _ & _ & Ha)].
      * by exists th.
      * rewrite Ha. cbn. by apply (proj1 (Forall_forall _ _) Hs).
Qed.

Lemma fixTeamAlignmentIssues_staffed s :
  staffedBy therapists s ->
  returns (fixTeamAlignmentIssues s clients therapists) (staffedBy therapists).
Proof.
  intros Hs o. unfold fixTeamAlignmentIssues, bind, newDate, ret.
  destruct (zipper_Forall2
              (fixTeamEntry clients therapists (today o))
              (fixTeamFrom clients therapists (today o))
              (fun e e' => e' = e \/ exists t, t ∈ therapists /\ e' = with_therapist e t)
              (fun _ => eq_refl) (fun _ _ _ => eq_refl)) with (done := @nil ScheduleEntry)
              (todo := s) as (out & E & F).
  { intros sch e.
    destruct (fixTeamEntry_frame clients therapists (today o) sch e)
      as [_ [H|(c & th & t & _ & _ & _ & _ & _ & Ht & _ & _ & H)]];
      [by left|right; by exists t]. }
  eexists _, _. split; [reflexivity|]. rewrite E. cbn [app].
  apply Forall_forall. intros e' He'.
  apply list_elem_of_lookup in He' as [i Hi].
  destruct (Forall2_lookup_r _ _ _ _ _ F Hi) as (e & He & [->|(t & Ht & ->)]).
  - apply (proj1 (Forall_forall _ _) Hs). by eapply list_elem_of_lookup_2.
  - by apply staffed_with_therapist.
Qed.

Lemma repairAndMutate_staffed s :
  staffedBy therapists s ->
  returns (repairAndMutate s clients therapists day_ selectedDate callouts)
          (staffedBy therapists).
Proof.
  intros Hs. unfold repairAndMutate.
  eapply returns_bind; [apply returns_random|]. intros r _.
  eapply returns_bind with (P := staffedBy therapists).
  { destruct (Qltb r MUTATION_RATE); [by apply mutateIncremental_staffed|by apply returns_ret]. }
  intros s1 H1. cbv zeta.
  eapply returns_bind.
  { apply fixClientCoverageGaps_staffed, fixSameClientBackToBackIssues_staffed,
      fixMdMedicaidLimit_staffed, fixCredentialIssues_staffed, fixSessionDurations_staffed,
      cleanupScheduleIssues_staffed, H1. }
  intros s2 H2. eapply returns_bind; [by apply fixLunchIssues_staffed|].
  intros s3 H3. by apply fixTeamAlignmentIssues_staffed.
Qed.

End Staffed.



(** ** A run that returns *)

Lemma returns_repeatM {St} (n : nat) (f : St -> M St) (Inv : St -> Prop) (s : St) :
  Inv s -> (forall s, Inv s -> returns (f s) Inv) -> returns (repeatM n f s) Inv.
Proof.
  intros Hs Hf. revert s Hs. induction n as [|n IH]; intros s Hs; cbn [repeatM].
  - by apply returns_ret.
  - eapply returns_bind; [by apply Hf|]. intros s' Hs'. by apply IH.
Qed.

Lemma returns_mapM {A B} (f : A -> M B) (xs : list A) (P : B -> Prop) :
  (forall x, x ∈ xs -> returns (f x) P) ->
  returns (mapM f xs) (fun ys => length ys = length xs /\ Forall P ys).
Proof.
  induction xs as [|x r IH]; intros Hf; cbn [mapM].
  - apply returns_ret. split; [done|constructor].
  - eapply returns_bind; [apply Hf, list_elem_of_here|]. intros y Hy.
    eapply returns_bind; [apply IH; intros z Hz; by apply Hf, list_elem_of_further|].
    intros ys [Hl Hys]. apply returns_ret. split; [cbn; lia|by constructor].
Qed.

Lemma staffed_copies (therapists : list Therapist) (l l' : list ScheduleEntry) :
  Forall2 sameButId l l' -> staffedBy therapists l -> staffedBy therapists l'.
Proof.
  apply staffed_same. by intros e e' (_ & _ & H & _).
Qed.

Lemma staffed_filter (therapists : list Therapist) (p : ScheduleEntry -> bool)
    (l : list ScheduleEntry) :
  staffedBy therapists l -> staffedBy therapists (List.filter p l).
Proof.
  intros H. apply Forall_forall. intros e He. apply elem_of_filter_list in He as [He _].
  by apply (proj1 (Forall_forall _ _) H).
Qed.

Section Total.

Variable Math_log2 : Z -> Q.
Variables (clients : list Client) (therapists : list Therapist)
          (selectedDate : JsDate) (callouts : list Callout).

#[local] Abbreviation Staffed := (Forall (staffedBy therapists)).

Lemma randomIndividual_returns (pop : list Individual) :
  pop <> [] -> returns (randomIndividual pop) (fun i => i ∈ pop).
Proof.
  intros Hne o. unfold randomIndividual, bind, random.
  destruct (random_index o pop Hne) as [i Hi]. rewrite Hi.
  eexists _, _. split; [reflexivity|]. by eapply list_elem_of_lookup_2.
Qed.

Lemma selection_returns (pop : list Individual) :
  pop <> [] ->
  returns (diversityPreservingSelection pop) (fun s => exists i, i ∈ pop /\ s = ind_schedule i).
Proof.
  intros Hne. unfold diversityPreservingSelection.
  eapply returns_bind; [apply returns_random|]. intros r _.
  destruct (Qltb r (3 # 10)).
  - eapply returns_bind; [by apply randomIndividual_returns|]. intros i Hi.
    apply returns_ret. by exists i.
  - cbv zeta. intros o.
    destruct (tournament_rounds pop 5 None o Hne) as (drawn & best' & o' & E & Hl & Hd & Hb).
    unfold bind. rewrite E. destruct best' as [b|]; [|by destruct Hb].
    destruct Hb as ([Hb|Hb] & _); [|done].
    eexists _, _. split; [reflexivity|]. exists b. split; [|done].
    by apply (proj1 (Forall_forall _ _) Hd).
Qed.

Lemma crossover_staffed p1 p2 :
  staffedBy therapists p1 -> staffedBy therapists p2 ->
  returns (crossover p1 p2 therapists clients selectedDate callouts) (staffedBy therapists).
Proof.
  intros H1 H2. unfold crossover.
  eapply returns_bind; [apply returns_random|]. intros r _.
  destruct (Qltb CROSSOVER_RATE r).
  - eapply returns_bind; [apply returns_random|]. intros r' _. apply returns_ret.
    unfold cloneSchedule. by destruct (Qltb r' HALF).
  - cbv zeta.
    eapply returns_bind; [apply returns_withFreshIds|]. intros c1 Hc1.
    eapply returns_bind; [apply returns_withFreshIds|]. intros c2 Hc2.
    apply returns_ret. unfold replay.
    destruct (replay_sublist (sortByZ (crossoverOrder therapists) (c1 ++ c2)) []
                (newTracker [] callouts selectedDate)) as (l & -> & Hl).
    cbn [app]. apply Forall_forall. intros e He.
    assert (Hin : e ∈ c1 ++ c2).
    { rewrite <- (sortByZ_Permutation (crossoverOrder therapists) (c1 ++ c2)).
      by eapply elem_of_sublist. }
    assert (Hall : staffedBy therapists (c1 ++ c2)).
    { apply Forall_app. split.
      - eapply staffed_copies; [exact Hc1|]. by apply staffed_filter.
      - eapply staffed_copies; [exact Hc2|]. by apply staffed_filter. }
    by apply (proj1 (Forall_forall _ _) Hall).
Qed.

Lemma evaluated_staffed (pop : list GeneratedSchedule) (ind : Individual) :
  Staffed pop ->
  ind ∈ evaluatePopulation Math_log2 clients therapists selectedDate callouts pop ->
  staffedBy therapists (ind_schedule ind).
Proof.
  intros Hp Hin. apply evaluate_elem in Hin as (p & Hp' & ->). cbn.
  by apply (proj1 (Forall_forall _ _) Hp).
Qed.

Lemma breed_returns day_ (pop : list GeneratedSchedule) (newPop : list GeneratedSchedule) :
  pop <> [] -> Staffed pop -> Staffed newPop ->
  returns (breed clients therapists selectedDate callouts day_
             (evaluatePopulation Math_log2 clients therapists selectedDate callouts pop) newPop)
          (fun out => Staffed out /\ length out = S (length newPop)).
Proof.
  intros Hne Hp Hn. unfold breed.
  assert (Hne' : evaluatePopulation Math_log2 clients therapists selectedDate callouts pop <> []).
  { intros E. apply Hne. apply length_zero_iff_nil.
    rewrite <- (evaluate_length Math_log2 clients therapists selectedDate callouts pop).
    by rewrite E. }
  eapply returns_bind; [apply selection_returns, Hne'|]. intros s1 (i1 & Hi1 & ->).
  eapply returns_bind; [apply selection_returns, Hne'|]. intros s2 (i2 & Hi2 & ->).
  eapply returns_bind.
  { apply crossover_staffed; (eapply evaluated_staffed; [exact Hp|done]). }
  intros c Hc. eapply returns_bind; [by apply repairAndMutate_staffed|].
  intros c' Hc'. apply returns_ret. split.
  - apply Forall_app. split; [done|]. by constructor.
  - rewrite length_app. cbn. lia.
Qed.

Lemma breeding_returns day_ (pop : list GeneratedSchedule) (n : nat)
    (newPop : list GeneratedSchedule) :
  pop <> [] -> Staffed pop -> Staffed newPop ->
  returns (repeatM n (breed clients therapists selectedDate callouts day_
             (evaluatePopulation Math_log2 clients therapists selectedDate callouts pop)) newPop)
          (fun out => Staffed out /\ length out = (length newPop + n)%nat).
Proof.
  intros Hne Hp. revert newPop. induction n as [|n IH]; intros newPop Hn; cbn [repeatM].
  - apply returns_ret. split; [done|lia].
  - eapply returns_bind; [by apply breed_returns|]. intros p1 [H1 Hl].
    eapply returns_weaken; [by apply IH|]. intros out [Ho Hlo]. cbv beta in Hlo.
    split; [done|lia].
Qed.

Lemma evolve_returns day_ (pop : list GeneratedSchedule) :
  length pop = POPULATION_SIZE -> Staffed pop ->
  returns (evolve clients therapists selectedDate callouts day_
             (evaluatePopulation Math_log2 clients therapists selectedDate callouts pop))
          (fun out => Staffed out /\ length out = POPULATION_SIZE).
Proof.
  intros Hlen Hp. unfold evolve.
  assert (Hne : pop <> []) by (intros ->; done).
  eapply returns_bind.
  { apply (returns_mapM _ _ (staffedBy therapists)). intros i Hi.
    apply elem_of_seq in Hi.
    destruct (lookup_lt_is_Some_2
                (evaluatePopulation Math_log2 clients therapists selectedDate callouts pop) i)
      as [ind Hind].
    { rewrite (evaluate_length Math_log2 clients therapists selectedDate callouts pop), Hlen.
      change eliteCount with 5%nat in Hi. change POPULATION_SIZE with 50%nat. lia. }
    rewrite Hind. eapply returns_bind; [apply returns_unwrap|]. intros ? ->.
    apply returns_ret. unfold cloneSchedule. eapply evaluated_staffed; [done|].
    by eapply list_elem_of_lookup_2. }
  intros elites [Hl He]. rewrite length_seq in Hl.
  eapply returns_weaken; [by apply breeding_returns|].
  intros out [Ho Hlo]. cbv beta in Hlo. split; [done|].
  rewrite Hlo, Hl. change eliteCount with 5%nat. change POPULATION_SIZE with 50%nat. lia.
Qed.

(** What the loop keeps of its state. *)
Definition Sound (st : LoopState) : Prop :=
  length (population st) = POPULATION_SIZE /\ Staffed (population st) /\
  forall b, bestScheduleOverall st = Some b -> staffedBy therapists b.

Lemma generation_returns day_ gen st :
  Sound st ->
  returns (generation Math_log2 clients therapists selectedDate callouts day_ gen st)
          (fun next => Sound (fst next)).
Proof.
  intros (Hlen & Hp & Hb). unfold generation. cbv zeta.
  destruct (lookup_lt_is_Some_2
              (evaluatePopulation Math_log2 clients therapists selectedDate callouts
                 (population st)) 0) as [best Hbest].
  { rewrite (evaluate_length Math_log2 clients therapists selectedDate callouts), Hlen.
    change POPULATION_SIZE with 50%nat. lia. }
  rewrite Hbest. eapply returns_bind; [apply returns_unwrap|]. intros ? ->.
  assert (Hbs : staffedBy therapists (ind_schedule best)).
  { eapply evaluated_staffed; [exact Hp|]. by eapply list_elem_of_lookup_2. }
  assert (H1 : Sound (recordBest gen st best)).
  { unfold recordBest. destruct (num_ltb _ _); (split; [done|split; [done|]]); cbn.
    - intros b [= <-]. done.
    - done. }
  destruct (shouldStop _); [by apply returns_ret|].
  eapply returns_bind; [by apply evolve_returns|]. intros newPop [Hn Hl].
  apply returns_ret. destruct H1 as (_ & _ & H1). done.
Qed.

Lemma generationalLoop_returns day_ remaining gen st :
  Sound st ->
  returns (generationalLoop Math_log2 clients therapists selectedDate callouts day_
             remaining gen st) Sound.
Proof.
  revert gen st. induction remaining as [|n IH]; intros gen st Hst; cbn [generationalLoop].
  - by apply returns_ret.
  - eapply returns_bind; [by apply generation_returns|]. intros next Hnext.
    destruct (snd next); [by apply returns_ret|by apply IH].
Qed.

Lemma seedTopRated_returns day_ (tops : list GeneratedSchedule) (pop : list GeneratedSchedule) :
  Staffed tops -> Staffed pop ->
  returns (seedTopRated day_ tops pop)
          (fun out => Staffed out /\ (length out <= length pop + length tops)%nat).
Proof.
  intros Ht. revert pop. induction Ht as [|top rest Htop Ht IH]; intros pop Hp;
    cbn [seedTopRated].
  - apply returns_ret. split; [done|lia].
  - eapply returns_bind; [apply returns_withFreshIds|]. intros copies Hc. cbv zeta.
    assert (Hcs : staffedBy therapists copies).
    { eapply staffed_copies; [exact Hc|]. by apply staffed_filter. }
    set (pop' := if Nat.ltb 0 (length copies) then pop ++ [copies] else pop).
    assert (Hp' : Staffed pop' /\ (length pop' <= length pop + 1)%nat).
    { unfold pop'. destruct (Nat.ltb 0 (length copies)).
      - split; [apply Forall_app; split; [done|by constructor]|]. rewrite length_app. cbn. lia.
      - split; [done|lia]. }
    destruct Hp' as [Hp1 Hp2].
    destruct (Qle_bool _ _).
    + apply returns_ret. split; [done|]. cbn. lia.
    + eapply returns_weaken; [by apply IH|]. intros out [Ho Hl]. cbv beta in Hl.
      split; [done|]. cbn. lia.
Qed.

Lemma seeder_staffed day_ base learning :
  (forall bs s, base = Some bs -> bs_schedule bs = Some s -> staffedBy therapists s) ->
  returns (constructiveHeuristicInitialization clients therapists day_ selectedDate callouts
             base learning) (staffedBy therapists).
Proof.
  intros Hbase.
  assert (Hknown : staffedBy therapists (baseEntries day_ selectedDate callouts base)).
  { unfold baseEntries. destruct base as [bs|]; [|constructor].
    destruct (bs_schedule bs) as [s|] eqn:E; [|constructor].
    apply staffed_filter. by eapply Hbase. }
  eapply returns_weaken.
  { apply seeder_returns. intros e He. by apply (proj1 (Forall_forall _ _) Hknown). }
  intros out (kept & placed & lunches & -> & Hk & Hp & Hl & _).
  apply Forall_app. split; [by eapply staffed_copies|].
  apply Forall_app. split.
  - apply Forall_forall. intros e He. apply list_elem_of_lookup in He as [n Hn].
    destruct (Hp n e Hn) as (_ & _ & c & t & _ & Ht & _ & _ & _ & -> & _).
    by apply getTherapistById_known.
  - apply Forall_forall. intros l Hin.
    apply (proj1 (Forall_forall _ _) Hl) in Hin as (_ & _ & _ & _ & _ & (th & Hth & _) & _).
    by exists th.
Qed.

Lemma fillPopulation_returns day_ base learning (missing : nat) (pop : list GeneratedSchedule) :
  (forall bs s, base = Some bs -> bs_schedule bs = Some s -> staffedBy therapists s) ->
  Staffed pop ->
  returns (fillPopulation clients therapists selectedDate callouts day_ base learning
             missing pop)
          (fun out => Staffed out /\ length out = (length pop + missing)%nat).
Proof.
  intros Hbase. revert pop. induction missing as [|n IH]; intros pop Hp;
    cbn [fillPopulation].
  - apply returns_ret. split; [done|lia].
  - eapply returns_bind; [by apply seeder_staffed|]. intros seed Hseed.
    eapply returns_weaken.
    { apply IH. apply Forall_app. split; [done|by constructor]. }
    intros out [Ho Hl]. cbv beta in Hl. rewrite length_app in Hl. cbn in Hl.
    split; [done|lia].
Qed.

Lemma initialPopulation_returns services day_ initial :
  (forall s, initial = Some s -> staffedBy therapists s) ->
  (forall bs s, bs ∈ baseSchedules services -> bs_schedule bs = Some s ->
                staffedBy therapists s) ->
  Staffed (highRatedSchedules services) ->
  returns (initialPopulation clients therapists selectedDate callouts services day_ initial)
          (fun pop => length pop = POPULATION_SIZE /\ Staffed pop).
Proof.
  intros Hinit Hbases Htops. unfold initialPopulation. cbv zeta.
  set (base := match initial with
               | Some _ => None
               | None => find_ (fun bs => includes (appliesToDays bs) day_)
                               (baseSchedules services)
               end).
  assert (Hbase : forall bs s, base = Some bs -> bs_schedule bs = Some s ->
                               staffedBy therapists s).
  { intros bs s Hb. unfold base in Hb. destruct initial; [done|].
    apply find_Some_elem in Hb as [Hb _]. by apply Hbases. }
  eapply returns_bind with (P := fun pop => Staffed pop /\ (length pop <= 1)%nat).
  { destruct initial as [s|].
    - eapply returns_bind; [by apply repairAndMutate_staffed, Hinit|]. intros p Hp.
      apply returns_ret. split; [by constructor|done].
    - destruct base as [bs|] eqn:Eb; [|apply returns_ret; split; [constructor|cbn; lia]].
      destruct (bs_schedule bs) as [s|] eqn:Es;
        [|apply returns_ret; split; [constructor|cbn; lia]].
      eapply returns_bind; [by eapply repairAndMutate_staffed, Hbase|]. intros p Hp.
      apply returns_ret. split; [by constructor|done]. }
  intros pop [Hp Hl].
  eapply returns_bind.
  { apply seedTopRated_returns; [|exact Hp]. cbn.
    apply Forall_forall. intros s Hs. apply (proj1 (Forall_forall _ _) Htops).
    apply elem_of_take in Hs as (i & Hi & _). by eapply list_elem_of_lookup_2. }
  intros pop2 [Hp2 Hl2]. rewrite length_take in Hl2.
  eapply returns_weaken; [by apply fillPopulation_returns|].
  intros out [Ho Hlo]. cbv beta in Hlo. split; [|done]. rewrite Hlo.
  change POPULATION_SIZE with 50%nat. lia.
Qed.

End Total.

Lemma localSearchImprovement_staffed Math_log2 clients therapists selectedDate callouts
    (schedule : GeneratedSchedule) (maxIterations : nat) :
  staffedBy therapists schedule ->
  returns (fun o => localSearchImprovement Math_log2 schedule clients therapists selectedDate
                      callouts maxIterations o)
          (staffedBy therapists).
Proof.
  intros Hs o. unfold localSearchImprovement, cloneSchedule.
  destruct (localSearchLoop_spec Math_log2 clients therapists selectedDate callouts
              maxIterations schedule o) as (out & E & [_ Hperm] & _).
  { intros e He _ Hnone. apply (proj1 (Forall_forall _ _) Hs) in He as [t Ht]. congruence. }
  exists out, o. split; [done|]. apply Forall_forall. intros e' He'.
  assert (Hin : therapistId e' ∈ map therapistId schedule).
  { rewrite <- Hperm. apply list_elem_of_fmap. by exists e'. }
  apply list_elem_of_fmap in Hin as (e & -> & He).
  by apply (proj1 (Forall_forall _ _) Hs).
Qed.



(** * The clamp and the validator *)

(** ** The clamp and the validator *)

(** A rule that only the check of an entry can report is reported for a
    schedule exactly when it is reported for one of its entries. *)
Lemma reports_of_entries schedule clients therapists d opStart opEnd callouts r :
  bool_decide (r ∈ therapistRules ++ clientRules ++ scheduleEntryRules) = false ->
  reports (validateFullSchedule schedule clients therapists (Some d) opStart opEnd callouts) r
  = some (fun e => reports (validateSessionEntry e schedule clients therapists (Some (id e))) r)
         schedule.
Proof.
  intros Hr. apply bool_decide_eq_false in Hr.
  assert (H1 : bool_decide (r ∈ therapistRules) = false).
  { apply bool_decide_eq_false. intros H. apply Hr, elem_of_app. by left. }
  assert (H2 : bool_decide (r ∈ clientRules) = false).
  { apply bool_decide_eq_false. intros H. apply Hr, elem_of_app. right.
    apply elem_of_app. by left. }
  assert (H3 : bool_decide (r ∈ scheduleEntryRules) = false).
  { apply bool_decide_eq_false. intros H. apply Hr, elem_of_app. right.
    apply elem_of_app. by right. }
  unfold validateFullSchedule. cbv zeta.
  rewrite reports_dedupe, !reports_app, !reports_flat_map.
  rewrite (some_ext _ (fun _ => false) (uniq _)), some_none.
  2:{ intros tid. eapply reports_unlisted; [|exact H1].
      intros e He. by eapply therapistCheck_rules. }
  rewrite (some_ext _ (fun _ => false) clients), some_none.
  2:{ intros c. eapply reports_unlisted; [|exact H2].
      intros e He. by eapply clientCheck_rules. }
  rewrite !orb_false_r. apply some_ext. intros e. by apply reports_entryCheck.
Qed.

(** X21: after [fixSessionDurations] the validator reports no ABA session
    that is too short or too long, whatever the schedule was: the clamp ends
    every ABA session between 60 and 180 minutes after its start, which is
    what the two rules ask for. *)
Theorem fixSessionDurations_clears_errors (schedule : GeneratedSchedule)
    (clients : list Client) (therapists : list Therapist) (selectedDate : JsDate)
    (operatingHoursStart operatingHoursEnd : TimeStr) (callouts : list Callout) :
  let errors :=
    validateFullSchedule (fixSessionDurations schedule) clients therapists
      (Some selectedDate) operatingHoursStart operatingHoursEnd callouts in
  reports errors "ABA_DURATION_TOO_SHORT" = false /\
  reports errors "ABA_DURATION_TOO_LONG" = false.
Proof.
  cbv zeta.
  assert (Hall : forall e, e ∈ fixSessionDurations schedule ->
            sessionType e = ABA ->
            60 <= timeToMinutes (endTime e) - timeToMinutes (startTime e) <= 180).
  { intros e He Ha. unfold fixSessionDurations in He.
    apply list_elem_of_fmap in He as (e0 & -> & _).
    assert (Ha0 : sessionType e0 = ABA).
    { rewrite fixSessionDuration_sameButEnd in Ha. exact Ha. }
    pose proof (fixSessionDuration_valid e0 Ha0) as Hv.
    unfold isSessionDurationValid in Hv. rewrite Ha in Hv.
    apply andb_true_iff in Hv as [H1 H2]. apply Z.leb_le in H1, H2. lia. }
  split; (rewrite reports_of_entries by done; apply some_false; intros e He).
  - rewrite reports_too_short. destruct (bool_decide (sessionType e = ABA)) eqn:Ea; [|done].
    apply bool_decide_eq_true in Ea. specialize (Hall e He Ea). cbn [andb].
    apply Z.ltb_ge. lia.
  - rewrite reports_too_long. destruct (bool_decide (sessionType e = ABA)) eqn:Ea; [|done].
    apply bool_decide_eq_true in Ea. specialize (Hall e He Ea). cbn [andb].
    apply Z.ltb_ge. lia.
Qed.

(** * What mutation accepts *)

(** ** What mutation accepts *)

Section Accepting.

Variables (clients : list Client) (therapists : list Therapist)
          (selectedDate : JsDate) (callouts : list Callout).

#[local] Abbreviation accepted :=
  (acceptedChange clients therapists selectedDate callouts).

Lemma accepted_trans e1 e2 e3 : accepted e1 e2 -> accepted e2 e3 -> accepted e1 e3.
Proof.
  intros [->|H1] [->|H2]; [by left|by right|by right|]. right.
  destruct H1 as (_ & _ & _ & _ & _ & [a Ha] & [b Hb]).
  destruct H2 as (? & ? & ? & ? & ? & [a' Ha'] & [b' Hb']).
  do 5 (split; [done|]). split; [exists (a + a')|exists (b + b')]; lia.
Qed.

Lemma Forall2_accepted_refl s : Forall2 accepted s s.
Proof. induction s; constructor; [by left|done]. Qed.

Lemma Forall2_accepted_trans s1 s2 s3 :
  Forall2 accepted s1 s2 -> Forall2 accepted s2 s3 -> Forall2 accepted s1 s3.
Proof.
  intros H. revert s3. induction H; intros s3 H3; inversion H3; subst; constructor.
  - by eapply accepted_trans.
  - by apply IHForall2.
Qed.

Lemma valid_accepted schedule ignore e e' :
  valid (canAddEntryToSchedule e' schedule clients therapists selectedDate callouts ignore)
    = true ->
  (exists k, timeToMinutes (startTime e') = timeToMinutes (startTime e) + 15 * k) ->
  (exists k, timeToMinutes (endTime e') = timeToMinutes (endTime e) + 15 * k) ->
  accepted e e'.
Proof.
  intros Hv Hs He. right. rewrite valid_canAddEntryToSchedule in Hv.
  apply negb_true_iff in Hv.
  repeat (apply orb_false_iff in Hv as [Hv ?]).
  repeat match goal with H : negb _ = false |- _ => apply negb_false_iff in H end.
  done.
Qed.

Lemma mutateOnce_accepted s o :
  s <> [] ->
  exists s' o', mutateOnce clients therapists selectedDate callouts s o = Some (s', o') /\
                Forall2 accepted s s'.
Proof.
  intros Hne. unfold mutateOnce, bind, random. cbv beta iota.
  destruct (random_index o s Hne) as [entry Hentry]. rewrite Hentry.
  unfold unwrap, ret. cbv beta iota.
  pose proof (Forall2_accepted_refl s) as Hrefl.
  assert (Hins : forall e', accepted entry e' ->
            Forall2 accepted s (<[ Z.to_nat (floorScaled (nextRandom o)
                                     (Z.of_nat (length s))) := e' ]> s)).
  { intros e' He'. rewrite <- (list_insert_id s _ entry Hentry) at 1.
    by apply Forall2_insert. }
  destruct (bool_decide (sessionType entry = IndirectTime)); [eauto|].
  destruct (Qltb _ HALF).
  - cbv zeta. destruct (_ =? 0); [eauto|].
    destruct (valid _) eqn:Ev; [|eauto].
    do 2 eexists. split; [reflexivity|]. apply Hins.
    eapply valid_accepted; [exact Ev| |].
    + exists (floorScaled (nextRandom (afterDraw (afterDraw o))) 3 - 1).
      unfold with_times, timeToMinutes, minutesToTime; cbn [startTime mins]. lia.
    + exists (floorScaled (nextRandom (afterDraw (afterDraw o))) 3 - 1).
      unfold with_times, timeToMinutes, minutesToTime; cbn [endTime mins]. lia.
  - destruct (bool_decide (sessionType entry = ABA)); [|eauto]. cbv zeta.
    destruct (_ && _); [|eauto].
    destruct (valid _) eqn:Ev; [|eauto].
    do 2 eexists. split; [reflexivity|]. apply Hins.
    eapply valid_accepted; [exact Ev| |].
    + exists 0. unfold with_endTime, with_times; cbn [startTime]. lia.
    + destruct (Qltb _ HALF); [exists (-1)|exists 1];
        unfold with_endTime, with_times, timeToMinutes, minutesToTime;
        cbn [endTime mins]; lia.
Qed.

Lemma repeat_mutateOnce_accepted n s o :
  s <> [] ->
  exists s' o',
    repeatM n (mutateOnce clients therapists selectedDate callouts) s o = Some (s', o') /\
    Forall2 accepted s s'.
Proof.
  revert s o. induction n as [|n IH]; intros s o Hne; simpl.
  - exists s, o. split; [done | apply Forall2_accepted_refl].
  - destruct (mutateOnce_accepted s o Hne) as (s1 & o1 & E1 & H1).
    unfold bind. rewrite E1.
    assert (Hne1 : s1 <> []).
    { intros ->. apply Forall2_length in H1. destruct s; [done | discriminate]. }
    destruct (IH s1 o1 Hne1) as (s2 & o2 & E2 & H2).
    exists s2, o2. split; [done | by eapply Forall2_accepted_trans].
Qed.

End Accepting.


(** * Staggered lunches *)

(** ** Staggered lunches: the kernel's test and the penalty *)

Section Stagger.

Variable therapists : list Therapist.

(** The team and the start that a lunch adds to the lunches of the teams. *)
Definition lunchOfTeam (s : ScheduleEntry) : option (option string * Z) :=
  match getTherapistById therapists (therapistId s) with
  | Some t => if truthy (th_teamId t) then Some (th_teamId t, timeToMinutes (startTime s))
              else None
  | None => None
  end.

Definition staggerStep :
    Z * list (option string * Z) -> ScheduleEntry -> Z * list (option string * Z) :=
  fun '(violations, teamLunches) s =>
  match getTherapistById therapists (therapistId s) with
  | Some t =>
      if truthy (th_teamId t) then
        let start := timeToMinutes (startTime s) in
        let overlaps :=
          List.filter (fun '(team, existing) =>
            opt_eqb team (th_teamId t) && (Z.abs (existing - start) <? 30))
            teamLunches in
        ((if Nat.leb 1 (length overlaps) then violations + 1 else violations),
         teamLunches ++ [(th_teamId t, start)])
      else (violations, teamLunches)
  | None => (violations, teamLunches)
  end.

Lemma countStaggerViolations_fold schedule :
  countStaggerViolations schedule therapists =
  fst (fold_left staggerStep
         (List.filter (fun s => bool_decide (sessionType s = IndirectTime)) schedule)
         (0, [])).
Proof. reflexivity. Qed.

Lemma teamLunches_fold l st :
  snd (fold_left staggerStep l st) = snd st ++ omap lunchOfTeam l.
Proof.
  revert st. induction l as [|s l IH]; intros [v tl]; simpl.
  - by rewrite app_nil_r.
  - rewrite IH. unfold lunchOfTeam.
    destruct (getTherapistById therapists (therapistId s)) as [t|]; [|done].
    destruct (truthy (th_teamId t)); [|done].
    simpl. by rewrite <- app_assoc.
Qed.

Lemma leb_1_length {A} (l : list A) :
  Nat.leb 1 (length l) = negb (bool_decide (l = [])).
Proof. by destruct l. Qed.

Lemma filter_nil_iff {A} (p : A -> bool) (l : list A) :
  List.filter p l = [] <-> forall x, x ∈ l -> p x = false.
Proof.
  induction l as [|a l IH]; simpl.
  - split; [intros _ x Hx; by apply elem_of_nil in Hx | done].
  - destruct (p a) eqn:E.
    + split; [done|]. intros H. specialize (H a (list_elem_of_here _ _)). congruence.
    + rewrite IH. split.
      * intros H x Hx. apply elem_of_cons in Hx as [->|Hx]; [done | by apply H].
      * intros H x Hx. apply H. by apply list_elem_of_further.
Qed.

End Stagger.


